(** * reddit_miner.pipeline: the collection and annotation stages

    A shallow embedding of [src/reddit_miner/pipeline.py].  The annotation
    stage [analyze] is effectful: it reads a monotonic clock, sleeps, calls an
    external classifier, writes to a database connection with explicit
    commits, and reacts to exceptions, among them [KeyboardInterrupt].  The
    embedding threads an explicit [State] through a small state-and-exception
    monad; everything the outside world decides (classifier answers, the
    moment the user presses Ctrl+C, the validity oracle, stored secrets) is
    read from an environment [Env].

    Numbers: Python [float] seconds are exact rationals here ([Q]); the one
    place where the float range shows in the control flow, the conversion of
    the integer [2 ** attempt] in [_backoff_seconds], is written out.
    Strings hold the bytes of the UTF-8 encoding of a [str]: [strip]
    removes the Unicode whitespace of [str.isspace()], and case folding is
    written for the ASCII letters, which is all the one test that folds
    case searches for.

    Exceptions: an instance carries its class, and a class the classes it
    is declared to derive from; [isinstance] follows them.

    Time: the clock moves only when the program sleeps, by the requested
    duration, and while the classifier is called, by the duration the
    environment gives.

    Interruption: a [KeyboardInterrupt] is delivered at the start of a
    primitive operation (a sleep, a classifier call, a database or oracle
    call, a secret look-up), in place of the operation.

    Left out: the progress bar ([_progress], [pb.update]), which only
    prints, and the construction of the API client. *)

From Stdlib Require Import Ascii String QArith Qminmax.
From stdpp Require Import gmap strings list.

Close Scope Q_scope.
Open Scope string_scope.

(** ** Python string helpers *)

Module PyStr.

(** [c.lower()] on one ASCII character. *)
Definition lower_ascii (c : ascii) : ascii :=
  let n := nat_of_ascii c in
  if (65 <=? n)%nat && (n <=? 90)%nat then ascii_of_nat (n + 32) else c.

(** [s.lower()], on the ASCII letters: what it is searched for
    ([_is_quota_exhausted]) is ASCII. *)
Fixpoint lower (s : string) : string :=
  match s with
  | EmptyString => EmptyString
  | String c rest => String (lower_ascii c) (lower rest)
  end.

(** [needle in hay]. *)
Fixpoint contains (needle hay : string) : bool :=
  if String.prefix needle hay then true
  else match hay with
       | EmptyString => false
       | String _ rest => contains needle rest
       end.

(** A [str] is written as the bytes of its UTF-8 encoding.  The characters
    for which [c.isspace()] holds, and which [str.strip()] removes, have
    encodings of one, two or three bytes. *)

(** One byte: TAB, LF, VT, FF, CR, the four separators 0x1c to 0x1f, and
    the space. *)
Definition is_space (c : ascii) : bool :=
  let n := nat_of_ascii c in
  ((9 <=? n)%nat && (n <=? 13)%nat) || ((28 <=? n)%nat && (n <=? 32)%nat).

(** Two bytes: U+0085 (c2 85) and U+00A0 (c2 a0). *)
Definition is_space2 (a b : ascii) : bool :=
  (nat_of_ascii a =? 194)%nat
  && ((nat_of_ascii b =? 133)%nat || (nat_of_ascii b =? 160)%nat).

(** Three bytes: U+1680 (e1 9a 80), U+2000 to U+200A (e2 80 80 to e2 80 8a),
    U+2028 and U+2029 (e2 80 a8, e2 80 a9), U+202F (e2 80 af), U+205F
    (e2 81 9f) and U+3000 (e3 80 80). *)
Definition is_space3 (a b c : ascii) : bool :=
  let x := nat_of_ascii a in
  let y := nat_of_ascii b in
  let z := nat_of_ascii c in
  ((x =? 225) && (y =? 154) && (z =? 128))%nat
  || ((x =? 226) && (y =? 128)
      && (((128 <=? z) && (z <=? 138)) || (z =? 168) || (z =? 169)
          || (z =? 175)))%nat
  || ((x =? 226) && (y =? 129) && (z =? 159))%nat
  || ((x =? 227) && (y =? 128) && (z =? 128))%nat.

Definition of_bytes (l : list nat) : string :=
  fold_right (fun n s => String (ascii_of_nat n) s) EmptyString l.

(** The 29 characters for which [c.isspace()] holds, in UTF-8. *)
Definition whitespace : list string :=
  List.map of_bytes
    [[9]; [10]; [11]; [12]; [13]; [28]; [29]; [30]; [31]; [32];
     [194; 133]; [194; 160]; [225; 154; 128];
     [226; 128; 128]; [226; 128; 129]; [226; 128; 130]; [226; 128; 131];
     [226; 128; 132]; [226; 128; 133]; [226; 128; 134]; [226; 128; 135];
     [226; 128; 136]; [226; 128; 137]; [226; 128; 138];
     [226; 128; 168]; [226; 128; 169]; [226; 128; 175]; [226; 129; 159];
     [227; 128; 128]].

(** [s.lstrip()]. *)
Fixpoint lstrip (s : string) : string :=
  match s with
  | EmptyString => EmptyString
  | String a rest =>
      if is_space a then lstrip rest
      else
        match rest with
        | EmptyString => s
        | String b rest2 =>
            if is_space2 a b then lstrip rest2
            else
              match rest2 with
              | EmptyString => s
              | String c rest3 => if is_space3 a b c then lstrip rest3 else s
              end
        end
  end.

(** [s.rstrip()]: what is left of [s] once what follows its first byte is
    stripped is dropped when it is one whitespace character. *)
Fixpoint rstrip (s : string) : string :=
  match s with
  | EmptyString => EmptyString
  | String a rest =>
      match rstrip rest with
      | EmptyString => if is_space a then EmptyString else String a EmptyString
      | String b EmptyString =>
          if is_space2 a b then EmptyString else String a (String b EmptyString)
      | String b (String c EmptyString) =>
          if is_space3 a b c then EmptyString
          else String a (String b (String c EmptyString))
      | r => String a r
      end
  end.

(** [s.strip()]. *)
Definition strip (s : string) : string := rstrip (lstrip s).

(** Truthiness of a string: [bool(s)]. *)
Definition truthy (s : string) : bool :=
  match s with EmptyString => false | _ => true end.

End PyStr.

(** ** Data model *)

(** Sentiment labels of a mention. *)
Inductive Sentiment := bullish | bearish | neutral.

(** The exception classes the pipeline distinguishes.  The first six are the
    [openai] classes named in [_is_fatal_auth] and [_is_retryable];
    [OverflowError] and [RuntimeError] are the builtins.  [OtherException
    name] is a class that derives from none of them, and [Subclass name
    bases] is [class name(bases)]: a class declared with the base classes
    [bases]. *)
#[warnings="-register-all"]
Inductive ExcClass :=
| AuthenticationError
| PermissionDeniedError
| RateLimitError
| APITimeoutError
| APIConnectionError
| InternalServerError
| OverflowError
| RuntimeError
| OtherException (name : string)
| Subclass (name : string) (bases : list ExcClass).

(** [type(e).__name__]. *)
Definition type_name (c : ExcClass) : string :=
  match c with
  | AuthenticationError => "AuthenticationError"
  | PermissionDeniedError => "PermissionDeniedError"
  | RateLimitError => "RateLimitError"
  | APITimeoutError => "APITimeoutError"
  | APIConnectionError => "APIConnectionError"
  | InternalServerError => "InternalServerError"
  | OverflowError => "OverflowError"
  | RuntimeError => "RuntimeError"
  | OtherException name => name
  | Subclass name _ => name
  end.

(** What a [raise] carries.  [KeyboardInterrupt] is a [BaseException] and is
    not caught by [except Exception]; [Exc cls msg] is an instance of
    [Exception] of class [cls] with [str(e) = msg].  [OutOfFuel] is not a
    Python exception: it marks the exhaustion of the recursion budget of the
    model of [while True] and is shown unreachable
    ([attempt_loop_never_out_of_fuel]). *)
Inductive exn :=
| KeyboardInterrupt
| Exc (cls : ExcClass) (msg : string)
| OutOfFuel.

(** [@dataclass AnalyzeOutcome]. *)
Record AnalyzeOutcome := mkOutcome {
  analyzed : nat;
  errors : nat;
  analyzed_model_calls : nat;
  stopped_reason : option string
}.

Definition with_analyzed (n : nat) (o : AnalyzeOutcome) : AnalyzeOutcome :=
  mkOutcome n (errors o) (analyzed_model_calls o) (stopped_reason o).
Definition with_errors (n : nat) (o : AnalyzeOutcome) : AnalyzeOutcome :=
  mkOutcome (analyzed o) n (analyzed_model_calls o) (stopped_reason o).
Definition with_model_calls (n : nat) (o : AnalyzeOutcome) : AnalyzeOutcome :=
  mkOutcome (analyzed o) (errors o) n (stopped_reason o).
Definition with_stopped_reason (r : option string) (o : AnalyzeOutcome)
  : AnalyzeOutcome :=
  mkOutcome (analyzed o) (errors o) (analyzed_model_calls o) r.

(** *** The item store ([reddit_miner.db], not part of the sources at hand) *)

Module Db.

(** A collected comment, with the columns [save_comment] is given. *)
Record Item := mkItem {
  comment_id : string;
  subreddit : string;
  submission_id : string;
  submission_title : string;
  author : option string;
  created_utc : Z;
  score : Z;
  body : option string
}.

(** The Outcome of one item under one analysis tag; no row is [pending]. *)
Inductive OutcomeRow :=
| RowOk (model : string)
| RowError (model : string) (error : string).

Record Mention := mkMention {
  m_tag : string;
  m_comment : string;
  m_ticker : string;
  m_sentiment : Sentiment;
  m_model : string
}.

(** The tables.  Outcome rows are keyed by (item identifier, analysis tag):
    at most one row per key. *)
Record DB := mkDB {
  items : list Item;
  outcomes : gmap (string * string) OutcomeRow;
  mentions : list Mention
}.

Definition empty : DB := mkDB [] ∅ [].

Definition has_item (db : DB) (cid : string) : bool :=
  existsb (fun it => String.eqb (comment_id it) cid) (items db).

(** Modelled from the spec: [db.save_comment] is missing from the sources.
    "Insertion is an upsert keyed on external identifier (re-collection is
    a no-op, not a duplicate)"; an item is never mutated after insertion. *)
Definition save_comment (it : Item) (db : DB) : DB :=
  if has_item db (comment_id it) then db
  else mkDB (items db ++ [it]) (outcomes db) (mentions db).

(** Modelled from the spec: [db.mark_analyzed_ok] is missing from the
    sources.  It records Outcome [ok] for (item, tag); "re-processing an
    item under the same tag overwrites, never duplicates". *)
Definition mark_analyzed_ok (analysis_tag cid model : string) (db : DB) : DB :=
  mkDB (items db) (<[(cid, analysis_tag) := RowOk model]> (outcomes db))
       (mentions db).

(** Modelled from the spec: [db.mark_analyzed_error] is missing from the
    sources.  It records Outcome [error] "with stored error detail". *)
Definition mark_analyzed_error (analysis_tag cid model error : string)
    (db : DB) : DB :=
  mkDB (items db)
       (<[(cid, analysis_tag) := RowError model error]> (outcomes db))
       (mentions db).

(** Modelled from the spec: [db.save_mentions] is missing from the sources.
    One Mention row (tag, item, ticker, sentiment, model) per returned
    tuple. *)
Definition save_mentions (analysis_tag cid model : string)
    (sentiment_rows : list (string * Sentiment)) (db : DB) : DB :=
  mkDB (items db) (outcomes db)
       (mentions db ++
        List.map (fun r => mkMention analysis_tag cid (fst r) (snd r) model)
                 sentiment_rows).

Definition in_channels (subreddits : option (list string)) (it : Item) : bool :=
  match subreddits with
  | None => true
  | Some subs => existsb (String.eqb (subreddit it)) subs
  end.

(** An item is pending under a tag when it has no [ok] Outcome and, unless
    errored items are retried, no [error] Outcome either. *)
Definition pending (db : DB) (analysis_tag : string) (retry_errors : bool)
    (it : Item) : bool :=
  match outcomes db !! (comment_id it, analysis_tag) with
  | None => true
  | Some (RowOk _) => false
  | Some (RowError _ _) => retry_errors
  end.

(** Modelled from the spec: [db.fetch_candidates] is missing from the
    sources.  "Query the Item Store for up to [max_items] items under
    [channel_filter] lacking an [ok] Outcome for [tag] (and, if
    [retry_errored_too] is false, also lacking an [error] Outcome)"; the
    result is a list of (id, body) pairs, here in storage order. *)
Definition fetch_candidates (db : DB) (analysis_tag : string) (limit : nat)
    (retry_errors : bool) (subreddits : option (list string))
  : list (string * option string) :=
  List.map (fun it => (comment_id it, body it))
    (firstn limit
       (List.filter
          (fun it => in_channels subreddits it
                     && pending db analysis_tag retry_errors it)
          (items db))).

Fixpoint dedup_strings (l : list string) : list string :=
  match l with
  | [] => []
  | x :: rest =>
      if existsb (String.eqb x) rest then dedup_strings rest
      else x :: dedup_strings rest
  end.

(** Modelled from the spec: [db.fetch_distinct_mentioned_tickers] is missing
    from the sources.  "The distinct ticker symbols with at least one
    Mention under [tag]" ([_cleanup_invalid_tickers] passes no channel
    filter). *)
Definition fetch_distinct_mentioned_tickers (db : DB) (analysis_tag : string)
  : list string :=
  dedup_strings
    (List.map m_ticker
       (List.filter (fun m => String.eqb (m_tag m) analysis_tag) (mentions db))).

Definition doomed (analysis_tag : string) (tickers : list string)
    (m : Mention) : bool :=
  String.eqb (m_tag m) analysis_tag && existsb (String.eqb (m_ticker m)) tickers.

(** Modelled from the spec: [db.delete_mentions_for_tickers] is missing from
    the sources.  "Deletes all Mention rows for (tag, symbol)" for every
    given symbol; the result is the number of rows deleted and the new
    tables. *)
Definition delete_mentions_for_tickers (analysis_tag : string)
    (tickers : list string) (db : DB) : nat * DB :=
  (length (List.filter (doomed analysis_tag tickers) (mentions db)),
   mkDB (items db) (outcomes db)
        (List.filter (fun m => negb (doomed analysis_tag tickers m))
                     (mentions db))).

(** A connection: the committed tables and the tables as the open
    transaction sees them.  [conn.commit()] publishes the pending ones. *)
Record Conn := mkConn {
  committed : DB;
  pending_db : DB
}.

Definition commit (c : Conn) : Conn := mkConn (pending_db c) (pending_db c).

Definition write (f : DB -> DB) (c : Conn) : Conn :=
  mkConn (committed c) (f (pending_db c)).

End Db.


(** ** The outside world and the machine state *)

(** What one call of [analyzer.analyze_comment] does: it takes
    [resp_seconds] of wall-clock time and then returns the (ticker,
    sentiment) rows or raises an [Exception] of some class with some
    message. *)
Inductive CallResult :=
| Returned (rows : list (string * Sentiment))
| Failed (cls : ExcClass) (msg : string).

Record Response := mkResponse {
  resp_seconds : Q;
  resp_result : CallResult
}.

(** Everything [analyze] reads from outside itself.  The modules [ticker],
    [analyzer] and [credentials] are not part of the sources at hand: their
    flags and functions are parameters.  [classify n model text] is the
    answer to the [n]-th classifier call of the process; [interrupt n] tells
    whether the user's Ctrl+C is delivered when the [n]-th primitive
    operation (a sleep, a classifier call, a database or oracle call) is
    about to start. *)
Record Env := mkEnv {
  ENABLE_YFINANCE_VALIDATION : bool;
  ENABLE_KEYWORD_SHORTCUT : bool;
  has_finance_hint : string -> bool;
  find_invalid_tickers : list string -> list string;
  get_secret : string -> option string;
  classify : nat -> string -> string -> Response;
  interrupt : nat -> bool
}.

(** Observable events, in order of occurrence.  [ESleep t d]: [time.sleep(d)]
    started at clock [t].  [ECall cid t]: a classifier call for item [cid]
    started at clock [t].  [ECommit]: [conn.commit()].  [ECleanup]:
    [_cleanup_invalid_tickers] was entered.  [EInterrupt db o]: a
    [KeyboardInterrupt] was delivered while the connection's pending tables
    were [db] and the outcome object was [o]. *)
Inductive Event :=
| ESleep (start seconds : Q)
| ECall (cid : string) (start : Q)
| ECommit
| ECleanup
| EInterrupt (db : Db.DB) (o : AnalyzeOutcome).

(** The machine state: the monotonic clock, the database connection, the
    locals of [analyze] that outlive an exception ([outcome], and
    [next_call_at] of the closure [_pace]), the number of primitive
    operations and of classifier calls started so far, and the event log. *)
Record State := mkState {
  clock : Q;
  conn : Db.Conn;
  outcome : AnalyzeOutcome;
  next_call_at : Q;
  n_ops : nat;
  n_calls : nat;
  trace : list Event
}.

Definition set_clock (t : Q) (s : State) : State :=
  mkState t (conn s) (outcome s) (next_call_at s) (n_ops s) (n_calls s) (trace s).
Definition set_conn (c : Db.Conn) (s : State) : State :=
  mkState (clock s) c (outcome s) (next_call_at s) (n_ops s) (n_calls s) (trace s).
Definition set_outcome (o : AnalyzeOutcome) (s : State) : State :=
  mkState (clock s) (conn s) o (next_call_at s) (n_ops s) (n_calls s) (trace s).
Definition set_next_call_at (t : Q) (s : State) : State :=
  mkState (clock s) (conn s) (outcome s) t (n_ops s) (n_calls s) (trace s).
Definition set_n_ops (n : nat) (s : State) : State :=
  mkState (clock s) (conn s) (outcome s) (next_call_at s) n (n_calls s) (trace s).
Definition set_n_calls (n : nat) (s : State) : State :=
  mkState (clock s) (conn s) (outcome s) (next_call_at s) (n_ops s) n (trace s).
Definition log (e : Event) (s : State) : State :=
  mkState (clock s) (conn s) (outcome s) (next_call_at s) (n_ops s) (n_calls s)
          (trace s ++ [e]).

(** ** A state-and-exception monad *)

Inductive result (A : Type) :=
| Ok (a : A)
| Raise (e : exn).
Arguments Ok {A} a.
Arguments Raise {A} e.

Definition M (A : Type) : Type := State -> result A * State.

Definition ret {A} (a : A) : M A := fun s => (Ok a, s).

Definition raise {A} (e : exn) : M A := fun s => (Raise e, s).

Definition bind {A B} (m : M A) (k : A -> M B) : M B :=
  fun s =>
    match m s with
    | (Ok a, s') => k a s'
    | (Raise e, s') => (Raise e, s')
    end.

(** [try: m  except ... as e: h e].  The handler runs outside the protected
    region: what it raises propagates. *)
Definition try_except {A} (m : M A) (h : exn -> M A) : M A :=
  fun s =>
    match m s with
    | (Ok a, s') => (Ok a, s')
    | (Raise e, s') => h e s'
    end.

Definition get {A} (f : State -> A) : M A := fun s => (Ok (f s), s).

Definition modify (f : State -> State) : M unit := fun s => (Ok tt, f s).

Definition lift {A} (r : result A) : M A := fun s => (r, s).

Declare Scope monad_scope.
Delimit Scope monad_scope with monad.
Notation "x <- m ;; k" := (bind m (fun x => k))
  (at level 100, m at next level, right associativity) : monad_scope.
Notation "m ;; k" := (bind m (fun _ => k))
  (at level 100, right associativity) : monad_scope.
Open Scope monad_scope.

(** ** Pure helpers of [pipeline.py] *)

Definition Qlt_bool (x y : Q) : bool := negb (Qle_bool y x).

(** [str(err)] and the class of an exception instance. *)
Definition exn_msg (e : exn) : string :=
  match e with Exc _ msg => msg | _ => "" end.

(** [_is_quota_exhausted(err)]. *)
Definition _is_quota_exhausted (e : exn) : bool :=
  let msg := PyStr.lower (exn_msg e) in
  PyStr.contains "insufficient_quota" msg
  || (PyStr.contains "quota" msg
      && (PyStr.contains "exceed" msg || PyStr.contains "exceeded" msg)).

(** [issubclass(c, cls)], for [cls] one of the eight classes with a name
    of their own (the pipeline tests the six of [openai]).  A class is a
    subclass of itself, [APITimeoutError] is a subclass of
    [APIConnectionError], and a declared class is a subclass of what one of
    its base classes is a subclass of. *)
Fixpoint issubclass (c cls : ExcClass) : bool :=
  match c, cls with
  | AuthenticationError, AuthenticationError => true
  | PermissionDeniedError, PermissionDeniedError => true
  | RateLimitError, RateLimitError => true
  | APITimeoutError, APITimeoutError => true
  | APITimeoutError, APIConnectionError => true
  | APIConnectionError, APIConnectionError => true
  | InternalServerError, InternalServerError => true
  | OverflowError, OverflowError => true
  | RuntimeError, RuntimeError => true
  | Subclass _ bases, _ => existsb (fun b => issubclass b cls) bases
  | _, _ => false
  end.

(** [isinstance(e, cls)]. *)
Definition isinstance (e : exn) (cls : ExcClass) : bool :=
  match e with
  | Exc c _ => issubclass c cls
  | _ => false
  end.

(** [_is_retryable(err)]. *)
Definition _is_retryable (e : exn) : bool :=
  isinstance e RateLimitError || isinstance e APITimeoutError
  || isinstance e APIConnectionError || isinstance e InternalServerError.

(** [_is_fatal_auth(err)]. *)
Definition _is_fatal_auth (e : exn) : bool :=
  isinstance e AuthenticationError || isinstance e PermissionDeniedError.

(** [_backoff_seconds(attempt)]: [min(1.0 * (2 ** attempt), 20.0)].  The
    product converts the integer [2 ** attempt] to a float, which raises
    [OverflowError] once the integer reaches [2 ** 1024]. *)
Definition _backoff_seconds (attempt : nat) : result Q :=
  if (1024 <=? attempt)%nat
  then Raise (Exc OverflowError "int too large to convert to float")
  else Ok (Qmin (1 * inject_Z (2 ^ Z.of_nat attempt)) 20)%Q.

(** Control leaving a loop body: [break], [continue], or [return outcome]. *)
Inductive ctl := Break | Continue | Return.

(** ** The annotation stage *)

Section Pipeline.

Variable env : Env.

(** A primitive operation is about to start: count it, and deliver the
    pending [KeyboardInterrupt], if any, instead of starting it. *)
Definition checkpoint : M unit :=
  fun s =>
    let s' := set_n_ops (S (n_ops s)) s in
    if interrupt env (n_ops s)
    then (Raise KeyboardInterrupt,
          log (EInterrupt (Db.pending_db (conn s)) (outcome s)) s')
    else (Ok tt, s').

(** [_now()]: [time.monotonic()]. *)
Definition _now : M Q := get clock.

(** [time.sleep(seconds)]. *)
Definition time_sleep (seconds : Q) : M unit :=
  checkpoint ;;
  modify (fun s => set_clock (clock s + seconds)%Q (log (ESleep (clock s) seconds) s)).

(** [_sleep_with_deadline(seconds, deadline=deadline)]. *)
Definition _sleep_with_deadline (seconds : Q) (deadline : option Q) : M unit :=
  if Qle_bool seconds 0 then ret tt
  else match deadline with
       | None => time_sleep seconds
       | Some d =>
           now <- _now ;;
           let remaining := (d - now)%Q in
           if Qle_bool remaining 0 then ret tt
           else time_sleep (Qmin seconds remaining)
       end.

(** [conn.commit()]. *)
Definition conn_commit : M unit :=
  checkpoint ;;
  modify (fun s => log ECommit (set_conn (Db.commit (conn s)) s)).

(** A write through the connection, pending until the next commit. *)
Definition db_write (f : Db.DB -> Db.DB) : M unit :=
  checkpoint ;;
  modify (fun s => set_conn (Db.write f (conn s)) s).

(** A query through the connection; it sees the pending tables. *)
Definition db_read {A} (f : Db.DB -> A) : M A :=
  checkpoint ;;
  get (fun s => f (Db.pending_db (conn s))).

(** [analyze_comment(client, model=model, text=text)], for item [cid]. *)
Definition analyze_comment (cid model text : string)
  : M (list (string * Sentiment)) :=
  checkpoint ;;
  fun s =>
    let r := classify env (n_calls s) model text in
    let s' := set_clock (clock s + resp_seconds r)%Q
                (set_n_calls (S (n_calls s)) (log (ECall cid (clock s)) s)) in
    match resp_result r with
    | Returned rows => (Ok rows, s')
    | Failed cls msg => (Raise (Exc cls msg), s')
    end.

(** [tickermod.find_invalid_tickers(tickers)]: the validity oracle. *)
Definition oracle_find_invalid (tickers : list string) : M (list string) :=
  checkpoint ;;
  ret (find_invalid_tickers env tickers).

(** [dbmod.delete_mentions_for_tickers(conn, analysis_tag=..., tickers=...)]. *)
Definition db_delete_mentions (analysis_tag : string) (tickers : list string)
  : M nat :=
  checkpoint ;;
  fun s =>
    let r := Db.delete_mentions_for_tickers analysis_tag tickers
               (Db.pending_db (conn s)) in
    (Ok (fst r), set_conn (Db.mkConn (Db.committed (conn s)) (snd r)) s).

(** [_cleanup_invalid_tickers(conn, analysis_tag=analysis_tag)].  ([sorted]
    only fixes the order in which the invalid tickers are handed to the
    deletion, which does not depend on it.) *)
Definition _cleanup_invalid_tickers (analysis_tag : string) : M nat :=
  modify (log ECleanup) ;;
  if negb (ENABLE_YFINANCE_VALIDATION env) then ret 0%nat
  else
    tickers <- db_read (fun db => Db.fetch_distinct_mentioned_tickers db analysis_tag) ;;
    match tickers with
    | [] => ret 0%nat
    | _ =>
        invalid <- oracle_find_invalid tickers ;;
        match invalid with
        | [] => ret 0%nat
        | _ =>
            deleted <- db_delete_mentions analysis_tag invalid ;;
            conn_commit ;;
            ret deleted
        end
    end.

Definition set_reason (r : string) : M unit :=
  modify (fun s => set_outcome (with_stopped_reason (Some r) (outcome s)) s).

Section Run.

(** The arguments and locals of one [analyze] call that its loops read. *)
Variables (analysis_tag model : string) (interval : Q) (deadline : option Q).

(** The closure [_pace()]. *)
Definition _pace : M unit :=
  if Qle_bool interval 0 then ret tt
  else
    now <- _now ;;
    nca <- get next_call_at ;;
    (if Qlt_bool now nca then _sleep_with_deadline (nca - now)%Q deadline
     else ret tt) ;;
    now' <- _now ;;
    modify (set_next_call_at (now' + interval)%Q).

(** [deadline is not None and _now() >= deadline]. *)
Definition deadline_elapsed : M bool :=
  match deadline with
  | None => ret false
  | Some d => now <- _now ;; ret (Qle_bool d now)
  end.

(** The timeout exit (lines 274-278 and 297-301). *)
Definition stop_timeout : M ctl :=
  set_reason "timeout" ;;
  conn_commit ;;
  _cleanup_invalid_tickers analysis_tag ;;
  ret Return.

(** The body of the inner [try] (lines 304-320). *)
Definition attempt_body (cid text : string) : M ctl :=
  _pace ;;
  rows <- analyze_comment cid model text ;;
  modify (fun s => set_outcome
            (with_model_calls (S (analyzed_model_calls (outcome s))) (outcome s)) s) ;;
  db_write (Db.save_mentions analysis_tag cid model rows) ;;
  db_write (Db.mark_analyzed_ok analysis_tag cid model) ;;
  modify (fun s => set_outcome (with_analyzed (S (analyzed (outcome s))) (outcome s)) s) ;;
  n <- get (fun s => analyzed (outcome s)) ;;
  (if (n mod 10 =? 0)%nat then conn_commit else ret tt) ;;
  ret Break.

(** [except KeyboardInterrupt:] of the inner [try] (lines 322-327). *)
Definition on_inner_interrupt : M ctl :=
  conn_commit ;;
  set_reason "ctrl_c" ;;
  _cleanup_invalid_tickers analysis_tag ;;
  ret Return.

(** The retry branch (lines 349-353). *)
Definition retry_after_backoff (attempt : nat) : M ctl :=
  wait_s <- lift (_backoff_seconds attempt) ;;
  _sleep_with_deadline wait_s deadline ;;
  ret Continue.

(** [except Exception as e:] of the inner [try] (lines 329-364). *)
Definition on_exception (attempt : nat) (cid : string) (e : exn) : M ctl :=
  if _is_fatal_auth e then
    conn_commit ;;
    raise e
  else if isinstance e RateLimitError && _is_quota_exhausted e then
    db_write (Db.mark_analyzed_error analysis_tag cid model
                (match e with
                 | Exc cls msg => type_name cls ++ ": " ++ msg
                 | _ => ""
                 end)) ;;
    conn_commit ;;
    set_reason "quota" ;;
    _cleanup_invalid_tickers analysis_tag ;;
    ret Return
  else if _is_retryable e then
    retry_after_backoff attempt
  else
    db_write (Db.mark_analyzed_error analysis_tag cid model
                (match e with
                 | Exc cls msg => type_name cls ++ ": " ++ msg
                 | _ => ""
                 end)) ;;
    modify (fun s => set_outcome (with_errors (S (errors (outcome s))) (outcome s)) s) ;;
    conn_commit ;;
    ret Break.

(** One pass through the inner [try] statement (lines 303-364). *)
Definition attempt_once (attempt : nat) (cid text : string) : M ctl :=
  try_except (attempt_body cid text)
    (fun e =>
       match e with
       | KeyboardInterrupt => on_inner_interrupt
       | Exc _ _ => on_exception attempt cid e
       | OutOfFuel => raise e
       end).

(** [attempt = 0; while True: ...] (lines 294-364).  [attempt] goes up by
    one per retry, so the recursion is on a budget that goes down by one. *)
Fixpoint attempt_loop (budget attempt : nat) (cid text : string) : M ctl :=
  match budget with
  | O => raise OutOfFuel
  | S budget' =>
      expired <- deadline_elapsed ;;
      if expired : bool then stop_timeout
      else
        c <- attempt_once attempt cid text ;;
        match c with
        | Continue => attempt_loop budget' (S attempt) cid text
        | Break => ret Break
        | Return => ret Return
        end
  end.

(** No retry happens at [attempt >= 1024] ([_backoff_seconds] raises), so
    1025 passes are all the [while True] loop can make. *)
Definition max_attempts : nat := 1025.

(** The shortcut path (lines 286-292). *)
Definition shortcut_skip (cid : string) : M ctl :=
  db_write (Db.mark_analyzed_ok analysis_tag cid model) ;;
  modify (fun s => set_outcome (with_analyzed (S (analyzed (outcome s))) (outcome s)) s) ;;
  n <- get (fun s => analyzed (outcome s)) ;;
  (if (n mod 50 =? 0)%nat then conn_commit else ret tt) ;;
  ret Continue.

(** The body of the [for] loop for one candidate (lines 273-366). *)
Definition process_candidate (cid : string) (body : option string) : M ctl :=
  expired <- deadline_elapsed ;;
  if expired : bool then stop_timeout
  else
    let text := PyStr.strip (default "" body) in
    if negb (PyStr.truthy text) then ret Continue
    else if ENABLE_KEYWORD_SHORTCUT env && negb (has_finance_hint env text)
    then shortcut_skip cid
    else attempt_loop max_attempts 0 cid text.

(** [for idx, (comment_id, body) in enumerate(candidates, start=1): ...]. *)
Fixpoint for_candidates (candidates : list (string * option string)) : M ctl :=
  match candidates with
  | [] => ret Break
  | (cid, body) :: rest =>
      c <- process_candidate cid body ;;
      match c with
      | Return => ret Return
      | _ => for_candidates rest
      end
  end.

(** The body of the outer [try] (lines 272-370). *)
Definition analyze_body (candidates : list (string * option string))
  : M AnalyzeOutcome :=
  c <- for_candidates candidates ;;
  match c with
  | Return => get outcome
  | _ =>
      conn_commit ;;
      _cleanup_invalid_tickers analysis_tag ;;
      get outcome
  end.

(** [except KeyboardInterrupt:] of the outer [try] (lines 372-376). *)
Definition on_outer_interrupt : M AnalyzeOutcome :=
  conn_commit ;;
  set_reason "ctrl_c" ;;
  _cleanup_invalid_tickers analysis_tag ;;
  get outcome.

(** The [except] clauses of the outer [try]: only [KeyboardInterrupt] is
    caught. *)
Definition outer_handler (e : exn) : M AnalyzeOutcome :=
  match e with
  | KeyboardInterrupt => on_outer_interrupt
  | _ => raise e
  end.

(** The outer [try] statement (lines 271-376). *)
Definition analyze_try (candidates : list (string * option string))
  : M AnalyzeOutcome :=
  try_except (analyze_body candidates) outer_handler.

(** The rest of the outer [try] statement from the head of the
    [while True] loop for the candidate [cid], its stripped text being
    [text], when [attempt] retries were made and the candidates [rest]
    follow.  [analyze_try] gets there on entering the loop
    ([analyze_try_enters_loop]) and after every retry
    ([analyze_from_retry]). *)
Definition analyze_from (budget attempt : nat) (cid text : string)
    (rest : list (string * option string)) : M AnalyzeOutcome :=
  try_except
    (c <- attempt_loop budget attempt cid text ;;
     match c with
     | Return => get outcome
     | _ => analyze_body rest
     end)
    outer_handler.

End Run.

(** [credentials.get_secret(name)]. *)
Definition read_secret (name : string) : M (option string) :=
  checkpoint ;;
  ret (get_secret env name).

(** [analyze(conn, analysis_tag=..., model=..., limit=..., retry_errors=...,
    max_requests_per_minute=..., subreddits=..., timeout_seconds=...)]. *)
Definition analyze (analysis_tag model : string) (limit : nat)
    (retry_errors : bool) (max_requests_per_minute : Z)
    (subreddits : option (list string)) (timeout_seconds : option Z)
  : M AnalyzeOutcome :=
  modify (set_outcome (mkOutcome 0 0 0 None)) ;;
  now0 <- _now ;;
  let deadline :=
    match timeout_seconds with
    | Some t => if (t =? 0)%Z then None else Some (now0 + inject_Z t)%Q
    | None => None
    end in
  api_key <- read_secret "OPENAI_API_KEY" ;;
  if negb (PyStr.truthy (default "" api_key))
  then raise (Exc RuntimeError "Missing OpenAI API key. Use Setup to enter it.")
  else
    candidates <- db_read (fun db => Db.fetch_candidates db analysis_tag limit
                                       retry_errors subreddits) ;;
    let interval :=
      if (0 <? max_requests_per_minute)%Z
      then (60 / inject_Z max_requests_per_minute)%Q
      else 0%Q in
    now1 <- _now ;;
    modify (set_next_call_at now1) ;;
    analyze_try analysis_tag model interval deadline candidates.

End Pipeline.

(** ** The collection stage: what [scrape] does with one submission *)

Module Scrape.

(** A comment as the content source hands it over.  [rc_id = None] stands
    for a comment object without an [id] attribute: [getattr(c, "id")] raises
    and the comment is skipped by [except Exception: continue]. *)
Record RawComment := mkRaw {
  rc_id : option string;
  rc_author : option string;
  rc_body : option string;
  rc_created_utc : Z;
  rc_score : Z
}.

(** The Python slice [l[:n]]. *)
Definition slice_to {A} (n : Z) (l : list A) : list A :=
  if (0 <=? n)%Z then firstn (Z.to_nat n) l
  else firstn (length l - Z.to_nat (- n)) l.

(** [comments[:max_comments_per_post] if max_comments_per_post else comments]
    (line 172). *)
Definition take {A} (max_comments_per_post : Z) (comments : list A) : list A :=
  if (max_comments_per_post =? 0)%Z then comments
  else slice_to max_comments_per_post comments.

(** The body of [for c in take:] (lines 175-201), on the connection and the
    running count [saved]. *)
Definition save_one (sub submission_id submission_title : string)
    (bots : list string) (st : Db.Conn * nat) (c : RawComment) : Db.Conn * nat :=
  let author_name := rc_author c in
  if match author_name with
     | Some a => existsb (String.eqb a) bots
     | None => false
     end
  then st
  else
    let body := PyStr.strip (default "" (rc_body c)) in
    if negb (PyStr.truthy body) then st
    else match rc_id c with
         | None => st
         | Some cid =>
             let it := Db.mkItem cid sub submission_id submission_title
                         author_name (rc_created_utc c) (rc_score c) (Some body) in
             let conn' := Db.write (Db.save_comment it) (fst st) in
             let saved := S (snd st) in
             (if (saved mod 50 =? 0)%nat then Db.commit conn' else conn', saved)
         end.

(** One submission (lines 166-201): [comments] is the expanded comment list,
    empty when the expansion failed. *)
Definition scrape_submission (sub submission_id submission_title : string)
    (bots : list string) (max_comments_per_post : Z)
    (comments : list RawComment) (st : Db.Conn * nat) : Db.Conn * nat :=
  fold_left (save_one sub submission_id submission_title bots)
            (take max_comments_per_post comments) st.

End Scrape.

(** ** Reading event logs *)

Definition is_cleanup (e : Event) : bool :=
  match e with ECleanup => true | _ => false end.

Definition is_call_for (cid : string) (e : Event) : bool :=
  match e with ECall c _ => String.eqb c cid | _ => false end.

(** The events of a log without their payloads. *)
Definition event_name (e : Event) : string :=
  match e with
  | ESleep _ _ => "sleep"
  | ECall cid _ => "call " ++ cid
  | ECommit => "commit"
  | ECleanup => "cleanup"
  | EInterrupt _ _ => "interrupt"
  end.

(** No Ctrl+C is delivered at or after the [from]-th primitive operation. *)
Definition quiet (env : Env) (from : nat) : Prop :=
  forall n, from <= n -> interrupt env n = false.

(** ** Concrete scenarios *)

Module Scenario.

Definition item (cid sub body : string) : Db.Item :=
  Db.mkItem cid sub "t3_post" "Daily thread" (Some "alice") 1700000000 1 (Some body).

(** A process that has just connected to the tables [db]. *)
Definition fresh (db : Db.DB) : State :=
  mkState 0 (Db.mkConn db db) (mkOutcome 0 0 0 None) 0 0 0 [].

Definition always_bullish (ticker : string) (seconds : Q)
  : nat -> string -> string -> Response :=
  fun _ _ _ => mkResponse seconds (Returned [(ticker, bullish)]).

Definition never : nat -> bool := fun _ => false.

Definition only_at (k : nat) : nat -> bool := fun n => Nat.eqb n k.

Definition two_comments : Db.DB :=
  Db.mkDB [item "c1" "stocks" "buy AAA"; item "c2" "stocks" "sell AAA"] ∅ [].

(** Both flags off, a classifier that answers at once, no Ctrl+C. *)
Definition paced_env : Env :=
  mkEnv false false (fun _ => true) (fun _ => []) (fun _ => Some "sk-test")
        (always_bullish "AAA" 0) never.

(** Pacing at one request per minute, a deadline ten seconds away, two
    candidates. *)
Definition paced_run : result AnalyzeOutcome * State :=
  analyze paced_env "default" "gpt-5-nano" 10 false 1 None (Some 10%Z)
          (fresh two_comments).

(** The classifier is unreachable for as long as the run lasts; no deadline
    (the command line passes none). *)
Definition outage_env : Env :=
  mkEnv false false (fun _ => true) (fun _ => []) (fun _ => Some "sk-test")
        (fun _ _ _ => mkResponse 0 (Failed APIConnectionError "Connection error."))
        never.

Definition outage_run : result AnalyzeOutcome * State :=
  analyze outage_env "default" "gpt-5-nano" 10 false 0 None None
          (fresh two_comments).

Definition one_comment : Db.DB :=
  Db.mkDB [item "c1" "stocks" "buy ZZZ"] ∅ [].

(** Validation is on, the oracle rejects "ZZZ", and the user's Ctrl+C is
    delivered at primitive operation number [k]. *)
Definition validating_env (k : nat) : Env :=
  mkEnv true false (fun _ => true) (fun _ => ["ZZZ"]) (fun _ => Some "sk-test")
        (always_bullish "ZZZ" 0) (only_at k).

(** Ctrl+C while the validity oracle is being queried by the post-pass that
    ends a complete run (operation number 7). *)
Definition interrupted_cleanup_run : result AnalyzeOutcome * State :=
  analyze (validating_env 7) "default" "gpt-5-nano" 10 false 0 None None
          (fresh one_comment).

(** Ctrl+C between the two writes that follow the classifier's answer:
    [save_mentions] is done, [mark_analyzed_ok] is about to start
    (operation number 4). *)
Definition interrupted_write_run : result AnalyzeOutcome * State :=
  analyze (validating_env 4) "default" "gpt-5-nano" 10 false 0 None None
          (fresh one_comment).

(** The same Ctrl+C with validation off. *)
Definition interrupting_env (k : nat) : Env :=
  mkEnv false false (fun _ => true) (fun _ => []) (fun _ => Some "sk-test")
        (always_bullish "ZZZ" 0) (only_at k).

Definition torn_write_run : result AnalyzeOutcome * State :=
  analyze (interrupting_env 4) "default" "gpt-5-nano" 10 false 0 None None
          (fresh one_comment).

(** Ctrl+C while the candidates are being fetched (operation number 1). *)
Definition interrupted_fetch_run : result AnalyzeOutcome * State :=
  analyze (validating_env 1) "default" "gpt-5-nano" 10 false 0 None None
          (fresh one_comment).

(** The shortcut is on; the first comment has no finance hint, the eleven
    that follow have one. *)
Definition mixed_comments : Db.DB :=
  Db.mkDB
    (item "c0" "stocks" "hello"
     :: List.map (fun c => item c "stocks" "buy AAA")
          ["c1"; "c2"; "c3"; "c4"; "c5"; "c6"; "c7"; "c8"; "c9"; "c10"; "c11"])
    ∅ [].

Definition shortcut_env : Env :=
  mkEnv false true (fun text => negb (String.eqb text "hello")) (fun _ => [])
        (fun _ => Some "sk-test") (always_bullish "AAA" 0) never.

Definition shortcut_run : result AnalyzeOutcome * State :=
  analyze shortcut_env "default" "gpt-5-nano" 100 false 0 None None
          (fresh mixed_comments).

(** U+00A0, the no-break space, in UTF-8. *)
Definition no_break_space : string :=
  String (ascii_of_nat 194) (String (ascii_of_nat 160) EmptyString).

(** A body that is blank: a space, a no-break space, a tabulation. *)
Definition blank_body : string :=
  " " ++ no_break_space ++ String (ascii_of_nat 9) EmptyString.

(** A stored comment whose body is blank. *)
Definition blank_comment : Db.DB :=
  Db.mkDB [item "c1" "stocks" blank_body] ∅ [].

Definition blank_run : result AnalyzeOutcome * State :=
  analyze paced_env "default" "gpt-5-nano" 10 false 0 None None
          (fresh blank_comment).

Definition raw (cid : string) : Scrape.RawComment :=
  Scrape.mkRaw (Some cid) (Some "alice") (Some "buy AAA") 1700000000 1.

(** A classifier that always raises the same exception. *)
Definition failing (cls : ExcClass) (msg : string)
  : nat -> string -> string -> Response :=
  fun _ _ _ => mkResponse 0 (Failed cls msg).

Definition failing_env (cls : ExcClass) (msg : string) : Env :=
  mkEnv false false (fun _ => true) (fun _ => []) (fun _ => Some "sk-test")
        (failing cls msg) never.

Definition quota_message : string :=
  "You exceeded your current quota, please check your plan and billing details.".

Definition throttle_message : string :=
  "Rate limit reached for requests per min. Please try again in 20s.".

(** The classifier always raises the same exception, and the user's Ctrl+C
    is delivered at primitive operation number [k]. *)
Definition failing_interrupted_env (cls : ExcClass) (msg : string) (k : nat)
  : Env :=
  mkEnv false false (fun _ => true) (fun _ => []) (fun _ => Some "sk-test")
        (failing cls msg) (only_at k).

(** The API key is rejected, and the Ctrl+C arrives while the commit of
    line 331 runs (operation number 3: the key look-up, the fetch and the
    classifier call come first). *)
Definition interrupted_auth_run : result AnalyzeOutcome * State :=
  analyze (failing_interrupted_env AuthenticationError "Incorrect API key" 3)
          "default" "gpt-5-nano" 10 false 0 None None (fresh one_comment).

(** The quota is exhausted, and the Ctrl+C arrives while
    [mark_analyzed_error] runs (line 336, operation number 3). *)
Definition interrupted_quota_run : result AnalyzeOutcome * State :=
  analyze (failing_interrupted_env RateLimitError quota_message 3)
          "default" "gpt-5-nano" 10 false 0 None None (fresh one_comment).

(** [class QuotaAuthError(RateLimitError, AuthenticationError)]: a rate-limit
    error that is an authentication error as well. *)
Definition QuotaAuthError : ExcClass :=
  Subclass "QuotaAuthError" [RateLimitError; AuthenticationError].

Definition quota_auth_run : result AnalyzeOutcome * State :=
  analyze (failing_env QuotaAuthError quota_message)
          "default" "gpt-5-nano" 10 false 0 None None (fresh one_comment).

(** [class OAuthError(AuthenticationError)]. *)
Definition OAuthError : ExcClass := Subclass "OAuthError" [AuthenticationError].

(** The shortcut is on, and the Ctrl+C arrives while the [mark_analyzed_ok]
    of the shortcut path runs for the first comment (line 287, operation
    number 2). *)
Definition interrupted_skip_env : Env :=
  mkEnv false true (fun text => negb (String.eqb text "hello")) (fun _ => [])
        (fun _ => Some "sk-test") (always_bullish "AAA" 0) (only_at 2).

Definition interrupted_skip_run : result AnalyzeOutcome * State :=
  analyze interrupted_skip_env "default" "gpt-5-nano" 100 false 0 None None
          (fresh mixed_comments).

End Scenario.

(** ** The vocabulary of the properties *)

Definition is_sleep (e : Event) : bool :=
  match e with ESleep _ _ => true | _ => false end.

(** The deadline test of lines 273 and 296 fails in state [s]. *)
Definition before_deadline (deadline : option Q) (s : State) : Prop :=
  match deadline with
  | None => True
  | Some d => Qle_bool d (clock s) = false
  end.

(** What a state keeps across a sleep, a pacing step or a post-pass. *)
Record same_books (s s' : State) : Prop := {
  sb_outcome : outcome s' = outcome s;
  sb_calls : n_calls s' = n_calls s;
  sb_ops : (n_ops s <= n_ops s')%nat
}.

(** What the post-pass leaves behind when it is not interrupted: Outcome rows
    and items are untouched, and if it deleted mentions it committed. *)
Record cleanup_post (s s' : State) : Prop := {
  cp_books : same_books s s';
  cp_clock : clock s' = clock s;
  cp_outcomes : Db.outcomes (Db.pending_db (conn s'))
                = Db.outcomes (Db.pending_db (conn s));
  cp_items : Db.items (Db.pending_db (conn s')) = Db.items (Db.pending_db (conn s));
  cp_committed : conn s' = conn s
                 \/ Db.committed (conn s') = Db.pending_db (conn s');
  cp_trace : exists post, trace s' = (trace s ++ ECleanup :: post)%list
                          /\ (post = [] \/ post = [ECommit])
}.

(** A sleep of [seconds] that starts at clock [start] respects the deadline:
    it starts before it and does not end after it. *)
Definition sleep_ok (deadline : option Q) (start seconds : Q) : Prop :=
  match deadline with
  | None => True
  | Some d => (start < d)%Q /\ (seconds <= d - start)%Q
  end.

(** From [s] to [s'] every sleep respected the deadline. *)
Definition sleeps_within (deadline : option Q) (s s' : State) : Prop :=
  exists evs,
    trace s' = (trace s ++ evs)%list /\
    forall start seconds, In (ESleep start seconds) evs ->
                          sleep_ok deadline start seconds.

(** [keeps R m]: whatever [m] returns or raises, the state it ends in is
    related by [R] to the state it started from. *)
Definition keeps (R : State -> State -> Prop) {A} (m : M A) : Prop :=
  forall s, R s (snd (m s)).

(** The books a skipped item leaves as they were: the number of classifier
    calls, the Outcome rows, and the three counters. *)
Record untouched (s s' : State) : Prop := {
  ut_calls : n_calls s' = n_calls s;
  ut_outcomes : Db.outcomes (Db.pending_db (conn s'))
                = Db.outcomes (Db.pending_db (conn s));
  ut_analyzed : analyzed (outcome s') = analyzed (outcome s);
  ut_errors : errors (outcome s') = errors (outcome s);
  ut_model_calls : analyzed_model_calls (outcome s')
                   = analyzed_model_calls (outcome s)
}.

(** From [s] to [s'] no classifier call was started for [cid] and the
    Outcome row of ([cid], [tag]) was not written. *)
Record leaves_alone (cid analysis_tag : string) (s s' : State) : Prop := {
  la_trace : exists evs,
      trace s' = (trace s ++ evs)%list /\
      forallb (fun e => negb (is_call_for cid e)) evs = true;
  la_row : Db.outcomes (Db.pending_db (conn s')) !! (cid, analysis_tag)
           = Db.outcomes (Db.pending_db (conn s)) !! (cid, analysis_tag)
}.

(** The next definitions speak of a run in which the user's Ctrl+C is
    delivered once, when primitive operation number [k] is about to start. *)

(** The interruption has just been raised and nothing has happened since:
    the log ends with it, and its snapshot is the current state. *)
Definition frozen (evs : list Event) (s' : State) : Prop :=
  exists pre,
    evs = (pre ++ [EInterrupt (Db.pending_db (conn s')) (outcome s')])%list.

(** The interruption was raised and a handler has run to its end: right
    after it the log has a commit and the post-pass, the outcome object is the
    one of the moment of the interruption with [stopped_reason = "ctrl_c"],
    and the committed Outcome rows are the ones then pending. *)
Definition handled (evs : list Event) (s' : State) : Prop :=
  exists pre db o post,
    evs = (pre ++ EInterrupt db o :: ECommit :: ECleanup :: post)%list /\
    outcome s' = with_stopped_reason (Some "ctrl_c") o /\
    Db.outcomes (Db.committed (conn s')) = Db.outcomes db.

(** What a piece of the program does when started before the interruption:
    it ends before it, or the interruption escapes from it, or it was handled
    inside and the piece returns a value that [isret] accepts. *)
Definition pend_post (k : nat) {A} (isret : A -> State -> Prop) (s : State)
    (rs : result A * State) : Prop :=
  exists evs,
    trace (snd rs) = (trace s ++ evs)%list /\
    (((n_ops (snd rs) <= k)%nat /\ fst rs <> Raise KeyboardInterrupt)
     \/ ((k < n_ops (snd rs))%nat /\ fst rs = Raise KeyboardInterrupt
         /\ frozen evs (snd rs))
     \/ ((k < n_ops (snd rs))%nat
         /\ (exists a, fst rs = Ok a /\ isret a (snd rs))
         /\ handled evs (snd rs))).

Definition pend (k : nat) {A} (isret : A -> State -> Prop) (m : M A) : Prop :=
  forall s, (n_ops s <= k)%nat -> pend_post k isret s (m s).

Definition never_ret {A} : A -> State -> Prop := fun _ _ => False.

(** What an [except KeyboardInterrupt] clause does when started right after
    the interruption. *)
Definition rescued (k : nat) {A} (isret : A -> State -> Prop) (h : M A) (s1 : State)
  : Prop :=
  exists b s2 post,
    h s1 = (Ok b, s2) /\ isret b s2 /\ (k < n_ops s2)%nat /\
    trace s2 = (trace s1 ++ ECommit :: ECleanup :: post)%list /\
    outcome s2 = with_stopped_reason (Some "ctrl_c") (outcome s1) /\
    Db.outcomes (Db.committed (conn s2)) = Db.outcomes (Db.pending_db (conn s1)).

Definition is_return (c : ctl) (_ : State) : Prop := c = Return.

Definition is_outcome (o : AnalyzeOutcome) (s : State) : Prop := o = outcome s.

(** The number of times the post-pass was entered in a stretch of the log. *)
Definition cleanups (evs : list Event) : nat :=
  length (List.filter is_cleanup evs).

(** What a piece of the program does under a quiet keyboard: it raises no
    [KeyboardInterrupt], and it enters the post-pass once when it returns a
    value that [fin] accepts and not at all otherwise. *)
Definition calm_post {A} (fin : A -> Prop) (s : State)
    (rs : result A * State) : Prop :=
  (n_ops s <= n_ops (snd rs))%nat /\
  fst rs <> Raise KeyboardInterrupt /\
  exists evs,
    trace (snd rs) = (trace s ++ evs)%list /\
    (((exists a, fst rs = Ok a /\ fin a) /\ cleanups evs = 1%nat)
     \/ ((forall a, fst rs = Ok a -> ~ fin a) /\ cleanups evs = 0%nat)).

Definition calm (env : Env) {A} (fin : A -> Prop) (m : M A) : Prop :=
  forall s, quiet env (n_ops s) -> calm_post fin s (m s).

Definition not_final {A} : A -> Prop := fun _ => False.

(** [sound V m]: [m] never raises [OutOfFuel], and the values it returns
    satisfy [V]. *)
Definition sound {A} (V : A -> Prop) (m : M A) : Prop :=
  forall s,
    match fst (m s) with
    | Ok a => V a
    | Raise e => e <> OutOfFuel
    end.

Definition any {A} : A -> Prop := fun _ => True.

(** Nothing is left uncommitted. *)
Definition synced (s : State) : Prop :=
  Db.committed (conn s) = Db.pending_db (conn s).

(** [triple P m Q E]: started in a state that satisfies [P], [m] returns a
    value [a] in a state that satisfies [Q a], or raises an exception [e] in
    a state that satisfies [E e]. *)
Definition triple (P : State -> Prop) {A} (m : M A)
    (Q : A -> State -> Prop) (E : exn -> State -> Prop) : Prop :=
  forall s, P s ->
    match m s with
    | (Ok a, s') => Q a s'
    | (Raise e, s') => E e s'
    end.

(** An authentication or permission error leaves nothing uncommitted. *)
Definition fatal_synced (e : exn) (s : State) : Prop :=
  _is_fatal_auth e = true -> synced s.

Definition return_synced (c : ctl) (s : State) : Prop :=
  c = Return -> synced s.

(** ** The caller: the analysis stage of [cli._run_flow] *)

(** Where [_run_flow] goes after a stage: on to its next statement, or back
    to the main menu ([return]). *)
Inductive Flow (A : Type) :=
| Proceed (a : A)
| BackToMenu.
Arguments Proceed {A} a.
Arguments BackToMenu {A}.

Section Cli.

Variable env : Env.

(** The [except] clauses of the analysis stage ([cli.py], lines 310-324), in
    the order they are written.  [outcome] is the local of that name: [None]
    until [analyze] has returned.  The console dialogue ([print],
    [_ask_yes_no], [_setup_menu], [_pause]) is left out. *)
Definition analysis_handlers (outcome : option AnalyzeOutcome) (e : exn)
  : M (Flow (option AnalyzeOutcome)) :=
  match e with
  | KeyboardInterrupt => conn_commit env ;; ret (Proceed outcome)
  | Exc _ _ =>
      if isinstance e AuthenticationError || isinstance e PermissionDeniedError
      then ret BackToMenu
      else conn_commit env ;; ret BackToMenu
  | OutOfFuel => raise e
  end.

(** The analysis stage of [_run_flow] ([cli.py], lines 299-324): the [try]
    statement around [outcome = analyze(...)] and [conn.commit()].  The
    assignment splits the protected region: an exception raised by the commit
    finds [outcome] set. *)
Definition run_flow_analyze (analysis_tag model : string)
    (analysis_limit : nat) (max_requests_per_minute : Z)
    (subreddits : list string) : M (Flow (option AnalyzeOutcome)) :=
  fun s =>
    match analyze env analysis_tag model analysis_limit false
            max_requests_per_minute (Some subreddits) None s with
    | (Ok o, s1) =>
        try_except (conn_commit env ;; ret (Proceed (Some o)))
                   (analysis_handlers (Some o)) s1
    | (Raise e, s1) => analysis_handlers None e s1
    end.

End Cli.

(** ** The caller: clearing the analysis of a tag ([cli._clear_analysis]) *)

(** [DELETE FROM mentions WHERE analysis_tag = ?] on the tables: the number
    of rows deleted and the tables left. *)
Definition delete_mentions_where_tag (analysis_tag : string) (db : Db.DB)
  : nat * Db.DB :=
  (length (List.filter (fun m => String.eqb (Db.m_tag m) analysis_tag)
             (Db.mentions db)),
   Db.mkDB (Db.items db) (Db.outcomes db)
     (List.filter (fun m => negb (String.eqb (Db.m_tag m) analysis_tag))
        (Db.mentions db))).

(** [DELETE FROM comment_analysis WHERE analysis_tag = ?]. *)
Definition delete_analysis_where_tag (analysis_tag : string) (db : Db.DB)
  : nat * Db.DB :=
  (size (filter (fun kv => snd (fst kv) = analysis_tag) (Db.outcomes db)),
   Db.mkDB (Db.items db)
     (filter (fun kv => snd (fst kv) <> analysis_tag) (Db.outcomes db))
     (Db.mentions db)).

Section CliClear.

Variable env : Env.

(** [conn.execute(statement, ...)] for a [DELETE] statement, and the
    [rowcount] of its cursor. *)
Definition db_execute (statement : Db.DB -> nat * Db.DB) : M nat :=
  checkpoint env ;;
  fun s =>
    let r := statement (Db.pending_db (conn s)) in
    (Ok (fst r), set_conn (Db.mkConn (Db.committed (conn s)) (snd r)) s).

(** [_clear_analysis(conn, analysis_tag=analysis_tag)] ([cli.py], lines
    161-165). *)
Definition _clear_analysis (analysis_tag : string) : M (nat * nat) :=
  rowcount1 <- db_execute (delete_mentions_where_tag analysis_tag) ;;
  rowcount2 <- db_execute (delete_analysis_where_tag analysis_tag) ;;
  conn_commit env ;;
  ret (rowcount1, rowcount2).

End CliClear.

(** Tables with the analysis of two tags. *)
Definition two_tags : Db.DB :=
  Db.mkDB
    [Scenario.item "c1" "stocks" "buy AAA"; Scenario.item "c2" "stocks" "sell AAA"]
    (<[("c1", "default") := Db.RowOk "gpt-5-nano"]>
       (<[("c2", "default") := Db.RowError "gpt-5-nano" "BadRequestError: x"]>
          (<[("c1", "weekly") := Db.RowOk "gpt-5-nano"]> ∅)))
    [Db.mkMention "default" "c1" "AAA" bullish "gpt-5-nano";
     Db.mkMention "weekly" "c1" "AAA" bullish "gpt-5-nano"].

(** No Ctrl+C was delivered at the primitive operations [n0 .. n-1]. *)
Definition calm_to (env : Env) (n0 n : nat) : Prop :=
  (n0 <= n)%nat /\ forall k, (n0 <= k < n)%nat -> interrupt env k = false.

(** A Ctrl+C was delivered at one of the primitive operations [n0 .. n-1]. *)
Definition struck_by (env : Env) (n0 n : nat) : Prop :=
  exists k, (n0 <= k < n)%nat /\ interrupt env k = true.

(** A state by what the properties of the stop reason look at: the number of
    operations started, the stop reason, the clock. *)
Definition phase (K : nat -> Prop) (R : option string -> Prop) (T : Q -> Prop)
    (s : State) : Prop :=
  K (n_ops s) /\ R (stopped_reason (outcome s)) /\ T (clock s).

Definition whenever : Q -> Prop := fun _ => True.

(** The deadline is set and the clock has reached it. *)
Definition reached (deadline : option Q) (t : Q) : Prop :=
  exists d, deadline = Some d /\ Qle_bool d t = true.

(** The loops are running: no Ctrl+C so far, no stop reason. *)
Definition running (env : Env) (n0 : nat) : State -> Prop :=
  phase (calm_to env n0) (eq None) whenever.

(** How a run that returns stands.  Without a Ctrl+C: complete, out of
    quota, or timed out with the deadline reached.  With one: stopped by
    it. *)
Definition verdict (env : Env) (deadline : option Q) (n0 : nat) (s : State)
  : Prop :=
  phase (calm_to env n0) (eq None) whenever s
  \/ phase (calm_to env n0) (eq (Some "quota")) whenever s
  \/ phase (calm_to env n0) (eq (Some "timeout")) (reached deadline) s
  \/ phase (struck_by env n0) (eq (Some "ctrl_c")) whenever s.

(** A [KeyboardInterrupt] comes from a Ctrl+C. *)
Definition from_keyboard (env : Env) (n0 : nat) (e : exn) (s : State) : Prop :=
  e = KeyboardInterrupt /\ struck_by env n0 (n_ops s).

(** What leaves a piece of the running loops by exception: a
    [KeyboardInterrupt] that comes from a Ctrl+C, or the error of a
    classifier call, the loops still running. *)
Definition interrupt_or_error (env : Env) (n0 : nat) (e : exn) (s : State)
  : Prop :=
  match e with
  | KeyboardInterrupt => struck_by env n0 (n_ops s)
  | Exc _ _ => running env n0 s
  | OutOfFuel => True
  end.

(** What leaves the outer [try] statement by exception. *)
Definition interrupt_is_real (env : Env) (n0 : nat) (e : exn) (s : State)
  : Prop :=
  e = KeyboardInterrupt -> struck_by env n0 (n_ops s).

(** What a piece of the loops hands on: [Return] with the verdict, or the
    loops still running. *)
Definition run_or_verdict (env : Env) (deadline : option Q) (n0 : nat)
    (c : ctl) (s : State) : Prop :=
  match c with
  | Return => verdict env deadline n0 s
  | _ => running env n0 s
  end.

(** The two things [K] can be in [phase K R T]: [calm_to env n0] and
    [struck_by env n0]. *)
Definition tracks (env : Env) (n0 : nat) (K : nat -> Prop) : Prop :=
  (forall n, K n -> interrupt env n = false -> K (S n)) /\
  (forall n, K n -> interrupt env n = true -> struck_by env n0 (S n)).

Definition anyhow : option string -> Prop := fun _ => True.

(** The counters of the outcome object against the number [k] of candidates
    the [for] loop has gone through and the number [c0] of classifier calls
    started before the run.  [slack] is 1 from the moment
    [analyzed_model_calls] goes up to the moment [analyzed] follows. *)
Record tally (c0 k slack : nat) (s : State) : Prop := {
  tl_sum : (analyzed (outcome s) + errors (outcome s) <= k)%nat;
  tl_model : (analyzed_model_calls (outcome s) <= analyzed (outcome s) + slack)%nat;
  tl_calls : (analyzed_model_calls (outcome s) + c0 <= n_calls s)%nat
}.

(** A property of a state that only looks at the outcome object's counters
    and at the number of classifier calls. *)
Definition reads_counters (X : State -> Prop) : Prop :=
  forall s s',
    analyzed (outcome s') = analyzed (outcome s) ->
    errors (outcome s') = errors (outcome s) ->
    analyzed_model_calls (outcome s') = analyzed_model_calls (outcome s) ->
    n_calls s' = n_calls s ->
    X s -> X s'.

(** A [KeyboardInterrupt], raised in a state that satisfies [X]. *)
Definition interrupted_in (X : State -> Prop) (e : exn) (s : State) : Prop :=
  e = KeyboardInterrupt /\ X s.

(** What a candidate's turn hands on, [k] candidates having gone before. *)
Definition tally_after (c0 k : nat) (c : ctl) (s : State) : Prop :=
  match c with
  | Return => tally c0 (S k) 1 s
  | _ => tally c0 (S k) 0 s
  end.

(** What one pass of the [while True] loop hands on. *)
Definition tally_pass (c0 k : nat) (c : ctl) (s : State) : Prop :=
  match c with
  | Continue => tally c0 k 0 s
  | Break => tally c0 (S k) 0 s
  | Return => tally c0 (S k) 1 s
  end.

(** What leaves the protected region by exception. *)
Definition tally_raised (c0 k : nat) (e : exn) (s : State) : Prop :=
  match e with
  | Exc _ _ => tally c0 k 0 s
  | _ => tally c0 (S k) 1 s
  end.

(** The classifier's answer settles the item: it returns, or it fails with
    an error that is neither an authentication or permission error nor a
    retryable one. *)
Definition settles (r : Response) : Prop :=
  match resp_result r with
  | Returned _ => True
  | Failed cls msg =>
      _is_fatal_auth (Exc cls msg) = false /\ _is_retryable (Exc cls msg) = false
  end.

(** The candidate has text once its body is stripped (line 280). *)
Definition nonblank (c : string * option string) : bool :=
  PyStr.truthy (PyStr.strip (default "" (snd c))).

(** The candidate has text and the shortcut does not skip it (line 286). *)
Definition needs_call (env : Env) (c : string * option string) : bool :=
  nonblank c
  && negb (ENABLE_KEYWORD_SHORTCUT env
           && negb (has_finance_hint env (PyStr.strip (default "" (snd c))))).

(** What the turn of one candidate that is settled leaves behind. *)
Record settled_step (env : Env) (analysis_tag : string)
    (c : string * option string) (s s' : State) : Prop := {
  st_ops : (n_ops s <= n_ops s')%nat;
  st_reason : stopped_reason (outcome s') = stopped_reason (outcome s);
  st_row : nonblank c = true ->
           is_Some (Db.outcomes (Db.pending_db (conn s')) !! (fst c, analysis_tag));
  st_rows : forall key,
      is_Some (Db.outcomes (Db.pending_db (conn s)) !! key) ->
      is_Some (Db.outcomes (Db.pending_db (conn s')) !! key);
  st_count : (analyzed (outcome s') + errors (outcome s')
              = analyzed (outcome s) + errors (outcome s)
                + (if nonblank c then 1 else 0))%nat;
  st_calls : (n_calls s'
              = n_calls s + (if needs_call env c then 1 else 0))%nat
}.

(** What a stretch of settled candidates leaves behind. *)
Record settled_run (env : Env) (analysis_tag : string)
    (candidates : list (string * option string)) (s s' : State) : Prop := {
  sr_ops : (n_ops s <= n_ops s')%nat;
  sr_reason : stopped_reason (outcome s') = stopped_reason (outcome s);
  sr_row : forall c, In c candidates -> nonblank c = true ->
           is_Some (Db.outcomes (Db.pending_db (conn s')) !! (fst c, analysis_tag));
  sr_rows : forall key,
      is_Some (Db.outcomes (Db.pending_db (conn s)) !! key) ->
      is_Some (Db.outcomes (Db.pending_db (conn s')) !! key);
  sr_count : (analyzed (outcome s') + errors (outcome s')
              = analyzed (outcome s) + errors (outcome s)
                + length (List.filter nonblank candidates))%nat;
  sr_calls : (n_calls s'
              = n_calls s + length (List.filter (needs_call env) candidates))%nat
}.

(** No deadline: [timeout_seconds] is absent or 0 (line 241). *)
Definition no_timeout (timeout_seconds : option Z) : Prop :=
  timeout_seconds = None \/ timeout_seconds = Some 0%Z.

(** From [s] to [s'] the run wrote under the tag [analysis_tag] only and for
    the items [allowed] only: it started classifier calls for these items
    alone, the Outcome rows of other items and of other tags are as they
    were, the mentions of other tags are as they were, and so is the item
    table. *)
Record confined (analysis_tag : string) (allowed : string -> Prop)
    (s s' : State) : Prop := {
  cf_calls : exists evs,
      trace s' = (trace s ++ evs)%list /\
      forall cid t, In (ECall cid t) evs -> allowed cid;
  cf_rows : forall cid tag,
      ~ (tag = analysis_tag /\ allowed cid) ->
      Db.outcomes (Db.pending_db (conn s')) !! (cid, tag)
      = Db.outcomes (Db.pending_db (conn s)) !! (cid, tag);
  cf_mentions :
      List.filter (fun m => negb (String.eqb (Db.m_tag m) analysis_tag))
        (Db.mentions (Db.pending_db (conn s')))
      = List.filter (fun m => negb (String.eqb (Db.m_tag m) analysis_tag))
          (Db.mentions (Db.pending_db (conn s)));
  cf_items : Db.items (Db.pending_db (conn s')) = Db.items (Db.pending_db (conn s))
}.

(** ** The collection stage as a whole: [scrape]

    [scrape] talks to the content source through [praw]: the listing of a
    subreddit is a generator, and both its iteration and the expansion of a
    submission's comment tree make requests that can fail.  What the source
    answers is read from a [Reddit] oracle.  The locals of [scrape] that
    outlive an exception (the count [saved]) are part of the state. *)

Module Collect.

(** The four listings of a subreddit. *)
Inductive Listing := New | Rising | Top | Hot.

(** The chain of tests on [listing] (lines 156-163). *)
Definition listing_of (listing : string) : Listing :=
  if String.eqb listing "new" then New
  else if String.eqb listing "rising" then Rising
  else if String.eqb listing "top" then Top
  else Hot.

(** What [submission.comments.replace_more(limit=more_limit)] followed by
    [submission.comments.list()] gives: the comments, or an [Exception]. *)
Inductive Expansion :=
| Expanded (comments : list Scrape.RawComment)
| ExpansionFailed (cls : ExcClass) (msg : string).

(** A submission: [str(getattr(submission, "id", ""))],
    [str(getattr(submission, "title", "") or "")], and its comment tree as
    a function of [more_limit]. *)
Record Submission := mkSubmission {
  sub_id : string;
  sub_title : string;
  sub_expand : option Z -> Expansion
}.

(** A listing generator: the submissions it yields, and what ends it, the
    exhaustion of the listing ([None]) or an [Exception] raised by a
    request. *)
Record Feed := mkFeed {
  feed_items : list Submission;
  feed_error : option (ExcClass * string)
}.

(** [reddit.subreddit(sub)] and one of its listings with [limit=post_limit]. *)
Definition Reddit : Type := string -> Listing -> Z -> Feed.

(** The three [prawcore.exceptions] classes of the last [except] clause of
    [scrape].  A class that derives from one of them ([NotFound] is a
    [ResponseException], say) is a [Subclass] with it among its bases. *)
Definition OAuthException : ExcClass := OtherException "OAuthException".
Definition ResponseException : ExcClass := OtherException "ResponseException".
Definition Forbidden : ExcClass := OtherException "Forbidden".

(** [issubclass(c, (OAuthException, ResponseException, Forbidden))]. *)
Fixpoint is_source_auth_class (c : ExcClass) : bool :=
  match c with
  | OtherException name =>
      String.eqb name "OAuthException" || String.eqb name "ResponseException"
      || String.eqb name "Forbidden"
  | Subclass _ bases => existsb is_source_auth_class bases
  | _ => false
  end.

(** [isinstance(e, (OAuthException, ResponseException, Forbidden))]. *)
Definition is_source_auth (e : exn) : bool :=
  match e with
  | Exc c _ => is_source_auth_class c
  | _ => false
  end.

(** Observable events.  [VSave it]: [dbmod.save_comment] was called with the
    columns [it].  [VCommit]: [conn.commit()].  [VInterrupt db n]: a
    [KeyboardInterrupt] was delivered while the pending tables were [db] and
    [saved] was [n]. *)
Inductive Ev :=
| VSave (it : Db.Item)
| VCommit
| VInterrupt (db : Db.DB) (n : nat).

Record St := mkSt {
  st_conn : Db.Conn;
  saved : nat;
  st_ops : nat;
  st_log : list Ev
}.

Definition set_conn (c : Db.Conn) (s : St) : St :=
  mkSt c (saved s) (st_ops s) (st_log s).
Definition set_saved (n : nat) (s : St) : St :=
  mkSt (st_conn s) n (st_ops s) (st_log s).
Definition set_ops (n : nat) (s : St) : St :=
  mkSt (st_conn s) (saved s) n (st_log s).
Definition log (e : Ev) (s : St) : St :=
  mkSt (st_conn s) (saved s) (st_ops s) (st_log s ++ [e]).

(** The state-and-exception monad of the annotation stage, on [St]. *)
Definition C (A : Type) : Type := St -> result A * St.

Definition ret {A} (a : A) : C A := fun s => (Ok a, s).

Definition raise {A} (e : exn) : C A := fun s => (Raise e, s).

Definition bind {A B} (m : C A) (k : A -> C B) : C B :=
  fun s =>
    match m s with
    | (Ok a, s') => k a s'
    | (Raise e, s') => (Raise e, s')
    end.

Definition try_except {A} (m : C A) (h : exn -> C A) : C A :=
  fun s =>
    match m s with
    | (Ok a, s') => (Ok a, s')
    | (Raise e, s') => h e s'
    end.

Definition get {A} (f : St -> A) : C A := fun s => (Ok (f s), s).

Definition modify (f : St -> St) : C unit := fun s => (Ok tt, f s).

Declare Scope collect_scope.
Delimit Scope collect_scope with collect.
Notation "x <- m ;; k" := (bind m (fun x => k))
  (at level 100, m at next level, right associativity) : collect_scope.
Notation "m ;; k" := (bind m (fun _ => k))
  (at level 100, right associativity) : collect_scope.
#[local] Open Scope collect_scope.

(** [except Exception: h] around [m]: a [KeyboardInterrupt] passes. *)
Definition except_Exception {A} (m : C A) (h : C A) : C A :=
  try_except m (fun e => match e with Exc _ _ => h | _ => raise e end).

(** The arguments of [praw.Reddit(...)]. *)
Record Client := mkClient {
  client_id : string;
  client_secret : string;
  user_agent : string
}.

Section Run.

Variable env : Env.
Variable reddit : Reddit.

(** A primitive operation is about to start (a request to the source, a
    database call, a secret look-up). *)
Definition checkpoint : C unit :=
  fun s =>
    let s' := set_ops (S (st_ops s)) s in
    if interrupt env (st_ops s)
    then (Raise KeyboardInterrupt,
          log (VInterrupt (Db.pending_db (st_conn s)) (saved s)) s')
    else (Ok tt, s').

(** [credentials.get_secret(name)]. *)
Definition read_secret (name : string) : C (option string) :=
  checkpoint ;; ret (get_secret env name).

(** [conn.commit()]. *)
Definition conn_commit : C unit :=
  checkpoint ;;
  modify (fun s => log VCommit (set_conn (Db.commit (st_conn s)) s)).

(** [dbmod.save_comment(conn, comment_id=..., ..., body=body)]. *)
Definition save_comment (it : Db.Item) : C unit :=
  checkpoint ;;
  modify (fun s => log (VSave it)
                     (set_conn (Db.write (Db.save_comment it) (st_conn s)) s)).

(** [_build_reddit()]. *)
Definition _build_reddit : C Client :=
  cid <- read_secret "REDDIT_CLIENT_ID" ;;
  csec <- read_secret "REDDIT_CLIENT_SECRET" ;;
  ua <- read_secret "REDDIT_USER_AGENT" ;;
  let ua := if PyStr.truthy (default "" ua) then default "" ua
            else "reddit-miner" in
  if negb (PyStr.truthy (default "" cid)) || negb (PyStr.truthy (default "" csec))
  then raise (Exc RuntimeError
                "Missing Reddit credentials (client_id/client_secret). Use Setup to enter them.")
  else ret (mkClient (default "" cid) (default "" csec) ua).

Section Scrape.

(** The arguments of one [scrape] call that its loops read. *)
Variables (more_limit : option Z) (max_comments_per_post : Z)
          (bots : list string).

(** The body of [for c in take:] (lines 175-201). *)
Definition save_one (sub : string) (submission : Submission)
    (c : Scrape.RawComment) : C unit :=
  except_Exception
    (let author_name := Scrape.rc_author c in
     if match author_name with
        | Some a => existsb (String.eqb a) bots
        | None => false
        end
     then ret tt
     else
       let body := PyStr.strip (default "" (Scrape.rc_body c)) in
       if negb (PyStr.truthy body) then ret tt
       else
         match Scrape.rc_id c with
         | None => raise (Exc (OtherException "AttributeError") "id")
         | Some cid =>
             save_comment
               (Db.mkItem cid sub (sub_id submission) (sub_title submission)
                  author_name (Scrape.rc_created_utc c) (Scrape.rc_score c)
                  (Some body)) ;;
             modify (fun s => set_saved (S (saved s)) s) ;;
             n <- get saved ;;
             if (n mod 50 =? 0)%nat then conn_commit else ret tt
         end)
    (ret tt).

(** [for c in take: ...]. *)
Fixpoint for_comments (sub : string) (submission : Submission)
    (cs : list Scrape.RawComment) : C unit :=
  match cs with
  | [] => ret tt
  | c :: rest => save_one sub submission c ;; for_comments sub submission rest
  end.

(** The expansion of the comment tree (lines 166-170). *)
Definition expand (submission : Submission) : C (list Scrape.RawComment) :=
  except_Exception
    (checkpoint ;;
     match sub_expand submission more_limit with
     | Expanded comments => ret comments
     | ExpansionFailed cls msg => raise (Exc cls msg)
     end)
    (ret []).

(** The body of [for submission in feed:] (lines 166-204). *)
Definition process_submission (sub : string) (submission : Submission)
  : C unit :=
  comments <- expand submission ;;
  for_comments sub submission (Scrape.take max_comments_per_post comments).

(** [for submission in feed: ...]: each turn of the loop asks the generator
    for its next item. *)
Fixpoint for_feed (sub : string) (items : list Submission)
    (error : option (ExcClass * string)) : C unit :=
  checkpoint ;;
  match items with
  | [] =>
      match error with
      | None => ret tt
      | Some (cls, msg) => raise (Exc cls msg)
      end
  | submission :: rest =>
      process_submission sub submission ;;
      for_feed sub rest error
  end.

(** [for sub in subreddits: ...] (lines 153-204). *)
Fixpoint for_subreddits (listing : string) (post_limit : Z)
    (subreddits : list string) : C unit :=
  match subreddits with
  | [] => ret tt
  | sub :: rest =>
      let feed := reddit sub (listing_of listing) post_limit in
      for_feed sub (feed_items feed) (feed_error feed) ;;
      for_subreddits listing post_limit rest
  end.

(** The [except] clauses of [scrape] (lines 209-214). *)
Definition scrape_handler (e : exn) : C nat :=
  match e with
  | KeyboardInterrupt => conn_commit ;; get saved
  | Exc _ _ => if is_source_auth e then conn_commit ;; raise e else raise e
  | OutOfFuel => raise e
  end.

End Scrape.

(** [scrape(conn, subreddits=..., listing=..., post_limit=..., more_limit=...,
    max_comments_per_post=..., bot_usernames=...)]. *)
Definition scrape (subreddits : list string) (listing : string)
    (post_limit : Z) (more_limit : option Z) (max_comments_per_post : Z)
    (bot_usernames : list string) : C nat :=
  _build_reddit ;;
  modify (set_saved 0) ;;
  try_except
    (for_subreddits more_limit max_comments_per_post bot_usernames listing
       post_limit subreddits ;;
     conn_commit ;;
     get saved)
    scrape_handler.

End Run.

(** The submissions a [scrape] call is handed, subreddit by subreddit. *)
Definition submissions (reddit : Reddit) (subreddits : list string)
    (listing : string) (post_limit : Z) : list (string * Submission) :=
  flat_map
    (fun sub => List.map (pair sub)
                  (feed_items (reddit sub (listing_of listing) post_limit)))
    subreddits.

(** The comments of a submission that the per-submission cap lets through. *)
Definition taken (more_limit : option Z) (max_comments_per_post : Z)
    (submission : Submission) : list Scrape.RawComment :=
  Scrape.take max_comments_per_post
    (match sub_expand submission more_limit with
     | Expanded comments => comments
     | ExpansionFailed _ _ => []
     end).

End Collect.

(** [ctriple P m Q E]: [triple] for the collection stage. *)
Definition ctriple (P : Collect.St -> Prop) {A} (m : Collect.C A)
    (Q : A -> Collect.St -> Prop) (E : exn -> Collect.St -> Prop) : Prop :=
  forall s, P s ->
    match m s with
    | (Ok a, s') => Q a s'
    | (Raise e, s') => E e s'
    end.

(** Nothing is left uncommitted. *)
Definition csynced (s : Collect.St) : Prop :=
  Db.committed (Collect.st_conn s) = Db.pending_db (Collect.st_conn s).

(** No Ctrl+C is delivered at or after the [from]-th primitive operation of
    the collection stage. *)
Definition cquiet (env : Env) (s : Collect.St) : Prop :=
  quiet env (Collect.st_ops s).

Definition is_save (e : Collect.Ev) : bool :=
  match e with Collect.VSave _ => true | _ => false end.

(** The number of [save_comment] calls in a log. *)
Definition saves (l : list Collect.Ev) : nat := length (List.filter is_save l).

(** The number of comments a [scrape] call can save at most: what the
    per-submission cap lets through, summed over the submissions it is
    handed. *)
Definition capacity (reddit : Collect.Reddit) (subreddits : list string)
    (listing : string) (post_limit : Z) (more_limit : option Z)
    (max_comments_per_post : Z) : nat :=
  list_sum
    (List.map
       (fun p => length (Collect.taken more_limit max_comments_per_post (snd p)))
       (Collect.submissions reddit subreddits listing post_limit)).

(** An item as [scrape] may store it: it has no author or an author who is
    not one of the bots, its body is a text as [str.strip()] leaves it and
    is not empty, and it comes from one of the subreddits of the call. *)
Definition storable (subreddits bots : list string) (it : Db.Item) : Prop :=
  match Db.author it with
  | Some a => existsb (String.eqb a) bots = false
  | None => True
  end /\
  (exists raw, Db.body it = Some (PyStr.strip raw)
               /\ PyStr.truthy (PyStr.strip raw) = true) /\
  In (Db.subreddit it) subreddits.

(** The log grew from [l0] by events whose saves are all [storable]. *)
Definition saves_storable (subreddits bots : list string)
    (l0 : list Collect.Ev) (s : Collect.St) : Prop :=
  exists evs,
    Collect.st_log s = (l0 ++ evs)%list /\
    forall it, In (Collect.VSave it) evs -> storable subreddits bots it.

(** Reading a log from its first event on: the number of saves since the
    last commit, and the largest that number has been. *)
Definition backlog_step (acc : nat * nat) (e : Collect.Ev) : nat * nat :=
  match e with
  | Collect.VSave _ => (S (fst acc), Nat.max (snd acc) (S (fst acc)))
  | Collect.VCommit => (0%nat, snd acc)
  | Collect.VInterrupt _ _ => acc
  end.

Definition backlog (evs : list Collect.Ev) : nat * nat :=
  fold_left backlog_step evs (0%nat, 0%nat).

(** The saves of a log that no commit follows. *)
Definition uncommitted (evs : list Collect.Ev) : nat := fst (backlog evs).

(** The largest number of saves that were ever waiting for a commit. *)
Definition max_uncommitted (evs : list Collect.Ev) : nat := snd (backlog evs).

(** An item as the body of [for c in take:] builds it for the subreddit
    [sub] (lines 176-195). *)
Definition built (sub : string) (bots : list string) (it : Db.Item) : Prop :=
  Db.subreddit it = sub /\
  match Db.author it with
  | Some a => existsb (String.eqb a) bots = false
  | None => True
  end /\
  exists raw, Db.body it = Some (PyStr.strip raw)
              /\ PyStr.truthy (PyStr.strip raw) = true.

(** The state right after [save_comment] and [saved += 1]. *)
Definition after_save (it : Db.Item) (s : Collect.St) : Collect.St :=
  Collect.set_saved (S (Collect.saved s))
    (Collect.log (Collect.VSave it)
       (Collect.set_conn
          (Db.write (Db.save_comment it) (Collect.st_conn s)) s)).

(** The state right after [conn.commit()]. *)
Definition after_commit (s : Collect.St) : Collect.St :=
  Collect.log Collect.VCommit
    (Collect.set_conn (Db.commit (Collect.st_conn s)) s).

(** The state in which a [KeyboardInterrupt] is raised in place of a
    primitive operation. *)
Definition after_interrupt (s : Collect.St) : Collect.St :=
  Collect.log
    (Collect.VInterrupt (Db.pending_db (Collect.st_conn s)) (Collect.saved s))
    (Collect.set_ops (S (Collect.st_ops s)) s).

(** The state in which a primitive operation starts. *)
Definition after_tick (s : Collect.St) : Collect.St :=
  Collect.set_ops (S (Collect.st_ops s)) s.

(** What the comment tree of a submission is taken to be (lines 166-170). *)
Definition expansion (more_limit : option Z) (submission : Collect.Submission)
  : list Scrape.RawComment :=
  match Collect.sub_expand submission more_limit with
  | Collect.Expanded comments => comments
  | Collect.ExpansionFailed _ _ => []
  end.

(** A [KeyboardInterrupt], raised in a state that satisfies [X]. *)
Definition cinterrupted_in (X : Collect.St -> Prop) (e : exn) (s : Collect.St)
  : Prop :=
  e = KeyboardInterrupt /\ X s.

(** The pure reading of a whole [scrape] call: [Scrape.scrape_submission]
    over the submissions the source hands over, in order, on the connection
    and the running count. *)
Definition collected (reddit : Collect.Reddit) (subreddits : list string)
    (listing : string) (post_limit : Z) (more_limit : option Z)
    (max_comments_per_post : Z) (bots : list string) (st : Db.Conn * nat)
  : Db.Conn * nat :=
  fold_left
    (fun st p =>
       Scrape.scrape_submission (fst p) (Collect.sub_id (snd p))
         (Collect.sub_title (snd p)) bots max_comments_per_post
         (expansion more_limit (snd p)) st)
    (Collect.submissions reddit subreddits listing post_limit) st.

(** *** The caller: the scrape stage of [cli._run_flow] *)

Section CliScrape.

Variable env : Env.
Variable reddit : Collect.Reddit.

(** The [except] clauses of the scrape stage ([cli.py], lines 271-295), in
    the order they are written.  [saved] is the local of that name (0 until
    [scrape] has returned); [action] is the entry of the run menu, and
    [next_choice] what the user answers when asked, after a Ctrl+C in a
    scrape-then-analyze run, whether to go on.  The rest of the console
    dialogue is left out. *)
Definition scrape_handlers (saved : nat) (action next_choice : string)
    (e : exn) : Collect.C (Flow nat) :=
  match e with
  | KeyboardInterrupt =>
      Collect.bind (Collect.conn_commit env)
        (fun _ =>
           if String.eqb action "3" && String.eqb next_choice "2"
           then Collect.ret BackToMenu
           else Collect.ret (Proceed saved))
  | Exc _ _ =>
      if Collect.is_source_auth e then Collect.ret BackToMenu
      else Collect.bind (Collect.conn_commit env)
             (fun _ => Collect.ret BackToMenu)
  | OutOfFuel => Collect.raise e
  end.

(** The scrape stage of [_run_flow] ([cli.py], lines 260-295): the [try]
    statement around [saved = scrape(...)] and [conn.commit()]. *)
Definition run_flow_scrape (subreddits : list string) (listing : string)
    (post_limit : Z) (more_limit : option Z) (max_comments_per_post : Z)
    (bot_usernames : list string) (action next_choice : string)
  : Collect.C (Flow nat) :=
  fun s =>
    match Collect.scrape env reddit subreddits listing post_limit more_limit
            max_comments_per_post bot_usernames s with
    | (Ok n, s1) =>
        Collect.try_except
          (Collect.bind (Collect.conn_commit env)
             (fun _ => Collect.ret (Proceed n)))
          (scrape_handlers n action next_choice) s1
    | (Raise e, s1) => scrape_handlers 0 action next_choice e s1
    end.

End CliScrape.

(** *** A small source *)

Module Feeds.

(** A thread with four comments: one stored as it is, one by a bot, one
    whose body is blank (a space, a no-break space, a tabulation), one more
    stored as it is. *)
Definition thread : Collect.Submission :=
  Collect.mkSubmission "t3_a" "Daily thread"
    (fun _ =>
       Collect.Expanded
         [Scenario.raw "c1";
          Scrape.mkRaw (Some "c2") (Some "AutoModerator") (Some "Be civil.")
            1700000000 1;
          Scrape.mkRaw (Some "c3") (Some "bob") (Some Scenario.blank_body)
            1700000000 1;
          Scenario.raw "c4"]).

(** "stocks" has that one thread; no other subreddit has any. *)
Definition one_thread : Collect.Reddit :=
  fun sub _ _ =>
    if String.eqb sub "stocks" then Collect.mkFeed [thread] None
    else Collect.mkFeed [] None.

(** The listing of "stocks" fails with [Forbidden] after its one thread. *)
Definition forbidden_after_one : Collect.Reddit :=
  fun sub _ _ =>
    if String.eqb sub "stocks"
    then Collect.mkFeed [thread] (Some (Collect.Forbidden, "received 403 HTTP response"))
    else Collect.mkFeed [] None.

(** A process that has just connected to empty tables. *)
Definition start : Collect.St :=
  Collect.mkSt (Db.mkConn Db.empty Db.empty) 0 0 [].

End Feeds.

(** ** The report table ([report.print_report_rich]) *)

Module Report.

(** A row of the ticker summary: (ticker, bullish, bearish, neutral,
    mentions, score). *)
Record Row := mkRow {
  ticker : string;
  bull : Z;
  bear : Z;
  neu : Z;
  mentions : Z;
  score : Q
}.

Inductive Style := green | red | yellow.

(** The style of the score cell (lines 31-36). *)
Definition score_style (score : Q) : Style :=
  if Qlt_bool 0 score then green
  else if Qlt_bool score 0 then red
  else yellow.

(** The rows [table.add_row] is called with, in order (lines 29-38): the
    summary row and the style of its score cell.  The cells are the [str] of
    the row's fields. *)
Definition table_rows (rows : list Row) (top_n : Z) : list (Row * Style) :=
  List.map (fun r => (r, score_style (score r))) (Scrape.slice_to top_n rows).

End Report.

(** * Properties *)

(** ** Runs of the concrete scenarios *)

(** C1 (the code departs from the claim).  With pacing at one request per
    minute and a deadline ten seconds away, the deadline test before the
    second candidate's attempt passes at clock 0, [_pace] then sleeps
    [min(60, 10) = 10] seconds, and the classifier call for "c2" starts at
    clock 10, where the deadline test [_now() >= deadline] holds.  The run
    ends as a complete one, not with [timeout]. *)
Theorem C1_call_starts_at_elapsed_deadline :
  fst Scenario.paced_run = Ok (mkOutcome 2 0 2 None) /\
  trace (snd Scenario.paced_run)
  = [ECall "c1" 0; ESleep 0 10; ECall "c2" 10; ECommit; ECleanup] /\
  Qle_bool (0 + inject_Z 10) 10 = true.
Proof. vm_compute. repeat split; reflexivity. Qed.

(** C5 (the code departs from the claim).  At [attempt = 1024] the backoff
    is not [min(2^attempt, 20)]: [_backoff_seconds] raises [OverflowError].
    During an outage that lasts long enough, the first candidate is tried
    1025 times, 20411 seconds of backoff go by, and [analyze] ends with that
    error instead of waiting 20 seconds and repeating. *)
Theorem C5_backoff_overflows_at_attempt_1024 :
  _backoff_seconds 1024
  = Raise (Exc OverflowError "int too large to convert to float") /\
  fst Scenario.outage_run
  = Raise (Exc OverflowError "int too large to convert to float") /\
  n_calls (snd Scenario.outage_run) = 1025%nat /\
  clock (snd Scenario.outage_run) = 20411%Q.
Proof. vm_compute. repeat split; reflexivity. Qed.

(** C9 (the code departs from the claim).  A Ctrl+C that arrives while the
    post-pass of a complete run queries the validity oracle is caught by the
    outer handler, which enters the post-pass a second time. *)
Theorem C9_cleanup_entered_twice :
  fst Scenario.interrupted_cleanup_run = Ok (mkOutcome 1 0 1 (Some "ctrl_c")) /\
  List.map event_name (trace (snd Scenario.interrupted_cleanup_run))
  = ["call c1"; "commit"; "cleanup"; "interrupt"; "commit"; "cleanup"; "commit"] /\
  length (List.filter is_cleanup (trace (snd Scenario.interrupted_cleanup_run)))
  = 2%nat.
Proof. vm_compute. repeat split; reflexivity. Qed.

(** C2, as stated, fails: a Ctrl+C delivered while [fetch_candidates] runs,
    before the outer [try] is entered, is not handled.  [analyze] raises
    [KeyboardInterrupt]; it neither commits, nor runs the post-pass, nor
    returns an outcome. *)
Lemma C2_interrupt_before_try_propagates :
  fst Scenario.interrupted_fetch_run = Raise KeyboardInterrupt /\
  List.map event_name (trace (snd Scenario.interrupted_fetch_run))
  = ["interrupt"].
Proof. vm_compute. split; reflexivity. Qed.

(** C3, as stated, fails.  A Ctrl+C delivered while [mark_analyzed_error]
    runs for the quota failure is caught by the outer handler: [analyze]
    returns with [stopped_reason = "ctrl_c"], not ["quota"], and no Outcome
    row is written.  And an error that is a rate-limit error and an
    authentication error at once is taken by the fatal test, which comes
    first: [analyze] commits and raises it, whatever its message says. *)
Lemma C3_interrupted_or_fatal_quota_is_no_quota_stop :
  (isinstance (Exc RateLimitError Scenario.quota_message) RateLimitError = true /\
   _is_quota_exhausted (Exc RateLimitError Scenario.quota_message) = true /\
   fst Scenario.interrupted_quota_run = Ok (mkOutcome 0 0 0 (Some "ctrl_c")) /\
   List.map event_name (trace (snd Scenario.interrupted_quota_run))
   = ["call c1"; "interrupt"; "commit"; "cleanup"] /\
   Db.outcomes (Db.pending_db (conn (snd Scenario.interrupted_quota_run))) = ∅) /\
  (isinstance (Exc Scenario.QuotaAuthError Scenario.quota_message) RateLimitError
   = true /\
   _is_quota_exhausted (Exc Scenario.QuotaAuthError Scenario.quota_message)
   = true /\
   fst Scenario.quota_auth_run
   = Raise (Exc Scenario.QuotaAuthError Scenario.quota_message) /\
   Db.outcomes (Db.pending_db (conn (snd Scenario.quota_auth_run))) = ∅).
Proof. vm_compute. repeat split; reflexivity. Qed.

(** C4, as stated, fails: a Ctrl+C delivered while the commit of line 331
    runs is caught by the outer handler, and [analyze] returns an outcome
    with [stopped_reason = "ctrl_c"] instead of raising the authentication
    error to its caller. *)
Lemma C4_interrupted_commit_returns_ctrl_c :
  _is_fatal_auth (Exc AuthenticationError "Incorrect API key") = true /\
  fst Scenario.interrupted_auth_run = Ok (mkOutcome 0 0 0 (Some "ctrl_c")) /\
  List.map event_name (trace (snd Scenario.interrupted_auth_run))
  = ["call c1"; "interrupt"; "commit"; "cleanup"].
Proof. vm_compute. repeat split; reflexivity. Qed.

(** C6, as stated, fails: a Ctrl+C delivered while the [mark_analyzed_ok] of
    the shortcut path runs is caught by the outer handler.  No Outcome row
    is written for the item, [analyzed] stays 0, the run stops, and the
    item is a candidate of the next run. *)
Lemma C6_interrupted_skip_records_nothing :
  ENABLE_KEYWORD_SHORTCUT Scenario.interrupted_skip_env = true /\
  has_finance_hint Scenario.interrupted_skip_env "hello" = false /\
  fst Scenario.interrupted_skip_run = Ok (mkOutcome 0 0 0 (Some "ctrl_c")) /\
  List.map event_name (trace (snd Scenario.interrupted_skip_run))
  = ["interrupt"; "commit"; "cleanup"] /\
  Db.outcomes (Db.pending_db (conn (snd Scenario.interrupted_skip_run))) = ∅ /\
  In ("c0", Some "hello")
     (Db.fetch_candidates
        (Db.pending_db (conn (snd Scenario.interrupted_skip_run)))
        "default" 100 false None).
Proof. vm_compute. repeat split; try reflexivity. left. reflexivity. Qed.

(** C7, as stated, fails at [max_comments_per_post = 0]: every comment of
    the submission is taken. *)
Lemma C7_zero_takes_everything :
  Scrape.take 0 [Scenario.raw "a"; Scenario.raw "b"; Scenario.raw "c"]
  = [Scenario.raw "a"; Scenario.raw "b"; Scenario.raw "c"] /\
  (0 < Z.of_nat (length (Scrape.take 0
        [Scenario.raw "a"; Scenario.raw "b"; Scenario.raw "c"])))%Z.
Proof. split; reflexivity. Qed.

(** C8, as stated, fails when the shortcut is on: the counter that triggers
    the commit also counts the items the shortcut skipped.  After one skip,
    the commit follows the ninth successful call; the tenth ("c10") is
    followed by the eleventh with no commit in between. *)
Lemma C8_no_commit_after_tenth_success :
  fst Scenario.shortcut_run = Ok (mkOutcome 12 0 11 None) /\
  List.map event_name (trace (snd Scenario.shortcut_run))
  = ["call c1"; "call c2"; "call c3"; "call c4"; "call c5"; "call c6";
     "call c7"; "call c8"; "call c9"; "commit"; "call c10"; "call c11";
     "commit"; "cleanup"].
Proof. vm_compute. split; reflexivity. Qed.

(** A Ctrl+C between [save_mentions] and [mark_analyzed_ok] is handled by
    the inner clause, whose commit publishes the mentions without the Outcome
    row: the item stays a candidate. *)
Lemma interrupt_between_writes_commits_mentions_alone :
  fst Scenario.torn_write_run = Ok (mkOutcome 0 0 1 (Some "ctrl_c")) /\
  Db.mentions (Db.committed (conn (snd Scenario.torn_write_run)))
  = [Db.mkMention "default" "c1" "ZZZ" bullish "gpt-5-nano"] /\
  Db.outcomes (Db.committed (conn (snd Scenario.torn_write_run))) = ∅ /\
  Db.fetch_candidates (Db.committed (conn (snd Scenario.torn_write_run)))
    "default" 10 false None = [("c1", Some "buy ZZZ")].
Proof. vm_compute. repeat split; reflexivity. Qed.

(** C10, as stated, fails in its last part: the blank item is skipped and
    stays without an Outcome row, but a later run under the same tag that
    is restricted to another subreddit, or whose limit is 0, does not select
    it. *)
Lemma C10_later_run_need_not_select :
  fst Scenario.blank_run = Ok (mkOutcome 0 0 0 None) /\
  Db.outcomes (Db.pending_db (conn (snd Scenario.blank_run))) = ∅ /\
  Db.fetch_candidates (Db.pending_db (conn (snd Scenario.blank_run)))
    "default" 10 false None = [("c1", Some Scenario.blank_body)] /\
  Db.fetch_candidates (Db.pending_db (conn (snd Scenario.blank_run)))
    "default" 10 false (Some ["wallstreetbets"]) = [] /\
  Db.fetch_candidates (Db.pending_db (conn (snd Scenario.blank_run)))
    "default" 0 false None = [].
Proof. vm_compute. repeat split; reflexivity. Qed.

(** ** Stripping *)

(** [strip] removes each of the 29 whitespace characters from both ends of
    a text, alone or next to another one, and leaves the text between them
    as it is. *)
Lemma strip_removes_whitespace :
  forallb (fun w => String.eqb (PyStr.strip (w ++ "a b" ++ w)) "a b")
    PyStr.whitespace = true /\
  forallb
    (fun w =>
       forallb (fun v => String.eqb (PyStr.strip (w ++ v ++ "a" ++ v ++ w)) "a")
         PyStr.whitespace)
    PyStr.whitespace = true /\
  forallb (fun w => negb (PyStr.truthy (PyStr.strip w))) PyStr.whitespace = true.
Proof. vm_compute. repeat split; reflexivity. Qed.

(** ** The collection stage *)

Lemma slice_to_nonneg {A} (n : Z) (l : list A) :
  (0 <= n)%Z -> Scrape.slice_to n l = firstn (Z.to_nat n) l.
Proof.
  intros Hn. unfold Scrape.slice_to.
  destruct (Z.leb_spec 0 n) as [_ | Hneg]; [reflexivity | lia].
Qed.

Lemma save_one_count sub sid title bots st c :
  (snd st <= snd (Scrape.save_one sub sid title bots st c) <= S (snd st))%nat.
Proof.
  unfold Scrape.save_one.
  repeat match goal with
         | |- context [if ?b then _ else _] => destruct b
         | |- context [match ?o with Some _ => _ | None => _ end] => destruct o
         end; simpl; lia.
Qed.

Lemma fold_save_one_count sub sid title bots l :
  forall st,
    (snd (fold_left (Scrape.save_one sub sid title bots) l st)
     <= snd st + length l)%nat.
Proof.
  induction l as [| c l IH]; intros st; simpl; [lia |].
  specialize (IH (Scrape.save_one sub sid title bots st c)).
  pose proof (save_one_count sub sid title bots st c). lia.
Qed.

(** C7 (amended).  For a positive [max_comments_per_post], the comments
    taken from a submission are the first [max_comments_per_post] of its
    comment list, in source order: at most that many are taken and at most
    that many are saved. *)
Theorem C7_take_at_most (max_comments_per_post : Z)
    (comments : list Scrape.RawComment)
    (Hpos : (0 < max_comments_per_post)%Z) :
  Scrape.take max_comments_per_post comments
  = firstn (Z.to_nat max_comments_per_post) comments /\
  (Z.of_nat (length (Scrape.take max_comments_per_post comments))
   <= max_comments_per_post)%Z /\
  forall sub sid title bots st,
    (Z.of_nat (snd (Scrape.scrape_submission sub sid title bots
                      max_comments_per_post comments st))
     <= Z.of_nat (snd st) + max_comments_per_post)%Z.
Proof.
  assert (Htake : Scrape.take max_comments_per_post comments
                  = firstn (Z.to_nat max_comments_per_post) comments).
  { unfold Scrape.take.
    destruct (Z.eqb_spec max_comments_per_post 0) as [-> | _]; [lia |].
    apply slice_to_nonneg. lia. }
  assert (Hlen : (length (firstn (Z.to_nat max_comments_per_post) comments)
                  <= Z.to_nat max_comments_per_post)%nat).
  { rewrite length_firstn. lia. }
  split; [exact Htake |]. rewrite Htake. split; [lia |].
  intros sub sid title bots st. unfold Scrape.scrape_submission.
  rewrite Htake.
  pose proof (fold_save_one_count sub sid title bots
                (firstn (Z.to_nat max_comments_per_post) comments) st).
  lia.
Qed.

Lemma C7_take_at_most_witness :
  (0 < 2)%Z /\
  Scrape.take 2 [Scenario.raw "a"; Scenario.raw "b"; Scenario.raw "c"]
  = [Scenario.raw "a"; Scenario.raw "b"].
Proof.
  split; [lia |].
  exact (proj1 (C7_take_at_most 2
                  [Scenario.raw "a"; Scenario.raw "b"; Scenario.raw "c"]
                  ltac:(lia))).
Defined.

(** With [max_comments_per_post = 0] the guard of line 172 disables the cap. *)
Lemma take_zero {A} (comments : list A) : Scrape.take 0 comments = comments.
Proof. reflexivity. Qed.

(** ** Backoff *)

Lemma backoff_value (attempt : nat) :
  (attempt < 1024)%nat ->
  _backoff_seconds attempt = Ok (Qmin (1 * inject_Z (2 ^ Z.of_nat attempt)) 20).
Proof.
  intros Hlt. unfold _backoff_seconds.
  destruct (Nat.leb_spec 1024 attempt) as [Hge | _]; [lia | reflexivity].
Qed.

Lemma backoff_positive (attempt : nat) :
  Qle_bool (Qmin (1 * inject_Z (2 ^ Z.of_nat attempt)) 20) 0 = false.
Proof.
  destruct (Qle_bool (Qmin (1 * inject_Z (2 ^ Z.of_nat attempt)) 20) 0) eqn:H;
    [| reflexivity].
  apply Qle_bool_iff in H. exfalso. apply (Qle_not_lt _ _ H).
  apply Q.min_glb_lt; [| reflexivity].
  rewrite Qmult_1_l. change 0%Q with (inject_Z 0). rewrite <- Zlt_Qlt.
  apply Z.pow_pos_nonneg; lia.
Qed.

Lemma backoff_capped (attempt : nat) (w : Q) :
  _backoff_seconds attempt = Ok w -> (w <= 20)%Q.
Proof.
  unfold _backoff_seconds. destruct (1024 <=? attempt)%nat; [discriminate |].
  intros [= <-]. apply Q.le_min_r.
Qed.

Lemma backoff_monotone (attempt : nat) (w w' : Q) :
  _backoff_seconds attempt = Ok w ->
  _backoff_seconds (S attempt) = Ok w' ->
  (w <= w')%Q.
Proof.
  unfold _backoff_seconds.
  destruct (1024 <=? attempt)%nat; [discriminate |].
  destruct (1024 <=? S attempt)%nat; [discriminate |].
  intros [= <-] [= <-].
  apply Q.min_le_compat_r.
  rewrite !Qmult_1_l. rewrite <- Zle_Qle.
  apply Z.pow_le_mono_r; lia.
Qed.

(** ** Running the monad *)

#[local] Arguments Nat.modulo : simpl never.

Lemma bind_ok {A B} (m : M A) (k : A -> M B) s a s' :
  m s = (Ok a, s') -> bind m k s = k a s'.
Proof. intros H. unfold bind. rewrite H. reflexivity. Qed.

Lemma bind_raise {A B} (m : M A) (k : A -> M B) s e s' :
  m s = (Raise e, s') -> bind m k s = (Raise e, s').
Proof. intros H. unfold bind. rewrite H. reflexivity. Qed.

Lemma try_ok {A} (m : M A) (h : exn -> M A) s a s' :
  m s = (Ok a, s') -> try_except m h s = (Ok a, s').
Proof. intros H. unfold try_except. rewrite H. reflexivity. Qed.

Lemma try_raise {A} (m : M A) (h : exn -> M A) s e s' :
  m s = (Raise e, s') -> try_except m h s = h e s'.
Proof. intros H. unfold try_except. rewrite H. reflexivity. Qed.

Lemma quiet_mono env n m : quiet env n -> (n <= m)%nat -> quiet env m.
Proof. intros Hq Hle k Hk. apply Hq. lia. Qed.

Section Quiet.

Variable env : Env.

Lemma checkpoint_quiet s :
  quiet env (n_ops s) ->
  checkpoint env s = (Ok tt, set_n_ops (S (n_ops s)) s).
Proof.
  intros Hq. unfold checkpoint. rewrite (Hq (n_ops s)) by lia. reflexivity.
Qed.

Lemma conn_commit_quiet s :
  quiet env (n_ops s) ->
  conn_commit env s
  = (Ok tt, log ECommit (set_conn (Db.commit (conn s)) (set_n_ops (S (n_ops s)) s))).
Proof.
  intros Hq. unfold conn_commit.
  rewrite (bind_ok _ _ _ _ _ (checkpoint_quiet s Hq)). reflexivity.
Qed.

Lemma db_write_quiet f s :
  quiet env (n_ops s) ->
  db_write env f s
  = (Ok tt, set_conn (Db.write f (conn s)) (set_n_ops (S (n_ops s)) s)).
Proof.
  intros Hq. unfold db_write.
  rewrite (bind_ok _ _ _ _ _ (checkpoint_quiet s Hq)). reflexivity.
Qed.

Lemma db_read_quiet {A} (f : Db.DB -> A) s :
  quiet env (n_ops s) ->
  db_read env f s = (Ok (f (Db.pending_db (conn s))), set_n_ops (S (n_ops s)) s).
Proof.
  intros Hq. unfold db_read.
  rewrite (bind_ok _ _ _ _ _ (checkpoint_quiet s Hq)). reflexivity.
Qed.

Lemma time_sleep_quiet d s :
  quiet env (n_ops s) ->
  time_sleep env d s
  = (Ok tt, set_clock (clock s + d)%Q
              (log (ESleep (clock s) d) (set_n_ops (S (n_ops s)) s))).
Proof.
  intros Hq. unfold time_sleep.
  rewrite (bind_ok _ _ _ _ _ (checkpoint_quiet s Hq)). reflexivity.
Qed.

Lemma same_books_refl s : same_books s s.
Proof. split; auto. Qed.

Lemma same_books_trans s1 s2 s3 :
  same_books s1 s2 -> same_books s2 s3 -> same_books s1 s3.
Proof.
  intros [H1 H2 H3] [H4 H5 H6]. split; [congruence | congruence | lia].
Qed.

(** A sleep under a quiet keyboard: at most one [ESleep] is logged and the
    connection is not touched. *)
Lemma sleep_with_deadline_quiet seconds deadline s :
  quiet env (n_ops s) ->
  exists s',
    _sleep_with_deadline env seconds deadline s = (Ok tt, s') /\
    same_books s s' /\ conn s' = conn s /\
    exists evs, trace s' = (trace s ++ evs)%list /\ forallb is_sleep evs = true.
Proof.
  intros Hq. unfold _sleep_with_deadline.
  assert (Hsleep : forall d, exists s',
             time_sleep env d s = (Ok tt, s') /\
             same_books s s' /\ conn s' = conn s /\
             exists evs, trace s' = (trace s ++ evs)%list /\ forallb is_sleep evs = true).
  { intros d. rewrite (time_sleep_quiet d s Hq).
    eexists. split; [reflexivity |]. split; [split; cbn; auto |].
    split; [reflexivity |]. exists [ESleep (clock s) d]. split; reflexivity. }
  assert (Hskip : exists s',
             (Ok tt, s) = (Ok tt, s') /\
             same_books s s' /\ conn s' = conn s /\
             exists evs, trace s' = (trace s ++ evs)%list /\ forallb is_sleep evs = true).
  { exists s. split; [reflexivity |]. split; [apply same_books_refl |].
    split; [reflexivity |]. exists []. rewrite app_nil_r. split; reflexivity. }
  destruct (Qle_bool seconds 0); [exact Hskip |].
  destruct deadline as [d |]; [| apply Hsleep].
  cbn. destruct (Qle_bool (d - clock s) 0); [exact Hskip | apply Hsleep].
Qed.

End Quiet.

Lemma bind_modify {B} (f : State -> State) (k : unit -> M B) s :
  bind (modify f) k s = k tt (f s).
Proof. reflexivity. Qed.

Lemma bind_get {A B} (f : State -> A) (k : A -> M B) s :
  bind (get f) k s = k (f s) s.
Proof. reflexivity. Qed.

Lemma bind_ret {A B} (a : A) (k : A -> M B) s : bind (ret a) k s = k a s.
Proof. reflexivity. Qed.

(** Discharge [quiet env (n_ops s')] for a state [s'] reached from the one
    [Hq] speaks of. *)
Ltac quiet_side Hq :=
  apply (quiet_mono _ _ _ Hq); cbn; lia.

(** Run the primitive at the head of the program under a quiet keyboard. *)
Ltac qstep Hq :=
  first
    [ rewrite bind_modify
    | rewrite bind_get
    | rewrite bind_ret
    | erewrite bind_ok by (apply conn_commit_quiet; quiet_side Hq)
    | erewrite bind_ok by (apply db_write_quiet; quiet_side Hq)
    | erewrite bind_ok by (apply db_read_quiet; quiet_side Hq)
    | erewrite bind_ok by (apply checkpoint_quiet; quiet_side Hq)
    | erewrite bind_ok by (apply time_sleep_quiet; quiet_side Hq) ].

Section QuietRun.

Variable env : Env.
Variables (analysis_tag model : string) (interval : Q) (deadline : option Q).

(** Pacing under a quiet keyboard: only sleeps are logged, and only the
    clock and [next_call_at] move. *)
Lemma pace_quiet s :
  quiet env (n_ops s) ->
  exists s',
    _pace env interval deadline s = (Ok tt, s') /\
    same_books s s' /\ conn s' = conn s /\
    exists evs, trace s' = (trace s ++ evs)%list /\ forallb is_sleep evs = true.
Proof.
  intros Hq. unfold _pace.
  destruct (Qle_bool interval 0).
  { exists s. split; [reflexivity |]. split; [apply same_books_refl |].
    split; [reflexivity |]. exists []. rewrite app_nil_r. split; reflexivity. }
  unfold _now. rewrite !bind_get.
  destruct (Qlt_bool (clock s) (next_call_at s)).
  - destruct (sleep_with_deadline_quiet env (next_call_at s - clock s)%Q deadline s Hq)
      as (s1 & Hrun & Hbooks & Hconn & evs & Htr & Hevs).
    rewrite (bind_ok _ _ _ _ _ Hrun). rewrite bind_get. cbn.
    eexists. split; [reflexivity |]. destruct Hbooks. cbn.
    split; [split; cbn; auto |]. split; [exact Hconn |].
    exists evs. split; assumption.
  - rewrite bind_ret, bind_get. cbn.
    eexists. split; [reflexivity |]. split; [split; cbn; auto |].
    split; [reflexivity |]. exists []. rewrite app_nil_r. split; reflexivity.
Qed.

Lemma cleanup_quiet s :
  quiet env (n_ops s) ->
  exists n s',
    _cleanup_invalid_tickers env analysis_tag s = (Ok n, s') /\
    cleanup_post s s'.
Proof.
  intros Hq. unfold _cleanup_invalid_tickers. rewrite bind_modify.
  assert (Hnoop : forall k, exists n s',
             (Ok 0%nat, set_n_ops (k + n_ops s) (log ECleanup s)) = (Ok n, s') /\
             cleanup_post s s').
  { intros k. eexists _, _. split; [reflexivity |].
    split; cbn; auto; [split; cbn; auto; lia |].
    exists []. auto. }
  destruct (ENABLE_YFINANCE_VALIDATION env); cbn [negb].
  2: { destruct (Hnoop 0%nat) as (n & s' & Heq & Hpost).
       exists n, s'. split; [| exact Hpost]. rewrite <- Heq.
       unfold ret. destruct s; reflexivity. }
  erewrite bind_ok by (apply db_read_quiet; cbn; exact Hq). cbn [Db.pending_db conn log].
  destruct (Db.fetch_distinct_mentioned_tickers _ _) as [| t ts].
  { apply (Hnoop 1%nat). }
  unfold oracle_find_invalid.
  erewrite bind_ok by
    (erewrite bind_ok by (apply checkpoint_quiet; quiet_side Hq); reflexivity).
  destruct (find_invalid_tickers env (t :: ts)) as [| i inv].
  { apply (Hnoop 2%nat). }
  unfold db_delete_mentions.
  erewrite bind_ok by
    (erewrite bind_ok by (apply checkpoint_quiet; quiet_side Hq); reflexivity).
  qstep Hq. cbn.
  eexists _, _. split; [reflexivity |].
  split; cbn; auto; [split; cbn; auto; lia |].
  exists [ECommit]. rewrite <- app_assoc. auto.
Qed.

Lemma analyze_comment_quiet cid text s :
  quiet env (n_ops s) ->
  analyze_comment env cid model text s
  = let r := classify env (n_calls s) model text in
    let s' := set_clock (clock s + resp_seconds r)%Q
                (set_n_calls (S (n_calls s))
                   (log (ECall cid (clock s)) (set_n_ops (S (n_ops s)) s))) in
    (match resp_result r with
     | Returned rows => Ok rows
     | Failed cls msg => Raise (Exc cls msg)
     end, s').
Proof.
  intros Hq. unfold analyze_comment.
  rewrite (bind_ok _ _ _ _ _ (checkpoint_quiet env s Hq)). cbn.
  destruct (resp_result _); reflexivity.
Qed.

End QuietRun.

(** ** One pass of the attempt loop under a quiet keyboard *)

Section Attempt.

Variable env : Env.
Variables (analysis_tag model : string) (interval : Q) (deadline : option Q).

Abbreviation attempt_body' :=
  (attempt_body env analysis_tag model interval deadline).
Abbreviation attempt_once' :=
  (attempt_once env analysis_tag model interval deadline).
Abbreviation attempt_loop' :=
  (attempt_loop env analysis_tag model interval deadline).
Abbreviation on_exception' :=
  (on_exception env analysis_tag model deadline).
Abbreviation analyze_body' :=
  (analyze_body env analysis_tag model interval deadline).
Abbreviation analyze_try' :=
  (analyze_try env analysis_tag model interval deadline).
Abbreviation analyze_from' :=
  (analyze_from env analysis_tag model interval deadline).
Abbreviation process_candidate' :=
  (process_candidate env analysis_tag model interval deadline).

Lemma deadline_not_elapsed s :
  before_deadline deadline s -> deadline_elapsed deadline s = (Ok false, s).
Proof.
  unfold before_deadline, deadline_elapsed. destruct deadline as [d |].
  - intros H. unfold _now. rewrite bind_get. rewrite H. reflexivity.
  - reflexivity.
Qed.

(** A candidate with text that passes the shortcut enters the attempt loop
    with [attempt = 0]. *)
Lemma process_candidate_enters_loop cid body s :
  before_deadline deadline s ->
  PyStr.truthy (PyStr.strip (default "" body)) = true ->
  ENABLE_KEYWORD_SHORTCUT env
  && negb (has_finance_hint env (PyStr.strip (default "" body))) = false ->
  process_candidate' cid body s
  = attempt_loop' max_attempts 0 cid (PyStr.strip (default "" body)) s.
Proof.
  intros Hd Htext Hhint. unfold process_candidate.
  rewrite (bind_ok _ _ _ _ _ (deadline_not_elapsed s Hd)).
  rewrite Htext, Hhint. reflexivity.
Qed.

Lemma analyze_try_enters_loop cid body rest s :
  before_deadline deadline s ->
  PyStr.truthy (PyStr.strip (default "" body)) = true ->
  ENABLE_KEYWORD_SHORTCUT env
  && negb (has_finance_hint env (PyStr.strip (default "" body))) = false ->
  analyze_try' ((cid, body) :: rest) s
  = analyze_from' max_attempts 0 cid (PyStr.strip (default "" body)) rest s.
Proof.
  intros Hd Htext Hhint.
  unfold analyze_try, analyze_from, try_except.
  replace (analyze_body' ((cid, body) :: rest) s)
    with ((c <- attempt_loop' max_attempts 0 cid (PyStr.strip (default "" body)) ;;
           match c with
           | Return => get outcome
           | _ => analyze_body' rest
           end) s); [reflexivity |].
  unfold analyze_body. cbn [for_candidates]. unfold bind.
  rewrite (process_candidate_enters_loop _ _ _ Hd Htext Hhint).
  destruct (attempt_loop' _ _ _ _ s) as [[c | e] s1]; [| reflexivity].
  destruct c; reflexivity.
Qed.

Lemma attempt_loop_retry budget attempt cid text s s1 :
  before_deadline deadline s ->
  attempt_once' attempt cid text s = (Ok Continue, s1) ->
  attempt_loop' (S budget) attempt cid text s
  = attempt_loop' budget (S attempt) cid text s1.
Proof.
  intros Hd Hrun. cbn [attempt_loop].
  rewrite (bind_ok _ _ _ _ _ (deadline_not_elapsed s Hd)).
  rewrite (bind_ok _ _ _ _ _ Hrun). reflexivity.
Qed.

Lemma analyze_from_retry budget attempt cid text rest s s1 :
  before_deadline deadline s ->
  attempt_once' attempt cid text s = (Ok Continue, s1) ->
  analyze_from' (S budget) attempt cid text rest s
  = analyze_from' budget (S attempt) cid text rest s1.
Proof.
  intros Hd Hrun. unfold analyze_from, try_except, bind.
  rewrite (attempt_loop_retry _ _ _ _ _ _ Hd Hrun). reflexivity.
Qed.

(** The protected region when the classifier call raises. *)
Lemma attempt_body_failed cid text s cls msg :
  quiet env (n_ops s) ->
  resp_result (classify env (n_calls s) model text) = Failed cls msg ->
  exists s1,
    attempt_body' cid text s = (Raise (Exc cls msg), s1) /\
    outcome s1 = outcome s /\ conn s1 = conn s /\
    (n_ops s <= n_ops s1)%nat /\ n_calls s1 = S (n_calls s) /\
    exists sleeps t,
      trace s1 = (trace s ++ sleeps ++ [ECall cid t])%list /\
      forallb is_sleep sleeps = true.
Proof.
  intros Hq Hcall. unfold attempt_body.
  destruct (pace_quiet env interval deadline s Hq)
    as (s0 & Hpace & [Ho Hc Hn] & Hconn & sleeps & Htr & Hsl).
  rewrite (bind_ok _ _ _ _ _ Hpace).
  unfold bind at 1. rewrite analyze_comment_quiet by (quiet_side Hq).
  cbn zeta. rewrite Hc, Hcall.
  eexists. split; [reflexivity |]. cbn.
  repeat split; try assumption; try lia.
  exists sleeps, (clock s0). rewrite Htr, <- app_assoc. split; [reflexivity | exact Hsl].
Qed.

(** The protected region when the classifier call returns. *)
Lemma attempt_body_returned cid text s rows :
  quiet env (n_ops s) ->
  resp_result (classify env (n_calls s) model text) = Returned rows ->
  exists s',
    attempt_body' cid text s = (Ok Break, s') /\
    Db.mentions (Db.pending_db (conn s'))
    = (Db.mentions (Db.pending_db (conn s))
       ++ List.map (fun r => Db.mkMention analysis_tag cid (fst r) (snd r) model)
            rows)%list /\
    Db.outcomes (Db.pending_db (conn s'))
    = <[(cid, analysis_tag) := Db.RowOk model]>
        (Db.outcomes (Db.pending_db (conn s))) /\
    outcome s'
    = with_analyzed (S (analyzed (outcome s)))
        (with_model_calls (S (analyzed_model_calls (outcome s))) (outcome s)) /\
    Db.committed (conn s')
    = (if (S (analyzed (outcome s)) mod 10 =? 0)%nat
       then Db.pending_db (conn s') else Db.committed (conn s)) /\
    exists sleeps t,
      trace s'
      = (trace s ++ sleeps
         ++ ECall cid t
            :: (if (S (analyzed (outcome s)) mod 10 =? 0)%nat
                then [ECommit] else []))%list /\
      forallb is_sleep sleeps = true.
Proof.
  intros Hq Hcall. unfold attempt_body.
  destruct (pace_quiet env interval deadline s Hq)
    as (s0 & Hpace & [Ho Hc Hn] & Hconn & sleeps & Htr & Hsl).
  rewrite (bind_ok _ _ _ _ _ Hpace).
  unfold bind at 1. rewrite analyze_comment_quiet by (quiet_side Hq).
  cbn zeta. rewrite Hc, Hcall.
  repeat qstep Hq. cbn.
  rewrite Ho, Hconn.
  destruct (S (analyzed (outcome s)) mod 10 =? 0)%nat.
  - qstep Hq.
    eexists. split; [reflexivity |]. cbn.
    repeat split.
    exists sleeps, (clock s0). rewrite Htr, <- !app_assoc.
    split; [reflexivity | exact Hsl].
  - rewrite !bind_ret.
    eexists. split; [reflexivity |]. cbn.
    repeat split.
    exists sleeps, (clock s0). rewrite Htr, <- !app_assoc.
    split; [reflexivity | exact Hsl].
Qed.

(** C4 (amended).  A classifier call that fails with an authentication or
    permission error (an instance of [AuthenticationError], of
    [PermissionDeniedError] or of a class that derives from one of them),
    when the user does not interrupt the commit that follows, makes
    [analyze] commit and raise that error to its caller: the pending tables
    are what they were before the attempt (no Outcome row, [ok] or [error],
    was written for the item), they are committed, and the log ends with
    the call and the commit. *)
Theorem C4_fatal_auth_commits_then_raises
    budget attempt cid text rest s cls msg
    (Hquiet : quiet env (n_ops s))
    (Hdeadline : before_deadline deadline s)
    (Hcall : resp_result (classify env (n_calls s) model text) = Failed cls msg)
    (Hauth : _is_fatal_auth (Exc cls msg) = true) :
  exists s',
    analyze_from' (S budget) attempt cid text rest s = (Raise (Exc cls msg), s') /\
    Db.pending_db (conn s') = Db.pending_db (conn s) /\
    Db.committed (conn s') = Db.pending_db (conn s) /\
    outcome s' = outcome s /\
    exists sleeps t,
      trace s' = (trace s ++ sleeps ++ [ECall cid t; ECommit])%list /\
      forallb is_sleep sleeps = true.
Proof.
  destruct (attempt_body_failed cid text s cls msg Hquiet Hcall)
    as (s1 & Hbody & Ho & Hconn & Hn & Hc & sleeps & t & Htr & Hsl).
  assert (Hloop : attempt_loop' (S budget) attempt cid text s
                  = (Raise (Exc cls msg),
                     log ECommit (set_conn (Db.commit (conn s1))
                                    (set_n_ops (S (n_ops s1)) s1)))).
  { cbn [attempt_loop].
    rewrite (bind_ok _ _ _ _ _ (deadline_not_elapsed s Hdeadline)).
    apply bind_raise. unfold attempt_once.
    rewrite (try_raise _ _ _ _ _ Hbody). unfold on_exception.
    rewrite Hauth. qstep Hquiet. reflexivity. }
  unfold analyze_from.
  erewrite try_raise by (apply bind_raise; exact Hloop).
  eexists. split; [reflexivity |]. cbn. rewrite Hconn, Ho.
  repeat split.
  exists sleeps, t. rewrite Htr, <- !app_assoc. split; [reflexivity | exact Hsl].
Qed.

(** C3 (amended).  A classifier call that fails with a rate-limit error (an
    instance of [RateLimitError] that is not at the same time an
    authentication or permission error), when the user does not interrupt
    what follows, splits on the message.  When [_is_quota_exhausted]
    recognises it, [analyze] writes the Outcome [error] for the item, its
    text being the class name, a colon and the message of the error,
    commits, runs the post-pass and returns the outcome with
    [stopped_reason = "quota"] and the counters as they were.  When it does
    not, the failure is retried: at [attempt < 1024] the [except] clause
    sleeps [min(2^attempt, 20)] seconds, clamped to the deadline, writes no
    row, moves no counter, sets no stop reason, and the loop goes round for
    the same candidate with [attempt + 1]. *)
Theorem C3_quota_stops_and_throttling_retries
    budget attempt cid text rest s cls msg
    (Hquiet : quiet env (n_ops s))
    (Hdeadline : before_deadline deadline s)
    (Hcall : resp_result (classify env (n_calls s) model text)
             = Failed cls msg)
    (Hrate : isinstance (Exc cls msg) RateLimitError = true)
    (Hauth : _is_fatal_auth (Exc cls msg) = false) :
  (_is_quota_exhausted (Exc cls msg) = true ->
   exists s',
     analyze_from' (S budget) attempt cid text rest s = (Ok (outcome s'), s') /\
     outcome s' = with_stopped_reason (Some "quota") (outcome s) /\
     Db.outcomes (Db.pending_db (conn s'))
     = <[(cid, analysis_tag) := Db.RowError model (type_name cls ++ ": " ++ msg)]>
         (Db.outcomes (Db.pending_db (conn s))) /\
     Db.committed (conn s') = Db.pending_db (conn s') /\
     exists sleeps t post,
       trace s'
       = (trace s ++ sleeps ++ ECall cid t :: ECommit :: ECleanup :: post)%list /\
       forallb is_sleep sleeps = true) /\
  (_is_quota_exhausted (Exc cls msg) = false ->
   (attempt < 1024)%nat ->
   exists s1 s2,
     attempt_body' cid text s = (Raise (Exc cls msg), s1) /\
     _sleep_with_deadline env (Qmin (1 * inject_Z (2 ^ Z.of_nat attempt)) 20)
       deadline s1 = (Ok tt, s2) /\
     attempt_once' attempt cid text s = (Ok Continue, s2) /\
     attempt_loop' (S budget) attempt cid text s
     = attempt_loop' budget (S attempt) cid text s2 /\
     analyze_from' (S budget) attempt cid text rest s
     = analyze_from' budget (S attempt) cid text rest s2 /\
     conn s2 = conn s /\
     outcome s2 = outcome s /\
     n_calls s2 = S (n_calls s) /\
     trace s2
     = (trace s1
        ++ match deadline with
           | None =>
               [ESleep (clock s1) (Qmin (1 * inject_Z (2 ^ Z.of_nat attempt)) 20)]
           | Some d =>
               if Qle_bool (d - clock s1) 0 then []
               else [ESleep (clock s1)
                       (Qmin (Qmin (1 * inject_Z (2 ^ Z.of_nat attempt)) 20)
                             (d - clock s1))]
           end)%list /\
     exists sleeps t,
       trace s1 = (trace s ++ sleeps ++ [ECall cid t])%list /\
       forallb is_sleep sleeps = true).
Proof.
  destruct (attempt_body_failed cid text s cls msg Hquiet Hcall)
    as (s1 & Hbody & Ho & Hconn & Hn & Hc & sleeps & t & Htr & Hsl).
  split; intros Hquota.
  - pose (s2 := set_outcome (with_stopped_reason (Some "quota") (outcome s1))
                  (log ECommit
                     (set_conn
                        (Db.commit
                           (Db.write
                              (Db.mark_analyzed_error analysis_tag cid model
                                 (type_name cls ++ ": " ++ msg)) (conn s1)))
                        (set_n_ops (S (S (n_ops s1))) s1)))).
    destruct (cleanup_quiet env analysis_tag s2) as (n & s3 & Hclean & Hpost).
    { subst s2. quiet_side Hquiet. }
    assert (Hloop : attempt_loop' (S budget) attempt cid text s = (Ok Return, s3)).
    { assert (Honce : attempt_once' attempt cid text s = (Ok Return, s3)).
      { unfold attempt_once.
        rewrite (try_raise _ _ _ _ _ Hbody). unfold on_exception.
        rewrite Hauth, Hrate, Hquota. cbn [andb].
        qstep Hquiet. qstep Hquiet. unfold set_reason. qstep Hquiet.
        fold s2.
        rewrite (bind_ok _ _ _ _ _ Hclean). reflexivity. }
      cbn [attempt_loop].
      rewrite (bind_ok _ _ _ _ _ (deadline_not_elapsed s Hdeadline)).
      rewrite (bind_ok _ _ _ _ _ Honce). reflexivity. }
    unfold analyze_from.
    erewrite try_ok by (erewrite bind_ok by exact Hloop; reflexivity).
    destruct Hpost as [[Hbo Hbc Hbn] Hclock Hout Hitems Hcomm (post & Htr3 & _)].
    exists s3. rewrite Hbo. subst s2. cbn in *.
    split; [reflexivity |]. rewrite Ho. split; [reflexivity |].
    rewrite Hout, Hconn. split; [reflexivity |].
    split.
    { destruct Hcomm as [-> | Heq]; [reflexivity | exact Heq]. }
    exists sleeps, t, post. rewrite Htr3, Htr, <- !app_assoc.
    split; [reflexivity | exact Hsl].
  - intros Hlt.
    set (w := Qmin (1 * inject_Z (2 ^ Z.of_nat attempt)) 20).
    assert (Hq1 : quiet env (n_ops s1)) by (apply (quiet_mono _ _ _ Hquiet Hn)).
    assert (Hslept : exists s2,
               _sleep_with_deadline env w deadline s1 = (Ok tt, s2) /\
               conn s2 = conn s1 /\ outcome s2 = outcome s1 /\
               n_calls s2 = n_calls s1 /\
               trace s2
               = (trace s1
                  ++ match deadline with
                     | None => [ESleep (clock s1) w]
                     | Some d =>
                         if Qle_bool (d - clock s1) 0 then []
                         else [ESleep (clock s1) (Qmin w (d - clock s1))]
                     end)%list).
    { unfold _sleep_with_deadline. subst w. rewrite backoff_positive.
      destruct deadline as [d |].
      - unfold _now. rewrite bind_get. cbn zeta.
        destruct (Qle_bool (d - clock s1) 0).
        + exists s1. rewrite app_nil_r. repeat split.
        + rewrite (time_sleep_quiet env _ s1 Hq1).
          eexists. split; [reflexivity |]. repeat split.
      - rewrite (time_sleep_quiet env _ s1 Hq1).
        eexists. split; [reflexivity |]. repeat split. }
    destruct Hslept as (s2 & Hsleep & Hconn2 & Hbo & Hbc & Htr2).
    assert (Honce : attempt_once' attempt cid text s = (Ok Continue, s2)).
    { unfold attempt_once. rewrite (try_raise _ _ _ _ _ Hbody).
      unfold on_exception. rewrite Hauth, Hrate, Hquota. cbn [andb].
      unfold _is_retryable. rewrite Hrate. cbn [orb].
      unfold retry_after_backoff. rewrite (backoff_value attempt Hlt).
      unfold lift. unfold bind at 1.
      rewrite (bind_ok _ _ _ _ _ Hsleep). reflexivity. }
    exists s1, s2. split; [exact Hbody |]. split; [exact Hsleep |].
    split; [exact Honce |].
    split; [apply (attempt_loop_retry _ _ _ _ _ _ Hdeadline Honce) |].
    split; [apply (analyze_from_retry _ _ _ _ _ _ _ Hdeadline Honce) |].
    split; [congruence |]. split; [congruence |]. split; [congruence |].
    split; [exact Htr2 |].
    exists sleeps, t. split; [exact Htr | exact Hsl].
Qed.

(** C8 (amended).  After a successful classifier call whose handling the
    user does not interrupt, the returned mentions and the Outcome [ok] of
    (item, tag) are written in the same transaction,
    [analyzed_model_calls] and [analyzed] go up by one, and a commit follows
    exactly when [analyzed], which counts the successes and the items the
    shortcut skipped, has become a multiple of 10; the committed tables then
    hold both writes, and otherwise neither. *)
Theorem C8_success_persists_and_commits_on_tenth_processed
    budget attempt cid text s rows
    (Hquiet : quiet env (n_ops s))
    (Hdeadline : before_deadline deadline s)
    (Hcall : resp_result (classify env (n_calls s) model text) = Returned rows) :
  exists s',
    attempt_loop' (S budget) attempt cid text s = (Ok Break, s') /\
    Db.mentions (Db.pending_db (conn s'))
    = (Db.mentions (Db.pending_db (conn s))
       ++ List.map (fun r => Db.mkMention analysis_tag cid (fst r) (snd r) model)
            rows)%list /\
    Db.outcomes (Db.pending_db (conn s'))
    = <[(cid, analysis_tag) := Db.RowOk model]>
        (Db.outcomes (Db.pending_db (conn s))) /\
    outcome s'
    = with_analyzed (S (analyzed (outcome s)))
        (with_model_calls (S (analyzed_model_calls (outcome s))) (outcome s)) /\
    Db.committed (conn s')
    = (if (S (analyzed (outcome s)) mod 10 =? 0)%nat
       then Db.pending_db (conn s') else Db.committed (conn s)) /\
    exists sleeps t,
      trace s'
      = (trace s ++ sleeps
         ++ ECall cid t
            :: (if (S (analyzed (outcome s)) mod 10 =? 0)%nat
                then [ECommit] else []))%list /\
      forallb is_sleep sleeps = true.
Proof.
  destruct (attempt_body_returned cid text s rows Hquiet Hcall)
    as (s' & Hbody & Hfacts).
  exists s'. split; [| exact Hfacts].
  cbn [attempt_loop].
  rewrite (bind_ok _ _ _ _ _ (deadline_not_elapsed s Hdeadline)).
  unfold attempt_once.
  rewrite (bind_ok _ _ _ _ _ (try_ok _ _ _ _ _ Hbody)). reflexivity.
Qed.

(** A retryable failure at [attempt < 1024]: the requested wait is
    [min(2^attempt, 20)], the sleep is the clamped one, and the loop goes
    round for the same candidate with [attempt + 1]. *)
Lemma retry_waits_then_repeats budget attempt cid text rest s cls msg :
  quiet env (n_ops s) ->
  before_deadline deadline s ->
  resp_result (classify env (n_calls s) model text) = Failed cls msg ->
  _is_fatal_auth (Exc cls msg) = false ->
  isinstance (Exc cls msg) RateLimitError && _is_quota_exhausted (Exc cls msg)
  = false ->
  _is_retryable (Exc cls msg) = true ->
  (attempt < 1024)%nat ->
  exists s1 s2,
    attempt_body' cid text s = (Raise (Exc cls msg), s1) /\
    _sleep_with_deadline env (Qmin (1 * inject_Z (2 ^ Z.of_nat attempt)) 20)
      deadline s1 = (Ok tt, s2) /\
    attempt_loop' (S budget) attempt cid text s
    = attempt_loop' budget (S attempt) cid text s2 /\
    analyze_from' (S budget) attempt cid text rest s
    = analyze_from' budget (S attempt) cid text rest s2.
Proof.
  intros Hq Hd Hcall Hauth Hquota Hretry Hlt.
  destruct (attempt_body_failed cid text s cls msg Hq Hcall)
    as (s1 & Hbody & Ho & Hconn & Hn & Hc & sleeps & t & Htr & Hsl).
  destruct (sleep_with_deadline_quiet env
              (Qmin (1 * inject_Z (2 ^ Z.of_nat attempt)) 20) deadline s1)
    as (s2 & Hsleep & _); [quiet_side Hq |].
  assert (Honce : attempt_once' attempt cid text s = (Ok Continue, s2)).
  { unfold attempt_once. rewrite (try_raise _ _ _ _ _ Hbody).
    unfold on_exception. rewrite Hauth, Hquota, Hretry.
    unfold retry_after_backoff. rewrite (backoff_value attempt Hlt).
    unfold lift. unfold bind at 1.
    rewrite (bind_ok _ _ _ _ _ Hsleep). reflexivity. }
  exists s1, s2. split; [exact Hbody |]. split; [exact Hsleep |].
  split.
  - apply (attempt_loop_retry _ _ _ _ _ _ Hd Honce).
  - apply (analyze_from_retry _ _ _ _ _ _ _ Hd Honce).
Qed.

(** The shortcut path under a quiet keyboard. *)
Lemma shortcut_skip_records_ok cid body rest s :
  quiet env (n_ops s) ->
  before_deadline deadline s ->
  PyStr.truthy (PyStr.strip (default "" body)) = true ->
  ENABLE_KEYWORD_SHORTCUT env = true ->
  has_finance_hint env (PyStr.strip (default "" body)) = false ->
  exists s',
    process_candidate' cid body s = (Ok Continue, s') /\
    for_candidates env analysis_tag model interval deadline ((cid, body) :: rest) s
    = for_candidates env analysis_tag model interval deadline rest s' /\
    n_calls s' = n_calls s /\
    Db.outcomes (Db.pending_db (conn s'))
    = <[(cid, analysis_tag) := Db.RowOk model]>
        (Db.outcomes (Db.pending_db (conn s))) /\
    Db.mentions (Db.pending_db (conn s')) = Db.mentions (Db.pending_db (conn s)) /\
    outcome s' = with_analyzed (S (analyzed (outcome s))) (outcome s) /\
    trace s'
    = (trace s ++ (if (S (analyzed (outcome s)) mod 50 =? 0)%nat
                   then [ECommit] else []))%list.
Proof.
  intros Hq Hd Htext Hflag Hhint.
  assert (Hstep : exists s',
             process_candidate' cid body s = (Ok Continue, s') /\
             n_calls s' = n_calls s /\
             Db.outcomes (Db.pending_db (conn s'))
             = <[(cid, analysis_tag) := Db.RowOk model]>
                 (Db.outcomes (Db.pending_db (conn s))) /\
             Db.mentions (Db.pending_db (conn s'))
             = Db.mentions (Db.pending_db (conn s)) /\
             outcome s' = with_analyzed (S (analyzed (outcome s))) (outcome s) /\
             trace s'
             = (trace s ++ (if (S (analyzed (outcome s)) mod 50 =? 0)%nat
                            then [ECommit] else []))%list).
  { unfold process_candidate.
    rewrite (bind_ok _ _ _ _ _ (deadline_not_elapsed s Hd)).
    rewrite Htext, Hflag, Hhint. cbn [negb andb]. unfold shortcut_skip.
    repeat qstep Hq. cbn.
    destruct (S (analyzed (outcome s)) mod 50 =? 0)%nat.
    - qstep Hq. eexists. split; [reflexivity |]. cbn. repeat split.
    - rewrite bind_ret. eexists. split; [reflexivity |]. cbn.
      rewrite app_nil_r. repeat split. }
  destruct Hstep as (s' & Hrun & Hfacts).
  exists s'. split; [exact Hrun |]. split; [| exact Hfacts].
  cbn [for_candidates]. rewrite (bind_ok _ _ _ _ _ Hrun). reflexivity.
Qed.

End Attempt.
Lemma C4_fatal_auth_commits_then_raises_witness :
  exists s',
    analyze_from (Scenario.failing_env Scenario.OAuthError "Incorrect API key")
      "default" "gpt-5-nano" 0 None 1 0 "c1" "buy AAA" []
      (Scenario.fresh Scenario.two_comments)
    = (Raise (Exc Scenario.OAuthError "Incorrect API key"), s') /\
    Db.pending_db (conn s') = Scenario.two_comments.
Proof.
  destruct (C4_fatal_auth_commits_then_raises
              (Scenario.failing_env Scenario.OAuthError "Incorrect API key")
              "default" "gpt-5-nano" 0 None 0 0 "c1" "buy AAA" []
              (Scenario.fresh Scenario.two_comments)
              Scenario.OAuthError "Incorrect API key")
    as (s' & Hrun & Hpending & _).
  - intros n _. reflexivity.
  - exact I.
  - reflexivity.
  - reflexivity.
  - exists s'. split; [exact Hrun | exact Hpending].
Defined.


Lemma C3_quota_stops_and_throttling_retries_witness :
  (exists s',
     analyze_from (Scenario.failing_env RateLimitError Scenario.quota_message)
       "default" "gpt-5-nano" 0 None 1 0 "c1" "buy AAA" []
       (Scenario.fresh Scenario.two_comments)
     = (Ok (outcome s'), s') /\
     stopped_reason (outcome s') = Some "quota") /\
  (exists s2,
     attempt_once (Scenario.failing_env RateLimitError Scenario.throttle_message)
       "default" "gpt-5-nano" 0 None 0 "c1" "buy AAA"
       (Scenario.fresh Scenario.two_comments)
     = (Ok Continue, s2) /\
     outcome s2 = mkOutcome 0 0 0 None).
Proof.
  split.
  - destruct (proj1 (C3_quota_stops_and_throttling_retries
                       (Scenario.failing_env RateLimitError Scenario.quota_message)
                       "default" "gpt-5-nano" 0 None 0 0 "c1" "buy AAA" []
                       (Scenario.fresh Scenario.two_comments)
                       RateLimitError Scenario.quota_message
                       (fun n _ => eq_refl) I eq_refl eq_refl eq_refl))
      as (s' & Hrun & Ho & _).
    + vm_compute. reflexivity.
    + exists s'. split; [exact Hrun | rewrite Ho; reflexivity].
  - destruct (proj2 (C3_quota_stops_and_throttling_retries
                       (Scenario.failing_env RateLimitError
                          Scenario.throttle_message)
                       "default" "gpt-5-nano" 0 None 0 0 "c1" "buy AAA" []
                       (Scenario.fresh Scenario.two_comments)
                       RateLimitError Scenario.throttle_message
                       (fun n _ => eq_refl) I eq_refl eq_refl eq_refl))
      as (s1 & s2 & _ & _ & Honce & _ & _ & _ & Ho & _).
    + vm_compute. reflexivity.
    + apply Nat.lt_0_succ.
    + exists s2. split; [exact Honce | exact Ho].
Defined.

Lemma C8_success_persists_and_commits_on_tenth_processed_witness :
  exists s',
    attempt_loop Scenario.paced_env "default" "gpt-5-nano" 0 None 1 0
      "c1" "buy AAA" (Scenario.fresh Scenario.two_comments)
    = (Ok Break, s') /\
    outcome s' = mkOutcome 1 0 1 None /\
    Db.committed (conn s') = Scenario.two_comments.
Proof.
  destruct (C8_success_persists_and_commits_on_tenth_processed
              Scenario.paced_env "default" "gpt-5-nano" 0 None 0 0
              "c1" "buy AAA" (Scenario.fresh Scenario.two_comments)
              [("AAA", bullish)] (fun n _ => eq_refl) I eq_refl)
    as (s' & Hrun & _ & _ & Ho & Hcommitted & _).
  exists s'. split; [exact Hrun |]. split; [exact Ho | exact Hcommitted].
Defined.

(** ** What a run can change

    [keeps R m]: whatever [m] returns or raises, the state it ends in is
    related by [R] to the state it started from.  For a reflexive and
    transitive [R] that every primitive state change respects, every piece of
    [analyze] keeps [R]. *)

Section Keeps.

Variable R : State -> State -> Prop.
Hypothesis R_refl : forall s, R s s.
Hypothesis R_trans : forall s1 s2 s3, R s1 s2 -> R s2 s3 -> R s1 s3.

Lemma keeps_ret {A} (a : A) : keeps R (ret a).
Proof. intros s. apply R_refl. Qed.

Lemma keeps_raise {A} (e : exn) : keeps R (@raise A e).
Proof. intros s. apply R_refl. Qed.

Lemma keeps_get {A} (f : State -> A) : keeps R (get f).
Proof. intros s. apply R_refl. Qed.

Lemma keeps_lift {A} (r : result A) : keeps R (lift r).
Proof. intros s. apply R_refl. Qed.

Lemma keeps_modify (f : State -> State) :
  (forall s, R s (f s)) -> keeps R (modify f).
Proof. intros H s. apply H. Qed.

Lemma keeps_bind {A B} (m : M A) (k : A -> M B) :
  keeps R m -> (forall a, keeps R (k a)) -> keeps R (bind m k).
Proof.
  intros Hm Hk s. unfold bind. specialize (Hm s).
  destruct (m s) as [[a | e] s1]; cbn in *; [| exact Hm].
  apply (R_trans _ _ _ Hm). apply Hk.
Qed.

Lemma keeps_try {A} (m : M A) (h : exn -> M A) :
  keeps R m -> (forall e, keeps R (h e)) -> keeps R (try_except m h).
Proof.
  intros Hm Hh s. unfold try_except. specialize (Hm s).
  destruct (m s) as [[a | e] s1]; cbn in *; [exact Hm |].
  apply (R_trans _ _ _ Hm). apply Hh.
Qed.

End Keeps.

(** One structural step of a [keeps] goal. *)
Ltac keeps_step :=
  lazymatch goal with
  | |- keeps _ (bind _ _) => apply keeps_bind; [assumption .. | | intros ?]
  | |- keeps _ (try_except _ _) => apply keeps_try; [assumption .. | | intros ?]
  | |- keeps _ (ret _) => apply keeps_ret; assumption
  | |- keeps _ (raise _) => apply keeps_raise; assumption
  | |- keeps _ (get _) => apply keeps_get; assumption
  | |- keeps _ (lift _) => apply keeps_lift; assumption
  | |- keeps _ _now => apply keeps_get; assumption
  | |- keeps _ (modify _) => apply keeps_modify; intros ?
  | |- keeps _ (if ?b then _ else _) => destruct b
  | |- keeps _ (match ?x with _ => _ end) => destruct x
  end.

(** The deadline test only reads the clock. *)
Lemma deadline_elapsed_reads deadline s :
  snd (deadline_elapsed deadline s) = s.
Proof. destruct deadline; reflexivity. Qed.

Lemma deadline_elapsed_total deadline s :
  exists b, deadline_elapsed deadline s = (Ok b, s).
Proof. destruct deadline; eexists; reflexivity. Qed.

Section Footprint.

Variable env : Env.
Variables (analysis_tag model : string) (interval : Q) (deadline : option Q).

Variable R : State -> State -> Prop.
Hypothesis R_refl : forall s, R s s.
Hypothesis R_trans : forall s1 s2 s3, R s1 s2 -> R s2 s3 -> R s1 s3.

(** The items this part of the run may call the classifier for and write
    Outcome rows and mentions for. *)
Variable allowed : string -> Prop.

(** The primitive state changes. *)
Hypothesis R_tick : forall s, R s (set_n_ops (S (n_ops s)) s).
Hypothesis R_log_interrupt : forall s db o, R s (log (EInterrupt db o) s).
Hypothesis R_log_cleanup : forall s, R s (log ECleanup s).
Hypothesis R_sleep :
  forall s d, sleep_ok deadline (clock s) d ->
    R s (set_clock (clock s + d)%Q (log (ESleep (clock s) d) s)).
Hypothesis R_commit : forall s, R s (log ECommit (set_conn (Db.commit (conn s)) s)).
Hypothesis R_delete :
  forall s tickers,
    R s (set_conn
           (Db.mkConn (Db.committed (conn s))
              (snd (Db.delete_mentions_for_tickers analysis_tag tickers
                      (Db.pending_db (conn s))))) s).
Hypothesis R_reason :
  forall s r, R s (set_outcome (with_stopped_reason r (outcome s)) s).
Hypothesis R_next_call_at : forall s t, R s (set_next_call_at t s).
Hypothesis R_count : forall s o, R s (set_outcome o s).
Hypothesis R_call :
  forall s cid d, allowed cid ->
    R s (set_clock (clock s + d)%Q
           (set_n_calls (S (n_calls s)) (log (ECall cid (clock s)) s))).
Hypothesis R_mark_ok :
  forall s cid, allowed cid ->
    R s (set_conn (Db.write (Db.mark_analyzed_ok analysis_tag cid model) (conn s)) s).
Hypothesis R_mark_error :
  forall s cid msg, allowed cid ->
    R s (set_conn
           (Db.write (Db.mark_analyzed_error analysis_tag cid model msg) (conn s)) s).
Hypothesis R_save_mentions :
  forall s cid rows, allowed cid ->
    R s (set_conn
           (Db.write (Db.save_mentions analysis_tag cid model rows) (conn s)) s).

Lemma keeps_checkpoint : keeps R (checkpoint env).
Proof.
  intros s. unfold checkpoint. destruct (interrupt env (n_ops s)); cbn.
  - apply (R_trans _ _ _ (R_tick s)). apply R_log_interrupt.
  - apply R_tick.
Qed.

Lemma keeps_conn_commit : keeps R (conn_commit env).
Proof.
  unfold conn_commit. keeps_step; [apply keeps_checkpoint |].
  keeps_step. apply R_commit.
Qed.

(** The sleep that [_sleep_with_deadline] makes respects the deadline. *)
Lemma keeps_sleep_with_deadline seconds :
  keeps R (_sleep_with_deadline env seconds deadline).
Proof.
  assert (Hsleep : forall s d, sleep_ok deadline (clock s) d ->
                     R s (snd (time_sleep env d s))).
  { intros s d Hok. unfold time_sleep, bind, checkpoint.
    destruct (interrupt env (n_ops s)); cbn.
    - apply (R_trans _ _ _ (R_tick s)). apply R_log_interrupt.
    - apply (R_trans _ _ _ (R_tick s)).
      apply (R_sleep (set_n_ops (S (n_ops s)) s) d). exact Hok. }
  intros s. unfold _sleep_with_deadline.
  destruct (Qle_bool seconds 0); [apply R_refl |].
  destruct deadline as [d |]; [| apply Hsleep; exact I].
  unfold _now. rewrite bind_get.
  destruct (Qle_bool (d - clock s) 0) eqn:Hrem; [apply R_refl |].
  apply Hsleep. split.
  - apply Qlt_minus_iff. apply Qnot_le_lt. intros Hle.
    apply Qle_bool_iff in Hle. unfold Qminus in Hrem. congruence.
  - apply Q.le_min_r.
Qed.

Lemma keeps_db_read {A} (f : Db.DB -> A) : keeps R (db_read env f).
Proof.
  unfold db_read. keeps_step; [apply keeps_checkpoint | keeps_step].
Qed.

Lemma keeps_db_write f :
  (forall s, R s (set_conn (Db.write f (conn s)) s)) -> keeps R (db_write env f).
Proof.
  intros Hf. unfold db_write. keeps_step; [apply keeps_checkpoint |].
  keeps_step. apply Hf.
Qed.

Lemma keeps_db_delete tickers :
  keeps R (db_delete_mentions env analysis_tag tickers).
Proof.
  unfold db_delete_mentions. keeps_step; [apply keeps_checkpoint |].
  intros s. cbn. apply R_delete.
Qed.

Lemma keeps_cleanup : keeps R (_cleanup_invalid_tickers env analysis_tag).
Proof.
  unfold _cleanup_invalid_tickers, oracle_find_invalid.
  keeps_step; [keeps_step; apply R_log_cleanup |].
  repeat first [apply keeps_db_read | apply keeps_db_delete
               | apply keeps_conn_commit | apply keeps_checkpoint | keeps_step].
Qed.

Lemma keeps_set_reason r : keeps R (set_reason r).
Proof. unfold set_reason. keeps_step. apply R_reason. Qed.

Lemma keeps_stop_timeout : keeps R (stop_timeout env analysis_tag).
Proof.
  unfold stop_timeout.
  repeat first [apply keeps_set_reason | apply keeps_conn_commit
               | apply keeps_cleanup | keeps_step].
Qed.

Lemma keeps_deadline_elapsed : keeps R (deadline_elapsed deadline).
Proof. intros s. rewrite deadline_elapsed_reads. apply R_refl. Qed.

Lemma keeps_pace : keeps R (_pace env interval deadline).
Proof.
  unfold _pace.
  repeat first [apply keeps_sleep_with_deadline | apply R_next_call_at | keeps_step].
Qed.

Lemma keeps_analyze_comment cid text :
  allowed cid -> keeps R (analyze_comment env cid model text).
Proof.
  intros Hcid. unfold analyze_comment. keeps_step; [apply keeps_checkpoint |].
  intros s. cbn zeta.
  destruct (resp_result _); cbn;
    (eapply R_trans;
     [apply (R_call s cid (resp_seconds (classify env (n_calls s) model text))
               Hcid)
     | apply R_refl]).
Qed.

Lemma keeps_attempt_body cid text :
  allowed cid ->
  keeps R (attempt_body env analysis_tag model interval deadline cid text).
Proof.
  intros Hcid. unfold attempt_body.
  repeat first [apply keeps_pace | apply (keeps_analyze_comment _ _ Hcid)
               | apply keeps_conn_commit | apply R_count
               | apply keeps_db_write; intros ?;
                 first [apply (R_save_mentions _ _ _ Hcid) | apply (R_mark_ok _ _ Hcid)]
               | keeps_step].
Qed.

Lemma keeps_on_inner_interrupt :
  keeps R (on_inner_interrupt env analysis_tag).
Proof.
  unfold on_inner_interrupt.
  repeat first [apply keeps_set_reason | apply keeps_conn_commit
               | apply keeps_cleanup | keeps_step].
Qed.

Lemma keeps_on_exception attempt cid e :
  allowed cid ->
  keeps R (on_exception env analysis_tag model deadline attempt cid e).
Proof.
  intros Hcid. unfold on_exception, retry_after_backoff.
  repeat first [apply keeps_set_reason | apply keeps_conn_commit
               | apply keeps_cleanup | apply keeps_sleep_with_deadline
               | apply R_count
               | apply keeps_db_write; intros ?; apply (R_mark_error _ _ _ Hcid)
               | keeps_step].
Qed.

Lemma keeps_attempt_once attempt cid text :
  allowed cid ->
  keeps R (attempt_once env analysis_tag model interval deadline attempt cid text).
Proof.
  intros Hcid. unfold attempt_once.
  keeps_step; [apply (keeps_attempt_body _ _ Hcid) |].
  destruct e;
    [apply keeps_on_inner_interrupt | apply (keeps_on_exception _ _ _ Hcid)
    | keeps_step].
Qed.

Lemma keeps_attempt_loop budget : forall attempt cid text,
  allowed cid ->
  keeps R (attempt_loop env analysis_tag model interval deadline budget attempt
             cid text).
Proof.
  induction budget as [| budget IH]; intros attempt cid text Hcid;
    cbn [attempt_loop]; [keeps_step |].
  keeps_step; [apply keeps_deadline_elapsed |].
  keeps_step; [apply keeps_stop_timeout |].
  keeps_step; [apply (keeps_attempt_once _ _ _ Hcid) |].
  keeps_step; [keeps_step | apply (IH _ _ _ Hcid) | keeps_step].
Qed.

Lemma keeps_shortcut_skip cid :
  allowed cid -> keeps R (shortcut_skip env analysis_tag model cid).
Proof.
  intros Hcid. unfold shortcut_skip.
  repeat first [apply keeps_conn_commit | apply R_count
               | apply keeps_db_write; intros ?; apply (R_mark_ok _ _ Hcid)
               | keeps_step].
Qed.

Lemma keeps_process_candidate cid body :
  allowed cid ->
  keeps R (process_candidate env analysis_tag model interval deadline cid body).
Proof.
  intros Hcid. unfold process_candidate.
  keeps_step; [apply keeps_deadline_elapsed |].
  keeps_step; [apply keeps_stop_timeout |].
  keeps_step; [keeps_step |].
  keeps_step; [apply (keeps_shortcut_skip _ Hcid) |].
  apply (keeps_attempt_loop _ _ _ _ Hcid).
Qed.

Lemma keeps_for_candidates candidates :
  Forall (fun c => allowed (fst c)) candidates ->
  keeps R (for_candidates env analysis_tag model interval deadline candidates).
Proof.
  induction 1 as [| [cid body] rest Hcid Hrest IH]; cbn [for_candidates];
    [keeps_step |].
  keeps_step; [apply (keeps_process_candidate _ _ Hcid) |].
  keeps_step; first [exact IH | keeps_step].
Qed.

Lemma keeps_analyze_try candidates :
  Forall (fun c => allowed (fst c)) candidates ->
  keeps R (analyze_try env analysis_tag model interval deadline candidates).
Proof.
  intros Hall. unfold analyze_try, analyze_body, outer_handler, on_outer_interrupt.
  repeat first [apply (keeps_for_candidates _ Hall) | apply keeps_set_reason
               | apply keeps_conn_commit | apply keeps_cleanup | keeps_step].
Qed.

End Footprint.

(** ** Candidate selection *)

Lemma In_firstn {A} (x : A) n : forall l, In x (firstn n l) -> In x l.
Proof.
  induction n as [| n IH]; intros [| y l]; cbn; try tauto.
  intros [-> | Hin]; [left; reflexivity | right; apply IH; exact Hin].
Qed.

(** An item with an [ok] Outcome under the tag is never a candidate. *)
Lemma fetch_candidates_skips_ok db analysis_tag limit retry_errors subreddits
    cid model :
  Db.outcomes db !! (cid, analysis_tag) = Some (Db.RowOk model) ->
  Forall (fun c => fst c <> cid)
    (Db.fetch_candidates db analysis_tag limit retry_errors subreddits).
Proof.
  intros Hrow. apply List.Forall_forall. intros [c body] Hin Heq.
  cbn in Heq. subst c. unfold Db.fetch_candidates in Hin.
  apply in_map_iff in Hin. destruct Hin as (it & Hit & Hin).
  apply In_firstn in Hin. apply filter_In in Hin. destruct Hin as [_ Hpend].
  injection Hit as Hid _. apply andb_prop in Hpend. destruct Hpend as [_ Hpend].
  unfold Db.pending in Hpend. rewrite Hid, Hrow in Hpend. discriminate.
Qed.

(** An item without an Outcome under the tag is selected by every fetch
    whose channel filter admits it and whose limit is not below the number
    of pending items the filter admits. *)
Lemma fetch_candidates_selects_pending db analysis_tag limit retry_errors
    subreddits it :
  In it (Db.items db) ->
  Db.outcomes db !! (Db.comment_id it, analysis_tag) = None ->
  Db.in_channels subreddits it = true ->
  (length (List.filter
             (fun i => Db.in_channels subreddits i
                       && Db.pending db analysis_tag retry_errors i)
             (Db.items db)) <= limit)%nat ->
  In (Db.comment_id it, Db.body it)
     (Db.fetch_candidates db analysis_tag limit retry_errors subreddits).
Proof.
  intros Hin Hrow Hchan Hlimit. unfold Db.fetch_candidates.
  rewrite (firstn_all2 _ Hlimit).
  apply in_map_iff. exists it. split; [reflexivity |].
  apply filter_In. split; [exact Hin |].
  rewrite Hchan. unfold Db.pending. rewrite Hrow. reflexivity.
Qed.

(** ** The blank candidate *)

Lemma untouched_refl s : untouched s s.
Proof. split; reflexivity. Qed.

Lemma untouched_trans s1 s2 s3 :
  untouched s1 s2 -> untouched s2 s3 -> untouched s1 s3.
Proof. intros [] []. split; congruence. Qed.

Lemma stop_timeout_untouched env analysis_tag :
  keeps untouched (stop_timeout env analysis_tag).
Proof.
  apply keeps_stop_timeout;
    first [exact untouched_refl | exact untouched_trans
          | intros; split; reflexivity].
Qed.

(** C10 (amended).  A candidate whose body is empty after trimming is passed
    over: no classifier call is made, no Outcome row is written and no
    counter moves, whether the loop goes on, which it does with the state
    unchanged when the deadline has not elapsed, or stops on the deadline.
    The item therefore stays pending, and every later fetch under the same
    tag selects it again provided the channel filter admits it and the limit
    is not below the number of pending items admitted. *)
Theorem C10_blank_candidate_is_passed_over_and_stays_pending
    env analysis_tag model interval deadline cid body s
    (Hblank : PyStr.truthy (PyStr.strip (default "" body)) = false) :
  untouched s
    (snd (process_candidate env analysis_tag model interval deadline cid body s)) /\
  (before_deadline deadline s ->
   process_candidate env analysis_tag model interval deadline cid body s
   = (Ok Continue, s)) /\
  (forall db limit retry_errors subreddits it,
     In it (Db.items db) ->
     Db.comment_id it = cid ->
     Db.outcomes db !! (cid, analysis_tag) = None ->
     Db.in_channels subreddits it = true ->
     (length (List.filter
                (fun i => Db.in_channels subreddits i
                          && Db.pending db analysis_tag retry_errors i)
                (Db.items db)) <= limit)%nat ->
     In (cid, Db.body it)
        (Db.fetch_candidates db analysis_tag limit retry_errors subreddits)).
Proof.
  split; [| split].
  - unfold process_candidate. rewrite Hblank. cbn [negb].
    apply (keeps_bind untouched untouched_trans).
    + apply (keeps_deadline_elapsed deadline untouched untouched_refl).
    + intros [|]; [apply stop_timeout_untouched |].
      apply keeps_ret. exact untouched_refl.
  - intros Hd. unfold process_candidate.
    rewrite (bind_ok _ _ _ _ _ (deadline_not_elapsed deadline s Hd)).
    rewrite Hblank. reflexivity.
  - intros db limit retry_errors subreddits it Hin Hid Hrow Hchan Hlimit.
    subst cid.
    apply fetch_candidates_selects_pending; assumption.
Qed.

Lemma C10_blank_candidate_is_passed_over_and_stays_pending_witness :
  process_candidate Scenario.paced_env "default" "gpt-5-nano" 0 None
    "c1" (Some Scenario.blank_body) (Scenario.fresh Scenario.blank_comment)
  = (Ok Continue, Scenario.fresh Scenario.blank_comment) /\
  In ("c1", Some Scenario.blank_body)
     (Db.fetch_candidates Scenario.blank_comment "default" 1 false
        (Some ["stocks"])).
Proof.
  destruct (C10_blank_candidate_is_passed_over_and_stays_pending
              Scenario.paced_env "default" "gpt-5-nano" 0 None
              "c1" (Some Scenario.blank_body) (Scenario.fresh Scenario.blank_comment)
              eq_refl)
    as (_ & Hskip & Hfetch).
  split; [exact (Hskip I) |].
  apply (Hfetch Scenario.blank_comment 1%nat false (Some ["stocks"])
           (Scenario.item "c1" "stocks" Scenario.blank_body));
    [left; reflexivity | reflexivity | reflexivity | reflexivity
    | vm_compute; lia].
Defined.

(** ** An item with an [ok] Outcome is left alone *)

Lemma leaves_alone_refl cid tag s : leaves_alone cid tag s s.
Proof.
  split; [| reflexivity]. exists []. rewrite app_nil_r. split; reflexivity.
Qed.

Lemma leaves_alone_trans cid tag s1 s2 s3 :
  leaves_alone cid tag s1 s2 -> leaves_alone cid tag s2 s3 ->
  leaves_alone cid tag s1 s3.
Proof.
  intros [(evs1 & Ht1 & Hf1) Hr1] [(evs2 & Ht2 & Hf2) Hr2].
  split; [| congruence].
  exists (evs1 ++ evs2)%list. rewrite Ht2, Ht1, <- app_assoc.
  split; [reflexivity |]. rewrite forallb_app, Hf1, Hf2. reflexivity.
Qed.

(** A state change that logs nothing and writes no Outcome row. *)
Lemma leaves_alone_silent cid tag s s' :
  trace s' = trace s ->
  Db.outcomes (Db.pending_db (conn s')) = Db.outcomes (Db.pending_db (conn s)) ->
  leaves_alone cid tag s s'.
Proof.
  intros Ht Ho. split; [| rewrite Ho; reflexivity].
  exists []. rewrite app_nil_r. split; [exact Ht | reflexivity].
Qed.

(** A state change that logs one event, not a call for [cid], and writes no
    Outcome row. *)
Lemma leaves_alone_logged cid tag s s' e :
  trace s' = (trace s ++ [e])%list ->
  is_call_for cid e = false ->
  Db.outcomes (Db.pending_db (conn s')) = Db.outcomes (Db.pending_db (conn s)) ->
  leaves_alone cid tag s s'.
Proof.
  intros Ht He Ho. split; [| rewrite Ho; reflexivity].
  exists [e]. split; [exact Ht |]. cbn. rewrite He. reflexivity.
Qed.

Lemma is_call_for_other cid c t : c <> cid -> is_call_for cid (ECall c t) = false.
Proof.
  intros Hne. cbn. destruct (String.eqb_spec c cid); [contradiction | reflexivity].
Qed.

Lemma analyze_try_leaves_alone env analysis_tag model interval deadline cid
    candidates :
  Forall (fun c => fst c <> cid) candidates ->
  keeps (leaves_alone cid analysis_tag)
    (analyze_try env analysis_tag model interval deadline candidates).
Proof.
  intros Hall.
  apply (keeps_analyze_try env analysis_tag model interval deadline
           (leaves_alone cid analysis_tag)
           (leaves_alone_refl cid analysis_tag)
           (leaves_alone_trans cid analysis_tag)
           (fun c => c <> cid));
    try exact Hall;
    try (intros; apply leaves_alone_silent; reflexivity);
    try (intros; eapply leaves_alone_logged; reflexivity).
  - intros s c d Hne. eapply leaves_alone_logged;
      [reflexivity | apply is_call_for_other; exact Hne | reflexivity].
  - intros s c Hne. split; [exists []; rewrite app_nil_r; split; reflexivity |].
    cbn. rewrite lookup_insert_ne; [reflexivity |]. congruence.
  - intros s c msg Hne.
    split; [exists []; rewrite app_nil_r; split; reflexivity |].
    cbn. rewrite lookup_insert_ne; [reflexivity |]. congruence.
Qed.

(** A whole [analyze] call, started on tables in which ([cid], [tag]) has an
    [ok] Outcome, leaves [cid] alone. *)
Lemma analyze_leaves_decided_alone env analysis_tag model limit retry_errors
    max_requests_per_minute subreddits timeout_seconds cid done_by s :
  Db.outcomes (Db.pending_db (conn s)) !! (cid, analysis_tag)
  = Some (Db.RowOk done_by) ->
  leaves_alone cid analysis_tag s
    (snd (analyze env analysis_tag model limit retry_errors
            max_requests_per_minute subreddits timeout_seconds s)).
Proof.
  intros Hrow. unfold analyze.
  rewrite bind_modify. unfold _now at 1. rewrite bind_get.
  unfold read_secret, db_read.
  unfold bind at 1. unfold bind at 1. unfold checkpoint at 1.
  cbn [n_ops set_outcome].
  destruct (interrupt env (n_ops s)).
  { cbn. eapply leaves_alone_logged; reflexivity. }
  cbn [ret].
  destruct (negb (PyStr.truthy (default "" (get_secret env "OPENAI_API_KEY")))).
  { cbn. apply leaves_alone_silent; reflexivity. }
  unfold bind at 1. unfold bind at 1. unfold checkpoint at 1.
  cbn [n_ops set_n_ops set_outcome].
  destruct (interrupt env (S (n_ops s))).
  { cbn. eapply leaves_alone_logged; reflexivity. }
  cbn [get]. unfold _now at 1. rewrite bind_get, bind_modify.
  match goal with
  | |- leaves_alone _ _ _ (snd (analyze_try _ _ _ ?i ?d ?c ?s0)) =>
      apply (leaves_alone_trans cid analysis_tag s s0);
      [apply leaves_alone_silent; reflexivity
      | apply (analyze_try_leaves_alone env analysis_tag model i d cid c)]
  end.
  apply (fetch_candidates_skips_ok _ _ _ _ _ _ done_by). exact Hrow.
Qed.

(** C6 (amended).  When the shortcut is enabled and the heuristic finds no
    finance hint in a candidate's text, and the user does not interrupt the
    step, [analyze] makes no classifier call for it, writes the Outcome [ok]
    for (item, tag) and no mention, adds one to [analyzed], and goes on to
    the next candidate.  Any later [analyze] call under the same tag that
    starts on tables in which that Outcome row is as the skip left it
    starts no classifier call for the item and does not write its row
    again. *)
Theorem C6_shortcut_skip_is_recorded_and_final
    env analysis_tag model interval deadline cid body rest s
    (Hquiet : quiet env (n_ops s))
    (Hdeadline : before_deadline deadline s)
    (Htext : PyStr.truthy (PyStr.strip (default "" body)) = true)
    (Hflag : ENABLE_KEYWORD_SHORTCUT env = true)
    (Hhint : has_finance_hint env (PyStr.strip (default "" body)) = false) :
  exists s',
    process_candidate env analysis_tag model interval deadline cid body s
    = (Ok Continue, s') /\
    for_candidates env analysis_tag model interval deadline ((cid, body) :: rest) s
    = for_candidates env analysis_tag model interval deadline rest s' /\
    n_calls s' = n_calls s /\
    Db.outcomes (Db.pending_db (conn s'))
    = <[(cid, analysis_tag) := Db.RowOk model]>
        (Db.outcomes (Db.pending_db (conn s))) /\
    Db.mentions (Db.pending_db (conn s')) = Db.mentions (Db.pending_db (conn s)) /\
    outcome s' = with_analyzed (S (analyzed (outcome s))) (outcome s) /\
    trace s'
    = (trace s ++ (if (S (analyzed (outcome s)) mod 50 =? 0)%nat
                   then [ECommit] else []))%list /\
    forall env2 model2 limit retry_errors max_requests_per_minute subreddits
           timeout_seconds s2,
      Db.outcomes (Db.pending_db (conn s2)) !! (cid, analysis_tag)
      = Db.outcomes (Db.pending_db (conn s')) !! (cid, analysis_tag) ->
      leaves_alone cid analysis_tag s2
        (snd (analyze env2 analysis_tag model2 limit retry_errors
                max_requests_per_minute subreddits timeout_seconds s2)).
Proof.
  destruct (shortcut_skip_records_ok env analysis_tag model interval deadline
              cid body rest s Hquiet Hdeadline Htext Hflag Hhint)
    as (s' & Hrun & Hfor & Hcalls & Hrows & Hment & Hout & Htrace).
  exists s'. repeat (split; [assumption |]).
  intros env2 model2 limit retry_errors rpm subreddits timeout_seconds s2 Hrow.
  apply (analyze_leaves_decided_alone _ _ _ _ _ _ _ _ _ model).
  rewrite Hrow, Hrows. apply lookup_insert_eq.
Qed.

Lemma C6_shortcut_skip_is_recorded_and_final_witness :
  exists s',
    process_candidate Scenario.shortcut_env "default" "gpt-5-nano" 0 None
      "c0" (Some "hello") (Scenario.fresh Scenario.mixed_comments)
    = (Ok Continue, s') /\
    n_calls s' = 0%nat /\
    leaves_alone "c0" "default" s'
      (snd (analyze Scenario.shortcut_env "default" "gpt-5-nano" 100 false 0
              None None s')).
Proof.
  destruct (C6_shortcut_skip_is_recorded_and_final
              Scenario.shortcut_env "default" "gpt-5-nano" 0 None
              "c0" (Some "hello") [] (Scenario.fresh Scenario.mixed_comments)
              (fun n _ => eq_refl) I eq_refl eq_refl eq_refl)
    as (s' & Hrun & _ & Hcalls & _ & _ & _ & _ & Hlater).
  exists s'. split; [exact Hrun |]. split; [exact Hcalls |].
  apply Hlater. reflexivity.
Defined.

(** ** A single Ctrl+C inside the outer [try]

    In this section the user's Ctrl+C is delivered once, when primitive
    operation number [k] is about to start. *)

Section Interrupted.

Variable env : Env.
Variables (analysis_tag model : string) (interval : Q) (deadline : option Q).
Variable k : nat.
Hypothesis Hsingle : forall n, interrupt env n = Nat.eqb n k.

Lemma quiet_after s : (k < n_ops s)%nat -> quiet env (n_ops s).
Proof.
  intros Hlt n Hn. rewrite Hsingle. apply Nat.eqb_neq. lia.
Qed.

Lemma frozen_app evs1 evs2 s : frozen evs2 s -> frozen (evs1 ++ evs2) s.
Proof.
  intros (pre & ->). exists (evs1 ++ pre)%list. rewrite app_assoc. reflexivity.
Qed.

Lemma handled_app evs1 evs2 s : handled evs2 s -> handled (evs1 ++ evs2) s.
Proof.
  intros (pre & db & o & post & -> & Ho & Hc).
  exists (evs1 ++ pre)%list, db, o, post. rewrite app_assoc. auto.
Qed.

Lemma pend_weaken {A} (P P' : A -> State -> Prop) (m : M A) :
  (forall a s, P a s -> P' a s) -> pend k P m -> pend k P' m.
Proof.
  intros Hsub Hm s Hs. destruct (Hm s Hs) as (evs & Ht & Hcases).
  exists evs. split; [exact Ht |].
  destruct Hcases as [Ha | [Hb | (Hlt & (a & Hr & Hp) & Hh)]]; auto.
  right. right. split; [exact Hlt |]. split; [| exact Hh].
  exists a. auto.
Qed.

(** Sequencing: when the interruption was handled inside [m], the
    continuation must be a plain return. *)
Lemma pend_bind {A B} (P : A -> State -> Prop) (P' : B -> State -> Prop)
    (m : M A) (f : A -> M B) :
  pend k P m ->
  (forall a, pend k P' (f a)) ->
  (forall a s, P a s -> exists b, f a s = (Ok b, s) /\ P' b s) ->
  pend k P' (bind m f).
Proof.
  intros Hm Hf Hret s Hs. unfold bind.
  destruct (Hm s Hs) as (evs1 & Ht1 & Hcases).
  destruct (m s) as [[a | e] s1]; cbn in *.
  - destruct Hcases as [[Hle _] | [(_ & Hr & _) | (Hlt & (a' & Hr & Hp) & Hh)]].
    + destruct (Hf a s1 Hle) as (evs2 & Ht2 & Hcases2).
      exists (evs1 ++ evs2)%list. rewrite Ht2, Ht1, <- app_assoc.
      split; [reflexivity |].
      destruct Hcases2 as [Ha | [(Hlt & Hr & Hfr) | (Hlt & Hr & Hh)]].
      * left. exact Ha.
      * right. left. split; [exact Hlt |]. split; [exact Hr |].
        apply frozen_app. exact Hfr.
      * right. right. split; [exact Hlt |]. split; [exact Hr |].
        apply handled_app. exact Hh.
    + discriminate.
    + injection Hr as <-. destruct (Hret a s1 Hp) as (b & Hrun & Hp').
      rewrite Hrun. cbn. exists evs1. split; [exact Ht1 |].
      right. right. split; [exact Hlt |]. split; [| exact Hh].
      exists b. auto.
  - exists evs1. split; [exact Ht1 |].
    destruct Hcases as [[Hle Hne] | [(Hlt & Hr & Hfr) | (_ & (a' & Hr & _) & _)]];
      [left | right; left | discriminate].
    + split; [exact Hle |]. intros [= ->]. apply Hne. reflexivity.
    + split; [exact Hlt |]. split; [| exact Hfr]. injection Hr as ->. reflexivity.
Qed.

Lemma pend_bind_plain {A B} (P' : B -> State -> Prop) (m : M A) (f : A -> M B) :
  pend k never_ret m -> (forall a, pend k P' (f a)) -> pend k P' (bind m f).
Proof.
  intros Hm Hf. apply (pend_bind never_ret P' m f Hm Hf).
  intros a s [].
Qed.

(** A [try] whose [except KeyboardInterrupt] clause is [h KeyboardInterrupt]. *)
Lemma pend_try {A} (P P' : A -> State -> Prop) (m : M A) (h : exn -> M A) :
  pend k P m ->
  (forall e, e <> KeyboardInterrupt -> pend k P' (h e)) ->
  (forall s1, (k < n_ops s1)%nat -> rescued k P' (h KeyboardInterrupt) s1) ->
  (forall a s, P a s -> P' a s) ->
  pend k P' (try_except m h).
Proof.
  intros Hm Hother Hki Hsub s Hs. unfold try_except.
  destruct (Hm s Hs) as (evs1 & Ht1 & Hcases).
  destruct (m s) as [[a | e] s1]; cbn in *.
  - exists evs1. split; [exact Ht1 |].
    destruct Hcases as [Ha | [(_ & Hr & _) | (Hlt & (a' & Hr & Hp) & Hh)]];
      [left; exact Ha | discriminate |].
    right. right. split; [exact Hlt |]. split; [| exact Hh].
    exists a'. split; [exact Hr |]. apply Hsub. exact Hp.
  - destruct Hcases as [[Hle Hne] | [(Hlt & Hr & Hfr) | (_ & (a' & Hr & _) & _)]];
      [| | discriminate].
    + assert (He : e <> KeyboardInterrupt) by congruence.
      destruct (Hother e He s1 Hle) as (evs2 & Ht2 & Hcases2).
      exists (evs1 ++ evs2)%list. rewrite Ht2, Ht1, <- app_assoc.
      split; [reflexivity |].
      destruct Hcases2 as [Ha | [(Hlt & Hr & Hfr) | (Hlt & Hr & Hh)]].
      * left. exact Ha.
      * right. left. split; [exact Hlt |]. split; [exact Hr |].
        apply frozen_app. exact Hfr.
      * right. right. split; [exact Hlt |]. split; [exact Hr |].
        apply handled_app. exact Hh.
    + injection Hr as ->.
      destruct (Hki s1 Hlt) as (b & s2 & post & Hrun & Hp' & Hlt2 & Ht2 & Ho & Hc).
      rewrite Hrun. cbn. destruct Hfr as (pre & ->).
      exists ((pre ++ [EInterrupt (Db.pending_db (conn s1)) (outcome s1)])
              ++ ECommit :: ECleanup :: post)%list.
      cbn [fst snd]. rewrite Ht2, Ht1, <- !app_assoc. split; [reflexivity |].
      right. right. split; [exact Hlt2 |]. split; [exists b; auto |].
      exists pre, (Db.pending_db (conn s1)), (outcome s1), post.
      cbn. auto.
Qed.

(** *** The primitives *)

Lemma pend_ret {A} (P : A -> State -> Prop) (a : A) : pend k P (ret a).
Proof.
  intros s Hs. exists []. cbn. rewrite app_nil_r. split; [reflexivity |].
  left. split; [exact Hs | discriminate].
Qed.

Lemma pend_get {A} (P : A -> State -> Prop) (f : State -> A) : pend k P (get f).
Proof.
  intros s Hs. exists []. cbn. rewrite app_nil_r. split; [reflexivity |].
  left. split; [exact Hs | discriminate].
Qed.

Lemma pend_raise {A} (P : A -> State -> Prop) (e : exn) :
  e <> KeyboardInterrupt -> pend k P (raise e).
Proof.
  intros He s Hs. exists []. cbn. rewrite app_nil_r. split; [reflexivity |].
  left. split; [exact Hs | congruence].
Qed.

Lemma pend_backoff (P : Q -> State -> Prop) attempt :
  pend k P (lift (_backoff_seconds attempt)).
Proof.
  intros s Hs. exists []. cbn. rewrite app_nil_r. split; [reflexivity |].
  left. split; [exact Hs |]. unfold _backoff_seconds.
  destruct (1024 <=? attempt)%nat; discriminate.
Qed.

Lemma pend_modify (P : unit -> State -> Prop) (f : State -> State) :
  (forall s, n_ops (f s) = n_ops s) ->
  (forall s, exists evs, trace (f s) = (trace s ++ evs)%list) ->
  pend k P (modify f).
Proof.
  intros Hn Ht s Hs. destruct (Ht s) as (evs & Hevs).
  exists evs. cbn. split; [exact Hevs |].
  left. rewrite Hn. split; [exact Hs | discriminate].
Qed.

Lemma pend_checkpoint (P : unit -> State -> Prop) : pend k P (checkpoint env).
Proof.
  intros s Hs. unfold checkpoint. rewrite Hsingle.
  destruct (Nat.eqb_spec (n_ops s) k) as [Heq | Hne].
  - exists [EInterrupt (Db.pending_db (conn s)) (outcome s)]. cbn.
    split; [reflexivity |]. right. left.
    split; [lia |]. split; [reflexivity |]. exists []. reflexivity.
  - exists []. cbn. rewrite app_nil_r. split; [reflexivity |].
    left. split; [lia | discriminate].
Qed.

(** Close the side conditions of [pend_modify]. *)
Ltac pend_trace :=
  intros ?; cbn;
  first [ exists []; rewrite app_nil_r; reflexivity
        | eexists [_]; reflexivity ].

(** One structural step of a [pend] goal for a piece without a handler. *)
Ltac pend_step :=
  lazymatch goal with
  | |- pend _ _ (bind _ _) => apply pend_bind_plain; [| intros ?]
  | |- pend _ _ (ret _) => apply pend_ret
  | |- pend _ _ (get _) => apply pend_get
  | |- pend _ _ _now => apply pend_get
  | |- pend _ _ (checkpoint _) => apply pend_checkpoint
  | |- pend _ _ (modify _) => apply pend_modify; [intros ?; reflexivity | pend_trace]
  | |- pend _ _ (if ?b then _ else _) => destruct b
  | |- pend _ _ (match ?x with _ => _ end) => destruct x
  end.

Lemma pend_analyze_comment (P : list (string * Sentiment) -> State -> Prop)
    cid text :
  pend k P (analyze_comment env cid model text).
Proof.
  unfold analyze_comment. pend_step; [pend_step |].
  intros s Hs. exists [ECall cid (clock s)]. cbn zeta.
  destruct (resp_result _); cbn; (split; [reflexivity |]);
    left; (split; [exact Hs | discriminate]).
Qed.

Lemma pend_db_delete (P : nat -> State -> Prop) tickers :
  pend k P (db_delete_mentions env analysis_tag tickers).
Proof.
  unfold db_delete_mentions. pend_step; [pend_step |].
  intros s Hs. exists []. cbn. rewrite app_nil_r. split; [reflexivity |].
  left. split; [exact Hs | discriminate].
Qed.

(** *** The pieces without a handler *)

Lemma pend_conn_commit (P : unit -> State -> Prop) : pend k P (conn_commit env).
Proof. unfold conn_commit. repeat pend_step. Qed.

Lemma pend_time_sleep (P : unit -> State -> Prop) d : pend k P (time_sleep env d).
Proof. unfold time_sleep. repeat pend_step. Qed.

Lemma pend_sleep_with_deadline (P : unit -> State -> Prop) seconds :
  pend k P (_sleep_with_deadline env seconds deadline).
Proof.
  unfold _sleep_with_deadline. repeat first [apply pend_time_sleep | pend_step].
Qed.

Lemma pend_db_write (P : unit -> State -> Prop) f : pend k P (db_write env f).
Proof. unfold db_write. repeat pend_step. Qed.

Lemma pend_db_read {A} (P : A -> State -> Prop) (f : Db.DB -> A) :
  pend k P (db_read env f).
Proof. unfold db_read. repeat pend_step. Qed.

Lemma pend_cleanup (P : nat -> State -> Prop) :
  pend k P (_cleanup_invalid_tickers env analysis_tag).
Proof.
  unfold _cleanup_invalid_tickers, oracle_find_invalid.
  repeat first [apply pend_db_read | apply pend_db_delete
               | apply pend_conn_commit | pend_step].
Qed.

Lemma pend_set_reason (P : unit -> State -> Prop) r : pend k P (set_reason r).
Proof. unfold set_reason. repeat pend_step. Qed.

Lemma pend_stop_timeout (P : ctl -> State -> Prop) :
  pend k P (stop_timeout env analysis_tag).
Proof.
  unfold stop_timeout.
  repeat first [apply pend_set_reason | apply pend_conn_commit
               | apply pend_cleanup | pend_step].
Qed.

Lemma pend_deadline_elapsed (P : bool -> State -> Prop) :
  pend k P (deadline_elapsed deadline).
Proof. unfold deadline_elapsed. repeat pend_step. Qed.

Lemma pend_pace (P : unit -> State -> Prop) : pend k P (_pace env interval deadline).
Proof.
  unfold _pace. repeat first [apply pend_sleep_with_deadline | pend_step].
Qed.

Lemma pend_attempt_body (P : ctl -> State -> Prop) cid text :
  pend k P (attempt_body env analysis_tag model interval deadline cid text).
Proof.
  unfold attempt_body.
  repeat first [apply pend_pace | apply pend_analyze_comment
               | apply pend_db_write | apply pend_conn_commit | pend_step].
Qed.

Lemma pend_on_exception (P : ctl -> State -> Prop) attempt cid cls msg :
  pend k P (on_exception env analysis_tag model deadline attempt cid (Exc cls msg)).
Proof.
  unfold on_exception, retry_after_backoff.
  repeat first [apply pend_set_reason | apply pend_conn_commit
               | apply pend_cleanup | apply pend_sleep_with_deadline
               | apply pend_db_write | apply pend_backoff
               | apply pend_raise; discriminate | pend_step].
Qed.

Lemma pend_shortcut_skip (P : ctl -> State -> Prop) cid :
  pend k P (shortcut_skip env analysis_tag model cid).
Proof.
  unfold shortcut_skip.
  repeat first [apply pend_db_write | apply pend_conn_commit | pend_step].
Qed.

(** *** The handlers and the loops *)

(** Commit, set the reason, run the post-pass, return: the two
    [except KeyboardInterrupt] clauses, once the keyboard is quiet. *)
Lemma interrupt_clause_quiet {A} (f : M A) (v : State -> A) s1 :
  (forall s, f s = (Ok (v s), s)) ->
  (k < n_ops s1)%nat ->
  exists s2 post,
    (conn_commit env ;; set_reason "ctrl_c" ;;
     _cleanup_invalid_tickers env analysis_tag ;; f) s1 = (Ok (v s2), s2) /\
    (k < n_ops s2)%nat /\
    trace s2 = (trace s1 ++ ECommit :: ECleanup :: post)%list /\
    outcome s2 = with_stopped_reason (Some "ctrl_c") (outcome s1) /\
    Db.outcomes (Db.committed (conn s2)) = Db.outcomes (Db.pending_db (conn s1)).
Proof.
  intros Hf Hlt. pose proof (quiet_after s1 Hlt) as Hq.
  qstep Hq. unfold set_reason. rewrite bind_modify.
  match goal with
  | |- context [bind (_cleanup_invalid_tickers env analysis_tag) _ ?s0] =>
      destruct (cleanup_quiet env analysis_tag s0) as (n & s2 & Hrun & Hpost);
      [quiet_side Hq |]
  end.
  rewrite (bind_ok _ _ _ _ _ Hrun), Hf.
  destruct Hpost as [[Hbo Hbc Hbn] Hclock Hout Hitems Hcomm (post & Htr & _)].
  exists s2, post. cbn in *.
  split; [reflexivity |]. split; [lia |]. split.
  { rewrite Htr, <- app_assoc. reflexivity. }
  split; [exact Hbo |].
  destruct Hcomm as [-> | Heq]; [reflexivity |].
  rewrite Heq. exact Hout.
Qed.

Lemma rescued_inner s1 :
  (k < n_ops s1)%nat ->
  rescued k is_return (on_inner_interrupt env analysis_tag) s1.
Proof.
  intros Hlt.
  destruct (interrupt_clause_quiet (ret Return) (fun _ => Return) s1
              (fun s => eq_refl) Hlt)
    as (s2 & post & Hrun & Hrest).
  exists Return, s2, post. split; [exact Hrun |]. split; [reflexivity | exact Hrest].
Qed.

Lemma rescued_outer s1 :
  (k < n_ops s1)%nat ->
  rescued k is_outcome (on_outer_interrupt env analysis_tag) s1.
Proof.
  intros Hlt.
  destruct (interrupt_clause_quiet (get outcome) outcome s1
              (fun s => eq_refl) Hlt)
    as (s2 & post & Hrun & Hrest).
  exists (outcome s2), s2, post.
  split; [exact Hrun |]. split; [reflexivity | exact Hrest].
Qed.

Lemma pend_attempt_once attempt cid text :
  pend k is_return
    (attempt_once env analysis_tag model interval deadline attempt cid text).
Proof.
  unfold attempt_once.
  apply (pend_try never_ret is_return).
  - apply pend_attempt_body.
  - intros [| cls msg |] He; [congruence | apply pend_on_exception |].
    apply pend_raise. discriminate.
  - apply rescued_inner.
  - intros a s [].
Qed.

Lemma pend_attempt_loop budget : forall attempt cid text,
  pend k is_return
    (attempt_loop env analysis_tag model interval deadline budget attempt cid text).
Proof.
  induction budget as [| budget IH]; intros attempt cid text; cbn [attempt_loop].
  { apply pend_raise. discriminate. }
  pend_step; [apply pend_deadline_elapsed |].
  pend_step; [apply pend_stop_timeout |].
  apply (pend_bind is_return is_return).
  - apply pend_attempt_once.
  - intros [| |]; [apply pend_ret | apply IH | apply pend_ret].
  - intros a s ->. exists Return. split; reflexivity.
Qed.

Lemma pend_process_candidate cid body :
  pend k is_return
    (process_candidate env analysis_tag model interval deadline cid body).
Proof.
  unfold process_candidate.
  pend_step; [apply pend_deadline_elapsed |].
  pend_step; [apply pend_stop_timeout |].
  pend_step; [apply pend_ret |].
  pend_step; [apply pend_shortcut_skip | apply pend_attempt_loop].
Qed.

Lemma pend_for_candidates candidates :
  pend k is_return
    (for_candidates env analysis_tag model interval deadline candidates).
Proof.
  induction candidates as [| [cid body] rest IH]; cbn [for_candidates].
  { apply pend_ret. }
  apply (pend_bind is_return is_return).
  - apply pend_process_candidate.
  - intros [| |]; [exact IH | exact IH | apply pend_ret].
  - intros a s ->. exists Return. split; reflexivity.
Qed.

Lemma pend_analyze_body candidates :
  pend k is_outcome
    (analyze_body env analysis_tag model interval deadline candidates).
Proof.
  unfold analyze_body.
  apply (pend_bind is_return is_outcome).
  - apply pend_for_candidates.
  - intros [| |];
      repeat first [apply pend_conn_commit | apply pend_cleanup | pend_step].
  - intros a s ->. exists (outcome s). split; reflexivity.
Qed.

(** The outer [try]: when the interruption is delivered while it runs, it is
    handled, by the inner clause or by the outer one. *)
Lemma analyze_try_interrupted candidates s :
  (n_ops s <= k)%nat ->
  (k < n_ops (snd (analyze_try env analysis_tag model interval deadline
                     candidates s)))%nat ->
  exists evs,
    trace (snd (analyze_try env analysis_tag model interval deadline
                  candidates s))
    = (trace s ++ evs)%list /\
    fst (analyze_try env analysis_tag model interval deadline candidates s)
    = Ok (outcome (snd (analyze_try env analysis_tag model interval deadline
                          candidates s))) /\
    handled evs (snd (analyze_try env analysis_tag model interval deadline
                        candidates s)).
Proof.
  intros Hs. unfold analyze_try, try_except.
  destruct (pend_analyze_body candidates s Hs) as (evs1 & Ht1 & Hcases).
  destruct (analyze_body env analysis_tag model interval deadline candidates s)
    as [[a | e] s1]; cbn in *.
  - intros Hlt. exists evs1. split; [exact Ht1 |].
    destruct Hcases as [[Hle _] | [(_ & Hr & _) | (_ & (a' & Hr & Hp) & Hh)]];
      [lia | discriminate |].
    injection Hr as <-. split; [rewrite Hp; reflexivity | exact Hh].
  - destruct Hcases as [[Hle Hne] | [(Hlt & Hr & Hfr) | (_ & (a' & Hr & _) & _)]];
      [| | discriminate].
    + destruct e; cbn; [congruence | lia | lia].
    + injection Hr as ->. cbn [outer_handler]. intros _.
      destruct (rescued_outer s1 Hlt)
        as (b & s2 & post & Hrun & Hb & Hlt2 & Ht2 & Ho & Hc).
      rewrite Hrun. cbn. destruct Hfr as (pre & ->).
      exists ((pre ++ [EInterrupt (Db.pending_db (conn s1)) (outcome s1)])
              ++ ECommit :: ECleanup :: post)%list.
      rewrite Ht2, Ht1, <- !app_assoc. split; [reflexivity |].
      split; [rewrite Hb; reflexivity |].
      exists pre, (Db.pending_db (conn s1)), (outcome s1), post.
      cbn. auto.
Qed.

End Interrupted.

(** Before its outer [try], [analyze] looks up the API key and fetches the
    candidates; when neither is interrupted and the key is there, the rest
    of the call is the [try] statement. *)
Lemma analyze_enters_try env analysis_tag model limit retry_errors
    max_requests_per_minute subreddits timeout_seconds s :
  interrupt env (n_ops s) = false ->
  interrupt env (S (n_ops s)) = false ->
  PyStr.truthy (default "" (get_secret env "OPENAI_API_KEY")) = true ->
  exists interval deadline candidates s1,
    analyze env analysis_tag model limit retry_errors max_requests_per_minute
      subreddits timeout_seconds s
    = analyze_try env analysis_tag model interval deadline candidates s1 /\
    candidates = Db.fetch_candidates (Db.pending_db (conn s)) analysis_tag limit
                   retry_errors subreddits /\
    n_ops s1 = S (S (n_ops s)) /\ trace s1 = trace s /\
    outcome s1 = mkOutcome 0 0 0 None /\ conn s1 = conn s.
Proof.
  intros H0 H1 Hkey. unfold analyze.
  rewrite bind_modify. unfold _now at 1. rewrite bind_get.
  unfold read_secret, db_read.
  unfold bind at 1. unfold bind at 1. unfold checkpoint at 1.
  cbn [n_ops set_outcome]. rewrite H0. cbn [ret]. rewrite Hkey. cbn [negb].
  unfold bind at 1. unfold bind at 1. unfold checkpoint at 1.
  cbn [n_ops set_n_ops set_outcome]. rewrite H1.
  cbn [get]. unfold _now at 1. rewrite bind_get, bind_modify.
  eexists _, _, _, _. split; [reflexivity |]. cbn. repeat split.
Qed.

(** C2 (amended).  Let the user's Ctrl+C be delivered once, at primitive
    operation number [k], after the two operations that [analyze] makes
    before its outer [try] (the look-up of the API key, which is there, and
    the fetch of the candidates).  If operation [k] is reached, that is, if
    the interruption happens while [analyze] runs, then [analyze] commits,
    runs the post-pass, and returns the outcome object of the moment of the
    interruption with [stopped_reason = "ctrl_c"]; the committed Outcome rows
    are all the rows that were pending or committed at that moment. *)
Theorem C2_single_interrupt_in_try_is_handled
    env analysis_tag model limit retry_errors max_requests_per_minute
    subreddits timeout_seconds k s
    (Hsingle : forall n, interrupt env n = Nat.eqb n k)
    (Hkey : PyStr.truthy (default "" (get_secret env "OPENAI_API_KEY")) = true)
    (Hsetup : (n_ops s + 2 <= k)%nat)
    (Hduring : (k < n_ops (snd (analyze env analysis_tag model limit
                                  retry_errors max_requests_per_minute
                                  subreddits timeout_seconds s)))%nat) :
  exists pre db o post,
    trace (snd (analyze env analysis_tag model limit retry_errors
                  max_requests_per_minute subreddits timeout_seconds s))
    = (trace s ++ pre ++ EInterrupt db o :: ECommit :: ECleanup :: post)%list /\
    fst (analyze env analysis_tag model limit retry_errors
           max_requests_per_minute subreddits timeout_seconds s)
    = Ok (with_stopped_reason (Some "ctrl_c") o) /\
    Db.outcomes
      (Db.committed
         (conn (snd (analyze env analysis_tag model limit retry_errors
                       max_requests_per_minute subreddits timeout_seconds s))))
    = Db.outcomes db.
Proof.
  destruct (analyze_enters_try env analysis_tag model limit retry_errors
              max_requests_per_minute subreddits timeout_seconds s)
    as (interval & deadline & candidates & s1 & Hrun & _ & Hn & Ht & _);
    [rewrite Hsingle; apply Nat.eqb_neq; lia
    | rewrite Hsingle; apply Nat.eqb_neq; lia
    | exact Hkey |].
  rewrite Hrun in *.
  destruct (analyze_try_interrupted env analysis_tag model interval deadline k
              Hsingle candidates s1 ltac:(lia) Hduring)
    as (evs & Htr & Hres & (pre & db & o & post & -> & Ho & Hc)).
  exists pre, db, o, post. split; [rewrite Htr, Ht; reflexivity |].
  split; [rewrite Hres, Ho; reflexivity | exact Hc].
Qed.

Lemma C2_single_interrupt_in_try_is_handled_witness :
  fst Scenario.interrupted_write_run = Ok (mkOutcome 0 0 1 (Some "ctrl_c")) /\
  exists pre db o post,
    trace (snd Scenario.interrupted_write_run)
    = ([] ++ pre ++ EInterrupt db o :: ECommit :: ECleanup :: post)%list /\
    Db.outcomes (Db.committed (conn (snd Scenario.interrupted_write_run)))
    = Db.outcomes db.
Proof.
  destruct (C2_single_interrupt_in_try_is_handled
              (Scenario.validating_env 4) "default" "gpt-5-nano" 10 false 0
              None None 4 (Scenario.fresh Scenario.one_comment))
    as (pre & db & o & post & Htr & Hres & Hc).
  - intros n. reflexivity.
  - reflexivity.
  - cbn. lia.
  - vm_compute. lia.
  - split; [vm_compute; reflexivity |].
    exists pre, db, o, post. split; [exact Htr | exact Hc].
Defined.

(** ** The post-pass as a no-op *)

Lemma cleanup_noop_when_disabled env analysis_tag s :
  ENABLE_YFINANCE_VALIDATION env = false ->
  _cleanup_invalid_tickers env analysis_tag s = (Ok 0%nat, log ECleanup s).
Proof.
  intros Hoff. unfold _cleanup_invalid_tickers.
  rewrite bind_modify, Hoff. reflexivity.
Qed.

Lemma cleanup_noop_without_mentions env analysis_tag s :
  Db.fetch_distinct_mentioned_tickers (Db.pending_db (conn s)) analysis_tag = [] ->
  conn (snd (_cleanup_invalid_tickers env analysis_tag s)) = conn s /\
  (fst (_cleanup_invalid_tickers env analysis_tag s) = Ok 0%nat
   \/ fst (_cleanup_invalid_tickers env analysis_tag s) = Raise KeyboardInterrupt).
Proof.
  intros Hnone. unfold _cleanup_invalid_tickers. rewrite bind_modify.
  destruct (ENABLE_YFINANCE_VALIDATION env); cbn [negb]; [| cbn; auto].
  unfold db_read, bind, checkpoint. cbn.
  destruct (interrupt env (n_ops s)); cbn; [auto |].
  rewrite Hnone. cbn. auto.
Qed.

(** ** The recursion budget is never exhausted

    [sound V m]: [m] never raises [OutOfFuel], and the values it returns
    satisfy [V]. *)

Lemma sound_ret {A} (V : A -> Prop) a : V a -> sound V (ret a).
Proof. intros Ha s. exact Ha. Qed.

Lemma sound_get {A} (f : State -> A) : sound any (get f).
Proof. intros s. exact I. Qed.

Lemma sound_modify f : sound any (modify f).
Proof. intros s. exact I. Qed.

Lemma sound_raise {A} (V : A -> Prop) e : e <> OutOfFuel -> sound V (raise e).
Proof. intros He s. exact He. Qed.

Lemma sound_weaken {A} (V V' : A -> Prop) m :
  (forall a, V a -> V' a) -> sound V m -> sound V' m.
Proof.
  intros Hsub Hm s. specialize (Hm s). destruct (fst (m s)); auto.
Qed.

Lemma sound_bind {A B} (V1 : A -> Prop) (V : B -> Prop) (m : M A) (f : A -> M B) :
  sound V1 m -> (forall a, V1 a -> sound V (f a)) -> sound V (bind m f).
Proof.
  intros Hm Hf s. unfold bind. specialize (Hm s).
  destruct (m s) as [[a | e] s1]; cbn in *; [apply (Hf a Hm) | exact Hm].
Qed.

Lemma sound_try {A} (V : A -> Prop) (m : M A) (h : exn -> M A) :
  sound V m -> (forall e, e <> OutOfFuel -> sound V (h e)) ->
  sound V (try_except m h).
Proof.
  intros Hm Hh s. unfold try_except. specialize (Hm s).
  destruct (m s) as [[a | e] s1]; cbn in *; [exact Hm | apply (Hh e Hm)].
Qed.

Ltac sound_step :=
  lazymatch goal with
  | |- sound _ (bind _ _) => apply (sound_bind any); [| intros ? _]
  | |- sound _ (ret _) =>
      apply sound_ret; first [exact I | reflexivity | discriminate]
  | |- sound any (get _) => apply sound_get
  | |- sound any _now => apply sound_get
  | |- sound any (modify _) => apply sound_modify
  | |- sound _ (raise (Exc _ _)) => apply sound_raise; discriminate
  | |- sound _ (if ?b then _ else _) => destruct b
  | |- sound _ (match ?x with _ => _ end) => destruct x
  end.

Section Fuel.

Variable env : Env.
Variables (analysis_tag model : string) (interval : Q) (deadline : option Q).

Lemma sound_checkpoint : sound any (checkpoint env).
Proof.
  intros s. unfold checkpoint. destruct (interrupt env (n_ops s)); cbn;
    [discriminate | exact I].
Qed.

Lemma sound_conn_commit : sound any (conn_commit env).
Proof. unfold conn_commit. repeat first [apply sound_checkpoint | sound_step]. Qed.

Lemma sound_db_write f : sound any (db_write env f).
Proof. unfold db_write. repeat first [apply sound_checkpoint | sound_step]. Qed.

Lemma sound_db_read {A} (f : Db.DB -> A) : sound any (db_read env f).
Proof. unfold db_read. repeat first [apply sound_checkpoint | sound_step]. Qed.

Lemma sound_db_delete tickers :
  sound any (db_delete_mentions env analysis_tag tickers).
Proof.
  unfold db_delete_mentions. sound_step; [apply sound_checkpoint |].
  intros s. exact I.
Qed.

Lemma sound_analyze_comment cid text :
  sound any (analyze_comment env cid model text).
Proof.
  unfold analyze_comment. sound_step; [apply sound_checkpoint |].
  intros s. cbn zeta. destruct (resp_result _); cbn; [exact I | discriminate].
Qed.

Lemma sound_sleep_with_deadline seconds :
  sound any (_sleep_with_deadline env seconds deadline).
Proof.
  unfold _sleep_with_deadline, time_sleep.
  repeat first [apply sound_checkpoint | sound_step].
Qed.

Lemma sound_cleanup : sound any (_cleanup_invalid_tickers env analysis_tag).
Proof.
  unfold _cleanup_invalid_tickers, oracle_find_invalid.
  repeat first [apply sound_checkpoint | apply sound_db_read
               | apply sound_db_delete | apply sound_conn_commit | sound_step].
Qed.

Lemma sound_stop_timeout (V : ctl -> Prop) :
  V Return -> sound V (stop_timeout env analysis_tag).
Proof.
  intros HV. unfold stop_timeout, set_reason.
  repeat first [apply sound_conn_commit | apply sound_cleanup
               | apply sound_ret; exact HV | sound_step].
Qed.

Lemma sound_deadline_elapsed : sound any (deadline_elapsed deadline).
Proof. unfold deadline_elapsed. repeat sound_step. Qed.

(** The protected region ends with [break]. *)
Lemma sound_attempt_body cid text :
  sound (fun c => c = Break)
    (attempt_body env analysis_tag model interval deadline cid text).
Proof.
  unfold attempt_body, _pace.
  repeat first [apply sound_sleep_with_deadline | apply sound_analyze_comment
               | apply sound_db_write | apply sound_conn_commit | sound_step].
Qed.

(** The [except] clauses answer [Continue] only when the backoff could be
    computed, that is, at [attempt < 1024]. *)
Lemma sound_attempt_once attempt cid text :
  sound (fun c => c = Continue -> (attempt < 1024)%nat)
    (attempt_once env analysis_tag model interval deadline attempt cid text).
Proof.
  unfold attempt_once. apply sound_try.
  { apply (sound_weaken (fun c => c = Break)); [| apply sound_attempt_body].
    intros c -> Hc. discriminate Hc. }
  intros [| cls msg |] He; [| | congruence].
  - unfold on_inner_interrupt, set_reason.
    repeat first [apply sound_conn_commit | apply sound_cleanup | sound_step].
  - unfold on_exception, set_reason.
    destruct (_is_fatal_auth _).
    { repeat first [apply sound_conn_commit | sound_step]. }
    destruct (_ && _).
    { repeat first [apply sound_conn_commit | apply sound_cleanup
                   | apply sound_db_write | sound_step]. }
    destruct (_is_retryable _).
    + unfold retry_after_backoff.
      apply (sound_bind (fun _ => (attempt < 1024)%nat)).
      * intros s. unfold lift, _backoff_seconds. cbn [fst].
        destruct (Nat.leb_spec 1024 attempt); [discriminate | lia].
      * intros w Hlt. sound_step; [apply sound_sleep_with_deadline |].
        apply sound_ret. intros _. exact Hlt.
    + repeat first [apply sound_conn_commit | apply sound_db_write | sound_step].
Qed.

(** With a budget that covers the attempts left before [attempt = 1025], the
    [while True] loop never runs out of it. *)
Lemma attempt_loop_never_out_of_fuel budget : forall attempt cid text,
  (1025 <= budget + attempt)%nat -> (attempt <= 1024)%nat ->
  sound any
    (attempt_loop env analysis_tag model interval deadline budget attempt cid text).
Proof.
  induction budget as [| budget IH]; intros attempt cid text Hsum Hle;
    [lia |]. cbn [attempt_loop].
  sound_step; [apply sound_deadline_elapsed |].
  sound_step; [apply sound_stop_timeout; exact I |].
  apply (sound_bind (fun c => c = Continue -> (attempt < 1024)%nat)).
  { apply sound_attempt_once. }
  intros [| |] Hc; [sound_step | | sound_step].
  apply IH; [lia |]. specialize (Hc eq_refl). lia.
Qed.

Lemma sound_process_candidate cid body :
  sound any (process_candidate env analysis_tag model interval deadline cid body).
Proof.
  unfold process_candidate.
  sound_step; [apply sound_deadline_elapsed |].
  sound_step; [apply sound_stop_timeout; exact I |].
  sound_step; [sound_step |].
  sound_step.
  - unfold shortcut_skip.
    repeat first [apply sound_db_write | apply sound_conn_commit | sound_step].
  - apply attempt_loop_never_out_of_fuel; unfold max_attempts; lia.
Qed.

Lemma sound_for_candidates candidates :
  sound any (for_candidates env analysis_tag model interval deadline candidates).
Proof.
  induction candidates as [| [cid body] rest IH]; cbn [for_candidates];
    [sound_step |].
  sound_step; [apply sound_process_candidate |].
  sound_step; first [exact IH | sound_step].
Qed.

Lemma sound_analyze_try candidates :
  sound any (analyze_try env analysis_tag model interval deadline candidates).
Proof.
  unfold analyze_try. apply sound_try.
  - unfold analyze_body.
    sound_step; [apply sound_for_candidates |].
    repeat first [apply sound_conn_commit | apply sound_cleanup | sound_step].
  - intros [| cls msg |] He; cbn [outer_handler]; [| sound_step | congruence].
    unfold on_outer_interrupt, set_reason.
    repeat first [apply sound_conn_commit | apply sound_cleanup | sound_step].
Qed.

End Fuel.

(** [analyze] never ends on the budget of its model: the [OutOfFuel] marker
    is unreachable. *)
Lemma analyze_never_out_of_fuel env analysis_tag model limit retry_errors
    max_requests_per_minute subreddits timeout_seconds s :
  fst (analyze env analysis_tag model limit retry_errors
         max_requests_per_minute subreddits timeout_seconds s)
  <> Raise OutOfFuel.
Proof.
  assert (Hsound : sound any
            (analyze env analysis_tag model limit retry_errors
               max_requests_per_minute subreddits timeout_seconds)).
  { unfold analyze, read_secret.
    repeat first [apply sound_checkpoint | apply sound_db_read
                 | apply sound_analyze_try | sound_step]. }
  specialize (Hsound s). intros Heq. rewrite Heq in Hsound.
  apply Hsound. reflexivity.
Qed.

(** ** Sleeps and the deadline *)

Lemma sleeps_within_refl deadline s : sleeps_within deadline s s.
Proof.
  exists []. rewrite app_nil_r. split; [reflexivity |]. intros ? ? [].
Qed.

Lemma sleeps_within_trans deadline s1 s2 s3 :
  sleeps_within deadline s1 s2 -> sleeps_within deadline s2 s3 ->
  sleeps_within deadline s1 s3.
Proof.
  intros (evs1 & Ht1 & H1) (evs2 & Ht2 & H2).
  exists (evs1 ++ evs2)%list. rewrite Ht2, Ht1, <- app_assoc.
  split; [reflexivity |]. intros start seconds Hin.
  apply in_app_or in Hin. destruct Hin; auto.
Qed.

Lemma sleeps_within_silent deadline s s' :
  trace s' = trace s -> sleeps_within deadline s s'.
Proof.
  intros Ht. exists []. rewrite app_nil_r. split; [exact Ht |]. intros ? ? [].
Qed.

Lemma sleeps_within_logged deadline s s' e :
  trace s' = (trace s ++ [e])%list -> is_sleep e = false ->
  sleeps_within deadline s s'.
Proof.
  intros Ht He. exists [e]. split; [exact Ht |].
  intros start seconds [Heq | []]. subst e. discriminate He.
Qed.

(** Whatever the run, every sleep that [analyze] makes inside its outer
    [try] starts before the deadline and does not end after it. *)
Lemma analyze_try_sleeps_within env analysis_tag model interval deadline
    candidates :
  keeps (sleeps_within deadline)
    (analyze_try env analysis_tag model interval deadline candidates).
Proof.
  apply (keeps_analyze_try env analysis_tag model interval deadline
           (sleeps_within deadline)
           (sleeps_within_refl deadline) (sleeps_within_trans deadline)
           (fun _ => True));
    try (intros; apply sleeps_within_silent; reflexivity);
    try (intros; eapply sleeps_within_logged; reflexivity).
  - intros s d Hok. exists [ESleep (clock s) d]. split; [reflexivity |].
    intros start seconds [Heq | []]. injection Heq as <- <-. exact Hok.
  - apply List.Forall_forall. intros. exact I.
Qed.

(** As soon as the deadline test finds the deadline elapsed, at the head of
    the [for] loop or of the [while] loop, [analyze] sets
    [stopped_reason = "timeout"], commits, runs the post-pass and returns,
    without a classifier call. *)
Lemma deadline_detected_stops env analysis_tag model interval d
    budget attempt cid text body rest s :
  quiet env (n_ops s) ->
  Qle_bool d (clock s) = true ->
  exists s' post,
    analyze_from env analysis_tag model interval (Some d) (S budget) attempt
      cid text rest s = (Ok (outcome s'), s') /\
    analyze_try env analysis_tag model interval (Some d) ((cid, body) :: rest) s
    = (Ok (outcome s'), s') /\
    outcome s' = with_stopped_reason (Some "timeout") (outcome s) /\
    n_calls s' = n_calls s /\
    trace s' = (trace s ++ ECommit :: ECleanup :: post)%list.
Proof.
  intros Hq Hd.
  assert (Hstop : exists s' post,
             stop_timeout env analysis_tag s = (Ok Return, s') /\
             outcome s' = with_stopped_reason (Some "timeout") (outcome s) /\
             n_calls s' = n_calls s /\
             trace s' = (trace s ++ ECommit :: ECleanup :: post)%list).
  { unfold stop_timeout, set_reason. rewrite bind_modify. qstep Hq.
    match goal with
    | |- context [bind (_cleanup_invalid_tickers env analysis_tag) _ ?s0] =>
        destruct (cleanup_quiet env analysis_tag s0) as (n & s' & Hrun & Hpost);
        [quiet_side Hq |]
    end.
    rewrite (bind_ok _ _ _ _ _ Hrun).
    destruct Hpost as [[Hbo Hbc Hbn] _ _ _ _ (post & Htr & _)].
    exists s', post. cbn in *. split; [reflexivity |].
    split; [exact Hbo |]. split; [exact Hbc |].
    rewrite Htr, <- app_assoc. reflexivity. }
  destruct Hstop as (s' & post & Hrun & Hfacts).
  assert (Helapsed : deadline_elapsed (Some d) s = (Ok true, s)).
  { unfold deadline_elapsed, _now. rewrite bind_get, Hd. reflexivity. }
  exists s', post. split; [| split; [| exact Hfacts]].
  - assert (Hloop : attempt_loop env analysis_tag model interval (Some d)
                      (S budget) attempt cid text s = (Ok Return, s')).
    { cbn [attempt_loop]. rewrite (bind_ok _ _ _ _ _ Helapsed). exact Hrun. }
    unfold analyze_from. apply try_ok.
    rewrite (bind_ok _ _ _ _ _ Hloop). reflexivity.
  - assert (Hcand : process_candidate env analysis_tag model interval (Some d)
                      cid body s = (Ok Return, s')).
    { unfold process_candidate. rewrite (bind_ok _ _ _ _ _ Helapsed). exact Hrun. }
    assert (Hfor : for_candidates env analysis_tag model interval (Some d)
                     ((cid, body) :: rest) s = (Ok Return, s')).
    { cbn [for_candidates]. rewrite (bind_ok _ _ _ _ _ Hcand). reflexivity. }
    unfold analyze_try. apply try_ok. unfold analyze_body.
    rewrite (bind_ok _ _ _ _ _ Hfor). reflexivity.
Qed.

(** ** Without a Ctrl+C the post-pass is entered at most once *)

Lemma cleanups_app evs1 evs2 :
  cleanups (evs1 ++ evs2) = (cleanups evs1 + cleanups evs2)%nat.
Proof. unfold cleanups. rewrite List.filter_app, length_app. reflexivity. Qed.

Section Calm.

Variable env : Env.
Variables (analysis_tag model : string) (interval : Q) (deadline : option Q).

Lemma calm_bind {A B} (fin1 : A -> Prop) (fin : B -> Prop)
    (m : M A) (f : A -> M B) :
  calm env fin1 m ->
  (forall a, ~ fin1 a -> calm env fin (f a)) ->
  (forall a s, fin1 a -> exists b, f a s = (Ok b, s) /\ fin b) ->
  calm env fin (bind m f).
Proof.
  intros Hm Hf Hfin s Hq. unfold bind.
  destruct (Hm s Hq) as (Hn1 & Hki1 & evs1 & Ht1 & Hcases).
  destruct (m s) as [[a | e] s1]; cbn in *.
  - destruct Hcases as [[(a' & Ha' & Hfa) Hc1] | [Hnf Hc1]].
    + injection Ha' as <-. destruct (Hfin a s1 Hfa) as (b & Hrun & Hb).
      rewrite Hrun. cbn. split; [exact Hn1 |]. split; [discriminate |].
      exists evs1. split; [exact Ht1 |]. left. split; [exists b; auto | exact Hc1].
    + destruct (Hf a (Hnf a eq_refl) s1 (quiet_mono _ _ _ Hq Hn1))
        as (Hn2 & Hki2 & evs2 & Ht2 & Hcases2).
      split; [lia |]. split; [exact Hki2 |].
      exists (evs1 ++ evs2)%list. rewrite Ht2, Ht1, <- app_assoc.
      split; [reflexivity |]. rewrite cleanups_app, Hc1. exact Hcases2.
  - split; [exact Hn1 |].
    split; [intros [= ->]; apply Hki1; reflexivity |].
    exists evs1. split; [exact Ht1 |].
    destruct Hcases as [[(a' & Ha' & _) _] | [_ Hc1]]; [discriminate |].
    right. split; [intros a' Ha'; discriminate | exact Hc1].
Qed.

Lemma calm_bind_plain {A B} (fin : B -> Prop) (m : M A) (f : A -> M B) :
  calm env not_final m -> (forall a, calm env fin (f a)) -> calm env fin (bind m f).
Proof.
  intros Hm Hf. apply (calm_bind not_final fin m f Hm).
  - intros a _. apply Hf.
  - intros a s [].
Qed.

Lemma calm_try {A} (fin : A -> Prop) (m : M A) (h : exn -> M A) :
  calm env fin m ->
  (forall e, e <> KeyboardInterrupt -> calm env fin (h e)) ->
  calm env fin (try_except m h).
Proof.
  intros Hm Hh s Hq. unfold try_except.
  destruct (Hm s Hq) as (Hn1 & Hki1 & evs1 & Ht1 & Hcases).
  destruct (m s) as [[a | e] s1]; cbn in *.
  - split; [exact Hn1 |]. split; [discriminate |].
    exists evs1. split; [exact Ht1 | exact Hcases].
  - destruct Hcases as [[(a' & Ha' & _) _] | [_ Hc1]]; [discriminate |].
    assert (He : e <> KeyboardInterrupt) by congruence.
    destruct (Hh e He s1 (quiet_mono _ _ _ Hq Hn1))
      as (Hn2 & Hki2 & evs2 & Ht2 & Hcases2).
    split; [lia |]. split; [exact Hki2 |].
    exists (evs1 ++ evs2)%list. rewrite Ht2, Ht1, <- app_assoc.
    split; [reflexivity |]. rewrite cleanups_app, Hc1. exact Hcases2.
Qed.

(** A piece that ends in [(r, s')], having logged [evs] without entering
    the post-pass. *)
Lemma calm_post_plain {A} (fin : A -> Prop) s (r : result A) s' evs :
  (n_ops s <= n_ops s')%nat ->
  r <> Raise KeyboardInterrupt ->
  (forall a, r = Ok a -> ~ fin a) ->
  trace s' = (trace s ++ evs)%list ->
  cleanups evs = 0%nat ->
  calm_post fin s (r, s').
Proof.
  intros Hn Hki Hfin Ht Hc. split; [exact Hn |]. split; [exact Hki |].
  exists evs. split; [exact Ht |]. right. split; assumption.
Qed.

Lemma calm_ret {A} (fin : A -> Prop) a : ~ fin a -> calm env fin (ret a).
Proof.
  intros Ha s Hq. apply (calm_post_plain fin s (Ok a) s []);
    [lia | discriminate | intros a' [= <-]; exact Ha
    | rewrite app_nil_r; reflexivity | reflexivity].
Qed.

Lemma calm_get {A} (f : State -> A) : calm env not_final (get f).
Proof.
  intros s Hq. apply (calm_post_plain not_final s (Ok (f s)) s []);
    [lia | discriminate | intros a' _ []
    | rewrite app_nil_r; reflexivity | reflexivity].
Qed.

Lemma calm_raise {A} (fin : A -> Prop) e :
  e <> KeyboardInterrupt -> calm env fin (raise e).
Proof.
  intros He s Hq. apply (calm_post_plain fin s (Raise e) s []);
    [lia | congruence | intros a' [=]
    | rewrite app_nil_r; reflexivity | reflexivity].
Qed.

Lemma calm_modify (f : State -> State) :
  (forall s, n_ops (f s) = n_ops s) ->
  (forall s, trace (f s) = trace s) ->
  calm env not_final (modify f).
Proof.
  intros Hn Ht s Hq. apply (calm_post_plain not_final s (Ok tt) (f s) []);
    [rewrite Hn; lia | discriminate | intros a' _ []
    | rewrite Ht, app_nil_r; reflexivity | reflexivity].
Qed.

Lemma calm_checkpoint : calm env not_final (checkpoint env).
Proof.
  intros s Hq. rewrite (checkpoint_quiet env s Hq).
  apply (calm_post_plain not_final s (Ok tt) _ []);
    [cbn; lia | discriminate | intros a' _ []
    | cbn; rewrite app_nil_r; reflexivity | reflexivity].
Qed.

Lemma calm_conn_commit : calm env not_final (conn_commit env).
Proof.
  intros s Hq. rewrite (conn_commit_quiet env s Hq).
  apply (calm_post_plain not_final s (Ok tt) _ [ECommit]);
    [cbn; lia | discriminate | intros a' _ [] | reflexivity | reflexivity].
Qed.

Lemma calm_db_write f : calm env not_final (db_write env f).
Proof.
  intros s Hq. rewrite (db_write_quiet env f s Hq).
  apply (calm_post_plain not_final s (Ok tt) _ []);
    [cbn; lia | discriminate | intros a' _ []
    | cbn; rewrite app_nil_r; reflexivity | reflexivity].
Qed.

Lemma cleanups_sleeps evs : forallb is_sleep evs = true -> cleanups evs = 0%nat.
Proof.
  induction evs as [| e evs IH]; [reflexivity |]. cbn.
  destruct e; cbn; try discriminate. exact IH.
Qed.

Lemma calm_sleep_with_deadline seconds :
  calm env not_final (_sleep_with_deadline env seconds deadline).
Proof.
  intros s Hq.
  destruct (sleep_with_deadline_quiet env seconds deadline s Hq)
    as (s' & Hrun & [_ _ Hn] & _ & evs & Ht & Hsl).
  rewrite Hrun. apply (calm_post_plain not_final s (Ok tt) s' evs);
    [exact Hn | discriminate | intros a' _ [] | exact Ht
    | apply cleanups_sleeps; exact Hsl].
Qed.

Lemma calm_pace : calm env not_final (_pace env interval deadline).
Proof.
  intros s Hq.
  destruct (pace_quiet env interval deadline s Hq)
    as (s' & Hrun & [_ _ Hn] & _ & evs & Ht & Hsl).
  rewrite Hrun. apply (calm_post_plain not_final s (Ok tt) s' evs);
    [exact Hn | discriminate | intros a' _ [] | exact Ht
    | apply cleanups_sleeps; exact Hsl].
Qed.

(** The post-pass itself: entered once. *)
Lemma calm_cleanup :
  calm env (fun _ => True) (_cleanup_invalid_tickers env analysis_tag).
Proof.
  intros s Hq.
  destruct (cleanup_quiet env analysis_tag s Hq) as (n & s' & Hrun & Hpost).
  rewrite Hrun.
  destruct Hpost as [[_ _ Hn] _ _ _ _ (post & Ht & Hpost)].
  split; [exact Hn |]. split; [discriminate |].
  exists (ECleanup :: post). split; [exact Ht |]. left.
  split; [exists n; auto |].
  destruct Hpost as [-> | ->]; reflexivity.
Qed.

Lemma calm_db_read {A} (f : Db.DB -> A) : calm env not_final (db_read env f).
Proof.
  intros s Hq. rewrite (db_read_quiet env f s Hq).
  apply (calm_post_plain not_final s (Ok _) _ []);
    [cbn; lia | discriminate | intros a' _ []
    | cbn; rewrite app_nil_r; reflexivity | reflexivity].
Qed.

Lemma calm_analyze_comment cid text :
  calm env not_final (analyze_comment env cid model text).
Proof.
  intros s Hq. rewrite (analyze_comment_quiet env model cid text s Hq).
  cbn zeta.
  apply (calm_post_plain not_final s _ _ [ECall cid (clock s)]);
    [cbn; lia | destruct (resp_result _); discriminate | intros a' _ []
    | reflexivity | reflexivity].
Qed.

(** One structural step of a [calm] goal. *)
Ltac calm_step :=
  lazymatch goal with
  | |- calm _ _ (bind _ _) => apply calm_bind_plain; [| intros ?]
  | |- calm _ _ (ret _) =>
      apply calm_ret; first [intros Hfin; discriminate Hfin | intros []]
  | |- calm _ not_final (get _) => apply calm_get
  | |- calm _ not_final _now => apply calm_get
  | |- calm _ not_final (modify _) =>
      apply calm_modify; intros ?; reflexivity
  | |- calm _ _ (raise (Exc _ _)) => apply calm_raise; discriminate
  | |- calm _ _ (if ?b then _ else _) => destruct b
  | |- calm _ _ (match ?x with _ => _ end) => destruct x
  end.

(** The stop paths end with the post-pass and [return outcome]. *)
Lemma calm_then_return (m : M nat) :
  calm env (fun _ => True) m ->
  calm env (fun c => c = Return) (m ;; ret Return).
Proof.
  intros Hm. apply (calm_bind (fun _ => True) (fun c => c = Return) m _ Hm).
  - intros a Ha. exfalso. apply Ha. exact I.
  - intros a s _. exists Return. split; reflexivity.
Qed.

Lemma calm_stop_timeout :
  calm env (fun c => c = Return) (stop_timeout env analysis_tag).
Proof.
  unfold stop_timeout, set_reason.
  calm_step; [calm_step |]. calm_step; [apply calm_conn_commit |].
  apply calm_then_return. apply calm_cleanup.
Qed.

Lemma calm_deadline_elapsed : calm env not_final (deadline_elapsed deadline).
Proof.
  intros s Hq. destruct (deadline_elapsed_total deadline s) as (b & ->).
  apply (calm_post_plain not_final s (Ok b) s []);
    [lia | discriminate | intros a' _ []
    | rewrite app_nil_r; reflexivity | reflexivity].
Qed.

Lemma calm_attempt_body cid text :
  calm env (fun c => c = Return)
    (attempt_body env analysis_tag model interval deadline cid text).
Proof.
  unfold attempt_body.
  repeat first [apply calm_pace | apply calm_analyze_comment
               | apply calm_db_write | apply calm_conn_commit | calm_step].
Qed.

Lemma calm_on_exception attempt cid cls msg :
  calm env (fun c => c = Return)
    (on_exception env analysis_tag model deadline attempt cid (Exc cls msg)).
Proof.
  unfold on_exception, retry_after_backoff, set_reason.
  destruct (_is_fatal_auth _).
  { repeat first [apply calm_conn_commit | calm_step]. }
  destruct (_ && _).
  { calm_step; [apply calm_db_write |]. calm_step; [apply calm_conn_commit |].
    calm_step; [calm_step |]. apply calm_then_return. apply calm_cleanup. }
  destruct (_is_retryable _).
  - calm_step.
    + intros s Hq. unfold lift, _backoff_seconds.
      apply (calm_post_plain not_final s _ s []);
        [lia | destruct (1024 <=? attempt)%nat; discriminate | intros a' _ []
        | rewrite app_nil_r; reflexivity | reflexivity].
    + calm_step; [apply calm_sleep_with_deadline | calm_step].
  - repeat first [apply calm_conn_commit | apply calm_db_write | calm_step].
Qed.

Lemma calm_attempt_once attempt cid text :
  calm env (fun c => c = Return)
    (attempt_once env analysis_tag model interval deadline attempt cid text).
Proof.
  unfold attempt_once. apply calm_try; [apply calm_attempt_body |].
  intros [| cls msg |] He; [congruence | apply calm_on_exception |].
  apply calm_raise. discriminate.
Qed.

Lemma calm_attempt_loop budget : forall attempt cid text,
  calm env (fun c => c = Return)
    (attempt_loop env analysis_tag model interval deadline budget attempt cid text).
Proof.
  induction budget as [| budget IH]; intros attempt cid text; cbn [attempt_loop].
  { apply calm_raise. discriminate. }
  calm_step; [apply calm_deadline_elapsed |].
  calm_step; [apply calm_stop_timeout |].
  apply (calm_bind (fun c => c = Return) (fun c => c = Return)).
  - apply calm_attempt_once.
  - intros [| |] Hc; [calm_step | apply IH | congruence].
  - intros a s ->. exists Return. split; reflexivity.
Qed.

Lemma calm_process_candidate cid body :
  calm env (fun c => c = Return)
    (process_candidate env analysis_tag model interval deadline cid body).
Proof.
  unfold process_candidate.
  calm_step; [apply calm_deadline_elapsed |].
  calm_step; [apply calm_stop_timeout |].
  calm_step; [calm_step |].
  calm_step; [| apply calm_attempt_loop].
  unfold shortcut_skip.
  repeat first [apply calm_db_write | apply calm_conn_commit | calm_step].
Qed.

Lemma calm_for_candidates candidates :
  calm env (fun c => c = Return)
    (for_candidates env analysis_tag model interval deadline candidates).
Proof.
  induction candidates as [| [cid body] rest IH]; cbn [for_candidates].
  { calm_step. }
  apply (calm_bind (fun c => c = Return) (fun c => c = Return)).
  - apply calm_process_candidate.
  - intros [| |] Hc; [exact IH | exact IH | congruence].
  - intros a s ->. exists Return. split; reflexivity.
Qed.

(** Under a quiet keyboard the outer [try] enters the post-pass exactly once
    when it returns an outcome and not at all when it raises. *)
Lemma calm_analyze_try candidates :
  calm env (fun _ => True)
    (analyze_try env analysis_tag model interval deadline candidates).
Proof.
  unfold analyze_try. apply calm_try.
  - unfold analyze_body.
    apply (calm_bind (fun c => c = Return) (fun _ => True)).
    + apply calm_for_candidates.
    + intros c Hc.
      assert (Hrest : calm env (fun _ : AnalyzeOutcome => True)
                        (conn_commit env ;;
                         _cleanup_invalid_tickers env analysis_tag ;;
                         get outcome)).
      { calm_step; [apply calm_conn_commit |].
        apply (calm_bind (fun _ => True) (fun _ => True));
          [apply calm_cleanup | intros n Hn; exfalso; apply Hn; exact I |].
        intros n s0 _. exists (outcome s0). split; reflexivity. }
      destruct c; [exact Hrest | exact Hrest | congruence].
    + intros a s ->. exists (outcome s). split; reflexivity.
  - intros [| cls msg |] He; cbn [outer_handler];
      [congruence | apply calm_raise; discriminate | apply calm_raise; discriminate].
Qed.

End Calm.

(** Without a Ctrl+C, whichever way [analyze] leaves its outer [try]
    (timeout, quota, complete run, or an error that propagates), the
    post-pass is entered at most once. *)
Lemma quiet_run_cleans_up_at_most_once env analysis_tag model interval deadline
    candidates s :
  quiet env (n_ops s) ->
  exists evs,
    trace (snd (analyze_try env analysis_tag model interval deadline
                  candidates s))
    = (trace s ++ evs)%list /\
    (cleanups evs <= 1)%nat.
Proof.
  intros Hq.
  destruct (calm_analyze_try env analysis_tag model interval deadline
              candidates s Hq) as (_ & _ & evs & Ht & Hcases).
  exists evs. split; [exact Ht |].
  destruct Hcases as [[_ ->] | [_ ->]]; lia.
Qed.

Lemma triple_ret {A} (P : State -> Prop) (a : A) Q E :
  (forall s, P s -> Q a s) -> triple P (ret a) Q E.
Proof. intros H s Hs. apply H, Hs. Qed.

Lemma triple_raise {A} (P : State -> Prop) e (Q : A -> State -> Prop) E :
  (forall s, P s -> E e s) -> triple P (raise e) Q E.
Proof. intros H s Hs. apply H, Hs. Qed.

Lemma triple_get {A} (P : State -> Prop) (f : State -> A) Q E :
  (forall s, P s -> Q (f s) s) -> triple P (get f) Q E.
Proof. intros H s Hs. apply H, Hs. Qed.

Lemma triple_modify (P : State -> Prop) f Q E :
  (forall s, P s -> Q tt (f s)) -> triple P (modify f) Q E.
Proof. intros H s Hs. apply H, Hs. Qed.

Lemma triple_bind {A B} (P : State -> Prop) (m : M A) (k : A -> M B)
    (Q1 : A -> State -> Prop) Q E :
  triple P m Q1 E -> (forall a, triple (Q1 a) (k a) Q E) ->
  triple P (bind m k) Q E.
Proof.
  intros Hm Hk s Hs. unfold bind. specialize (Hm s Hs).
  destruct (m s) as [[a | e] s1]; [apply (Hk a s1 Hm) | exact Hm].
Qed.

Lemma triple_try {A} (P : State -> Prop) (m : M A) (h : exn -> M A)
    (E1 : exn -> State -> Prop) Q E :
  triple P m Q E1 -> (forall e, triple (E1 e) (h e) Q E) ->
  triple P (try_except m h) Q E.
Proof.
  intros Hm Hh s Hs. unfold try_except. specialize (Hm s Hs).
  destruct (m s) as [[a | e] s1]; [exact Hm | apply (Hh e s1 Hm)].
Qed.

Lemma triple_weaken {A} (P P' : State -> Prop) (m : M A)
    (Q Q' : A -> State -> Prop) (E E' : exn -> State -> Prop) :
  triple P m Q E ->
  (forall s, P' s -> P s) ->
  (forall a s, Q a s -> Q' a s) ->
  (forall e s, E e s -> E' e s) ->
  triple P' m Q' E'.
Proof.
  intros Hm HP HQ HE s Hs. specialize (Hm s (HP s Hs)).
  destruct (m s) as [[a | e] s1]; auto.
Qed.


Lemma triple_exn {A} (P : State -> Prop) (m : M A) Q
    (E E' : exn -> State -> Prop) :
  (forall e s, E e s -> E' e s) -> triple P m Q E -> triple P m Q E'.
Proof.
  intros HE Hm. eapply triple_weaken; [exact Hm | | | exact HE]; auto.
Qed.

Ltac tstep :=
  lazymatch goal with
  | |- triple _ (bind _ _) _ _ => eapply triple_bind; [| intros ?]
  | |- triple _ (ret _) _ _ => apply triple_ret
  | |- triple _ (raise _) _ _ => apply triple_raise
  | |- triple _ (get _) _ _ => apply triple_get
  | |- triple _ _now _ _ => apply triple_get
  | |- triple _ (modify _) _ _ => apply triple_modify
  | |- triple _ (set_reason _) _ _ => apply triple_modify
  | |- triple _ (if ?b then _ else _) _ _ => destruct b eqn:?
  | |- triple _ (match ?x with _ => _ end) _ _ => destruct x eqn:?
  end.

(** The side conditions of [triple_weaken]. *)
Ltac tw :=
  first [ intros; exact I
        | intros ? ? H; exact H
        | intros ? H; exact H ].

Section Durable.

Variable env : Env.
Variables (analysis_tag model : string) (interval : Q) (deadline : option Q).

(** A primitive operation: run it on whether the Ctrl+C is delivered. *)
Ltac dur_prim :=
  let s := fresh "s" in
  let Hs := fresh "Hs" in
  intros s Hs;
  unfold time_sleep, conn_commit, db_write, db_read, oracle_find_invalid,
    db_delete_mentions, read_secret, analyze_comment, bind, checkpoint,
    modify, get, ret;
  destruct (interrupt env (n_ops s)); cbn;
  first [ intros Hf; discriminate Hf | exact Hs | exact I | reflexivity ].

Lemma dur_commit (P : State -> Prop) :
  triple P (conn_commit env) (fun _ => synced) fatal_synced.
Proof. dur_prim. Qed.

Lemma dur_read {A} (f : Db.DB -> A) :
  triple synced (db_read env f) (fun _ => synced) fatal_synced.
Proof. dur_prim. Qed.

Lemma dur_oracle tickers :
  triple synced (oracle_find_invalid env tickers) (fun _ => synced) fatal_synced.
Proof. dur_prim. Qed.

Lemma dur_delete (P : State -> Prop) tickers :
  triple P (db_delete_mentions env analysis_tag tickers) (fun _ _ => True)
    fatal_synced.
Proof. dur_prim. Qed.

Lemma dur_write (P : State -> Prop) f :
  triple P (db_write env f) (fun _ _ => True) fatal_synced.
Proof. dur_prim. Qed.

Lemma dur_sleep (P : State -> Prop) seconds :
  triple P (_sleep_with_deadline env seconds deadline) (fun _ _ => True)
    fatal_synced.
Proof.
  unfold _sleep_with_deadline.
  tstep; [tstep; auto |].
  destruct deadline as [d |]; [| dur_prim].
  apply (triple_bind _ _ _ (fun _ _ => True)); [tstep; auto |].
  intros now. tstep; [tstep; auto | dur_prim].
Qed.

Lemma dur_cleanup :
  triple synced (_cleanup_invalid_tickers env analysis_tag) (fun _ => synced)
    fatal_synced.
Proof.
  unfold _cleanup_invalid_tickers.
  apply (triple_bind _ _ _ (fun _ => synced)); [tstep; intros s Hs; exact Hs |].
  intros _. tstep; [tstep; auto |].
  tstep; [apply dur_read |].
  tstep; [tstep; auto |].
  tstep; [apply dur_oracle |].
  tstep; [tstep; auto |].
  tstep; [apply dur_delete |].
  tstep; [apply dur_commit |].
  tstep. auto.
Qed.

(** A way out of the loops that sets the reason, commits and runs the
    post-pass. *)
Lemma dur_stop_timeout (P : State -> Prop) :
  triple P (stop_timeout env analysis_tag) return_synced fatal_synced.
Proof.
  unfold stop_timeout.
  apply (triple_bind _ _ _ (fun _ _ => True)); [tstep; auto |].
  intros _. tstep; [apply dur_commit |].
  tstep; [apply dur_cleanup |].
  tstep. intros s Hs _. exact Hs.
Qed.

Lemma dur_on_inner_interrupt (P : State -> Prop) :
  triple P (on_inner_interrupt env analysis_tag) return_synced fatal_synced.
Proof.
  unfold on_inner_interrupt.
  tstep; [apply dur_commit |].
  apply (triple_bind _ _ _ (fun _ => synced)); [tstep; intros s Hs; exact Hs |].
  intros _. tstep; [apply dur_cleanup |].
  tstep. intros s Hs _. exact Hs.
Qed.

Lemma dur_on_exception (P : State -> Prop) attempt cid e :
  triple P (on_exception env analysis_tag model deadline attempt cid e)
    return_synced fatal_synced.
Proof.
  unfold on_exception.
  destruct (_is_fatal_auth e) eqn:Hfatal.
  { tstep; [apply dur_commit |]. tstep. intros s Hs _. exact Hs. }
  destruct (_ && _).
  { tstep; [apply dur_write |].
    tstep; [apply dur_commit |].
    apply (triple_bind _ _ _ (fun _ => synced)); [tstep; intros s Hs; exact Hs |].
    intros _. tstep; [apply dur_cleanup |].
    tstep. intros s Hs _. exact Hs. }
  destruct (_is_retryable e).
  - unfold retry_after_backoff.
    apply (triple_bind _ _ _ (fun _ _ => True)).
    { intros s _. unfold lift, _backoff_seconds.
      destruct (1024 <=? attempt)%nat; [intros Hf; discriminate Hf | exact I]. }
    intros w. tstep; [apply dur_sleep |].
    tstep. intros s _ Hc. discriminate Hc.
  - tstep; [apply dur_write |].
    apply (triple_bind _ _ _ (fun _ _ => True)); [tstep; auto |].
    intros _. tstep; [apply dur_commit |].
    tstep. intros s _ Hc. discriminate Hc.
Qed.

Lemma dur_attempt_once (P : State -> Prop) attempt cid text :
  triple P (attempt_once env analysis_tag model interval deadline attempt cid text)
    return_synced fatal_synced.
Proof.
  unfold attempt_once.
  apply (triple_try _ _ _ (fun _ _ => True)).
  - intros s _. unfold attempt_body.
    destruct (bind _ _ s) as [[c | e] s1] eqn:Hrun; [| exact I].
    intros Hc. subst c. exfalso.
    pose proof (sound_attempt_body env analysis_tag model interval deadline
                  cid text s) as Hs.
    unfold attempt_body in Hs. rewrite Hrun in Hs. discriminate Hs.
  - intros [| cls msg |].
    + apply dur_on_inner_interrupt.
    + apply dur_on_exception.
    + tstep. intros s _ Hf. discriminate Hf.
Qed.

Lemma dur_deadline_elapsed (P : State -> Prop) :
  triple P (deadline_elapsed deadline) (fun _ => P) fatal_synced.
Proof.
  unfold deadline_elapsed. destruct deadline as [d |].
  - apply (triple_bind _ _ _ (fun _ => P)); [tstep; auto |].
    intros now. tstep. auto.
  - tstep. auto.
Qed.

Lemma dur_attempt_loop budget : forall attempt cid text,
  triple (fun _ => True)
    (attempt_loop env analysis_tag model interval deadline budget attempt cid text)
    return_synced fatal_synced.
Proof.
  induction budget as [| budget IH]; intros attempt cid text; cbn [attempt_loop].
  { tstep. intros s _ Hf. discriminate Hf. }
  tstep; [apply dur_deadline_elapsed |].
  tstep; [apply dur_stop_timeout |].
  tstep; [apply dur_attempt_once |].
  tstep.
  - tstep. intros s _ Hc. discriminate Hc.
  - eapply triple_weaken; [apply IH | tw ..].
  - tstep. intros s Hs _. apply Hs. reflexivity.
Qed.

Lemma dur_process_candidate cid body :
  triple (fun _ => True)
    (process_candidate env analysis_tag model interval deadline cid body)
    return_synced fatal_synced.
Proof.
  unfold process_candidate.
  tstep; [apply dur_deadline_elapsed |].
  tstep; [apply dur_stop_timeout |].
  tstep; [tstep; intros s _ Hc; discriminate Hc |].
  tstep; [| apply dur_attempt_loop].
  unfold shortcut_skip.
  tstep; [apply dur_write |].
  apply (triple_bind _ _ _ (fun _ _ => True)); [tstep; auto |].
  intros _. apply (triple_bind _ _ _ (fun _ _ => True)); [tstep; auto |].
  intros n. apply (triple_bind _ _ _ (fun _ _ => True)).
  { tstep; [| tstep; auto].
    eapply triple_weaken; [apply (dur_commit (fun _ => True)) | tw ..]. }
  intros _. tstep. intros s _ Hc. discriminate Hc.
Qed.

Lemma dur_for_candidates candidates :
  triple (fun _ => True)
    (for_candidates env analysis_tag model interval deadline candidates)
    return_synced fatal_synced.
Proof.
  induction candidates as [| [cid body] rest IH]; cbn [for_candidates].
  { tstep. intros s _ Hc. discriminate Hc. }
  tstep; [apply dur_process_candidate |].
  tstep.
  - eapply triple_weaken; [apply IH | tw ..].
  - eapply triple_weaken; [apply IH | tw ..].
  - tstep. intros s Hs _. apply Hs. reflexivity.
Qed.

Lemma dur_analyze_try candidates :
  triple (fun _ => True)
    (analyze_try env analysis_tag model interval deadline candidates)
    (fun _ => synced) fatal_synced.
Proof.
  unfold analyze_try. apply (triple_try _ _ _ fatal_synced).
  - unfold analyze_body.
    tstep; [apply dur_for_candidates |].
    tstep.
    + tstep; [apply dur_commit |]. tstep; [apply dur_cleanup |]. tstep. auto.
    + tstep; [apply dur_commit |]. tstep; [apply dur_cleanup |]. tstep. auto.
    + tstep. intros s Hs. apply Hs. reflexivity.
  - intros [| cls msg |]; cbn [outer_handler].
    + unfold on_outer_interrupt.
      tstep; [apply dur_commit |].
      apply (triple_bind _ _ _ (fun _ => synced)); [tstep; intros s Hs; exact Hs |].
      intros _. tstep; [apply dur_cleanup |]. tstep. auto.
    + tstep. auto.
    + tstep. auto.
Qed.

End Durable.

Lemma dur_analyze env analysis_tag model limit retry_errors
    max_requests_per_minute subreddits timeout_seconds :
  triple (fun _ => True)
    (analyze env analysis_tag model limit retry_errors
       max_requests_per_minute subreddits timeout_seconds)
    (fun _ => synced) fatal_synced.
Proof.
  unfold analyze.
  apply (triple_bind _ _ _ (fun _ _ => True)); [tstep; auto |].
  intros _. apply (triple_bind _ _ _ (fun _ _ => True)); [tstep; auto |].
  intros now0. apply (triple_bind _ _ _ (fun _ _ => True)).
  { intros s0 _. unfold read_secret, bind, checkpoint.
    destruct (interrupt env (n_ops s0)); [intros Hf; discriminate Hf | exact I]. }
  intros key. tstep.
  { tstep. intros s0 _ Hf. discriminate Hf. }
  apply (triple_bind _ _ _ (fun _ _ => True)).
  { intros s0 _. unfold db_read, bind, checkpoint.
    destruct (interrupt env (n_ops s0)); [intros Hf; discriminate Hf | exact I]. }
  intros candidates.
  apply (triple_bind _ _ _ (fun _ _ => True)); [tstep; auto |].
  intros now1. apply (triple_bind _ _ _ (fun _ _ => True)); [tstep; auto |].
  intros _. apply dur_analyze_try.
Qed.

(** X1.  Whenever [analyze] returns, whatever the stop reason and however
    many times the user pressed Ctrl+C, the connection holds no uncommitted
    write; the same is true when it raises an authentication or permission
    error to its caller. *)
Theorem analyze_leaves_nothing_uncommitted env analysis_tag model limit
    retry_errors max_requests_per_minute subreddits timeout_seconds s :
  match analyze env analysis_tag model limit retry_errors
          max_requests_per_minute subreddits timeout_seconds s with
  | (Ok _, s') => Db.committed (conn s') = Db.pending_db (conn s')
  | (Raise e, s') =>
      _is_fatal_auth e = true -> Db.committed (conn s') = Db.pending_db (conn s')
  end.
Proof.
  exact (dur_analyze env analysis_tag model limit retry_errors
           max_requests_per_minute subreddits timeout_seconds s I).
Qed.

(** X2.  The analysis stage of [_run_flow] hands control on, to the report or
    to the main menu, only with everything committed: after a return of
    [analyze], after a Ctrl+C, and after an error of any class (for the
    authentication and permission errors, which the stage does not commit,
    [analyze] has).  The one exception it lets through is the
    [KeyboardInterrupt] of a Ctrl+C that arrives while it handles the
    outcome of [analyze]. *)
Theorem run_flow_analyze_commits_before_going_on env analysis_tag model
    analysis_limit max_requests_per_minute subreddits s :
  match run_flow_analyze env analysis_tag model analysis_limit
          max_requests_per_minute subreddits s with
  | (Ok _, s') => Db.committed (conn s') = Db.pending_db (conn s')
  | (Raise e, _) => e = KeyboardInterrupt
  end.
Proof.
  assert (Hcommit : forall (P : State -> Prop) f,
             triple P
               (conn_commit env ;; ret f : M (Flow (option AnalyzeOutcome)))
               (fun _ => synced) (fun e _ => e = KeyboardInterrupt)).
  { intros P f s0 _. unfold conn_commit, bind, checkpoint.
    destruct (interrupt env (n_ops s0)); reflexivity. }
  assert (Hhandlers : forall o e,
             triple (fun s0 => fatal_synced e s0 /\ e <> OutOfFuel)
               (analysis_handlers env o e)
               (fun _ => synced) (fun e _ => e = KeyboardInterrupt)).
  { intros o [| cls msg |]; cbn [analysis_handlers].
    - eapply triple_weaken; [apply (Hcommit (fun _ => True)) | tw ..].
    - fold (_is_fatal_auth (Exc cls msg)).
      destruct (_is_fatal_auth (Exc cls msg)) eqn:Hfatal.
      + tstep. intros s0 [Hs _]. apply Hs. exact Hfatal.
      + eapply triple_weaken; [apply (Hcommit (fun _ => True)) | tw ..].
    - intros s0 [_ Hne]. exfalso. apply Hne. reflexivity. }
  unfold run_flow_analyze.
  pose proof (dur_analyze env analysis_tag model analysis_limit false
                max_requests_per_minute (Some subreddits) None s I) as Hdur.
  pose proof (analyze_never_out_of_fuel env analysis_tag model analysis_limit
                false max_requests_per_minute (Some subreddits) None s) as Hfuel.
  destruct (analyze _ _ _ _ _ _ _ _ s) as [[o | e] s1].
  - assert (Htry : triple (fun _ => True)
              (try_except (conn_commit env ;; ret (Proceed (Some o)))
                 (analysis_handlers env (Some o)))
              (fun _ => synced) (fun e _ => e = KeyboardInterrupt)).
    { apply (triple_try _ _ _ (fun e _ => e = KeyboardInterrupt)).
      - apply Hcommit.
      - intros e. eapply triple_weaken; [apply Hhandlers | | tw ..].
        intros s0 ->. split; [intros Hf; discriminate Hf | discriminate]. }
    exact (Htry s1 I).
  - apply (Hhandlers None e s1). split; [exact Hdur |].
    intros ->. apply Hfuel. reflexivity.
Qed.

(** ** Clearing the analysis of a tag *)

Lemma db_execute_quiet env statement s :
  quiet env (n_ops s) ->
  db_execute env statement s
  = (Ok (fst (statement (Db.pending_db (conn s)))),
     set_conn (Db.mkConn (Db.committed (conn s))
                 (snd (statement (Db.pending_db (conn s)))))
       (set_n_ops (S (n_ops s)) s)).
Proof.
  intros Hq. unfold db_execute.
  rewrite (bind_ok _ _ _ _ _ (checkpoint_quiet env s Hq)). reflexivity.
Qed.

(** X19.  [_clear_analysis], when no Ctrl+C interrupts it, deletes the
    mentions and the Outcome rows of the tag and of no other tag, leaves the
    item table as it was, commits, and returns the two numbers of rows
    deleted.  Every stored item is then pending under the tag again. *)
Theorem clear_analysis_forgets_the_tag_and_nothing_else env analysis_tag s
    (Hquiet : quiet env (n_ops s)) :
  let db := Db.pending_db (conn s) in
  exists s',
    _clear_analysis env analysis_tag s
    = (Ok (length (List.filter (fun m => String.eqb (Db.m_tag m) analysis_tag)
                     (Db.mentions db)),
           size (filter (fun kv => snd (fst kv) = analysis_tag)
                   (Db.outcomes db))),
       s') /\
    Db.committed (conn s') = Db.pending_db (conn s') /\
    Db.items (Db.pending_db (conn s')) = Db.items db /\
    (forall m, In m (Db.mentions (Db.pending_db (conn s'))) <->
               In m (Db.mentions db) /\ Db.m_tag m <> analysis_tag) /\
    (forall cid tag,
       Db.outcomes (Db.pending_db (conn s')) !! (cid, tag)
       = if String.eqb tag analysis_tag then None
         else Db.outcomes db !! (cid, tag)) /\
    (forall retry_errors it,
       Db.pending (Db.pending_db (conn s')) analysis_tag retry_errors it = true).
Proof.
  intros db.
  assert (Hrows : forall cid tag,
             filter (fun kv : string * string * Db.OutcomeRow =>
                       snd (fst kv) <> analysis_tag) (Db.outcomes db)
             !! (cid, tag)
             = if String.eqb tag analysis_tag then None
               else Db.outcomes db !! (cid, tag)).
  { intros cid tag. destruct (String.eqb_spec tag analysis_tag) as [-> | Hne].
    - apply map_lookup_filter_None. right. intros x _ Hp. apply Hp. reflexivity.
    - destruct (Db.outcomes db !! (cid, tag)) as [x |] eqn:Hx.
      + apply map_lookup_filter_Some. split; [exact Hx | exact Hne].
      + apply map_lookup_filter_None. left. exact Hx. }
  eexists. split.
  { unfold _clear_analysis.
    rewrite (bind_ok _ _ _ _ _ (db_execute_quiet env _ s Hquiet)).
    erewrite bind_ok by (apply db_execute_quiet; quiet_side Hquiet).
    erewrite bind_ok by (apply conn_commit_quiet; quiet_side Hquiet).
    reflexivity. }
  cbn. fold db. split; [reflexivity |]. split; [reflexivity |].
  split; [| split].
  - intros m. rewrite filter_In, negb_true_iff.
    split; intros [Hin Htag]; (split; [exact Hin |]).
    + intros Heq. rewrite Heq, String.eqb_refl in Htag. discriminate Htag.
    + destruct (String.eqb_spec (Db.m_tag m) analysis_tag);
        [contradiction | reflexivity].
  - exact Hrows.
  - intros retry_errors it. unfold Db.pending. cbn.
    rewrite Hrows, String.eqb_refl. reflexivity.
Qed.

Lemma clear_analysis_forgets_the_tag_and_nothing_else_witness :
  exists s',
    _clear_analysis Scenario.paced_env "default" (Scenario.fresh two_tags)
    = (Ok (1%nat, 2%nat), s') /\
    Db.outcomes (Db.committed (conn s')) !! ("c1", "weekly")
    = Some (Db.RowOk "gpt-5-nano") /\
    Db.outcomes (Db.committed (conn s')) !! ("c1", "default") = None.
Proof.
  destruct (clear_analysis_forgets_the_tag_and_nothing_else
              Scenario.paced_env "default" (Scenario.fresh two_tags)
              (fun n _ => eq_refl))
    as (s' & Hrun & Hsync & _ & _ & Hrows & _).
  exists s'. split; [exact Hrun |]. rewrite Hsync, !Hrows. split; reflexivity.
Defined.

(** ** What the stop reason tells *)

Section Reasons.

Variable env : Env.
Variables (analysis_tag model : string) (interval : Q) (deadline : option Q).
Variable n0 : nat.

Lemma calm_to_next n :
  calm_to env n0 n -> interrupt env n = false -> calm_to env n0 (S n).
Proof.
  intros [Hle Hq] Hint. split; [lia |].
  intros k Hk. destruct (Nat.eq_dec k n) as [-> | Hne]; [exact Hint |].
  apply Hq. lia.
Qed.

Lemma calm_to_struck n :
  calm_to env n0 n -> interrupt env n = true -> struck_by env n0 (S n).
Proof. intros [Hle _] Hint. exists n. split; [lia | exact Hint]. Qed.

Lemma struck_by_next n : struck_by env n0 n -> struck_by env n0 (S n).
Proof. intros (k & Hk & Hint). exists k. split; [lia | exact Hint]. Qed.

Lemma tracks_calm : tracks env n0 (calm_to env n0).
Proof. split; [apply calm_to_next | apply calm_to_struck]. Qed.

Lemma tracks_struck : tracks env n0 (struck_by env n0).
Proof. split; intros n H _; apply struck_by_next, H. Qed.

Section Primitives.

Variables (K : nat -> Prop) (R : option string -> Prop) (T : Q -> Prop).
Hypothesis HK : tracks env n0 K.

(** A primitive operation that touches neither the stop reason nor the
    clock. *)
Ltac ph_prim :=
  let s := fresh "s" in
  let Hk := fresh "Hk" in
  let Hr := fresh "Hr" in
  let Ht := fresh "Ht" in
  let Hint := fresh "Hint" in
  intros s (Hk & Hr & Ht);
  unfold conn_commit, db_write, db_read, oracle_find_invalid,
    db_delete_mentions, read_secret, bind, checkpoint, modify, get, ret;
  destruct (interrupt env (n_ops s)) eqn:Hint; cbn;
  [ split; [reflexivity | apply (proj2 HK), Hint; exact Hk]
  | split; [apply (proj1 HK), Hint; exact Hk | split; assumption] ].

Lemma ph_commit :
  triple (phase K R T) (conn_commit env) (fun _ => phase K R T)
    (from_keyboard env n0).
Proof. ph_prim. Qed.

Lemma ph_write f :
  triple (phase K R T) (db_write env f) (fun _ => phase K R T)
    (from_keyboard env n0).
Proof. ph_prim. Qed.

Lemma ph_read {A} (f : Db.DB -> A) :
  triple (phase K R T) (db_read env f) (fun _ => phase K R T)
    (from_keyboard env n0).
Proof. ph_prim. Qed.

Lemma ph_oracle tickers :
  triple (phase K R T) (oracle_find_invalid env tickers) (fun _ => phase K R T)
    (from_keyboard env n0).
Proof. ph_prim. Qed.

Lemma ph_delete tickers :
  triple (phase K R T) (db_delete_mentions env analysis_tag tickers)
    (fun _ => phase K R T) (from_keyboard env n0).
Proof. ph_prim. Qed.

Lemma ph_secret name :
  triple (phase K R T) (read_secret env name) (fun _ => phase K R T)
    (from_keyboard env n0).
Proof. ph_prim. Qed.

Lemma ph_cleanup :
  triple (phase K R T) (_cleanup_invalid_tickers env analysis_tag)
    (fun _ => phase K R T) (from_keyboard env n0).
Proof.
  unfold _cleanup_invalid_tickers.
  apply (triple_bind _ _ _ (fun _ => phase K R T)); [tstep; intros s Hs; exact Hs |].
  intros _. tstep; [tstep; auto |].
  tstep; [apply ph_read |].
  tstep; [tstep; auto |].
  tstep; [apply ph_oracle |].
  tstep; [tstep; auto |].
  tstep; [apply ph_delete |].
  tstep; [apply ph_commit |].
  tstep. auto.
Qed.

Lemma ph_time_sleep seconds :
  triple (phase K R whenever) (time_sleep env seconds)
    (fun _ => phase K R whenever) (from_keyboard env n0).
Proof.
  intros s (Hk & Hr & _). unfold time_sleep, bind, checkpoint, modify.
  destruct (interrupt env (n_ops s)) eqn:Hint; cbn.
  - split; [reflexivity | apply (proj2 HK), Hint; exact Hk].
  - split; [apply (proj1 HK), Hint; exact Hk | split; [exact Hr | exact I]].
Qed.

Lemma ph_sleep seconds :
  triple (phase K R whenever) (_sleep_with_deadline env seconds deadline)
    (fun _ => phase K R whenever) (from_keyboard env n0).
Proof.
  unfold _sleep_with_deadline.
  tstep; [tstep; auto |].
  destruct deadline as [d |]; [| apply ph_time_sleep].
  apply (triple_bind _ _ _ (fun _ => phase K R whenever)); [tstep; auto |].
  intros now. tstep; [tstep; auto | apply ph_time_sleep].
Qed.

Lemma ph_pace :
  triple (phase K R whenever) (_pace env interval deadline)
    (fun _ => phase K R whenever) (from_keyboard env n0).
Proof.
  unfold _pace.
  tstep; [tstep; auto |].
  apply (triple_bind _ _ _ (fun _ => phase K R whenever)); [tstep; auto |].
  intros now.
  apply (triple_bind _ _ _ (fun _ => phase K R whenever)); [tstep; auto |].
  intros nca.
  apply (triple_bind _ _ _ (fun _ => phase K R whenever)).
  { tstep; [apply ph_sleep | tstep; auto]. }
  intros _.
  apply (triple_bind _ _ _ (fun _ => phase K R whenever)); [tstep; auto |].
  intros now'. tstep. intros s Hs. exact Hs.
Qed.

End Primitives.

Lemma from_keyboard_error e s :
  from_keyboard env n0 e s -> interrupt_or_error env n0 e s.
Proof. intros [-> Hs]. exact Hs. Qed.

Lemma from_keyboard_real e s :
  from_keyboard env n0 e s -> interrupt_is_real env n0 e s.
Proof. intros [_ Hs] _. exact Hs. Qed.

(** The classifier call, the loops running. *)
Lemma ph_call cid text :
  triple (running env n0) (analyze_comment env cid model text)
    (fun _ => running env n0) (interrupt_or_error env n0).
Proof.
  intros s (Hk & Hr & _). unfold analyze_comment, bind, checkpoint.
  destruct (interrupt env (n_ops s)) eqn:Hint; cbn.
  - apply calm_to_struck; assumption.
  - assert (Hrun : running env n0
              (set_clock
                 (clock s + resp_seconds (classify env (n_calls s) model text))%Q
                 (set_n_calls (S (n_calls s))
                    (log (ECall cid (clock s)) (set_n_ops (S (n_ops s)) s))))).
    { split; [apply calm_to_next; assumption | split; [exact Hr | exact I]]. }
    destruct (resp_result _); exact Hrun.
Qed.

(** The protected region, the loops running. *)
Lemma ph_attempt_body cid text :
  triple (running env n0)
    (attempt_body env analysis_tag model interval deadline cid text)
    (run_or_verdict env deadline n0) (interrupt_or_error env n0).
Proof.
  unfold attempt_body.
  tstep; [apply (triple_exn _ _ _ _ _ from_keyboard_error),
            (ph_pace _ _ tracks_calm) |].
  tstep; [apply ph_call |].
  apply (triple_bind _ _ _ (fun _ => running env n0));
    [tstep; intros s Hs; exact Hs |].
  intros _.
  tstep; [apply (triple_exn _ _ _ _ _ from_keyboard_error),
            (ph_write _ _ _ tracks_calm) |].
  tstep; [apply (triple_exn _ _ _ _ _ from_keyboard_error),
            (ph_write _ _ _ tracks_calm) |].
  apply (triple_bind _ _ _ (fun _ => running env n0));
    [tstep; intros s Hs; exact Hs |].
  intros _.
  apply (triple_bind _ _ _ (fun _ => running env n0)); [tstep; auto |].
  intros n.
  apply (triple_bind _ _ _ (fun _ => running env n0)).
  { tstep; [| tstep; auto].
    apply (triple_exn _ _ _ _ _ from_keyboard_error),
      (ph_commit _ _ _ tracks_calm). }
  intros _. tstep. intros s Hs. exact Hs.
Qed.

(** A way out: set the reason, commit, run the post-pass, [return]. *)
Lemma ph_on_interrupt {A} (a : State -> A) (Q : A -> State -> Prop) :
  (forall s, phase (struck_by env n0) (eq (Some "ctrl_c")) whenever s ->
             Q (a s) s) ->
  triple (phase (struck_by env n0) anyhow whenever)
    (conn_commit env ;; set_reason "ctrl_c" ;;
     _cleanup_invalid_tickers env analysis_tag ;; get a)
    Q (interrupt_is_real env n0).
Proof.
  intros HQ.
  tstep; [apply (triple_exn _ _ _ _ _ from_keyboard_real),
            (ph_commit _ _ _ tracks_struck) |].
  apply (triple_bind _ _ _
           (fun _ => phase (struck_by env n0) (eq (Some "ctrl_c")) whenever)).
  { tstep. intros s (Hk & _ & Ht). split; [exact Hk | split; [reflexivity | exact Ht]]. }
  intros _.
  tstep; [apply (triple_exn _ _ _ _ _ from_keyboard_real),
            (ph_cleanup _ _ _ tracks_struck) |].
  tstep. exact HQ.
Qed.

Lemma ph_on_inner_interrupt :
  triple (phase (struck_by env n0) anyhow whenever)
    (on_inner_interrupt env analysis_tag)
    (run_or_verdict env deadline n0) (interrupt_is_real env n0).
Proof.
  apply (ph_on_interrupt (fun _ => Return)).
  intros s Hs. right; right; right. exact Hs.
Qed.

Lemma ph_on_outer_interrupt :
  triple (phase (struck_by env n0) anyhow whenever)
    (on_outer_interrupt env analysis_tag)
    (fun o s => o = outcome s /\ verdict env deadline n0 s)
    (interrupt_is_real env n0).
Proof.
  apply (ph_on_interrupt outcome).
  intros s Hs. split; [reflexivity |]. right; right; right. exact Hs.
Qed.

Lemma ph_stop_timeout :
  triple (phase (calm_to env n0) (eq None) (reached deadline))
    (stop_timeout env analysis_tag)
    (run_or_verdict env deadline n0) (interrupt_is_real env n0).
Proof.
  unfold stop_timeout.
  apply (triple_bind _ _ _
           (fun _ => phase (calm_to env n0) (eq (Some "timeout"))
                       (reached deadline))).
  { tstep. intros s (Hk & _ & Ht).
    split; [exact Hk | split; [reflexivity | exact Ht]]. }
  intros _.
  tstep; [apply (triple_exn _ _ _ _ _ from_keyboard_real),
            (ph_commit _ _ _ tracks_calm) |].
  tstep; [apply (triple_exn _ _ _ _ _ from_keyboard_real),
            (ph_cleanup _ _ _ tracks_calm) |].
  tstep. intros s Hs. right; right; left. exact Hs.
Qed.

Lemma ph_deadline_elapsed :
  triple (running env n0) (deadline_elapsed deadline)
    (fun b s => if b : bool
                then phase (calm_to env n0) (eq None) (reached deadline) s
                else running env n0 s)
    (interrupt_is_real env n0).
Proof.
  unfold deadline_elapsed. destruct deadline as [d |].
  - intros s (Hk & Hr & _). unfold _now. rewrite bind_get. cbn.
    destruct (Qle_bool d (clock s)) eqn:Hd.
    + split; [exact Hk | split; [exact Hr |]]. exists d. split; [reflexivity | exact Hd].
    + split; [exact Hk | split; [exact Hr | exact I]].
  - tstep. auto.
Qed.

Lemma ph_on_exception attempt cid cls msg :
  triple (running env n0)
    (on_exception env analysis_tag model deadline attempt cid (Exc cls msg))
    (run_or_verdict env deadline n0) (interrupt_is_real env n0).
Proof.
  unfold on_exception.
  destruct (_is_fatal_auth _).
  { tstep; [apply (triple_exn _ _ _ _ _ from_keyboard_real),
              (ph_commit _ _ _ tracks_calm) |].
    tstep. intros s _ Hki. discriminate Hki. }
  destruct (_ && _).
  { tstep; [apply (triple_exn _ _ _ _ _ from_keyboard_real),
              (ph_write _ _ _ tracks_calm) |].
    tstep; [apply (triple_exn _ _ _ _ _ from_keyboard_real),
              (ph_commit _ _ _ tracks_calm) |].
    apply (triple_bind _ _ _
             (fun _ => phase (calm_to env n0) (eq (Some "quota")) whenever)).
    { tstep. intros s (Hk & _ & Ht).
      split; [exact Hk | split; [reflexivity | exact Ht]]. }
    intros _.
    tstep; [apply (triple_exn _ _ _ _ _ from_keyboard_real),
              (ph_cleanup _ _ _ tracks_calm) |].
    tstep. intros s Hs. right; left. exact Hs. }
  destruct (_is_retryable _).
  - unfold retry_after_backoff.
    apply (triple_bind _ _ _ (fun _ => running env n0)).
    { intros s Hs. unfold lift, _backoff_seconds.
      destruct (1024 <=? attempt)%nat; [intros Hki; discriminate Hki | exact Hs]. }
    intros w.
    tstep; [apply (triple_exn _ _ _ _ _ from_keyboard_real),
              (ph_sleep _ _ tracks_calm) |].
    tstep. auto.
  - tstep; [apply (triple_exn _ _ _ _ _ from_keyboard_real),
              (ph_write _ _ _ tracks_calm) |].
    apply (triple_bind _ _ _ (fun _ => running env n0));
      [tstep; intros s Hs; exact Hs |].
    intros _.
    tstep; [apply (triple_exn _ _ _ _ _ from_keyboard_real),
              (ph_commit _ _ _ tracks_calm) |].
    tstep. auto.
Qed.

Lemma ph_attempt_once attempt cid text :
  triple (running env n0)
    (attempt_once env analysis_tag model interval deadline attempt cid text)
    (run_or_verdict env deadline n0) (interrupt_is_real env n0).
Proof.
  unfold attempt_once.
  apply (triple_try _ _ _ (interrupt_or_error env n0)).
  - eapply triple_weaken; [apply ph_attempt_body | tw ..].
  - intros [| cls msg |].
    + eapply triple_weaken; [apply ph_on_inner_interrupt | | tw ..].
      intros s Hs. split; [exact Hs | split; exact I].
    + apply ph_on_exception.
    + tstep. intros s _ Hki. discriminate Hki.
Qed.

Lemma ph_attempt_loop budget : forall attempt cid text,
  triple (running env n0)
    (attempt_loop env analysis_tag model interval deadline budget attempt cid text)
    (run_or_verdict env deadline n0) (interrupt_is_real env n0).
Proof.
  induction budget as [| budget IH]; intros attempt cid text; cbn [attempt_loop].
  { tstep. intros s _ Hki. discriminate Hki. }
  tstep; [apply ph_deadline_elapsed |].
  tstep; [apply ph_stop_timeout |].
  tstep; [apply ph_attempt_once |].
  tstep; [tstep; auto | apply IH | tstep; auto].
Qed.

Lemma ph_process_candidate cid body :
  triple (running env n0)
    (process_candidate env analysis_tag model interval deadline cid body)
    (run_or_verdict env deadline n0) (interrupt_is_real env n0).
Proof.
  unfold process_candidate.
  tstep; [apply ph_deadline_elapsed |].
  tstep; [apply ph_stop_timeout |].
  tstep; [tstep; auto |].
  tstep; [| apply ph_attempt_loop].
  unfold shortcut_skip.
  tstep; [apply (triple_exn _ _ _ _ _ from_keyboard_real),
            (ph_write _ _ _ tracks_calm) |].
  apply (triple_bind _ _ _ (fun _ => running env n0));
    [tstep; intros s Hs; exact Hs |].
  intros _.
  apply (triple_bind _ _ _ (fun _ => running env n0)); [tstep; auto |].
  intros n.
  apply (triple_bind _ _ _ (fun _ => running env n0)).
  { tstep; [| tstep; auto].
    apply (triple_exn _ _ _ _ _ from_keyboard_real),
      (ph_commit _ _ _ tracks_calm). }
  intros _. tstep. auto.
Qed.

Lemma ph_for_candidates candidates :
  triple (running env n0)
    (for_candidates env analysis_tag model interval deadline candidates)
    (run_or_verdict env deadline n0) (interrupt_is_real env n0).
Proof.
  induction candidates as [| [cid body] rest IH]; cbn [for_candidates].
  { tstep. auto. }
  tstep; [apply ph_process_candidate |].
  tstep; [apply IH | apply IH | tstep; auto].
Qed.

Lemma ph_analyze_try candidates :
  triple (running env n0)
    (analyze_try env analysis_tag model interval deadline candidates)
    (fun o s => o = outcome s /\ verdict env deadline n0 s)
    (interrupt_is_real env n0).
Proof.
  assert (Hend : triple (running env n0)
            (conn_commit env ;; _cleanup_invalid_tickers env analysis_tag ;;
             get outcome)
            (fun o s => o = outcome s /\ verdict env deadline n0 s)
            (interrupt_is_real env n0)).
  { tstep; [apply (triple_exn _ _ _ _ _ from_keyboard_real),
              (ph_commit _ _ _ tracks_calm) |].
    tstep; [apply (triple_exn _ _ _ _ _ from_keyboard_real),
              (ph_cleanup _ _ _ tracks_calm) |].
    tstep. intros s Hs. split; [reflexivity | left; exact Hs]. }
  unfold analyze_try. apply (triple_try _ _ _ (interrupt_is_real env n0)).
  - unfold analyze_body.
    tstep; [apply ph_for_candidates |].
    tstep; [exact Hend | exact Hend |].
    tstep. intros s Hs. split; [reflexivity | exact Hs].
  - intros [| cls msg |]; cbn [outer_handler].
    + eapply triple_weaken; [apply ph_on_outer_interrupt | | tw ..].
      intros s Hs. split; [apply Hs; reflexivity | split; exact I].
    + tstep. intros s _ Hki. discriminate Hki.
    + tstep. intros s _ Hki. discriminate Hki.
Qed.

End Reasons.

(** X3.  What the stop reason of a returned outcome tells.  It is ["ctrl_c"]
    exactly when a Ctrl+C was delivered during the call.  Otherwise it is
    absent, ["quota"] or ["timeout"], and ["timeout"] only when
    [timeout_seconds] is set, is not 0, and that much time has passed on the
    clock since the call began. *)
Theorem analyze_stop_reason_tells env analysis_tag model limit retry_errors
    max_requests_per_minute subreddits timeout_seconds s :
  match analyze env analysis_tag model limit retry_errors
          max_requests_per_minute subreddits timeout_seconds s with
  | (Ok o, s') =>
      o = outcome s' /\
      ((struck_by env (n_ops s) (n_ops s')
        /\ stopped_reason o = Some "ctrl_c")
       \/ (calm_to env (n_ops s) (n_ops s')
           /\ (stopped_reason o = None
               \/ stopped_reason o = Some "quota"
               \/ (stopped_reason o = Some "timeout"
                   /\ exists t, timeout_seconds = Some t /\ t <> 0%Z
                                /\ (clock s + inject_Z t <= clock s')%Q))))
  | (Raise _, _) => True
  end.
Proof.
  pose (deadline :=
          match timeout_seconds with
          | Some t => if (t =? 0)%Z then None else Some (clock s + inject_Z t)%Q
          | None => None
          end).
  assert (H : triple (fun s0 => s0 = s)
            (analyze env analysis_tag model limit retry_errors
               max_requests_per_minute subreddits timeout_seconds)
            (fun o s' => o = outcome s' /\ verdict env deadline (n_ops s) s')
            (fun _ _ => True)).
  { unfold analyze.
    apply (triple_bind _ _ _
             (fun _ s0 => running env (n_ops s) s0 /\ clock s0 = clock s)).
    { tstep. intros s0 ->. split; [| reflexivity].
      split; [| split; [reflexivity | exact I]].
      split; [cbn; lia | cbn; intros k Hk; lia]. }
    intros _. apply (triple_bind _ _ _
             (fun now0 s0 => running env (n_ops s) s0 /\ now0 = clock s)).
    { tstep. intros s0 [Hs0 Hc]. split; [exact Hs0 | exact Hc]. }
    intros now0.
    apply (triple_bind _ _ _
             (fun _ s0 => running env (n_ops s) s0 /\ now0 = clock s)).
    { intros s0 [Hs0 Hc].
      pose proof (ph_secret env (n_ops s) _ _ _ (tracks_calm env (n_ops s))
                    "OPENAI_API_KEY" s0 Hs0) as Hrun.
      destruct (read_secret env "OPENAI_API_KEY" s0) as [[k | e] s1];
        [split; [exact Hrun | exact Hc] | exact I]. }
    intros key. tstep; [tstep; auto |].
    apply (triple_bind _ _ _
             (fun _ s0 => running env (n_ops s) s0 /\ now0 = clock s)).
    { intros s0 [Hs0 Hc].
      pose proof (ph_read env (n_ops s) _ _ _ (tracks_calm env (n_ops s))
                    (fun db => Db.fetch_candidates db analysis_tag limit
                                 retry_errors subreddits) s0 Hs0) as Hrun.
      destruct (db_read env _ s0) as [[k | e] s1];
        [split; [exact Hrun | exact Hc] | exact I]. }
    intros candidates.
    apply (triple_bind _ _ _
             (fun _ s0 => running env (n_ops s) s0 /\ now0 = clock s));
      [tstep; auto |].
    intros now1.
    apply (triple_bind _ _ _
             (fun _ s0 => running env (n_ops s) s0 /\ now0 = clock s)).
    { tstep. intros s0 [Hs0 Hc]. split; [exact Hs0 | exact Hc]. }
    intros _ s0 [Hs0 ->].
    pose proof (ph_analyze_try env analysis_tag model
                  (if (0 <? max_requests_per_minute)%Z
                   then (60 / inject_Z max_requests_per_minute)%Q else 0%Q)
                  deadline (n_ops s) candidates s0 Hs0) as Hrun.
    fold deadline.
    destruct (analyze_try _ _ _ _ _ _ s0) as [[o | e] s1]; [exact Hrun | exact I]. }
  specialize (H s eq_refl).
  destruct (analyze _ _ _ _ _ _ _ _ s) as [[o | e] s']; [| exact I].
  destruct H as [Ho Hv]. split; [exact Ho |]. subst o.
  destruct Hv as [(Hk & Hr & _) | [(Hk & Hr & _) | [(Hk & Hr & Ht) | (Hk & Hr & _)]]].
  - right. split; [exact Hk |]. left. symmetry. exact Hr.
  - right. split; [exact Hk |]. right; left. symmetry. exact Hr.
  - right. split; [exact Hk |]. right; right. split; [symmetry; exact Hr |].
    destruct Ht as (d & Hd & Hle). subst deadline.
    destruct timeout_seconds as [t |]; [| discriminate Hd].
    exists t. split; [reflexivity |].
    destruct (Z.eqb_spec t 0) as [-> | Hne]; [discriminate Hd |].
    split; [exact Hne |]. injection Hd as <-.
    apply Qle_bool_iff. exact Hle.
  - left. split; [exact Hk | symmetry; exact Hr].
Qed.

(** ** The counters of the outcome object *)

Lemma tally_mono c0 k k' slack slack' s :
  (k <= k')%nat -> (slack <= slack')%nat ->
  tally c0 k slack s -> tally c0 k' slack' s.
Proof. intros Hk Hs [H1 H2 H3]. split; lia. Qed.

Lemma tally_reads c0 k slack : reads_counters (tally c0 k slack).
Proof.
  intros s s' Ha He Hm Hc [H1 H2 H3]. split; rewrite ?Ha, ?He, ?Hm, ?Hc; assumption.
Qed.

Section Tally.

Variable env : Env.
Variables (analysis_tag model : string) (interval : Q) (deadline : option Q).
Variable c0 : nat.

Section Primitives.

Variable X : State -> Prop.
Hypothesis HX : reads_counters X.

Ltac tl_prim :=
  let s := fresh "s" in
  let Hs := fresh "Hs" in
  intros s Hs;
  unfold time_sleep, conn_commit, db_write, db_read, oracle_find_invalid,
    db_delete_mentions, read_secret, bind, checkpoint, modify, get, ret;
  destruct (interrupt env (n_ops s)); cbn;
  [ split; [reflexivity |] | ];
  (eapply HX; [| | | | exact Hs]; reflexivity).

Lemma tl_commit :
  triple X (conn_commit env) (fun _ => X) (interrupted_in X).
Proof. tl_prim. Qed.

Lemma tl_write f :
  triple X (db_write env f) (fun _ => X) (interrupted_in X).
Proof. tl_prim. Qed.

Lemma tl_read {A} (f : Db.DB -> A) :
  triple X (db_read env f) (fun _ => X) (interrupted_in X).
Proof. tl_prim. Qed.

Lemma tl_oracle tickers :
  triple X (oracle_find_invalid env tickers) (fun _ => X) (interrupted_in X).
Proof. tl_prim. Qed.

Lemma tl_delete tickers :
  triple X (db_delete_mentions env analysis_tag tickers) (fun _ => X)
    (interrupted_in X).
Proof. tl_prim. Qed.

Lemma tl_secret name :
  triple X (read_secret env name) (fun _ => X) (interrupted_in X).
Proof. tl_prim. Qed.

Lemma tl_time_sleep seconds :
  triple X (time_sleep env seconds) (fun _ => X) (interrupted_in X).
Proof. tl_prim. Qed.

Lemma tl_silent f :
  (forall s, analyzed (outcome (f s)) = analyzed (outcome s)) ->
  (forall s, errors (outcome (f s)) = errors (outcome s)) ->
  (forall s, analyzed_model_calls (outcome (f s))
             = analyzed_model_calls (outcome s)) ->
  (forall s, n_calls (f s) = n_calls s) ->
  triple X (modify f) (fun _ => X) (interrupted_in X).
Proof.
  intros H1 H2 H3 H4. tstep. intros s Hs. apply (HX s); auto.
Qed.

Lemma tl_sleep seconds :
  triple X (_sleep_with_deadline env seconds deadline) (fun _ => X)
    (interrupted_in X).
Proof.
  unfold _sleep_with_deadline.
  tstep; [tstep; auto |].
  destruct deadline as [d |]; [| apply tl_time_sleep].
  apply (triple_bind _ _ _ (fun _ => X)); [tstep; auto |].
  intros now. tstep; [tstep; auto | apply tl_time_sleep].
Qed.

Lemma tl_pace :
  triple X (_pace env interval deadline) (fun _ => X) (interrupted_in X).
Proof.
  unfold _pace.
  tstep; [tstep; auto |].
  apply (triple_bind _ _ _ (fun _ => X)); [tstep; auto |].
  intros now.
  apply (triple_bind _ _ _ (fun _ => X)); [tstep; auto |].
  intros nca.
  apply (triple_bind _ _ _ (fun _ => X)).
  { tstep; [apply tl_sleep | tstep; auto]. }
  intros _.
  apply (triple_bind _ _ _ (fun _ => X)); [tstep; auto |].
  intros now'. apply tl_silent; reflexivity.
Qed.

Lemma tl_cleanup :
  triple X (_cleanup_invalid_tickers env analysis_tag) (fun _ => X)
    (interrupted_in X).
Proof.
  unfold _cleanup_invalid_tickers.
  tstep; [apply tl_silent; reflexivity |].
  tstep; [tstep; auto |].
  tstep; [apply tl_read |].
  tstep; [tstep; auto |].
  tstep; [apply tl_oracle |].
  tstep; [tstep; auto |].
  tstep; [apply tl_delete |].
  tstep; [apply tl_commit |].
  tstep. auto.
Qed.

Lemma tl_set_reason r :
  triple X (set_reason r) (fun _ => X) (interrupted_in X).
Proof. apply tl_silent; reflexivity. Qed.

End Primitives.

Lemma interrupted_raised k slack :
  (slack <= 1)%nat ->
  forall e s, interrupted_in (tally c0 k slack) e s -> tally_raised c0 k e s.
Proof.
  intros Hsl e s [-> Hs].
  apply (tally_mono c0 k (S k) slack 1); [lia | lia | exact Hs].
Qed.

Lemma interrupted_raised_next k slack :
  (slack <= 1)%nat ->
  forall e s, interrupted_in (tally c0 (S k) slack) e s -> tally_raised c0 k e s.
Proof.
  intros Hsl e s [-> Hs].
  apply (tally_mono c0 (S k) (S k) slack 1); [lia | lia | exact Hs].
Qed.

Lemma interrupted_end k k' slack :
  (k <= k')%nat -> (slack <= 1)%nat ->
  forall e s, interrupted_in (tally c0 k slack) e s -> tally c0 k' 1 s.
Proof.
  intros Hk Hsl e s [_ Hs].
  apply (tally_mono c0 k k' slack 1); [lia | lia | exact Hs].
Qed.

(** The protected region, [k] candidates having gone before. *)
Lemma tl_attempt_body k cid text :
  triple (tally c0 k 0)
    (attempt_body env analysis_tag model interval deadline cid text)
    (tally_pass c0 k) (tally_raised c0 k).
Proof.
  unfold attempt_body.
  tstep; [apply (triple_exn _ _ _ _ _ (interrupted_raised k 0 (Nat.le_0_l 1))),
            tl_pace, tally_reads |].
  apply (triple_bind _ _ _
           (fun _ s => tally c0 k 0 s
                       /\ (S (analyzed_model_calls (outcome s) + c0) <= n_calls s)%nat)).
  { intros s Hs. unfold analyze_comment, bind, checkpoint.
    destruct (interrupt env (n_ops s)); cbn.
    - apply (tally_mono c0 k (S k) 0 1); [lia | lia |].
      apply (tally_reads c0 k 0 s); [reflexivity .. | exact Hs].
    - destruct Hs as [H1 H2 H3].
      destruct (resp_result _); cbn; [split |]; try split; cbn; lia. }
  intros rows.
  apply (triple_bind _ _ _ (fun _ => tally c0 k 1)).
  { tstep. intros s [[H1 H2 H3] H4]. split; cbn; lia. }
  intros _.
  tstep; [apply (triple_exn _ _ _ _ _ (interrupted_raised k 1 (le_n 1))),
            tl_write, tally_reads |].
  tstep; [apply (triple_exn _ _ _ _ _ (interrupted_raised k 1 (le_n 1))),
            tl_write, tally_reads |].
  apply (triple_bind _ _ _ (fun _ => tally c0 (S k) 0)).
  { tstep. intros s [H1 H2 H3]. split; cbn; lia. }
  intros _.
  apply (triple_bind _ _ _ (fun _ => tally c0 (S k) 0)); [tstep; auto |].
  intros n.
  apply (triple_bind _ _ _ (fun _ => tally c0 (S k) 0)).
  { tstep; [| tstep; auto].
    apply (triple_exn _ _ _ _ _ (interrupted_raised_next k 0 (Nat.le_0_l 1))),
      tl_commit, tally_reads. }
  intros _. tstep. auto.
Qed.

(** A handler of [KeyboardInterrupt]: commit, set the reason, run the
    post-pass, hand on [a]. *)
Lemma tl_on_interrupt {A} N (a : State -> A) :
  triple (tally c0 N 1)
    (conn_commit env ;; set_reason "ctrl_c" ;;
     _cleanup_invalid_tickers env analysis_tag ;; get a)
    (fun b s => b = a s /\ tally c0 N 1 s) (fun _ => tally c0 N 1).
Proof.
  tstep; [apply (triple_exn _ _ _ _ _ (interrupted_end N N 1 (le_n N) (le_n 1))),
            tl_commit, tally_reads |].
  tstep; [apply (triple_exn _ _ _ _ _ (interrupted_end N N 1 (le_n N) (le_n 1))),
            tl_set_reason, tally_reads |].
  tstep; [apply (triple_exn _ _ _ _ _ (interrupted_end N N 1 (le_n N) (le_n 1))),
            tl_cleanup, tally_reads |].
  tstep. auto.
Qed.

Lemma tl_stop_timeout k :
  triple (tally c0 k 0) (stop_timeout env analysis_tag)
    (tally_after c0 k) (fun _ => tally c0 (S k) 1).
Proof.
  unfold stop_timeout.
  tstep; [apply (triple_exn _ _ _ _ _ (interrupted_end k (S k) 0 (Nat.le_succ_diag_r k) (Nat.le_0_l 1))),
            tl_set_reason, tally_reads |].
  tstep; [apply (triple_exn _ _ _ _ _ (interrupted_end k (S k) 0 (Nat.le_succ_diag_r k) (Nat.le_0_l 1))),
            tl_commit, tally_reads |].
  tstep; [apply (triple_exn _ _ _ _ _ (interrupted_end k (S k) 0 (Nat.le_succ_diag_r k) (Nat.le_0_l 1))),
            tl_cleanup, tally_reads |].
  tstep. intros s Hs. apply (tally_mono c0 k (S k) 0 1); [lia | lia | exact Hs].
Qed.

Lemma tl_deadline_elapsed (X : State -> Prop) E :
  triple X (deadline_elapsed deadline) (fun _ => X) E.
Proof.
  unfold deadline_elapsed. destruct deadline as [d |].
  - apply (triple_bind _ _ _ (fun _ => X)); [tstep; auto |].
    intros now. tstep. auto.
  - tstep. auto.
Qed.

Lemma tl_on_exception k attempt cid cls msg :
  triple (tally c0 k 0)
    (on_exception env analysis_tag model deadline attempt cid (Exc cls msg))
    (tally_pass c0 k) (fun _ => tally c0 (S k) 1).
Proof.
  pose proof (interrupted_end k (S k) 0 (Nat.le_succ_diag_r k) (Nat.le_0_l 1)) as Hend.
  unfold on_exception.
  destruct (_is_fatal_auth _).
  { tstep; [apply (triple_exn _ _ _ _ _ Hend), tl_commit, tally_reads |].
    tstep. intros s Hs. apply (tally_mono c0 k (S k) 0 1); [lia | lia | exact Hs]. }
  destruct (_ && _).
  { tstep; [apply (triple_exn _ _ _ _ _ Hend), tl_write, tally_reads |].
    tstep; [apply (triple_exn _ _ _ _ _ Hend), tl_commit, tally_reads |].
    tstep; [apply (triple_exn _ _ _ _ _ Hend), tl_set_reason, tally_reads |].
    tstep; [apply (triple_exn _ _ _ _ _ Hend), tl_cleanup, tally_reads |].
    tstep. intros s Hs. apply (tally_mono c0 k (S k) 0 1); [lia | lia | exact Hs]. }
  destruct (_is_retryable _).
  - unfold retry_after_backoff.
    apply (triple_bind _ _ _ (fun _ => tally c0 k 0)).
    { intros s Hs. unfold lift, _backoff_seconds.
      destruct (1024 <=? attempt)%nat; [| exact Hs].
      apply (tally_mono c0 k (S k) 0 1); [lia | lia | exact Hs]. }
    intros w.
    tstep; [apply (triple_exn _ _ _ _ _ Hend), tl_sleep, tally_reads |].
    tstep. auto.
  - tstep; [apply (triple_exn _ _ _ _ _ Hend), tl_write, tally_reads |].
    apply (triple_bind _ _ _ (fun _ => tally c0 (S k) 0)).
    { tstep. intros s [H1 H2 H3]. split; cbn; lia. }
    intros _.
    tstep; [apply (triple_exn _ _ _ _ _
                     (interrupted_end (S k) (S k) 0 (le_n (S k)) (Nat.le_0_l 1))),
              tl_commit, tally_reads |].
    tstep. auto.
Qed.

Lemma tl_attempt_once k attempt cid text :
  triple (tally c0 k 0)
    (attempt_once env analysis_tag model interval deadline attempt cid text)
    (tally_pass c0 k) (fun _ => tally c0 (S k) 1).
Proof.
  unfold attempt_once.
  apply (triple_try _ _ _ (tally_raised c0 k)); [apply tl_attempt_body |].
  intros [| cls msg |].
  - unfold on_inner_interrupt.
    eapply triple_weaken; [apply (tl_on_interrupt (S k) (fun _ => Return)) | | | tw].
    + intros s Hs. exact Hs.
    + intros c s [-> Hs]. exact Hs.
  - apply tl_on_exception.
  - tstep. intros s Hs. exact Hs.
Qed.

Lemma tl_attempt_loop k budget : forall attempt cid text,
  triple (tally c0 k 0)
    (attempt_loop env analysis_tag model interval deadline budget attempt cid text)
    (tally_after c0 k) (fun _ => tally c0 (S k) 1).
Proof.
  induction budget as [| budget IH]; intros attempt cid text; cbn [attempt_loop].
  { tstep. intros s Hs. apply (tally_mono c0 k (S k) 0 1); [lia | lia | exact Hs]. }
  tstep; [apply tl_deadline_elapsed |].
  tstep; [apply tl_stop_timeout |].
  tstep; [apply tl_attempt_once |].
  tstep; [tstep; auto | apply IH | tstep; auto].
Qed.

Lemma tl_process_candidate k cid body :
  triple (tally c0 k 0)
    (process_candidate env analysis_tag model interval deadline cid body)
    (tally_after c0 k) (fun _ => tally c0 (S k) 1).
Proof.
  unfold process_candidate.
  tstep; [apply tl_deadline_elapsed |].
  tstep; [apply tl_stop_timeout |].
  tstep.
  { tstep. intros s Hs. apply (tally_mono c0 k (S k) 0 0); [lia | lia | exact Hs]. }
  tstep; [| apply tl_attempt_loop].
  unfold shortcut_skip.
  tstep; [apply (triple_exn _ _ _ _ _
                   (interrupted_end k (S k) 0 (Nat.le_succ_diag_r k) (Nat.le_0_l 1))),
            tl_write, tally_reads |].
  apply (triple_bind _ _ _ (fun _ => tally c0 (S k) 0)).
  { tstep. intros s [H1 H2 H3]. split; cbn; lia. }
  intros _.
  apply (triple_bind _ _ _ (fun _ => tally c0 (S k) 0)); [tstep; auto |].
  intros n.
  apply (triple_bind _ _ _ (fun _ => tally c0 (S k) 0)).
  { tstep; [| tstep; auto].
    apply (triple_exn _ _ _ _ _
             (interrupted_end (S k) (S k) 0 (le_n (S k)) (Nat.le_0_l 1))),
      tl_commit, tally_reads. }
  intros _. tstep. auto.
Qed.

Lemma tl_for_candidates candidates : forall k,
  triple (tally c0 k 0)
    (for_candidates env analysis_tag model interval deadline candidates)
    (fun c s => match c with
                | Return => tally c0 (k + length candidates) 1 s
                | _ => tally c0 (k + length candidates) 0 s
                end)
    (fun _ => tally c0 (k + length candidates) 1).
Proof.
  induction candidates as [| [cid body] rest IH]; intros k; cbn [for_candidates length].
  { tstep. intros s Hs. apply (tally_mono c0 k (k + 0) 0 0); [lia | lia | exact Hs]. }
  assert (Hrest : triple (tally c0 (S k) 0)
            (for_candidates env analysis_tag model interval deadline rest)
            (fun c s => match c with
                        | Return => tally c0 (k + S (length rest)) 1 s
                        | _ => tally c0 (k + S (length rest)) 0 s
                        end)
            (fun _ => tally c0 (k + S (length rest)) 1)).
  { replace (k + S (length rest))%nat with (S k + length rest)%nat by lia.
    apply IH. }
  eapply triple_bind.
  { eapply triple_exn; [| apply tl_process_candidate].
    intros e s Hs.
    apply (tally_mono c0 (S k) (k + S (length rest)) 1 1); [lia | lia | exact Hs]. }
  intros [| |]; [exact Hrest | exact Hrest |].
  tstep. intros s Hs.
  apply (tally_mono c0 (S k) (k + S (length rest)) 1 1); [lia | lia | exact Hs].
Qed.

Lemma tl_analyze_try candidates k :
  triple (tally c0 k 0)
    (analyze_try env analysis_tag model interval deadline candidates)
    (fun o s => o = outcome s /\ tally c0 (k + length candidates) 1 s)
    (fun _ _ => True).
Proof.
  set (N := (k + length candidates)%nat).
  assert (Hend : triple (tally c0 N 0)
            (conn_commit env ;; _cleanup_invalid_tickers env analysis_tag ;;
             get outcome)
            (fun o s => o = outcome s /\ tally c0 N 1 s)
            (fun _ => tally c0 N 1)).
  { pose proof (interrupted_end N N 0 (le_n N) (Nat.le_0_l 1)) as Hraise.
    tstep; [apply (triple_exn _ _ _ _ _ Hraise), tl_commit, tally_reads |].
    tstep; [apply (triple_exn _ _ _ _ _ Hraise), tl_cleanup, tally_reads |].
    tstep. intros s Hs. split; [reflexivity |].
    apply (tally_mono c0 N N 0 1); [lia | lia | exact Hs]. }
  unfold analyze_try. apply (triple_try _ _ _ (fun _ => tally c0 N 1)).
  - unfold analyze_body.
    tstep; [apply tl_for_candidates |].
    tstep; [exact Hend | exact Hend |].
    tstep. intros s Hs. split; [reflexivity | exact Hs].
  - intros [| cls msg |]; cbn [outer_handler].
    + unfold on_outer_interrupt.
      eapply triple_weaken; [apply (tl_on_interrupt N outcome) | | | tw].
      * intros s Hs. exact Hs.
      * intros o s Hs. exact Hs.
    + tstep. auto.
    + tstep. auto.
Qed.

End Tally.

(** X4.  The counters of a returned outcome.  [analyzed] and [errors]
    together do not exceed the number of candidates the run fetched;
    [analyzed_model_calls] does not exceed the number of classifier calls the
    run started, and is at most one ahead of [analyzed]. *)
Theorem analyze_counters_are_bounded env analysis_tag model limit retry_errors
    max_requests_per_minute subreddits timeout_seconds s :
  match analyze env analysis_tag model limit retry_errors
          max_requests_per_minute subreddits timeout_seconds s with
  | (Ok o, s') =>
      (analyzed o + errors o
       <= length (Db.fetch_candidates (Db.pending_db (conn s)) analysis_tag
                    limit retry_errors subreddits))%nat /\
      (analyzed_model_calls o + n_calls s <= n_calls s')%nat /\
      (analyzed_model_calls o <= S (analyzed o))%nat
  | (Raise _, _) => True
  end.
Proof.
  set (fetched := Db.fetch_candidates (Db.pending_db (conn s)) analysis_tag
                    limit retry_errors subreddits).
  pose (X := fun s0 => tally (n_calls s) 0 0 s0 /\ conn s0 = conn s).
  assert (H : triple (fun s0 => s0 = s)
            (analyze env analysis_tag model limit retry_errors
               max_requests_per_minute subreddits timeout_seconds)
            (fun o s' => o = outcome s'
                         /\ tally (n_calls s) (length fetched) 1 s')
            (fun _ _ => True)).
  { unfold analyze.
    apply (triple_bind _ _ _ (fun _ => X)).
    { tstep. intros s0 ->. split; [split; cbn; lia | reflexivity]. }
    intros _. apply (triple_bind _ _ _ (fun _ => X)); [tstep; auto |].
    intros now0. apply (triple_bind _ _ _ (fun _ => X)).
    { intros s0 [Hs0 Hc]. unfold read_secret, bind, checkpoint.
      destruct (interrupt env (n_ops s0)); [exact I |]. cbn.
      split; [| exact Hc].
      apply (tally_reads _ _ _ s0); [reflexivity .. | exact Hs0]. }
    intros key. tstep; [tstep; auto |].
    apply (triple_bind _ _ _ (fun cands s0 => X s0 /\ cands = fetched)).
    { intros s0 [Hs0 Hc]. unfold db_read, bind, checkpoint.
      destruct (interrupt env (n_ops s0)); [exact I |]. cbn.
      split; [split; [| exact Hc] | subst fetched; rewrite Hc; reflexivity].
      apply (tally_reads _ _ _ s0); [reflexivity .. | exact Hs0]. }
    intros candidates.
    apply (triple_bind _ _ _ (fun _ s0 => X s0 /\ candidates = fetched));
      [tstep; auto |].
    intros now1.
    apply (triple_bind _ _ _ (fun _ s0 => X s0 /\ candidates = fetched)).
    { tstep. intros s0 [[Hs0 Hc] Hf]. split; [split; [| exact Hc] | exact Hf].
      apply (tally_reads _ _ _ s0); [reflexivity .. | exact Hs0]. }
    intros _ s0 [[Hs0 _] ->].
    exact (tl_analyze_try env analysis_tag model _ _ (n_calls s) fetched 0%nat
             s0 Hs0). }
  specialize (H s eq_refl).
  destruct (analyze _ _ _ _ _ _ _ _ s) as [[o | e] s']; [| exact I].
  destruct H as [-> [H1 H2 H3]]. repeat split; lia.
Qed.

(** ** Errors that are neither fatal nor retryable, and complete runs *)

Lemma not_retryable_not_rate_limit e :
  _is_retryable e = false -> isinstance e RateLimitError = false.
Proof.
  unfold _is_retryable. intros H.
  apply orb_false_elim in H. destruct H as [H _].
  apply orb_false_elim in H. destruct H as [H _].
  apply orb_false_elim in H. destruct H as [H _]. exact H.
Qed.

(** The number of primitive operations started never goes down. *)
Lemma ops_grow_process_candidate env analysis_tag model interval deadline
    cid body :
  keeps (fun s s' => (n_ops s <= n_ops s')%nat)
    (process_candidate env analysis_tag model interval deadline cid body).
Proof.
  apply (keeps_process_candidate env analysis_tag model interval deadline
           (fun s s' => (n_ops s <= n_ops s')%nat)) with (allowed := fun _ => True);
    try exact I; intros; cbn; lia.
Qed.

Section Settled.

Variable env : Env.
Variables (analysis_tag model : string) (interval : Q) (deadline : option Q).

(** A classifier call that fails with an error that is neither an
    authentication or permission error nor a retryable one. *)
Lemma attempt_other_error budget attempt cid text s cls msg :
  quiet env (n_ops s) ->
  before_deadline deadline s ->
  resp_result (classify env (n_calls s) model text) = Failed cls msg ->
  _is_fatal_auth (Exc cls msg) = false ->
  _is_retryable (Exc cls msg) = false ->
  exists s',
    attempt_loop env analysis_tag model interval deadline (S budget) attempt
      cid text s = (Ok Break, s') /\
    Db.outcomes (Db.pending_db (conn s'))
    = <[(cid, analysis_tag) := Db.RowError model (type_name cls ++ ": " ++ msg)]>
        (Db.outcomes (Db.pending_db (conn s))) /\
    Db.mentions (Db.pending_db (conn s')) = Db.mentions (Db.pending_db (conn s)) /\
    outcome s' = with_errors (S (errors (outcome s))) (outcome s) /\
    Db.committed (conn s') = Db.pending_db (conn s') /\
    n_calls s' = S (n_calls s) /\
    exists sleeps t,
      trace s' = (trace s ++ sleeps ++ [ECall cid t; ECommit])%list /\
      forallb is_sleep sleeps = true.
Proof.
  intros Hq Hd Hcall Hauth Hretry.
  destruct (attempt_body_failed env analysis_tag model interval deadline
              cid text s cls msg Hq Hcall)
    as (s1 & Hbody & Ho & Hconn & Hn & Hc & sleeps & t & Htr & Hsl).
  pose (s2 := log ECommit
                (set_conn
                   (Db.commit
                      (Db.write
                         (Db.mark_analyzed_error analysis_tag cid model
                            (type_name cls ++ ": " ++ msg)) (conn s1)))
                   (set_n_ops (S (S (n_ops s1)))
                      (set_outcome
                         (with_errors (S (errors (outcome s1))) (outcome s1)) s1)))).
  assert (Honce : attempt_once env analysis_tag model interval deadline
                    attempt cid text s = (Ok Break, s2)).
  { unfold attempt_once. rewrite (try_raise _ _ _ _ _ Hbody).
    unfold on_exception.
    rewrite Hauth, (not_retryable_not_rate_limit _ Hretry), Hretry.
    cbn [andb]. qstep Hq. rewrite bind_modify. qstep Hq. reflexivity. }
  exists s2. split.
  { cbn [attempt_loop].
    rewrite (bind_ok _ _ _ _ _ (deadline_not_elapsed deadline s Hd)).
    rewrite (bind_ok _ _ _ _ _ Honce). reflexivity. }
  subst s2. cbn. rewrite Hconn, Ho, Hc.
  repeat split.
  exists sleeps, t. rewrite Htr, <- !app_assoc. split; [reflexivity | exact Hsl].
Qed.

(** A classifier call that returns. *)
Lemma attempt_success budget attempt cid text s rows :
  quiet env (n_ops s) ->
  before_deadline deadline s ->
  resp_result (classify env (n_calls s) model text) = Returned rows ->
  exists s',
    attempt_loop env analysis_tag model interval deadline (S budget) attempt
      cid text s = (Ok Break, s') /\
    Db.outcomes (Db.pending_db (conn s'))
    = <[(cid, analysis_tag) := Db.RowOk model]>
        (Db.outcomes (Db.pending_db (conn s))) /\
    outcome s'
    = with_analyzed (S (analyzed (outcome s)))
        (with_model_calls (S (analyzed_model_calls (outcome s))) (outcome s)) /\
    n_calls s' = S (n_calls s).
Proof.
  intros Hq Hd Hcall.
  assert (Hbody : exists s',
             attempt_body env analysis_tag model interval deadline cid text s
             = (Ok Break, s') /\
             Db.outcomes (Db.pending_db (conn s'))
             = <[(cid, analysis_tag) := Db.RowOk model]>
                 (Db.outcomes (Db.pending_db (conn s))) /\
             outcome s'
             = with_analyzed (S (analyzed (outcome s)))
                 (with_model_calls (S (analyzed_model_calls (outcome s)))
                    (outcome s)) /\
             n_calls s' = S (n_calls s)).
  { unfold attempt_body.
    destruct (pace_quiet env interval deadline s Hq)
      as (s0 & Hpace & [Ho Hc Hn] & Hconn & sleeps & Htr & Hsl).
    rewrite (bind_ok _ _ _ _ _ Hpace).
    unfold bind at 1. rewrite analyze_comment_quiet by (quiet_side Hq).
    cbn zeta. rewrite Hc, Hcall.
    repeat qstep Hq. cbn. rewrite Ho, Hconn.
    destruct (S (analyzed (outcome s)) mod 10 =? 0)%nat.
    - qstep Hq. eexists. split; [reflexivity |]. cbn. repeat split.
    - rewrite !bind_ret. eexists. split; [reflexivity |]. cbn. repeat split. }
  destruct Hbody as (s' & Hbody & Hfacts).
  exists s'. split; [| exact Hfacts].
  cbn [attempt_loop].
  rewrite (bind_ok _ _ _ _ _ (deadline_not_elapsed deadline s Hd)).
  unfold attempt_once.
  rewrite (bind_ok _ _ _ _ _ (try_ok _ _ _ _ _ Hbody)). reflexivity.
Qed.

End Settled.

Section Complete.

Variable env : Env.
Variables (analysis_tag model : string) (interval : Q).
Hypothesis Hsettles : forall n model text, settles (classify env n model text).

Lemma candidate_is_settled c s :
  quiet env (n_ops s) ->
  exists r s',
    process_candidate env analysis_tag model interval None (fst c) (snd c) s
    = (Ok r, s') /\
    r <> Return /\ settled_step env analysis_tag c s s'.
Proof.
  intros Hq. destruct c as [cid body].
  pose proof (ops_grow_process_candidate env analysis_tag model interval None
                cid body s) as Hops.
  cbn [fst snd] in *.
  destruct (PyStr.truthy (PyStr.strip (default "" body))) eqn:Htext.
  2: { exists Continue, s. unfold process_candidate.
       cbn [deadline_elapsed]. rewrite bind_ret, Htext. cbn [negb].
       split; [reflexivity |]. split; [discriminate |].
       split; unfold nonblank, needs_call, nonblank; cbn [fst snd];
         rewrite ?Htext; cbn [andb]; auto; try lia;
         try (intros Hf; discriminate Hf). }
  destruct (ENABLE_KEYWORD_SHORTCUT env
            && negb (has_finance_hint env (PyStr.strip (default "" body))))
    eqn:Hskip.
  - apply andb_prop in Hskip. destruct Hskip as [Hflag Hhint].
    apply negb_true_iff in Hhint.
    destruct (shortcut_skip_records_ok env analysis_tag model interval None
                cid body [] s Hq I Htext Hflag Hhint)
      as (s' & Hrun & _ & Hcalls & Hout & _ & Ho & _).
    rewrite Hrun in Hops. cbn in Hops.
    exists Continue, s'. split; [exact Hrun |]. split; [discriminate |].
    split; unfold nonblank, needs_call, nonblank; cbn [fst snd];
      rewrite ?Htext, ?Hflag, ?Hhint; cbn [andb negb].
    + exact Hops.
    + rewrite Ho. reflexivity.
    + intros _. rewrite Hout, lookup_insert_eq. eexists. reflexivity.
    + intros key Hkey. rewrite Hout. apply lookup_insert_is_Some'.
      right. exact Hkey.
    + rewrite Ho. cbn. lia.
    + rewrite Hcalls. lia.
  - rewrite (process_candidate_enters_loop env analysis_tag model interval None
               cid body s I Htext Hskip) in Hops |- *.
    change max_attempts with (S 1024).
    pose proof (Hsettles (n_calls s) model (PyStr.strip (default "" body)))
      as Hset.
    unfold settles in Hset.
    destruct (resp_result _) as [rows | cls msg] eqn:Hcall.
    + destruct (attempt_success env analysis_tag model interval None 1024 0%nat
                  cid _ s rows Hq I Hcall)
        as (s' & Hrun & Hout & Ho & Hcalls).
      change max_attempts with (S 1024) in Hops.
      rewrite Hrun in Hops. cbn in Hops.
      exists Break, s'. split; [exact Hrun |]. split; [discriminate |].
      split; unfold nonblank, needs_call, nonblank; cbn [fst snd];
        rewrite ?Htext, ?Hskip; cbn [andb negb].
      * exact Hops.
      * rewrite Ho. reflexivity.
      * intros _. rewrite Hout, lookup_insert_eq. eexists. reflexivity.
      * intros key Hkey. rewrite Hout. apply lookup_insert_is_Some'.
        right. exact Hkey.
      * rewrite Ho. cbn. lia.
      * rewrite Hcalls. lia.
    + destruct Hset as [Hauth Hretry].
      destruct (attempt_other_error env analysis_tag model interval None 1024
                  0%nat cid _ s cls msg Hq I Hcall Hauth Hretry)
        as (s' & Hrun & Hout & _ & Ho & _ & Hcalls & _).
      change max_attempts with (S 1024) in Hops.
      rewrite Hrun in Hops. cbn in Hops.
      exists Break, s'. split; [exact Hrun |]. split; [discriminate |].
      split; unfold nonblank, needs_call, nonblank; cbn [fst snd];
        rewrite ?Htext, ?Hskip; cbn [andb negb].
      * exact Hops.
      * rewrite Ho. reflexivity.
      * intros _. rewrite Hout, lookup_insert_eq. eexists. reflexivity.
      * intros key Hkey. rewrite Hout. apply lookup_insert_is_Some'.
        right. exact Hkey.
      * rewrite Ho. cbn. lia.
      * rewrite Hcalls. lia.
Qed.

Lemma settled_run_nil s : settled_run env analysis_tag [] s s.
Proof. split; cbn; auto; try lia; try (intros c []). Qed.

Lemma settled_run_cons c rest s s1 s2 :
  settled_step env analysis_tag c s s1 ->
  settled_run env analysis_tag rest s1 s2 ->
  settled_run env analysis_tag (c :: rest) s s2.
Proof.
  intros [H1 H2 H3 H4 H5 H6] [K1 K2 K3 K4 K5 K6]. split.
  - lia.
  - congruence.
  - intros c' [<- | Hin] Hnb; [apply K4, H3, Hnb | apply K3; assumption].
  - intros key Hkey. apply K4, H4, Hkey.
  - cbn [List.filter]. destruct (nonblank c); cbn [length]; lia.
  - cbn [List.filter]. destruct (needs_call env c); cbn [length]; lia.
Qed.

Lemma candidates_are_settled candidates : forall s,
  quiet env (n_ops s) ->
  exists r s',
    for_candidates env analysis_tag model interval None candidates s = (Ok r, s') /\
    r <> Return /\ settled_run env analysis_tag candidates s s'.
Proof.
  induction candidates as [| [cid body] rest IH]; intros s Hq.
  { exists Break, s. split; [reflexivity |]. split; [discriminate |].
    apply settled_run_nil. }
  destruct (candidate_is_settled (cid, body) s Hq) as (r & s1 & Hrun & Hr & Hstep).
  destruct (IH s1) as (r' & s2 & Hrest & Hr' & Hrunrest).
  { apply (quiet_mono _ _ _ Hq). apply (st_ops _ _ _ _ _ Hstep). }
  exists r', s2. split; [| split; [exact Hr' |]].
  - cbn [for_candidates]. cbn [fst snd] in Hrun.
    rewrite (bind_ok _ _ _ _ _ Hrun).
    destruct r; [exact Hrest | exact Hrest | contradiction Hr; reflexivity].
  - apply (settled_run_cons _ _ _ s1); assumption.
Qed.

(** A run over candidates that are all settled, without a deadline and
    without a Ctrl+C. *)
Lemma settled_analyze_try candidates s :
  quiet env (n_ops s) ->
  exists s',
    analyze_try env analysis_tag model interval None candidates s
    = (Ok (outcome s'), s') /\
    settled_run env analysis_tag candidates s s' /\
    Db.committed (conn s') = Db.pending_db (conn s').
Proof.
  intros Hq.
  destruct (candidates_are_settled candidates s Hq)
    as (r & s1 & Hfor & Hr & [K1 K2 K3 K4 K5 K6]).
  pose (s2 := log ECommit (set_conn (Db.commit (conn s1))
                             (set_n_ops (S (n_ops s1)) s1))).
  destruct (cleanup_quiet env analysis_tag s2) as (n & s3 & Hclean & Hpost).
  { subst s2. cbn. apply (quiet_mono _ _ _ Hq). lia. }
  destruct Hpost as [[Hbo Hbc Hbn] _ Hout _ Hcomm _].
  exists s3. split; [| split; [split |]].
  - unfold analyze_try. apply try_ok. unfold analyze_body.
    rewrite (bind_ok _ _ _ _ _ Hfor).
    assert (Hend : (conn_commit env ;; _cleanup_invalid_tickers env analysis_tag ;;
                    get outcome) s1 = (Ok (outcome s3), s3)).
    { erewrite bind_ok by (apply conn_commit_quiet, (quiet_mono _ _ _ Hq), K1).
      fold s2. rewrite (bind_ok _ _ _ _ _ Hclean). reflexivity. }
    destruct r; [exact Hend | exact Hend | contradiction Hr; reflexivity].
  - subst s2. cbn in Hbn. lia.
  - rewrite Hbo. exact K2.
  - intros c Hin Hnb. rewrite Hout. apply K3; assumption.
  - intros key Hkey. rewrite Hout. apply K4, Hkey.
  - rewrite Hbo. exact K5.
  - rewrite Hbc. exact K6.
  - destruct Hcomm as [-> | Heq]; [reflexivity | exact Heq].
Qed.

End Complete.

(** X7.  A complete run.  With a stored API key, without a Ctrl+C and
    without a deadline, when every answer of the classifier settles its
    item, [analyze] returns with no stop reason and everything committed;
    every candidate with text then has an Outcome row under the tag,
    [analyzed + errors] is the number of candidates with text, and the
    classifier was called once for each of them that the shortcut did not
    skip. *)
Theorem analyze_decides_every_candidate env analysis_tag model limit
    retry_errors max_requests_per_minute subreddits timeout_seconds s
    (Hquiet : quiet env (n_ops s))
    (Hsettles : forall n model text, settles (classify env n model text))
    (Hkey : PyStr.truthy (default "" (get_secret env "OPENAI_API_KEY")) = true)
    (Htimeout : no_timeout timeout_seconds) :
  let candidates :=
    Db.fetch_candidates (Db.pending_db (conn s)) analysis_tag limit
      retry_errors subreddits in
  exists s',
    analyze env analysis_tag model limit retry_errors max_requests_per_minute
      subreddits timeout_seconds s = (Ok (outcome s'), s') /\
    stopped_reason (outcome s') = None /\
    Db.committed (conn s') = Db.pending_db (conn s') /\
    (forall c, In c candidates -> nonblank c = true ->
       is_Some (Db.outcomes (Db.pending_db (conn s')) !! (fst c, analysis_tag))) /\
    (analyzed (outcome s') + errors (outcome s')
     = length (List.filter nonblank candidates))%nat /\
    (n_calls s' = n_calls s + length (List.filter (needs_call env) candidates))%nat.
Proof.
  intros candidates.
  pose (interval := if (0 <? max_requests_per_minute)%Z
                    then (60 / inject_Z max_requests_per_minute)%Q else 0%Q).
  pose (s0 := set_next_call_at (clock s)
                (set_n_ops (S (S (n_ops s)))
                   (set_outcome (mkOutcome 0 0 0 None) s))).
  destruct (settled_analyze_try env analysis_tag model interval Hsettles
              candidates s0) as (s' & Hrun & [K1 K2 K3 K4 K5 K6] & Hsync).
  { subst s0. cbn. apply (quiet_mono _ _ _ Hquiet). lia. }
  exists s'. split.
  - unfold analyze. rewrite bind_modify. unfold _now. rewrite bind_get.
    assert (Hdeadline :
              match timeout_seconds with
              | Some t => if (t =? 0)%Z then None
                          else Some (clock (set_outcome (mkOutcome 0 0 0 None) s)
                                     + inject_Z t)%Q
              | None => None
              end = None).
    { destruct Htimeout as [-> | ->]; reflexivity. }
    rewrite Hdeadline.
    unfold read_secret.
    erewrite bind_ok by
      (erewrite bind_ok by (apply checkpoint_quiet; exact Hquiet); reflexivity).
    rewrite Hkey. cbn [negb].
    erewrite bind_ok by (apply db_read_quiet; cbn; apply (quiet_mono _ _ _ Hquiet); lia).
    rewrite bind_get, bind_modify. exact Hrun.
  - subst s0. cbn in *. repeat split; auto.
Qed.

Lemma analyze_decides_every_candidate_witness :
  exists s',
    analyze Scenario.shortcut_env "default" "gpt-5-nano" 100 false 0 None None
      (Scenario.fresh Scenario.mixed_comments) = (Ok (outcome s'), s') /\
    stopped_reason (outcome s') = None /\
    (analyzed (outcome s') + errors (outcome s') = 12)%nat /\
    n_calls s' = 11%nat.
Proof.
  destruct (analyze_decides_every_candidate
              Scenario.shortcut_env "default" "gpt-5-nano" 100 false 0 None None
              (Scenario.fresh Scenario.mixed_comments)
              (fun n _ => eq_refl) (fun _ _ _ => I) eq_refl (or_introl eq_refl))
    as (s' & Hrun & Hreason & _ & _ & Hcount & Hcalls).
  exists s'. split; [exact Hrun |]. split; [exact Hreason |].
  split; [exact Hcount | exact Hcalls].
Defined.

(** ** What a run writes, and for which items *)

Lemma confined_refl tag allowed s : confined tag allowed s s.
Proof.
  split; try reflexivity.
  exists []. rewrite app_nil_r. split; [reflexivity |]. intros ? ? [].
Qed.

Lemma confined_trans tag allowed s1 s2 s3 :
  confined tag allowed s1 s2 -> confined tag allowed s2 s3 ->
  confined tag allowed s1 s3.
Proof.
  intros [(evs1 & Ht1 & Hc1) Hr1 Hm1 Hi1] [(evs2 & Ht2 & Hc2) Hr2 Hm2 Hi2].
  split; [| | congruence | congruence].
  - exists (evs1 ++ evs2)%list. rewrite Ht2, Ht1, <- app_assoc.
    split; [reflexivity |]. intros cid t Hin.
    apply in_app_or in Hin. destruct Hin; eauto.
  - intros cid tag' Hne. rewrite (Hr2 _ _ Hne). apply Hr1, Hne.
Qed.

(** A state change that leaves the log and the tables alone. *)
Lemma confined_silent tag allowed s s' :
  trace s' = trace s -> Db.pending_db (conn s') = Db.pending_db (conn s) ->
  confined tag allowed s s'.
Proof.
  intros Ht Hdb. split; rewrite ?Hdb; try reflexivity.
  exists []. rewrite app_nil_r. split; [exact Ht |]. intros ? ? [].
Qed.

(** A state change that logs one event, not a classifier call, and leaves
    the tables alone. *)
Lemma confined_logged tag allowed s s' e :
  trace s' = (trace s ++ [e])%list ->
  (forall cid t, e <> ECall cid t) ->
  Db.pending_db (conn s') = Db.pending_db (conn s) ->
  confined tag allowed s s'.
Proof.
  intros Ht He Hdb. split; rewrite ?Hdb; try reflexivity.
  exists [e]. split; [exact Ht |].
  intros cid t [Heq | []]. contradiction (He cid t).
Qed.

Lemma filter_other_tag_app tag ms new :
  Forall (fun m => Db.m_tag m = tag) new ->
  List.filter (fun m => negb (String.eqb (Db.m_tag m) tag)) (ms ++ new)
  = List.filter (fun m => negb (String.eqb (Db.m_tag m) tag)) ms.
Proof.
  intros Hnew. rewrite List.filter_app.
  replace (List.filter _ new) with (@nil Db.Mention); [apply app_nil_r |].
  induction Hnew as [| m new Hm _ IH]; [reflexivity |].
  cbn. rewrite Hm, String.eqb_refl. exact IH.
Qed.

Lemma filter_other_tag_delete tag tickers ms :
  List.filter (fun m => negb (String.eqb (Db.m_tag m) tag))
    (List.filter (fun m => negb (Db.doomed tag tickers m)) ms)
  = List.filter (fun m => negb (String.eqb (Db.m_tag m) tag)) ms.
Proof.
  induction ms as [| m ms IH]; [reflexivity |].
  cbn. unfold Db.doomed at 1.
  destruct (String.eqb (Db.m_tag m) tag) eqn:Htag; cbn.
  - destruct (existsb _ tickers); cbn; rewrite ?Htag; cbn; exact IH.
  - rewrite Htag. cbn. rewrite IH. reflexivity.
Qed.

(** Whatever the run, the outer [try] of [analyze] is confined to its tag
    and to its candidates. *)
Lemma analyze_try_confined env analysis_tag model interval deadline candidates :
  keeps (confined analysis_tag (fun cid => In cid (List.map fst candidates)))
    (analyze_try env analysis_tag model interval deadline candidates).
Proof.
  set (allowed := fun cid => In cid (List.map fst candidates)).
  apply (keeps_analyze_try env analysis_tag model interval deadline
           (confined analysis_tag allowed)
           (confined_refl analysis_tag allowed)
           (confined_trans analysis_tag allowed)
           allowed);
    try (intros; apply confined_silent; reflexivity);
    try (intros; eapply confined_logged;
         [reflexivity | intros ? ?; discriminate | reflexivity]).
  - intros s tickers. split; try reflexivity.
    + exists []. rewrite app_nil_r. split; [reflexivity |]. intros ? ? [].
    + cbn. apply filter_other_tag_delete.
  - intros s cid d Hcid. split; try reflexivity.
    exists [ECall cid (clock s)]. split; [reflexivity |].
    intros c t [Heq | []]. injection Heq as <- _. exact Hcid.
  - intros s cid Hcid. split; try reflexivity.
    + exists []. rewrite app_nil_r. split; [reflexivity |]. intros ? ? [].
    + intros c tag Hne. cbn. apply lookup_insert_ne.
      intros Heq. injection Heq as <- <-. apply Hne. split; [reflexivity | exact Hcid].
  - intros s cid msg Hcid. split; try reflexivity.
    + exists []. rewrite app_nil_r. split; [reflexivity |]. intros ? ? [].
    + intros c tag Hne. cbn. apply lookup_insert_ne.
      intros Heq. injection Heq as <- <-. apply Hne. split; [reflexivity | exact Hcid].
  - intros s cid rows Hcid. split; try reflexivity.
    + exists []. rewrite app_nil_r. split; [reflexivity |]. intros ? ? [].
    + cbn. apply filter_other_tag_app.
      apply List.Forall_forall. intros m Hin.
      apply in_map_iff in Hin. destruct Hin as (r & <- & _). reflexivity.
  - apply List.Forall_forall. intros c Hin. apply in_map. exact Hin.
Qed.

(** X8.  Whatever happens during an [analyze] call, it starts classifier
    calls only for the candidates it fetched, writes Outcome rows only for
    them and only under its tag, leaves the mentions of other tags as they
    were, and does not write the item table. *)
Theorem analyze_is_confined_to_its_candidates env analysis_tag model limit
    retry_errors max_requests_per_minute subreddits timeout_seconds s :
  confined analysis_tag
    (fun cid =>
       In cid (List.map fst
                 (Db.fetch_candidates (Db.pending_db (conn s)) analysis_tag
                    limit retry_errors subreddits)))
    s
    (snd (analyze env analysis_tag model limit retry_errors
            max_requests_per_minute subreddits timeout_seconds s)).
Proof.
  unfold analyze.
  rewrite bind_modify. unfold _now at 1. rewrite bind_get.
  unfold read_secret, db_read.
  unfold bind at 1. unfold bind at 1. unfold checkpoint at 1.
  cbn [n_ops set_outcome].
  destruct (interrupt env (n_ops s)).
  { cbn. eapply confined_logged;
      [reflexivity | intros ? ?; discriminate | reflexivity]. }
  cbn [ret].
  destruct (negb (PyStr.truthy (default "" (get_secret env "OPENAI_API_KEY")))).
  { cbn. apply confined_silent; reflexivity. }
  unfold bind at 1. unfold bind at 1. unfold checkpoint at 1.
  cbn [n_ops set_n_ops set_outcome].
  destruct (interrupt env (S (n_ops s))).
  { cbn. eapply confined_logged;
      [reflexivity | intros ? ?; discriminate | reflexivity]. }
  cbn [get]. unfold _now at 1. rewrite bind_get, bind_modify.
  match goal with
  | |- confined _ ?al _ (snd (analyze_try _ _ _ ?i ?d ?c ?s0)) =>
      apply (confined_trans analysis_tag al s s0);
      [apply confined_silent; reflexivity
      | apply (analyze_try_confined env analysis_tag model i d c)]
  end.
Qed.

(** X9.  Whatever happens during an [analyze] call with a deadline, every
    sleep it asks for starts before the deadline and is no longer than the
    time then left to it. *)
Theorem analyze_never_sleeps_past_the_deadline env analysis_tag model limit
    retry_errors max_requests_per_minute subreddits timeout_seconds s :
  sleeps_within
    (match timeout_seconds with
     | Some t => if (t =? 0)%Z then None else Some (clock s + inject_Z t)%Q
     | None => None
     end)
    s
    (snd (analyze env analysis_tag model limit retry_errors
            max_requests_per_minute subreddits timeout_seconds s)).
Proof.
  unfold analyze.
  rewrite bind_modify. unfold _now at 1. rewrite bind_get.
  unfold read_secret, db_read.
  unfold bind at 1. unfold bind at 1. unfold checkpoint at 1.
  cbn [n_ops set_outcome clock].
  destruct (interrupt env (n_ops s)).
  { cbn. eapply sleeps_within_logged; reflexivity. }
  cbn [ret].
  destruct (negb (PyStr.truthy (default "" (get_secret env "OPENAI_API_KEY")))).
  { cbn. apply sleeps_within_silent; reflexivity. }
  unfold bind at 1. unfold bind at 1. unfold checkpoint at 1.
  cbn [n_ops set_n_ops set_outcome].
  destruct (interrupt env (S (n_ops s))).
  { cbn. eapply sleeps_within_logged; reflexivity. }
  cbn [get]. unfold _now at 1. rewrite bind_get, bind_modify.
  match goal with
  | |- sleeps_within ?dl _ (snd (analyze_try _ _ _ ?i ?d ?c ?s0)) =>
      apply (sleeps_within_trans dl s s0);
      [apply sleeps_within_silent; reflexivity
      | apply (analyze_try_sleeps_within env analysis_tag model i d c)]
  end.
Qed.

(** ** Two more ways a candidate's turn can end, and a missing key *)

(** X5.  A classifier call that fails with an error that is neither an
    authentication or permission error nor a retryable one (a bad request,
    say), when no Ctrl+C is delivered while it is handled: [analyze] writes
    the Outcome [error] for the item, its text being the class name, a
    colon and the message, writes no mention, adds one to [errors],
    commits, and goes on to the next candidate. *)
Theorem other_error_is_recorded_and_the_run_goes_on
    env analysis_tag model interval deadline cid body rest s cls msg
    (Hquiet : quiet env (n_ops s))
    (Hdeadline : before_deadline deadline s)
    (Htext : PyStr.truthy (PyStr.strip (default "" body)) = true)
    (Hhint : ENABLE_KEYWORD_SHORTCUT env
             && negb (has_finance_hint env (PyStr.strip (default "" body)))
             = false)
    (Hcall : resp_result
               (classify env (n_calls s) model (PyStr.strip (default "" body)))
             = Failed cls msg)
    (Hauth : _is_fatal_auth (Exc cls msg) = false)
    (Hretry : _is_retryable (Exc cls msg) = false) :
  exists s',
    for_candidates env analysis_tag model interval deadline ((cid, body) :: rest) s
    = for_candidates env analysis_tag model interval deadline rest s' /\
    Db.outcomes (Db.pending_db (conn s'))
    = <[(cid, analysis_tag) := Db.RowError model (type_name cls ++ ": " ++ msg)]>
        (Db.outcomes (Db.pending_db (conn s))) /\
    Db.mentions (Db.pending_db (conn s')) = Db.mentions (Db.pending_db (conn s)) /\
    outcome s' = with_errors (S (errors (outcome s))) (outcome s) /\
    Db.committed (conn s') = Db.pending_db (conn s') /\
    n_calls s' = S (n_calls s) /\
    exists sleeps t,
      trace s' = (trace s ++ sleeps ++ [ECall cid t; ECommit])%list /\
      forallb is_sleep sleeps = true.
Proof.
  destruct (attempt_other_error env analysis_tag model interval deadline 1024
              0%nat cid _ s cls msg Hquiet Hdeadline Hcall Hauth Hretry)
    as (s' & Hrun & Hfacts).
  exists s'. split; [| exact Hfacts].
  assert (Hturn : process_candidate env analysis_tag model interval deadline
                    cid body s = (Ok Break, s')).
  { rewrite (process_candidate_enters_loop env analysis_tag model interval
               deadline cid body s Hdeadline Htext Hhint).
    exact Hrun. }
  cbn [for_candidates]. rewrite (bind_ok _ _ _ _ _ Hturn). reflexivity.
Qed.

Lemma other_error_is_recorded_and_the_run_goes_on_witness :
  exists s',
    for_candidates
      (Scenario.failing_env (OtherException "BadRequestError") "Invalid prompt")
      "default" "gpt-5-nano" 0 None [("c1", Some "buy AAA")]
      (Scenario.fresh Scenario.two_comments)
    = (Ok Break, s') /\
    Db.outcomes (Db.pending_db (conn s')) !! ("c1", "default")
    = Some (Db.RowError "gpt-5-nano" "BadRequestError: Invalid prompt") /\
    errors (outcome s') = 1%nat.
Proof.
  destruct (other_error_is_recorded_and_the_run_goes_on
              (Scenario.failing_env (OtherException "BadRequestError")
                 "Invalid prompt")
              "default" "gpt-5-nano" 0 None "c1" (Some "buy AAA") []
              (Scenario.fresh Scenario.two_comments)
              (OtherException "BadRequestError") "Invalid prompt"
              (fun n _ => eq_refl) I eq_refl eq_refl eq_refl eq_refl eq_refl)
    as (s' & Hrun & Hrows & _ & Ho & _).
  exists s'. split; [exact Hrun |]. split.
  - rewrite Hrows. apply lookup_insert_eq.
  - rewrite Ho. reflexivity.
Defined.

(** X6.  Without a stored API key (none, or the empty string) [analyze]
    raises [RuntimeError] before it reads the tables: no classifier call is
    started, nothing is written or committed and the clock has not moved.  (A
    Ctrl+C delivered while the key is looked up is raised in its place.) *)
Theorem analyze_without_key_raises_before_any_work env analysis_tag model
    limit retry_errors max_requests_per_minute subreddits timeout_seconds s
    (Hkey : PyStr.truthy (default "" (get_secret env "OPENAI_API_KEY")) = false) :
  let rs := analyze env analysis_tag model limit retry_errors
              max_requests_per_minute subreddits timeout_seconds s in
  fst rs
  = (if interrupt env (n_ops s) then Raise KeyboardInterrupt
     else Raise (Exc RuntimeError
                   "Missing OpenAI API key. Use Setup to enter it.")) /\
  conn (snd rs) = conn s /\
  n_calls (snd rs) = n_calls s /\
  clock (snd rs) = clock s /\
  n_ops (snd rs) = S (n_ops s).
Proof.
  unfold analyze. rewrite bind_modify. unfold _now. rewrite bind_get.
  unfold read_secret, bind, checkpoint. cbn [n_ops set_outcome].
  destruct (interrupt env (n_ops s)); cbn; [repeat split |].
  rewrite Hkey. cbn. repeat split.
Qed.

Lemma analyze_without_key_raises_before_any_work_witness :
  fst (analyze
         (mkEnv false false (fun _ => true) (fun _ => []) (fun _ => None)
            (Scenario.always_bullish "AAA" 0) Scenario.never)
         "default" "gpt-5-nano" 10 false 0 None None
         (Scenario.fresh Scenario.two_comments))
  = Raise (Exc RuntimeError "Missing OpenAI API key. Use Setup to enter it.").
Proof.
  exact (proj1 (analyze_without_key_raises_before_any_work
                  (mkEnv false false (fun _ => true) (fun _ => [])
                     (fun _ => None) (Scenario.always_bullish "AAA" 0)
                     Scenario.never)
                  "default" "gpt-5-nano" 10 false 0 None None
                  (Scenario.fresh Scenario.two_comments) eq_refl)).
Defined.

(** * The collection stage as a whole *)

Lemma ctriple_ret {A} (P : Collect.St -> Prop) (a : A) Q E :
  (forall s, P s -> Q a s) -> ctriple P (Collect.ret a) Q E.
Proof. intros H s Hs. apply H, Hs. Qed.

Lemma ctriple_raise {A} (P : Collect.St -> Prop) e (Q : A -> Collect.St -> Prop) E :
  (forall s, P s -> E e s) -> ctriple P (Collect.raise e) Q E.
Proof. intros H s Hs. apply H, Hs. Qed.

Lemma ctriple_get {A} (P : Collect.St -> Prop) (f : Collect.St -> A) Q E :
  (forall s, P s -> Q (f s) s) -> ctriple P (Collect.get f) Q E.
Proof. intros H s Hs. apply H, Hs. Qed.

Lemma ctriple_modify (P : Collect.St -> Prop) f Q E :
  (forall s, P s -> Q tt (f s)) -> ctriple P (Collect.modify f) Q E.
Proof. intros H s Hs. apply H, Hs. Qed.

Lemma ctriple_bind {A B} (P : Collect.St -> Prop) (m : Collect.C A)
    (k : A -> Collect.C B) (Q1 : A -> Collect.St -> Prop) Q E :
  ctriple P m Q1 E -> (forall a, ctriple (Q1 a) (k a) Q E) ->
  ctriple P (Collect.bind m k) Q E.
Proof.
  intros Hm Hk s Hs. unfold Collect.bind. specialize (Hm s Hs).
  destruct (m s) as [[a | e] s1]; [apply (Hk a s1 Hm) | exact Hm].
Qed.

Lemma ctriple_try {A} (P : Collect.St -> Prop) (m : Collect.C A)
    (h : exn -> Collect.C A) (E1 : exn -> Collect.St -> Prop) Q E :
  ctriple P m Q E1 -> (forall e, ctriple (E1 e) (h e) Q E) ->
  ctriple P (Collect.try_except m h) Q E.
Proof.
  intros Hm Hh s Hs. unfold Collect.try_except. specialize (Hm s Hs).
  destruct (m s) as [[a | e] s1]; [exact Hm | apply (Hh e s1 Hm)].
Qed.

Lemma ctriple_weaken {A} (P P' : Collect.St -> Prop) (m : Collect.C A)
    (Q Q' : A -> Collect.St -> Prop) (E E' : exn -> Collect.St -> Prop) :
  ctriple P m Q E ->
  (forall s, P' s -> P s) ->
  (forall a s, Q a s -> Q' a s) ->
  (forall e s, E e s -> E' e s) ->
  ctriple P' m Q' E'.
Proof.
  intros Hm HP HQ HE s Hs. specialize (Hm s (HP s Hs)).
  destruct (m s) as [[a | e] s1]; auto.
Qed.

(** [except Exception: h]: the handler runs on what [m] raises as an
    [Exception]; anything else passes. *)
Lemma ctriple_except {A} (P : Collect.St -> Prop) (m h : Collect.C A)
    (E1 : exn -> Collect.St -> Prop) Q E :
  ctriple P m Q E1 ->
  (forall cls msg, ctriple (E1 (Exc cls msg)) h Q E) ->
  (forall s, E1 KeyboardInterrupt s -> E KeyboardInterrupt s) ->
  (forall s, E1 OutOfFuel s -> E OutOfFuel s) ->
  ctriple P (Collect.except_Exception m h) Q E.
Proof.
  intros Hm Hh Hki Hfuel. unfold Collect.except_Exception.
  apply (ctriple_try _ _ _ E1); [exact Hm |].
  intros [| cls msg |]; [| apply Hh |]; apply ctriple_raise; assumption.
Qed.


Ltac cstep :=
  lazymatch goal with
  | |- ctriple _ (Collect.bind _ _) _ _ => eapply ctriple_bind; [| intros ?]
  | |- ctriple _ (Collect.ret _) _ _ => apply ctriple_ret
  | |- ctriple _ (Collect.raise _) _ _ => apply ctriple_raise
  | |- ctriple _ (Collect.get _) _ _ => apply ctriple_get
  | |- ctriple _ (Collect.modify _) _ _ => apply ctriple_modify
  | |- ctriple _ (if ?b then _ else _) _ _ => destruct b eqn:?
  | |- ctriple _ (match ?x with _ => _ end) _ _ => destruct x eqn:?
  end.

(** ** What every step of [scrape] keeps

    [Steady k]: what holds between steps when at most [k] comments were handed to
    the loop body so far; [Due k]: what holds between the save that makes
    [saved] a multiple of 50 and the commit that follows; [Broken k]: what holds
    when an exception is on its way. *)

Section Ledger.

Variable env : Env.
Variable reddit : Collect.Reddit.
Variables (more_limit : option Z) (max_comments_per_post : Z)
          (bots subreddits : list string).

Variables Steady Due Broken : nat -> Collect.St -> Prop.

Hypothesis Steady_mono : forall k k' s, (k <= k')%nat -> Steady k s -> Steady k' s.
Hypothesis Broken_mono : forall k k' s, (k <= k')%nat -> Broken k s -> Broken k' s.
Hypothesis Steady_Broken : forall k s, Steady k s -> Broken k s.
Hypothesis Steady_tick : forall k s, Steady k s -> Steady k (after_tick s).
Hypothesis Steady_interrupt : forall k s, Steady k s -> Broken k (after_interrupt s).
Hypothesis Steady_save :
  forall k s it sub, In sub subreddits -> built sub bots it -> Steady k s ->
    if (S (Collect.saved s) mod 50 =? 0)%nat
    then Due (S k) (after_save it s)
    else Steady (S k) (after_save it s).
Hypothesis Due_interrupt : forall k s, Due k s -> Broken k (after_interrupt s).
Hypothesis Due_commit : forall k s, Due k s -> Steady k (after_commit (after_tick s)).

(** [Done k]: what holds after the commit that ends the call. *)
Variable Done : nat -> Collect.St -> Prop.

Hypothesis Broken_tick : forall k s, Broken k s -> Broken k (after_tick s).
Hypothesis Broken_interrupt :
  forall k s, Broken k s -> Broken k (after_interrupt s).
Hypothesis Broken_commit : forall k s, Broken k s -> Done k (after_commit s).
Hypothesis Done_Broken : forall k s, Done k s -> Broken k s.

(** [Before]: what holds before the loops start; [Refused]: what holds when
    the call ends before they start. *)
Variables Before Refused : Collect.St -> Prop.

Hypothesis Before_tick : forall s, Before s -> Before (after_tick s).
Hypothesis Before_interrupt : forall s, Before s -> Refused (after_interrupt s).
Hypothesis Before_Refused : forall s, Before s -> Refused s.
Hypothesis Before_reset :
  forall s, Before s -> Steady 0 (Collect.set_saved 0 s).

Lemma led_checkpoint k :
  ctriple (Steady k) (Collect.checkpoint env) (fun _ => Steady k)
    (cinterrupted_in (Broken k)).
Proof.
  intros s Hs. unfold Collect.checkpoint.
  destruct (interrupt env (Collect.st_ops s)).
  - split; [reflexivity | apply Steady_interrupt, Hs].
  - apply Steady_tick, Hs.
Qed.

Lemma ctriple_exn {A} (P : Collect.St -> Prop) (m : Collect.C A) Q
    (E E' : exn -> Collect.St -> Prop) :
  (forall e s, E e s -> E' e s) -> ctriple P m Q E -> ctriple P m Q E'.
Proof.
  intros HE Hm. eapply ctriple_weaken; [exact Hm | | | exact HE]; auto.
Qed.

Lemma cinterrupted_any k e s : cinterrupted_in (Broken k) e s -> Broken k s.
Proof. intros [_ Hs]. exact Hs. Qed.

Lemma led_expand k submission :
  ctriple (Steady k) (Collect.expand env more_limit submission)
    (fun cs s => cs = expansion more_limit submission /\ Steady k s)
    (fun _ => Broken k).
Proof.
  unfold Collect.expand, expansion.
  apply (ctriple_except _ _ _
           (fun e s => match e with
                       | KeyboardInterrupt => Broken k s
                       | Exc _ _ =>
                           Steady k s /\
                           exists cls msg,
                             Collect.sub_expand submission more_limit
                             = Collect.ExpansionFailed cls msg
                       | OutOfFuel => False
                       end)).
  - eapply ctriple_bind.
    + eapply ctriple_exn; [| apply (led_checkpoint k)].
      intros e s [-> Hs]. exact Hs.
    + intros ?.
      destruct (Collect.sub_expand submission more_limit) as [cs | cls msg].
      * cstep. intros s Hs. split; [reflexivity | exact Hs].
      * cstep. intros s Hs. split; [exact Hs | eauto].
  - intros cls msg. cstep. intros s [Hs (c & m & Heq)].
    rewrite Heq. split; [reflexivity | exact Hs].
  - auto.
  - intros s [].
Qed.

(** The loop body from the test of the comment's text on, the author being
    no bot. *)
Lemma led_store k sub submission c author :
  In sub subreddits ->
  match author with
  | Some a => existsb (String.eqb a) bots = false
  | None => True
  end ->
  ctriple (Steady k)
    (let body := PyStr.strip (default "" (Scrape.rc_body c)) in
     if negb (PyStr.truthy body) then Collect.ret tt
     else
       match Scrape.rc_id c with
       | None => Collect.raise (Exc (OtherException "AttributeError") "id")
       | Some cid =>
           Collect.bind
             (Collect.save_comment env
                (Db.mkItem cid sub (Collect.sub_id submission)
                   (Collect.sub_title submission) author
                   (Scrape.rc_created_utc c) (Scrape.rc_score c) (Some body)))
             (fun _ =>
                Collect.bind
                  (Collect.modify
                     (fun s => Collect.set_saved (S (Collect.saved s)) s))
                  (fun _ =>
                     Collect.bind (Collect.get Collect.saved)
                       (fun n =>
                          if (n mod 50 =? 0)%nat then Collect.conn_commit env
                          else Collect.ret tt)))
       end)
    (fun _ => Steady (S k))
    (fun e s => match e with
                | KeyboardInterrupt => Broken (S k) s
                | Exc _ _ => Steady k s
                | OutOfFuel => False
                end).
Proof.
  intros Hsub Hauthor. cbn zeta.
  destruct (negb (PyStr.truthy (PyStr.strip (default "" (Scrape.rc_body c)))))
    eqn:Hbody.
  { cstep. intros s Hs. apply (Steady_mono k); [lia | exact Hs]. }
  destruct (Scrape.rc_id c) as [cid |]; [| cstep; auto].
  set (it := Db.mkItem cid sub (Collect.sub_id submission)
               (Collect.sub_title submission) author
               (Scrape.rc_created_utc c) (Scrape.rc_score c)
               (Some (PyStr.strip (default "" (Scrape.rc_body c))))).
  assert (Hbuilt : built sub bots it).
  { split; [reflexivity |]. split; [exact Hauthor |].
    eexists. split; [reflexivity |]. apply negb_false_iff, Hbody. }
  intros s Hs.
  unfold Collect.save_comment, Collect.bind, Collect.checkpoint,
    Collect.modify, Collect.get.
  destruct (interrupt env (Collect.st_ops s)).
  { apply (Broken_mono k); [lia |]. apply Steady_interrupt, Hs. }
  cbn [Collect.saved Collect.set_saved Collect.log Collect.set_conn
       Collect.set_ops].
  pose proof (Steady_save k (after_tick s) it sub Hsub Hbuilt (Steady_tick k s Hs)) as Hsave.
  cbn [after_tick Collect.saved Collect.set_ops] in Hsave.
  destruct (S (Collect.saved s) mod 50 =? 0)%nat.
  - unfold Collect.conn_commit, Collect.bind, Collect.checkpoint, Collect.modify.
    cbn [Collect.st_ops Collect.set_saved Collect.log Collect.set_conn
         Collect.set_ops].
    destruct (interrupt env (S (Collect.st_ops s))).
    + apply (Due_interrupt (S k) _ Hsave).
    + apply (Due_commit (S k) _ Hsave).
  - exact Hsave.
Qed.

(** The body of [for c in take:]. *)
Lemma led_save_one k sub submission c :
  In sub subreddits ->
  ctriple (Steady k) (Collect.save_one env bots sub submission c)
    (fun _ => Steady (S k)) (fun _ => Broken (S k)).
Proof.
  intros Hsub. unfold Collect.save_one.
  apply (ctriple_except _ _ _
           (fun e s => match e with
                       | KeyboardInterrupt => Broken (S k) s
                       | Exc _ _ => Steady k s
                       | OutOfFuel => False
                       end)).
  2: { intros cls msg. cstep. intros s Hs. apply (Steady_mono k); [lia | exact Hs]. }
  2: { auto. }
  2: { intros s []. }
  cbn zeta.
  destruct (Scrape.rc_author c) as [a |].
  - destruct (existsb (String.eqb a) bots) eqn:Hbot.
    + cstep. intros s Hs. apply (Steady_mono k); [lia | exact Hs].
    + apply (led_store k sub submission c (Some a) Hsub Hbot).
  - apply (led_store k sub submission c None Hsub I).
Qed.

Lemma led_for_comments sub submission cs : forall k,
  In sub subreddits ->
  ctriple (Steady k) (Collect.for_comments env bots sub submission cs)
    (fun _ => Steady (k + length cs)) (fun _ => Broken (k + length cs)).
Proof.
  induction cs as [| c rest IH]; intros k Hsub; cbn [Collect.for_comments length].
  { cstep. intros s Hs. apply (Steady_mono k); [lia | exact Hs]. }
  eapply ctriple_bind.
  - eapply ctriple_exn; [| apply (led_save_one k sub submission c Hsub)].
    intros e s Hs. apply (Broken_mono (S k)); [lia | exact Hs].
  - intros ?. replace (k + S (length rest))%nat with (S k + length rest)%nat by lia.
    apply IH, Hsub.
Qed.

Lemma led_process_submission k sub submission :
  In sub subreddits ->
  let n := length (Collect.taken more_limit max_comments_per_post submission) in
  ctriple (Steady k)
    (Collect.process_submission env more_limit max_comments_per_post bots
       sub submission)
    (fun _ => Steady (k + n)) (fun _ => Broken (k + n)).
Proof.
  intros Hsub n. unfold Collect.process_submission.
  eapply ctriple_bind.
  - eapply ctriple_exn; [| apply led_expand].
    intros e s Hs. apply (Broken_mono k); [lia | exact Hs].
  - intros cs s [-> Hs]. revert s Hs.
    apply (led_for_comments sub submission _ k Hsub).
Qed.

Lemma led_for_feed sub items error : forall k,
  In sub subreddits ->
  let n := list_sum
             (List.map
                (fun x => length (Collect.taken more_limit
                                    max_comments_per_post x)) items) in
  ctriple (Steady k)
    (Collect.for_feed env more_limit max_comments_per_post bots sub items error)
    (fun _ => Steady (k + n)) (fun _ => Broken (k + n)).
Proof.
  induction items as [| x rest IH]; intros k Hsub; cbn [Collect.for_feed].
  - cbn. eapply ctriple_bind.
    + eapply ctriple_exn; [| apply (led_checkpoint k)].
      intros e s [_ Hs]. apply (Broken_mono k); [lia | exact Hs].
    + intros ?. destruct error as [[cls msg] |].
      * cstep. intros s Hs. apply (Broken_mono k); [lia |]. apply Steady_Broken, Hs.
      * cstep. intros s Hs. apply (Steady_mono k); [lia | exact Hs].
  - cbn zeta. cbn [List.map].
    match goal with
    | |- context [list_sum (?a :: ?l)] =>
        change (list_sum (a :: l)) with (a + list_sum l)%nat;
        set (n1 := a); set (n2 := list_sum l)
    end.
    eapply ctriple_bind.
    + eapply ctriple_exn; [| apply (led_checkpoint k)].
      intros e s [_ Hs]. apply (Broken_mono k); [lia | exact Hs].
    + intros ?. eapply ctriple_bind.
      * eapply ctriple_exn; [| apply (led_process_submission k sub x Hsub)].
        intros e s Hs. apply (Broken_mono (k + n1)); [lia | exact Hs].
      * intros ?. replace (k + (n1 + n2))%nat with ((k + n1) + n2)%nat by lia.
        apply IH, Hsub.
Qed.

Lemma capacity_cons sub rest listing post_limit :
  capacity reddit (sub :: rest) listing post_limit more_limit
    max_comments_per_post
  = (list_sum
       (List.map
          (fun x => length (Collect.taken more_limit max_comments_per_post x))
          (Collect.feed_items
             (reddit sub (Collect.listing_of listing) post_limit)))
     + capacity reddit rest listing post_limit more_limit
         max_comments_per_post)%nat.
Proof.
  unfold capacity, Collect.submissions. cbn [flat_map].
  rewrite List.map_app, list_sum_app, List.map_map. reflexivity.
Qed.

Lemma led_for_subreddits listing post_limit subs : forall k,
  (forall sub, In sub subs -> In sub subreddits) ->
  let n := capacity reddit subs listing post_limit more_limit
             max_comments_per_post in
  ctriple (Steady k)
    (Collect.for_subreddits env reddit more_limit max_comments_per_post bots
       listing post_limit subs)
    (fun _ => Steady (k + n)) (fun _ => Broken (k + n)).
Proof.
  induction subs as [| sub rest IH]; intros k Hsubs; cbn zeta;
    cbn [Collect.for_subreddits].
  { cstep. intros s Hs. apply (Steady_mono k); [lia | exact Hs]. }
  rewrite capacity_cons.
  set (n1 := list_sum _). set (n2 := capacity _ _ _ _ _ _).
  eapply ctriple_bind.
  - eapply ctriple_exn; [| apply (led_for_feed sub _ _ k)].
    + intros e s Hs. apply (Broken_mono (k + n1)); [lia | exact Hs].
    + apply Hsubs. left. reflexivity.
  - intros ?. replace (k + (n1 + n2))%nat with ((k + n1) + n2)%nat by lia.
    apply IH. intros sub' Hin. apply Hsubs. right. exact Hin.
Qed.

(** The last commit of a call, in the body or in a handler. *)
Lemma led_last_commit k :
  ctriple (Broken k) (Collect.conn_commit env) (fun _ => Done k)
    (fun _ => Broken k).
Proof.
  intros s Hs. unfold Collect.conn_commit, Collect.bind, Collect.checkpoint,
    Collect.modify.
  destruct (interrupt env (Collect.st_ops s)).
  - apply Broken_interrupt, Hs.
  - apply (Broken_commit k (after_tick s)), Broken_tick, Hs.
Qed.

Lemma led_read_secret name :
  ctriple Before (Collect.read_secret env name) (fun _ => Before)
    (fun _ => Refused).
Proof.
  intros s Hs. unfold Collect.read_secret, Collect.bind, Collect.checkpoint.
  destruct (interrupt env (Collect.st_ops s)).
  - apply Before_interrupt, Hs.
  - apply Before_tick, Hs.
Qed.

Lemma led_build_reddit :
  ctriple Before (Collect._build_reddit env) (fun _ => Before)
    (fun _ => Refused).
Proof.
  unfold Collect._build_reddit.
  cstep; [apply led_read_secret |].
  cstep; [apply led_read_secret |].
  cstep; [apply led_read_secret |].
  cbn zeta. cstep; [cstep; apply Before_Refused | cstep; auto].
Qed.

(** A whole [scrape] call. *)
Lemma led_scrape listing post_limit :
  let n := capacity reddit subreddits listing post_limit more_limit
             max_comments_per_post in
  ctriple Before
    (Collect.scrape env reddit subreddits listing post_limit more_limit
       max_comments_per_post bots)
    (fun r s => r = Collect.saved s /\ Done n s)
    (fun _ s => Refused s \/ Broken n s).
Proof.
  intros n. unfold Collect.scrape.
  eapply ctriple_bind.
  { eapply ctriple_exn; [| apply led_build_reddit].
    intros e s Hs. left. exact Hs. }
  intros ?. apply (ctriple_bind _ _ _ (fun _ => Steady 0)).
  { cstep. apply Before_reset. }
  intros ?. apply (ctriple_try _ _ _ (fun _ => Broken n)).
  - eapply ctriple_bind.
    { apply (led_for_subreddits listing post_limit subreddits 0%nat). auto. }
    intros ?. cbn zeta. fold n. change (0 + n)%nat with n.
    eapply ctriple_bind.
    { eapply ctriple_weaken; [apply (led_last_commit n) | | |].
      - apply Steady_Broken.
      - intros ? ? Hs. exact Hs.
      - intros ? ? Hs. exact Hs. }
    intros ?. cstep. intros s Hs. split; [reflexivity | exact Hs].
  - intros [| cls msg |]; cbn [Collect.scrape_handler].
    + eapply ctriple_bind.
      { eapply ctriple_exn; [| apply (led_last_commit n)].
        intros e s Hs. right. exact Hs. }
      intros ?. cstep. intros s Hs. split; [reflexivity | exact Hs].
    + cstep.
      * eapply ctriple_bind.
        { eapply ctriple_exn; [| apply (led_last_commit n)].
          intros e s Hs. right. exact Hs. }
        intros ?. cstep. intros s Hs. right. apply Done_Broken, Hs.
      * cstep. intros s Hs. right. exact Hs.
    + cstep. intros s Hs. right. exact Hs.
Qed.

End Ledger.

(** ** What a [scrape] call returns and leaves behind *)

Lemma saves_snoc l e : saves (l ++ [e]) = (saves l + if is_save e then 1 else 0)%nat.
Proof.
  unfold saves. rewrite List.filter_app, length_app. cbn.
  destruct (is_save e); reflexivity.
Qed.

Lemma taken_length more_limit max_comments_per_post submission :
  (0 < max_comments_per_post)%Z ->
  (length (Collect.taken more_limit max_comments_per_post submission)
   <= Z.to_nat max_comments_per_post)%nat.
Proof.
  intros Hpos. unfold Collect.taken, Scrape.take.
  destruct (Z.eqb_spec max_comments_per_post 0) as [Hz | _]; [lia |].
  rewrite slice_to_nonneg by lia. rewrite length_firstn. lia.
Qed.

Lemma capacity_le reddit subreddits listing post_limit more_limit
    max_comments_per_post :
  (0 < max_comments_per_post)%Z ->
  (capacity reddit subreddits listing post_limit more_limit
     max_comments_per_post
   <= Z.to_nat max_comments_per_post
      * length (Collect.submissions reddit subreddits listing post_limit))%nat.
Proof.
  intros Hpos. unfold capacity.
  induction (Collect.submissions reddit subreddits listing post_limit)
    as [| p l IH]; cbn [List.map length]; [cbn; lia |].
  change (list_sum (?a :: ?l)) with (a + list_sum l)%nat.
  pose proof (taken_length more_limit max_comments_per_post (snd p) Hpos).
  cbn [list_sum fold_right]. lia.
Qed.

(** Unfold the primitive state changes. *)
Ltac collect_simpl :=
  unfold after_save, after_commit, after_interrupt, after_tick;
  cbn [Collect.saved Collect.st_log Collect.st_conn Collect.st_ops Collect.log
       Collect.set_conn Collect.set_saved Collect.set_ops].

(** X11.  The count a [scrape] call returns does not exceed the number of
    [save_comment] calls it made, and is that number when no Ctrl+C was
    delivered.  It does not exceed what the per-submission cap lets through
    of the submissions the source handed over and so, for a positive cap,
    the cap times the number of those submissions.  The bounds hold for a
    return after a Ctrl+C as well. *)
Theorem scrape_counts_its_saves env reddit subreddits listing
    post_limit more_limit max_comments_per_post bot_usernames s :
  match Collect.scrape env reddit subreddits listing post_limit more_limit
          max_comments_per_post bot_usernames s with
  | (Ok n, s') =>
      n = Collect.saved s' /\
      (saves (Collect.st_log s) + n <= saves (Collect.st_log s'))%nat /\
      (cquiet env s ->
       saves (Collect.st_log s') = (saves (Collect.st_log s) + n)%nat) /\
      (n <= capacity reddit subreddits listing post_limit more_limit
              max_comments_per_post)%nat /\
      ((0 < max_comments_per_post)%Z ->
       (n <= Z.to_nat max_comments_per_post
             * length (Collect.submissions reddit subreddits listing
                         post_limit))%nat)
  | (Raise _, _) => True
  end.
Proof.
  set (n0 := saves (Collect.st_log s)).
  set (cap := capacity reddit subreddits listing post_limit more_limit
                max_comments_per_post).
  pose (Steady := fun (k : nat) (s1 : Collect.St) =>
                    (Collect.saved s1 <= k)%nat /\
                    saves (Collect.st_log s1) = (n0 + Collect.saved s1)%nat).
  assert (H : ctriple (fun s1 => saves (Collect.st_log s1) = n0)
            (Collect.scrape env reddit subreddits listing post_limit
               more_limit max_comments_per_post bot_usernames)
            (fun r s1 => r = Collect.saved s1 /\ Steady cap s1)
            (fun _ s1 => True \/ Steady cap s1)).
  { apply (led_scrape env reddit more_limit max_comments_per_post
             bot_usernames subreddits Steady Steady Steady);
      unfold Steady; intros; collect_simpl; rewrite ?saves_snoc;
      cbn [is_save]; try exact I;
      try match goal with
          | |- if ?b then _ else _ => destruct b
          end;
      intuition lia. }
  specialize (H s eq_refl).
  destruct (Collect.scrape _ _ _ _ _ _ _ _ s) as [[n | e] s']; [| exact I].
  destruct H as [-> [Hle Hsaves]]. fold n0 cap.
  split; [reflexivity |]. split; [rewrite Hsaves; apply le_n |].
  split; [intros _; exact Hsaves |]. split; [exact Hle |].
  intros Hpos. subst cap.
  pose proof (capacity_le reddit subreddits listing post_limit more_limit
                max_comments_per_post Hpos). lia.
Qed.

Lemma saves_storable_same subreddits bots l0 s s' :
  Collect.st_log s' = Collect.st_log s ->
  saves_storable subreddits bots l0 s -> saves_storable subreddits bots l0 s'.
Proof. intros Hlog (evs & Hevs & Hall). exists evs. rewrite Hlog. auto. Qed.

Lemma saves_storable_snoc subreddits bots l0 s s' e :
  Collect.st_log s' = (Collect.st_log s ++ [e])%list ->
  (forall it, e = Collect.VSave it -> storable subreddits bots it) ->
  saves_storable subreddits bots l0 s -> saves_storable subreddits bots l0 s'.
Proof.
  intros Hlog He (evs & Hevs & Hall). exists (evs ++ [e])%list.
  rewrite Hlog, Hevs, <- app_assoc. split; [reflexivity |].
  intros it Hin. apply in_app_or in Hin.
  destruct Hin as [Hin | [Heq | []]]; [apply Hall, Hin | apply He; exact Heq].
Qed.

Lemma built_storable subreddits bots sub it :
  In sub subreddits -> built sub bots it -> storable subreddits bots it.
Proof.
  intros Hsub (Hs & Ha & Hb). split; [exact Ha |]. split; [exact Hb |].
  rewrite Hs. exact Hsub.
Qed.

(** X12.  Whatever happens during a [scrape] call (a Ctrl+C, a failing
    source), every item it hands to [save_comment] has no author or an
    author who is not one of the bots, a body that is a text stripped of
    the whitespace at its ends (the Unicode whitespace included) and is not
    empty, and one of the call's subreddits as its subreddit. *)
Theorem scrape_saves_only_storable_items env reddit subreddits listing
    post_limit more_limit max_comments_per_post bot_usernames s :
  exists evs,
    Collect.st_log
      (snd (Collect.scrape env reddit subreddits listing post_limit more_limit
              max_comments_per_post bot_usernames s))
    = (Collect.st_log s ++ evs)%list /\
    forall it, In (Collect.VSave it) evs -> storable subreddits bot_usernames it.
Proof.
  set (X := saves_storable subreddits bot_usernames (Collect.st_log s)).
  assert (H : ctriple X
            (Collect.scrape env reddit subreddits listing post_limit
               more_limit max_comments_per_post bot_usernames)
            (fun r s1 => r = Collect.saved s1 /\ X s1)
            (fun _ s1 => X s1 \/ X s1)).
  { apply led_scrape
      with (Steady := fun _ => X) (Due := fun _ => X) (Broken := fun _ => X)
           (Done := fun _ => X) (Before := X) (Refused := X);
      unfold X; intros;
      try match goal with
          | |- if ?b then _ else _ => destruct b
          end;
      try assumption;
      first [ eapply saves_storable_same; [| eassumption]; reflexivity
            | eapply saves_storable_snoc; [reflexivity | | eassumption];
              first [ intros ? Heq; discriminate Heq
                    | intros ? Heq; injection Heq as <-;
                      eapply built_storable; eassumption ] ]. }
  assert (HX : X s).
  { exists []. rewrite app_nil_r. split; [reflexivity |]. intros ? []. }
  specialize (H s HX).
  destruct (Collect.scrape _ _ _ _ _ _ _ _ s) as [[n | e] s']; cbn [snd].
  - exact (proj2 H).
  - destruct H as [H | H]; exact H.
Qed.

Lemma backlog_snoc evs e : backlog (evs ++ [e]) = backlog_step (backlog evs) e.
Proof. unfold backlog. rewrite fold_left_app. reflexivity. Qed.

Lemma uncommitted_le_max evs : (uncommitted evs <= max_uncommitted evs)%nat.
Proof.
  unfold uncommitted, max_uncommitted.
  induction evs as [| e evs IH] using rev_ind; [cbn; lia |].
  rewrite backlog_snoc. destruct e; cbn; lia.
Qed.

(** X13.  Whatever happens during a [scrape] call, no more than 50 of its
    saves are ever waiting for a commit, and when the call returns none
    is. *)
Theorem scrape_never_holds_more_than_50_saves env reddit subreddits listing
    post_limit more_limit max_comments_per_post bot_usernames s :
  let rs := Collect.scrape env reddit subreddits listing post_limit more_limit
              max_comments_per_post bot_usernames s in
  exists evs,
    Collect.st_log (snd rs) = (Collect.st_log s ++ evs)%list /\
    (max_uncommitted evs <= 50)%nat /\
    (forall n, fst rs = Ok n -> uncommitted evs = 0%nat).
Proof.
  set (l0 := Collect.st_log s).
  pose (Steady := fun (_ : nat) (s1 : Collect.St) =>
          exists evs, Collect.st_log s1 = (l0 ++ evs)%list /\
                      (uncommitted evs <= Collect.saved s1 mod 50)%nat /\
                      (max_uncommitted evs <= 50)%nat).
  pose (Due := fun (_ : nat) (s1 : Collect.St) =>
          exists evs, Collect.st_log s1 = (l0 ++ evs)%list /\
                      (uncommitted evs <= 50)%nat /\
                      (max_uncommitted evs <= 50)%nat).
  pose (Broken := fun (_ : nat) (s1 : Collect.St) =>
          exists evs, Collect.st_log s1 = (l0 ++ evs)%list /\
                      (max_uncommitted evs <= 50)%nat).
  pose (Done := fun (_ : nat) (s1 : Collect.St) =>
          exists evs, Collect.st_log s1 = (l0 ++ evs)%list /\
                      uncommitted evs = 0%nat /\
                      (max_uncommitted evs <= 50)%nat).
  assert (H : ctriple (fun s1 => Collect.st_log s1 = l0)
            (Collect.scrape env reddit subreddits listing post_limit
               more_limit max_comments_per_post bot_usernames)
            (fun r s1 => r = Collect.saved s1 /\ Done 0%nat s1)
            (fun _ s1 => Broken 0%nat s1 \/ Broken 0%nat s1)).
  { apply led_scrape
      with (Steady := Steady) (Due := Due) (Broken := Broken) (Done := Done)
           (Before := fun s1 => Collect.st_log s1 = l0)
           (Refused := Broken 0%nat);
      unfold Steady, Due, Broken, Done; collect_simpl.
    - intros k k' s1 _ H. exact H.
    - intros k k' s1 _ H. exact H.
    - intros k s1 (evs & Hlog & Hu & Hm). exists evs. auto.
    - intros k s1 (evs & Hlog & Hu & Hm). exists evs. auto.
    - intros k s1 (evs & Hlog & Hu & Hm).
      exists (evs ++ [Collect.VInterrupt (Db.pending_db (Collect.st_conn s1))
                        (Collect.saved s1)])%list.
      rewrite Hlog, <- app_assoc. split; [reflexivity |].
      unfold max_uncommitted. rewrite backlog_snoc. exact Hm.
    - intros k s1 it sub _ _ (evs & Hlog & Hu & Hm).
      assert (Hmod : (Collect.saved s1 mod 50 < 50)%nat)
        by (apply Nat.mod_upper_bound; lia).
      destruct (Nat.eqb_spec (S (Collect.saved s1) mod 50) 0) as [Hz | Hnz];
        exists (evs ++ [Collect.VSave it])%list;
        rewrite Hlog, <- app_assoc; (split; [reflexivity |]);
        unfold uncommitted, max_uncommitted in *; rewrite backlog_snoc; cbn.
      + split; lia.
      + assert (Hstep : (S (Collect.saved s1) mod 50
                         = S (Collect.saved s1 mod 50))%nat).
        { pose proof (Nat.div_mod_eq (Collect.saved s1) 50) as Hdm.
          pose proof (Nat.div_mod_eq (S (Collect.saved s1)) 50) as Hdm'.
          assert (Hup : (S (Collect.saved s1) mod 50 < 50)%nat)
            by (apply Nat.mod_upper_bound; lia).
          destruct (Nat.eq_dec (Collect.saved s1 mod 50) 49) as [H49 | Hn49].
          - exfalso. apply Hnz.
            replace (S (Collect.saved s1))
              with (0 + (S (Collect.saved s1 / 50)) * 50)%nat by lia.
            rewrite Nat.Div0.mod_add. reflexivity.
          - replace (S (Collect.saved s1))
              with (S (Collect.saved s1 mod 50) + (Collect.saved s1 / 50) * 50)%nat
              by lia.
            rewrite Nat.Div0.mod_add. apply Nat.mod_small. lia. }
        split; lia.
    - intros k s1 (evs & Hlog & Hu & Hm).
      exists (evs ++ [Collect.VInterrupt (Db.pending_db (Collect.st_conn s1))
                        (Collect.saved s1)])%list.
      rewrite Hlog, <- app_assoc. split; [reflexivity |].
      unfold max_uncommitted. rewrite backlog_snoc. exact Hm.
    - intros k s1 (evs & Hlog & Hu & Hm).
      exists (evs ++ [Collect.VCommit])%list.
      rewrite Hlog, <- app_assoc. split; [reflexivity |].
      unfold uncommitted, max_uncommitted. rewrite backlog_snoc. cbn.
      split; [lia | exact Hm].
    - intros k s1 (evs & Hlog & Hm). exists evs. auto.
    - intros k s1 (evs & Hlog & Hm).
      exists (evs ++ [Collect.VInterrupt (Db.pending_db (Collect.st_conn s1))
                        (Collect.saved s1)])%list.
      rewrite Hlog, <- app_assoc. split; [reflexivity |].
      unfold max_uncommitted. rewrite backlog_snoc. exact Hm.
    - intros k s1 (evs & Hlog & Hm).
      exists (evs ++ [Collect.VCommit])%list.
      rewrite Hlog, <- app_assoc. split; [reflexivity |].
      unfold uncommitted, max_uncommitted. rewrite backlog_snoc. cbn.
      split; [reflexivity | exact Hm].
    - intros k s1 (evs & Hlog & Hu & Hm). exists evs. auto.
    - intros s1 Hlog. exact Hlog.
    - intros s1 Hlog.
      exists [Collect.VInterrupt (Db.pending_db (Collect.st_conn s1))
                (Collect.saved s1)].
      rewrite Hlog. split; [reflexivity | cbn; lia].
    - intros s1 Hlog. exists []. rewrite app_nil_r. split; [exact Hlog | cbn; lia].
    - intros s1 Hlog. exists []. rewrite app_nil_r.
      split; [exact Hlog | cbn; lia]. }
  intros rs. subst rs. specialize (H s eq_refl).
  destruct (Collect.scrape _ _ _ _ _ _ _ _ s) as [[n | e] s']; cbn [fst snd].
  - destruct H as [_ (evs & Hlog & Hu & Hm)].
    exists evs. split; [exact Hlog |]. split; [exact Hm |]. intros _ _. exact Hu.
  - assert (HB : Broken 0%nat s') by (destruct H as [H | H]; exact H).
    destruct HB as (evs & Hlog & Hm).
    exists evs. split; [exact Hlog |]. split; [exact Hm |].
    intros n Heq. discriminate Heq.
Qed.

Lemma ctriple_any {A} (P : Collect.St -> Prop) (m : Collect.C A) :
  ctriple P m (fun _ _ => True) (fun _ _ => True).
Proof. intros s _. destruct (m s) as [[a | e] s1]; exact I. Qed.

(** [conn.commit()] leaves nothing uncommitted; a Ctrl+C is all it can
    raise. *)
Lemma collect_commit_syncs env (P : Collect.St -> Prop) :
  ctriple P (Collect.conn_commit env) (fun _ => csynced)
    (fun e _ => e = KeyboardInterrupt).
Proof.
  intros s _. unfold Collect.conn_commit, Collect.bind, Collect.checkpoint.
  destruct (interrupt env (Collect.st_ops s)); reflexivity.
Qed.

(** What [_build_reddit] raises is no error of the source. *)
Lemma build_reddit_raises env (P : Collect.St -> Prop) :
  ctriple P (Collect._build_reddit env) (fun _ _ => True)
    (fun e _ => Collect.is_source_auth e = false).
Proof.
  assert (Hsecret : forall (P' : Collect.St -> Prop) name,
             ctriple P' (Collect.read_secret env name)
               (fun _ _ => True) (fun e _ => Collect.is_source_auth e = false)).
  { intros P' name s _.
    unfold Collect.read_secret, Collect.bind, Collect.checkpoint.
    destruct (interrupt env (Collect.st_ops s)); [reflexivity | exact I]. }
  unfold Collect._build_reddit.
  cstep; [apply Hsecret |].
  cstep; [apply Hsecret |].
  cstep; [apply Hsecret |].
  cbv beta zeta.
  destruct (_ || _); cstep; intros; first [reflexivity | exact I].
Qed.

Lemma dur_scrape env reddit subreddits listing post_limit more_limit
    max_comments_per_post bot_usernames :
  ctriple (fun _ => True)
    (Collect.scrape env reddit subreddits listing post_limit more_limit
       max_comments_per_post bot_usernames)
    (fun _ => csynced)
    (fun e s => Collect.is_source_auth e = true -> csynced s).
Proof.
  unfold Collect.scrape.
  eapply ctriple_bind.
  { eapply ctriple_exn; [| apply (build_reddit_raises env (fun _ => True))].
    intros e s Hno Hyes. rewrite Hno in Hyes. discriminate Hyes. }
  intros ?. apply (ctriple_bind _ _ _ (fun _ _ => True)); [cstep; auto |].
  intros ?. apply (ctriple_try _ _ _ (fun _ _ => True)).
  - apply (ctriple_bind _ _ _ (fun _ _ => True)); [apply ctriple_any |].
    intros ?. eapply ctriple_bind.
    { eapply ctriple_exn; [| apply (collect_commit_syncs env (fun _ => True))].
      intros; exact I. }
    intros ?. cstep. auto.
  - intros [| cls msg |]; cbn [Collect.scrape_handler].
    + eapply ctriple_bind.
      { eapply ctriple_exn; [| apply (collect_commit_syncs env (fun _ => True))].
        intros e s -> Hyes. discriminate Hyes. }
      intros ?. cstep. auto.
    + cstep.
      * eapply ctriple_bind.
        { eapply ctriple_exn; [| apply (collect_commit_syncs env (fun _ => True))].
          intros e s -> Hyes. discriminate Hyes. }
        intros ?. cstep. intros s Hs _. exact Hs.
      * cstep. intros s _ Hyes.
        match goal with H : Collect.is_source_auth _ = false |- _ =>
          rewrite H in Hyes end.
        discriminate Hyes.
    + cstep. intros s _ Hyes. discriminate Hyes.
Qed.

(** X10.  Whenever [scrape] returns, after a complete run or after a Ctrl+C,
    the connection holds no uncommitted write; the same is true when it
    raises an error of the source of one of the three classes it catches. *)
Theorem scrape_leaves_nothing_uncommitted env reddit subreddits listing
    post_limit more_limit max_comments_per_post bot_usernames s :
  match Collect.scrape env reddit subreddits listing post_limit more_limit
          max_comments_per_post bot_usernames s with
  | (Ok _, s') =>
      Db.committed (Collect.st_conn s') = Db.pending_db (Collect.st_conn s')
  | (Raise e, s') =>
      Collect.is_source_auth e = true ->
      Db.committed (Collect.st_conn s') = Db.pending_db (Collect.st_conn s')
  end.
Proof.
  exact (dur_scrape env reddit subreddits listing post_limit more_limit
           max_comments_per_post bot_usernames s I).
Qed.

Ltac collect_run :=
  cbn [fst snd Collect.raise Collect.ret Collect.st_conn Collect.saved
       Collect.st_log Collect.st_ops Collect.log Collect.set_conn
       Collect.set_saved Collect.set_ops].

(** X14.  Without a stored client id or client secret (none, or the empty
    string) [scrape] raises [RuntimeError] once the three credentials are
    looked up, or the [KeyboardInterrupt] of a Ctrl+C delivered during a
    look-up: it asks the source for nothing, and it neither saves nor
    commits. *)
Theorem scrape_without_credentials_raises_before_any_work env reddit
    subreddits listing post_limit more_limit max_comments_per_post
    bot_usernames s
    (Hmissing :
       PyStr.truthy (default "" (get_secret env "REDDIT_CLIENT_ID")) = false
       \/ PyStr.truthy (default "" (get_secret env "REDDIT_CLIENT_SECRET"))
          = false) :
  let rs := Collect.scrape env reddit subreddits listing post_limit more_limit
              max_comments_per_post bot_usernames s in
  (fst rs = Raise KeyboardInterrupt
   \/ fst rs = Raise (Exc RuntimeError
                        "Missing Reddit credentials (client_id/client_secret). Use Setup to enter them.")) /\
  (cquiet env s -> fst rs <> Raise KeyboardInterrupt) /\
  Collect.st_conn (snd rs) = Collect.st_conn s /\
  Collect.saved (snd rs) = Collect.saved s /\
  saves (Collect.st_log (snd rs)) = saves (Collect.st_log s).
Proof.
  assert (Hcheck :
            negb (PyStr.truthy (default "" (get_secret env "REDDIT_CLIENT_ID")))
            || negb (PyStr.truthy
                       (default "" (get_secret env "REDDIT_CLIENT_SECRET")))
            = true).
  { destruct Hmissing as [-> | ->]; cbn; [reflexivity | apply orb_true_r]. }
  cbn zeta.
  unfold Collect.scrape, Collect._build_reddit, Collect.read_secret,
    Collect.bind, Collect.checkpoint, Collect.ret.
  destruct (interrupt env (Collect.st_ops s)) eqn:H0.
  { collect_run. rewrite saves_snoc. cbn. repeat split; auto.
    intros Hq. rewrite (Hq (Collect.st_ops s)) in H0 by lia. discriminate H0. }
  cbn [Collect.st_ops Collect.set_ops].
  destruct (interrupt env (S (Collect.st_ops s))) eqn:H1.
  { collect_run. rewrite saves_snoc. cbn. repeat split; auto.
    intros Hq. rewrite (Hq (S (Collect.st_ops s))) in H1 by lia. discriminate H1. }
  cbn [Collect.st_ops Collect.set_ops].
  destruct (interrupt env (S (S (Collect.st_ops s)))) eqn:H2.
  { collect_run. rewrite saves_snoc. cbn. repeat split; auto.
    intros Hq. rewrite (Hq (S (S (Collect.st_ops s)))) in H2 by lia.
    discriminate H2. }
  rewrite Hcheck. collect_run. repeat split; auto; intros _ Heq; discriminate Heq.
Qed.

Lemma scrape_without_credentials_raises_before_any_work_witness :
  fst (Collect.scrape
         (mkEnv false false (fun _ => true) (fun _ => [])
            (fun name => if String.eqb name "REDDIT_CLIENT_SECRET" then None
                         else Some "id")
            (Scenario.always_bullish "AAA" 0) Scenario.never)
         (fun _ _ _ => Collect.mkFeed [] None) ["stocks"] "hot" 50 (Some 0%Z)
         500 [] (Collect.mkSt (Db.mkConn Db.empty Db.empty) 0 0 []))
  <> Raise KeyboardInterrupt.
Proof.
  apply (scrape_without_credentials_raises_before_any_work
           (mkEnv false false (fun _ => true) (fun _ => [])
              (fun name => if String.eqb name "REDDIT_CLIENT_SECRET" then None
                           else Some "id")
              (Scenario.always_bullish "AAA" 0) Scenario.never)
           (fun _ _ _ => Collect.mkFeed [] None) ["stocks"] "hot" 50 (Some 0%Z)
           500 [] (Collect.mkSt (Db.mkConn Db.empty Db.empty) 0 0 [])
           (or_intror eq_refl)).
  intros n _. reflexivity.
Defined.

(** ** A [scrape] call that nothing interrupts *)

Lemma cbind_ok {A B} (m : Collect.C A) (k : A -> Collect.C B) s a s' :
  m s = (Ok a, s') -> Collect.bind m k s = k a s'.
Proof. intros H. unfold Collect.bind. rewrite H. reflexivity. Qed.

Section CollectQuiet.

Variable env : Env.
Variable reddit : Collect.Reddit.
Variables (more_limit : option Z) (max_comments_per_post : Z)
          (bots : list string).

Lemma collect_checkpoint_quiet s :
  cquiet env s ->
  Collect.checkpoint env s = (Ok tt, after_tick s).
Proof.
  intros Hq. unfold Collect.checkpoint.
  rewrite (Hq (Collect.st_ops s)) by lia. reflexivity.
Qed.

Lemma read_secret_quiet name s :
  cquiet env s ->
  Collect.read_secret env name s = (Ok (get_secret env name), after_tick s).
Proof.
  intros Hq. unfold Collect.read_secret, Collect.bind.
  rewrite (collect_checkpoint_quiet s Hq). reflexivity.
Qed.

Lemma cquiet_mono s s' :
  cquiet env s -> (Collect.st_ops s <= Collect.st_ops s')%nat -> cquiet env s'.
Proof. intros Hq Hle. exact (quiet_mono _ _ _ Hq Hle). Qed.

(** The loop body agrees with [Scrape.save_one]. *)
Lemma save_one_quiet sub submission c s :
  cquiet env s ->
  exists s',
    Collect.save_one env bots sub submission c s = (Ok tt, s') /\
    (Collect.st_conn s', Collect.saved s')
    = Scrape.save_one sub (Collect.sub_id submission)
        (Collect.sub_title submission) bots
        (Collect.st_conn s, Collect.saved s) c /\
    (Collect.st_ops s <= Collect.st_ops s')%nat.
Proof.
  intros Hq.
  unfold Collect.save_one, Collect.except_Exception, Collect.try_except,
    Scrape.save_one.
  cbn [fst snd].
  destruct (match Scrape.rc_author c with
            | Some a => existsb (String.eqb a) bots
            | None => false
            end).
  { exists s. cbn. auto. }
  destruct (negb (PyStr.truthy (PyStr.strip (default "" (Scrape.rc_body c))))).
  { exists s. cbn. auto. }
  destruct (Scrape.rc_id c) as [cid |].
  2: { exists s. cbn. auto. }
  unfold Collect.save_comment, Collect.bind at 1 2.
  rewrite (collect_checkpoint_quiet s Hq).
  unfold Collect.modify, Collect.get, Collect.bind. collect_simpl.
  destruct (S (Collect.saved s) mod 50 =? 0)%nat.
  - unfold Collect.conn_commit, Collect.bind, Collect.modify.
    rewrite collect_checkpoint_quiet by (intros n Hn; apply Hq; cbn in *; lia).
    collect_simpl. eexists. split; [reflexivity |]. collect_simpl.
    split; [reflexivity | lia].
  - eexists. split; [reflexivity |]. collect_simpl. split; [reflexivity | lia].
Qed.

Lemma for_comments_quiet sub submission cs : forall s,
  cquiet env s ->
  exists s',
    Collect.for_comments env bots sub submission cs s = (Ok tt, s') /\
    (Collect.st_conn s', Collect.saved s')
    = fold_left
        (Scrape.save_one sub (Collect.sub_id submission)
           (Collect.sub_title submission) bots)
        cs (Collect.st_conn s, Collect.saved s) /\
    (Collect.st_ops s <= Collect.st_ops s')%nat.
Proof.
  induction cs as [| c rest IH]; intros s Hq; cbn [Collect.for_comments fold_left].
  { exists s. auto. }
  destruct (save_one_quiet sub submission c s Hq) as (s1 & Hrun & Hst & Hops).
  destruct (IH s1 (cquiet_mono _ _ Hq Hops)) as (s2 & Hrest & Hst2 & Hops2).
  exists s2. unfold Collect.bind. rewrite Hrun, Hrest, <- Hst.
  split; [reflexivity |]. split; [exact Hst2 | lia].
Qed.

(** One submission agrees with [Scrape.scrape_submission] on the comment
    list the expansion gives, empty when it failed. *)
Lemma process_submission_quiet sub submission s :
  cquiet env s ->
  exists s',
    Collect.process_submission env more_limit max_comments_per_post bots
      sub submission s = (Ok tt, s') /\
    (Collect.st_conn s', Collect.saved s')
    = Scrape.scrape_submission sub (Collect.sub_id submission)
        (Collect.sub_title submission) bots max_comments_per_post
        (expansion more_limit submission)
        (Collect.st_conn s, Collect.saved s) /\
    (Collect.st_ops s <= Collect.st_ops s')%nat.
Proof.
  intros Hq.
  assert (Hexpand : Collect.expand env more_limit submission s
                    = (Ok (expansion more_limit submission), after_tick s)).
  { unfold Collect.expand, Collect.except_Exception, Collect.try_except,
      Collect.bind, expansion.
    rewrite (collect_checkpoint_quiet s Hq).
    destruct (Collect.sub_expand submission more_limit); reflexivity. }
  destruct (for_comments_quiet sub submission
              (Scrape.take max_comments_per_post
                 (expansion more_limit submission)) (after_tick s))
    as (s' & Hrun & Hst & Hops).
  { apply (cquiet_mono s); [exact Hq | cbn; lia]. }
  exists s'. unfold Collect.process_submission, Collect.bind.
  rewrite Hexpand, Hrun. split; [reflexivity |].
  split; [exact Hst | cbn in Hops; lia].
Qed.

Lemma for_feed_quiet sub items : forall s,
  cquiet env s ->
  exists s',
    Collect.for_feed env more_limit max_comments_per_post bots sub items None s
    = (Ok tt, s') /\
    (Collect.st_conn s', Collect.saved s')
    = fold_left
        (fun st p =>
           Scrape.scrape_submission (fst p) (Collect.sub_id (snd p))
             (Collect.sub_title (snd p)) bots max_comments_per_post
             (expansion more_limit (snd p)) st)
        (List.map (pair sub) items) (Collect.st_conn s, Collect.saved s) /\
    (Collect.st_ops s <= Collect.st_ops s')%nat.
Proof.
  induction items as [| x rest IH]; intros s Hq;
    cbn [Collect.for_feed List.map fold_left]; unfold Collect.bind;
    rewrite (collect_checkpoint_quiet s Hq).
  { eexists. split; [reflexivity |]. cbn. split; [reflexivity | lia]. }
  destruct (process_submission_quiet sub x (after_tick s))
    as (s1 & Hrun & Hst & Hops).
  { apply (cquiet_mono s); [exact Hq | cbn; lia]. }
  destruct (IH s1) as (s2 & Hrest & Hst2 & Hops2).
  { apply (cquiet_mono s); [exact Hq | cbn in Hops; lia]. }
  exists s2. rewrite Hrun. fold (Collect.for_feed env more_limit
    max_comments_per_post bots sub rest None).
  split; [exact Hrest |]. cbn [fst snd]. cbn in Hst. rewrite <- Hst.
  split; [exact Hst2 | cbn in Hops; lia].
Qed.

Lemma for_subreddits_quiet listing post_limit subreddits : forall s,
  cquiet env s ->
  (forall sub, In sub subreddits ->
     Collect.feed_error (reddit sub (Collect.listing_of listing) post_limit)
     = None) ->
  exists s',
    Collect.for_subreddits env reddit more_limit max_comments_per_post bots
      listing post_limit subreddits s = (Ok tt, s') /\
    (Collect.st_conn s', Collect.saved s')
    = collected reddit subreddits listing post_limit more_limit
        max_comments_per_post bots (Collect.st_conn s, Collect.saved s) /\
    (Collect.st_ops s <= Collect.st_ops s')%nat.
Proof.
  induction subreddits as [| sub rest IH]; intros s Hq Hfeeds;
    cbn [Collect.for_subreddits].
  { exists s. auto. }
  destruct (for_feed_quiet sub
              (Collect.feed_items
                 (reddit sub (Collect.listing_of listing) post_limit)) s Hq)
    as (s1 & Hrun & Hst & Hops).
  destruct (IH s1) as (s2 & Hrest & Hst2 & Hops2).
  { apply (cquiet_mono s); assumption. }
  { intros sub' Hin. apply Hfeeds. right. exact Hin. }
  exists s2. unfold Collect.bind.
  rewrite (Hfeeds sub (or_introl eq_refl)), Hrun.
  split; [exact Hrest |]. split; [| lia].
  rewrite Hst2. unfold collected, Collect.submissions. cbn [flat_map].
  rewrite fold_left_app, <- Hst. reflexivity.
Qed.

End CollectQuiet.

(** X15.  A [scrape] call with stored credentials that no Ctrl+C interrupts
    and during which no listing fails goes through the submissions the source
    hands over as [Scrape.scrape_submission] says, an expansion that failed
    counting as no comment; it then commits and returns the running count. *)
Theorem scrape_runs_as_the_submissions_say env reddit subreddits listing
    post_limit more_limit max_comments_per_post bot_usernames s
    (Hquiet : cquiet env s)
    (Hid : PyStr.truthy (default "" (get_secret env "REDDIT_CLIENT_ID")) = true)
    (Hsecret :
       PyStr.truthy (default "" (get_secret env "REDDIT_CLIENT_SECRET")) = true)
    (Hfeeds : forall sub, In sub subreddits ->
       Collect.feed_error (reddit sub (Collect.listing_of listing) post_limit)
       = None) :
  let r := collected reddit subreddits listing post_limit more_limit
             max_comments_per_post bot_usernames (Collect.st_conn s, 0%nat) in
  exists s',
    Collect.scrape env reddit subreddits listing post_limit more_limit
      max_comments_per_post bot_usernames s = (Ok (snd r), s') /\
    Collect.st_conn s' = Db.commit (fst r) /\
    Collect.saved s' = snd r.
Proof.
  intros r.
  pose (s0 := Collect.set_saved 0 (Collect.set_ops (3 + Collect.st_ops s) s)).
  destruct (for_subreddits_quiet env reddit more_limit max_comments_per_post
              bot_usernames listing post_limit subreddits s0)
    as (s1 & Hrun & Hst & Hops); [| exact Hfeeds |].
  { intros n Hn. apply Hquiet. cbn in Hn. lia. }
  cbn [s0 Collect.st_conn Collect.saved Collect.set_saved Collect.set_ops] in Hst.
  fold r in Hst.
  pose proof (f_equal fst Hst) as Hconn. pose proof (f_equal snd Hst) as Hsaved.
  cbn [fst snd] in Hconn, Hsaved.
  exists (after_commit (after_tick s1)).
  split; [| collect_simpl; rewrite Hconn, Hsaved; split; reflexivity].
  assert (Hbuild : exists client,
             Collect._build_reddit env s
             = (Ok client, after_tick (after_tick (after_tick s)))).
  { unfold Collect._build_reddit.
    erewrite cbind_ok by (apply read_secret_quiet; exact Hquiet).
    erewrite cbind_ok
      by (apply read_secret_quiet; intros n Hn; apply Hquiet; cbn in Hn; lia).
    erewrite cbind_ok
      by (apply read_secret_quiet; intros n Hn; apply Hquiet; cbn in Hn; lia).
    rewrite Hid, Hsecret. cbn [negb orb]. eexists. reflexivity. }
  destruct Hbuild as (client & Hbuild).
  unfold Collect.scrape.
  rewrite (cbind_ok _ _ _ _ _ Hbuild).
  unfold Collect.bind at 1. cbn [Collect.modify].
  change (Collect.set_saved 0 (after_tick (after_tick (after_tick s)))) with s0.
  unfold Collect.try_except.
  rewrite (cbind_ok _ _ _ _ _ Hrun).
  unfold Collect.conn_commit.
  erewrite cbind_ok.
  2: { erewrite cbind_ok
         by (apply collect_checkpoint_quiet; intros n Hn; apply Hquiet;
             cbn in Hops; lia).
       reflexivity. }
  cbn [Collect.get]. collect_simpl. rewrite Hsaved. reflexivity.
Qed.

Lemma scrape_runs_as_the_submissions_say_witness :
  exists s',
    Collect.scrape Scenario.paced_env Feeds.one_thread ["stocks"] "hot" 50
      (Some 0%Z) 500 ["AutoModerator"] Feeds.start = (Ok 2%nat, s') /\
    List.map Db.comment_id (Db.items (Db.committed (Collect.st_conn s')))
    = ["c1"; "c4"].
Proof.
  destruct (scrape_runs_as_the_submissions_say Scenario.paced_env
              Feeds.one_thread ["stocks"] "hot" 50 (Some 0%Z) 500
              ["AutoModerator"] Feeds.start
              (fun n _ => eq_refl) eq_refl eq_refl)
    as (s' & Hrun & Hconn & _).
  { intros sub [<- | []]. reflexivity. }
  exists s'. split; [exact Hrun |]. rewrite Hconn. reflexivity.
Defined.

(** ** The scrape stage of [_run_flow] *)

Section CollectRaises.

Variable env : Env.
Variable reddit : Collect.Reddit.
Variables (more_limit : option Z) (max_comments_per_post : Z)
          (bots : list string).

(** [m] raises Python exceptions only: the marker [OutOfFuel], which the
    model of [analyze] uses, does not occur in [scrape]. *)
Abbreviation python_only m :=
  (ctriple (fun _ => True) m (fun _ _ => True) (fun e _ => e <> OutOfFuel)).

Lemma po_checkpoint : python_only (Collect.checkpoint env).
Proof.
  intros s _. unfold Collect.checkpoint.
  destruct (interrupt env (Collect.st_ops s)); [discriminate | exact I].
Qed.

Lemma po_bind {A B} (m : Collect.C A) (k : A -> Collect.C B) :
  python_only m -> (forall a, python_only (k a)) ->
  python_only (Collect.bind m k).
Proof. intros Hm Hk. apply (ctriple_bind _ _ _ (fun _ _ => True)); assumption. Qed.

Lemma po_ret {A} (a : A) : python_only (Collect.ret a).
Proof. intros s _. exact I. Qed.

Lemma po_modify f : python_only (Collect.modify f).
Proof. intros s _. exact I. Qed.

Lemma po_get {A} (f : Collect.St -> A) : python_only (Collect.get f).
Proof. intros s _. exact I. Qed.

Lemma po_raise {A} cls msg : python_only (@Collect.raise A (Exc cls msg)).
Proof. intros s _. discriminate. Qed.

Lemma po_except {A} (m h : Collect.C A) :
  python_only m -> python_only h -> python_only (Collect.except_Exception m h).
Proof.
  intros Hm Hh. unfold Collect.except_Exception.
  apply (ctriple_try _ _ _ (fun e _ => e <> OutOfFuel)); [exact Hm |].
  intros [| cls msg |].
  - intros s _. discriminate.
  - eapply ctriple_weaken; [exact Hh | tw ..].
  - intros s Hne. exact Hne.
Qed.

Ltac po_step :=
  first [ apply po_checkpoint | apply po_ret | apply po_modify | apply po_get
        | apply po_raise | apply po_bind; [| intros ?]
        | apply po_except
        | lazymatch goal with
          | |- ctriple _ (if ?b then _ else _) _ _ => destruct b
          | |- ctriple _ (match ?x with _ => _ end) _ _ => destruct x
          end ].

Lemma po_commit : python_only (Collect.conn_commit env).
Proof. unfold Collect.conn_commit. repeat po_step. Qed.

Lemma po_build_reddit : python_only (Collect._build_reddit env).
Proof.
  unfold Collect._build_reddit, Collect.read_secret. cbv zeta. repeat po_step.
Qed.

Lemma po_save_one sub submission c :
  python_only (Collect.save_one env bots sub submission c).
Proof.
  unfold Collect.save_one, Collect.save_comment. cbv zeta.
  repeat first [apply po_commit | po_step].
Qed.

Lemma po_for_comments sub submission cs :
  python_only (Collect.for_comments env bots sub submission cs).
Proof.
  induction cs as [| c rest IH]; cbn [Collect.for_comments]; [apply po_ret |].
  apply po_bind; [apply po_save_one | intros ?; exact IH].
Qed.

Lemma po_for_feed sub items error :
  python_only
    (Collect.for_feed env more_limit max_comments_per_post bots sub items error).
Proof.
  induction items as [| x rest IH]; cbn [Collect.for_feed].
  - apply po_bind; [apply po_checkpoint | intros ?].
    destruct error as [[cls msg] |]; [apply po_raise | apply po_ret].
  - apply po_bind; [apply po_checkpoint | intros ?].
    apply po_bind; [| intros ?; exact IH].
    unfold Collect.process_submission, Collect.expand.
    apply po_bind; [repeat po_step | intros ?; apply po_for_comments].
Qed.

Lemma po_for_subreddits listing post_limit subreddits :
  python_only
    (Collect.for_subreddits env reddit more_limit max_comments_per_post bots
       listing post_limit subreddits).
Proof.
  induction subreddits as [| sub rest IH]; cbn [Collect.for_subreddits];
    [apply po_ret |].
  apply po_bind; [apply po_for_feed | intros ?; exact IH].
Qed.

End CollectRaises.

Lemma scrape_raises_python_only env reddit subreddits listing post_limit
    more_limit max_comments_per_post bot_usernames s :
  fst (Collect.scrape env reddit subreddits listing post_limit more_limit
         max_comments_per_post bot_usernames s) <> Raise OutOfFuel.
Proof.
  assert (H : ctriple (fun _ => True)
            (Collect.scrape env reddit subreddits listing post_limit
               more_limit max_comments_per_post bot_usernames)
            (fun _ _ => True) (fun e _ => e <> OutOfFuel)).
  { unfold Collect.scrape.
    apply po_bind; [apply po_build_reddit | intros ?].
    apply po_bind; [apply po_modify | intros ?].
    apply (ctriple_try _ _ _ (fun e _ => e <> OutOfFuel)).
    - apply po_bind; [apply po_for_subreddits | intros ?].
      apply po_bind; [apply po_commit | intros ?]. apply po_get.
    - intros [| cls msg |]; cbn [Collect.scrape_handler].
      + eapply ctriple_weaken;
          [apply po_bind; [apply po_commit | intros ?; apply po_get] | tw ..].
      + destruct (Collect.is_source_auth _).
        * eapply ctriple_weaken;
            [apply po_bind; [apply po_commit | intros ?; apply po_raise]
            | tw ..].
        * intros s0 _. discriminate.
      + intros s0 Hne. exact Hne. }
  specialize (H s I). intros Heq.
  destruct (Collect.scrape _ _ _ _ _ _ _ _ s) as [[n | e] s'];
    cbn in Heq; [discriminate Heq |].
  injection Heq as ->. apply H. reflexivity.
Qed.

(** X18.  The scrape stage of [_run_flow] hands control on, to the analysis
    stage or to the main menu, only with everything committed: after a return
    of [scrape], after a Ctrl+C, and after an error of any class (for the
    errors of the source that [scrape] catches, which the stage does not
    commit, [scrape] has).  The one exception it lets through is the
    [KeyboardInterrupt] of a Ctrl+C that arrives while it handles the
    outcome of [scrape]. *)
Theorem run_flow_scrape_commits_before_going_on env reddit subreddits listing
    post_limit more_limit max_comments_per_post bot_usernames action
    next_choice s :
  match run_flow_scrape env reddit subreddits listing post_limit more_limit
          max_comments_per_post bot_usernames action next_choice s with
  | (Ok _, s') =>
      Db.committed (Collect.st_conn s') = Db.pending_db (Collect.st_conn s')
  | (Raise e, _) => e = KeyboardInterrupt
  end.
Proof.
  assert (Hcommit : forall (P : Collect.St -> Prop) (k : Collect.C (Flow nat)),
             (forall s0, exists f, k s0 = (Ok f, s0)) ->
             ctriple P (Collect.bind (Collect.conn_commit env) (fun _ => k))
               (fun _ => csynced) (fun e _ => e = KeyboardInterrupt)).
  { intros P k Hk s0 _.
    unfold Collect.conn_commit, Collect.bind, Collect.checkpoint, Collect.modify.
    destruct (interrupt env (Collect.st_ops s0)); [reflexivity |].
    match goal with |- context [k ?s1] => destruct (Hk s1) as (f & ->) end.
    reflexivity. }
  assert (Hhandlers : forall n e,
             ctriple (fun s0 => (Collect.is_source_auth e = true -> csynced s0)
                                /\ e <> OutOfFuel)
               (scrape_handlers env n action next_choice e)
               (fun _ => csynced) (fun e _ => e = KeyboardInterrupt)).
  { intros n [| cls msg |]; cbn [scrape_handlers].
    - eapply ctriple_weaken; [apply (Hcommit (fun _ => True)) | tw ..].
      intros s0. destruct (_ && _); eexists; reflexivity.
    - destruct (Collect.is_source_auth (Exc cls msg)) eqn:Hauth.
      + cstep. intros s0 [Hs _]. apply Hs. reflexivity.
      + eapply ctriple_weaken; [apply (Hcommit (fun _ => True)) | tw ..].
        intros s0. eexists. reflexivity.
    - intros s0 [_ Hne]. exfalso. apply Hne. reflexivity. }
  unfold run_flow_scrape.
  pose proof (dur_scrape env reddit subreddits listing post_limit more_limit
                max_comments_per_post bot_usernames s I) as Hdur.
  pose proof (scrape_raises_python_only env reddit subreddits listing
                post_limit more_limit max_comments_per_post bot_usernames s)
    as Hpy.
  destruct (Collect.scrape _ _ _ _ _ _ _ _ s) as [[n | e] s1].
  - assert (Htry : ctriple (fun _ => True)
              (Collect.try_except
                 (Collect.bind (Collect.conn_commit env)
                    (fun _ => Collect.ret (Proceed n)))
                 (scrape_handlers env n action next_choice))
              (fun _ => csynced) (fun e _ => e = KeyboardInterrupt)).
    { apply (ctriple_try _ _ _ (fun e _ => e = KeyboardInterrupt)).
      - apply Hcommit. intros s0. eexists. reflexivity.
      - intros e. eapply ctriple_weaken; [apply Hhandlers | | tw ..].
        intros s0 ->. split; [intros Hf; discriminate Hf | discriminate]. }
    exact (Htry s1 I).
  - apply (Hhandlers 0%nat e s1). split; [exact Hdur |].
    intros ->. apply Hpy. reflexivity.
Qed.

(** ** A listing that fails, and a single Ctrl+C *)

Section CollectFails.

Variable env : Env.
Variable reddit : Collect.Reddit.
Variables (more_limit : option Z) (max_comments_per_post : Z)
          (bots : list string).

Lemma for_feed_fails sub cls msg items : forall s,
  cquiet env s ->
  exists s',
    Collect.for_feed env more_limit max_comments_per_post bots sub items
      (Some (cls, msg)) s = (Raise (Exc cls msg), s') /\
    (Collect.st_conn s', Collect.saved s')
    = fold_left
        (fun st p =>
           Scrape.scrape_submission (fst p) (Collect.sub_id (snd p))
             (Collect.sub_title (snd p)) bots max_comments_per_post
             (expansion more_limit (snd p)) st)
        (List.map (pair sub) items) (Collect.st_conn s, Collect.saved s) /\
    (Collect.st_ops s <= Collect.st_ops s')%nat.
Proof.
  induction items as [| x rest IH]; intros s Hq;
    cbn [Collect.for_feed List.map fold_left]; unfold Collect.bind;
    rewrite (collect_checkpoint_quiet env s Hq).
  { eexists. split; [reflexivity |]. cbn. split; [reflexivity | lia]. }
  destruct (process_submission_quiet env more_limit max_comments_per_post bots
              sub x (after_tick s))
    as (s1 & Hrun & Hst & Hops).
  { apply (cquiet_mono env s); [exact Hq | cbn; lia]. }
  destruct (IH s1) as (s2 & Hrest & Hst2 & Hops2).
  { apply (cquiet_mono env s); [exact Hq | cbn in Hops; lia]. }
  exists s2. rewrite Hrun. fold (Collect.for_feed env more_limit
    max_comments_per_post bots sub rest (Some (cls, msg))).
  split; [exact Hrest |]. cbn [fst snd]. cbn in Hst. rewrite <- Hst.
  split; [exact Hst2 | cbn in Hops; lia].
Qed.

Lemma collected_app subreddits1 subreddits2 listing post_limit st :
  collected reddit (subreddits1 ++ subreddits2) listing post_limit more_limit
    max_comments_per_post bots st
  = collected reddit subreddits2 listing post_limit more_limit
      max_comments_per_post bots
      (collected reddit subreddits1 listing post_limit more_limit
         max_comments_per_post bots st).
Proof.
  unfold collected, Collect.submissions.
  rewrite flat_map_app, fold_left_app. reflexivity.
Qed.

Lemma for_subreddits_fails listing post_limit sub cls msg post pre : forall s,
  cquiet env s ->
  (forall p, In p pre ->
     Collect.feed_error (reddit p (Collect.listing_of listing) post_limit)
     = None) ->
  Collect.feed_error (reddit sub (Collect.listing_of listing) post_limit)
  = Some (cls, msg) ->
  exists s',
    Collect.for_subreddits env reddit more_limit max_comments_per_post bots
      listing post_limit (pre ++ sub :: post) s = (Raise (Exc cls msg), s') /\
    (Collect.st_conn s', Collect.saved s')
    = collected reddit (pre ++ [sub]) listing post_limit more_limit
        max_comments_per_post bots (Collect.st_conn s, Collect.saved s) /\
    (Collect.st_ops s <= Collect.st_ops s')%nat.
Proof.
  induction pre as [| p pre IH]; intros s Hq Hpre Hsub;
    cbn [app Collect.for_subreddits].
  - destruct (for_feed_fails sub cls msg
                (Collect.feed_items
                   (reddit sub (Collect.listing_of listing) post_limit)) s Hq)
      as (s1 & Hrun & Hst & Hops).
    exists s1. unfold Collect.bind. rewrite Hsub, Hrun.
    split; [reflexivity |]. split; [| exact Hops].
    rewrite Hst. unfold collected, Collect.submissions. cbn [flat_map].
    rewrite app_nil_r. reflexivity.
  - destruct (for_feed_quiet env more_limit max_comments_per_post bots p
                (Collect.feed_items
                   (reddit p (Collect.listing_of listing) post_limit)) s Hq)
      as (s1 & Hrun & Hst & Hops).
    destruct (IH s1) as (s2 & Hrest & Hst2 & Hops2).
    { apply (cquiet_mono env s); assumption. }
    { intros q Hin. apply Hpre. right. exact Hin. }
    { exact Hsub. }
    exists s2. unfold Collect.bind.
    rewrite (Hpre p (or_introl eq_refl)), Hrun.
    split; [exact Hrest |]. split; [| lia].
    rewrite Hst2.
    change (p :: pre ++ [sub])%list with ([p] ++ (pre ++ [sub]))%list.
    rewrite (collected_app [p]). f_equal.
    rewrite Hst. unfold collected, Collect.submissions. cbn [flat_map].
    rewrite app_nil_r. reflexivity.
Qed.

End CollectFails.

(** X16.  A listing that fails.  When, in a [scrape] call with stored
    credentials that no Ctrl+C interrupts, the listing of a subreddit raises
    an error after the listings before it have ended without one, [scrape]
    raises that error.  What it saved from the submissions handed over until
    then is committed first when the error is of one of the three classes it
    catches; otherwise the connection is left as the loop had it, the saves
    since the last multiple of 50 pending. *)
Theorem scrape_stops_at_the_listing_that_fails env reddit pre sub post
    listing post_limit more_limit max_comments_per_post bot_usernames s cls msg
    (Hquiet : cquiet env s)
    (Hid : PyStr.truthy (default "" (get_secret env "REDDIT_CLIENT_ID")) = true)
    (Hsecret :
       PyStr.truthy (default "" (get_secret env "REDDIT_CLIENT_SECRET")) = true)
    (Hpre : forall p, In p pre ->
       Collect.feed_error (reddit p (Collect.listing_of listing) post_limit)
       = None)
    (Hsub : Collect.feed_error
              (reddit sub (Collect.listing_of listing) post_limit)
            = Some (cls, msg)) :
  let r := collected reddit (pre ++ [sub]) listing post_limit more_limit
             max_comments_per_post bot_usernames (Collect.st_conn s, 0%nat) in
  exists s',
    Collect.scrape env reddit (pre ++ sub :: post) listing post_limit
      more_limit max_comments_per_post bot_usernames s
    = (Raise (Exc cls msg), s') /\
    Collect.saved s' = snd r /\
    Collect.st_conn s'
    = (if Collect.is_source_auth (Exc cls msg) then Db.commit (fst r)
       else fst r).
Proof.
  intros r.
  pose (s0 := Collect.set_saved 0 (Collect.set_ops (3 + Collect.st_ops s) s)).
  destruct (for_subreddits_fails env reddit more_limit max_comments_per_post
              bot_usernames listing post_limit sub cls msg post pre s0)
    as (s1 & Hrun & Hst & Hops); [| exact Hpre | exact Hsub |].
  { intros n Hn. apply Hquiet. cbn in Hn. lia. }
  cbn [s0 Collect.st_conn Collect.saved Collect.set_saved Collect.set_ops] in Hst.
  fold r in Hst.
  pose proof (f_equal fst Hst) as Hconn. pose proof (f_equal snd Hst) as Hsaved.
  cbn [fst snd] in Hconn, Hsaved.
  assert (Hbuild : exists client,
             Collect._build_reddit env s
             = (Ok client, after_tick (after_tick (after_tick s)))).
  { unfold Collect._build_reddit.
    erewrite cbind_ok by (apply read_secret_quiet; exact Hquiet).
    erewrite cbind_ok
      by (apply read_secret_quiet; intros n Hn; apply Hquiet; cbn in Hn; lia).
    erewrite cbind_ok
      by (apply read_secret_quiet; intros n Hn; apply Hquiet; cbn in Hn; lia).
    rewrite Hid, Hsecret. cbn [negb orb]. eexists. reflexivity. }
  destruct Hbuild as (client & Hbuild).
  unfold Collect.scrape.
  rewrite (cbind_ok _ _ _ _ _ Hbuild).
  unfold Collect.bind at 1. cbn [Collect.modify].
  change (Collect.set_saved 0 (after_tick (after_tick (after_tick s)))) with s0.
  unfold Collect.try_except.
  unfold Collect.bind at 1. rewrite Hrun. cbn [Collect.scrape_handler].
  destruct (Collect.is_source_auth (Exc cls msg)).
  - unfold Collect.conn_commit.
    unfold Collect.bind at 1. unfold Collect.bind at 1.
    rewrite collect_checkpoint_quiet
      by (intros n Hn; apply Hquiet; cbn in Hops; lia).
    cbn [Collect.modify Collect.raise].
    eexists. split; [reflexivity |]. collect_simpl.
    rewrite Hconn, Hsaved. split; reflexivity.
  - cbn [Collect.raise]. exists s1. split; [reflexivity |].
    split; [exact Hsaved | exact Hconn].
Qed.

Lemma scrape_stops_at_the_listing_that_fails_witness :
  exists s',
    Collect.scrape Scenario.paced_env Feeds.forbidden_after_one
      ["stocks"; "wallstreetbets"] "hot" 50 (Some 0%Z) 500 ["AutoModerator"]
      Feeds.start
    = (Raise (Exc Collect.Forbidden "received 403 HTTP response"), s') /\
    Collect.saved s' = 2%nat /\
    List.map Db.comment_id (Db.items (Db.committed (Collect.st_conn s')))
    = ["c1"; "c4"].
Proof.
  destruct (scrape_stops_at_the_listing_that_fails Scenario.paced_env
              Feeds.forbidden_after_one [] "stocks" ["wallstreetbets"] "hot" 50
              (Some 0%Z) 500 ["AutoModerator"] Feeds.start
              Collect.Forbidden "received 403 HTTP response"
              (fun n _ => eq_refl) eq_refl eq_refl)
    as (s' & Hrun & Hsaved & Hconn).
  { intros p []. }
  { reflexivity. }
  exists s'. split; [exact Hrun |]. split; [exact Hsaved |].
  rewrite Hconn. reflexivity.
Defined.


Section OneInterrupt.

Variable env : Env.
Variable reddit : Collect.Reddit.
Variables (more_limit : option Z) (max_comments_per_post : Z)
          (bots : list string).

(** The user's Ctrl+C is delivered at most once, at operation number [k]. *)
Variable k : nat.
Hypothesis Honce : forall n, interrupt env n = true -> n = k.

(** [m] returns, or raises the [KeyboardInterrupt] of that Ctrl+C. *)
Abbreviation interrupt_only m :=
  (ctriple (fun _ => True) m (fun _ _ => True)
     (fun e s => e = KeyboardInterrupt /\ (k < Collect.st_ops s)%nat)).

(** The same, for the region an [except Exception] clause protects. *)
Abbreviation interrupt_or_exception m :=
  (ctriple (fun _ => True) m (fun _ _ => True)
     (fun e s => (e = KeyboardInterrupt /\ (k < Collect.st_ops s)%nat)
                 \/ exists cls msg, e = Exc cls msg)).

Lemma io_checkpoint : interrupt_only (Collect.checkpoint env).
Proof.
  intros s _. unfold Collect.checkpoint.
  destruct (interrupt env (Collect.st_ops s)) eqn:Hint; [| exact I].
  apply Honce in Hint. cbn. split; [reflexivity | lia].
Qed.

Lemma io_bind {A B} (m : Collect.C A) (f : A -> Collect.C B) :
  interrupt_only m -> (forall a, interrupt_only (f a)) ->
  interrupt_only (Collect.bind m f).
Proof. intros Hm Hf. apply (ctriple_bind _ _ _ (fun _ _ => True)); assumption. Qed.

Lemma io_pure {A} (m : Collect.C A) :
  (forall s, exists a s', m s = (Ok a, s')) -> interrupt_only m.
Proof. intros Hm s _. destruct (Hm s) as (a & s' & ->). exact I. Qed.

Lemma io_except {A} (m h : Collect.C A) :
  interrupt_or_exception m -> interrupt_only h ->
  interrupt_only (Collect.except_Exception m h).
Proof.
  intros Hm Hh.
  apply (ctriple_except _ _ _
           (fun e s => (e = KeyboardInterrupt /\ (k < Collect.st_ops s)%nat)
                       \/ exists cls msg, e = Exc cls msg)).
  - exact Hm.
  - intros cls msg. eapply ctriple_weaken; [exact Hh | tw ..].
  - intros s [H | (cls & msg & Heq)]; [exact H | discriminate Heq].
  - intros s [[Heq _] | (cls & msg & Heq)]; discriminate Heq.
Qed.

Lemma io_loose {A} (m : Collect.C A) :
  interrupt_only m -> interrupt_or_exception m.
Proof. intros Hm. eapply ctriple_exn; [| exact Hm]. intros e s H. left. exact H. Qed.

Lemma ioe_bind {A B} (m : Collect.C A) (f : A -> Collect.C B) :
  interrupt_or_exception m -> (forall a, interrupt_or_exception (f a)) ->
  interrupt_or_exception (Collect.bind m f).
Proof. intros Hm Hf. apply (ctriple_bind _ _ _ (fun _ _ => True)); assumption. Qed.

Lemma ioe_raise {A} cls msg :
  interrupt_or_exception (@Collect.raise A (Exc cls msg)).
Proof. intros s _. right. eauto. Qed.

Lemma io_commit : interrupt_only (Collect.conn_commit env).
Proof.
  unfold Collect.conn_commit.
  apply io_bind; [apply io_checkpoint | intros ?].
  apply io_pure. intros s. eexists _, _. reflexivity.
Qed.

Lemma io_save_one sub submission c :
  interrupt_only (Collect.save_one env bots sub submission c).
Proof.
  unfold Collect.save_one. cbv zeta.
  apply io_except; [| apply io_pure; intros s; eexists _, _; reflexivity].
  destruct (match Scrape.rc_author c with
            | Some a => existsb (String.eqb a) bots
            | None => false
            end);
    [apply io_loose, io_pure; intros s; eexists _, _; reflexivity |].
  destruct (negb _);
    [apply io_loose, io_pure; intros s; eexists _, _; reflexivity |].
  destruct (Scrape.rc_id c) as [cid |]; [| apply ioe_raise].
  apply io_loose. unfold Collect.save_comment.
  apply io_bind.
  { apply io_bind; [apply io_checkpoint | intros ?].
    apply io_pure. intros s. eexists _, _. reflexivity. }
  intros ?. apply io_bind; [apply io_pure; intros s; eexists _, _; reflexivity |].
  intros ?. apply io_bind; [apply io_pure; intros s; eexists _, _; reflexivity |].
  intros n. destruct (n mod 50 =? 0)%nat;
    [apply io_commit | apply io_pure; intros s; eexists _, _; reflexivity].
Qed.

Lemma io_for_comments sub submission cs :
  interrupt_only (Collect.for_comments env bots sub submission cs).
Proof.
  induction cs as [| c rest IH]; cbn [Collect.for_comments].
  { apply io_pure. intros s. eexists _, _. reflexivity. }
  apply io_bind; [apply io_save_one | intros ?; exact IH].
Qed.

Lemma io_process_submission sub submission :
  interrupt_only
    (Collect.process_submission env more_limit max_comments_per_post bots
       sub submission).
Proof.
  unfold Collect.process_submission, Collect.expand.
  apply io_bind; [| intros ?; apply io_for_comments].
  apply io_except; [| apply io_pure; intros s; eexists _, _; reflexivity].
  apply ioe_bind; [apply io_loose, io_checkpoint | intros ?].
  destruct (Collect.sub_expand submission more_limit);
    [apply io_loose, io_pure; intros s; eexists _, _; reflexivity | apply ioe_raise].
Qed.

Lemma io_for_feed sub items :
  interrupt_only
    (Collect.for_feed env more_limit max_comments_per_post bots sub items None).
Proof.
  induction items as [| x rest IH]; cbn [Collect.for_feed].
  - apply io_bind; [apply io_checkpoint | intros ?].
    apply io_pure. intros s. eexists _, _. reflexivity.
  - apply io_bind; [apply io_checkpoint | intros ?].
    apply io_bind; [apply io_process_submission | intros ?; exact IH].
Qed.

Lemma io_for_subreddits listing post_limit subreddits :
  (forall sub, In sub subreddits ->
     Collect.feed_error (reddit sub (Collect.listing_of listing) post_limit)
     = None) ->
  interrupt_only
    (Collect.for_subreddits env reddit more_limit max_comments_per_post bots
       listing post_limit subreddits).
Proof.
  induction subreddits as [| sub rest IH]; intros Hfeeds;
    cbn [Collect.for_subreddits].
  { apply io_pure. intros s. eexists _, _. reflexivity. }
  rewrite (Hfeeds sub (or_introl eq_refl)).
  apply io_bind; [apply io_for_feed | intros ?].
  apply IH. intros sub' Hin. apply Hfeeds. right. exact Hin.
Qed.

Lemma calm_elsewhere n : n <> k -> interrupt env n = false.
Proof.
  intros Hne. destruct (interrupt env n) eqn:Hint; [| reflexivity].
  contradiction (Hne (Honce n Hint)).
Qed.

End OneInterrupt.

(** X17.  Safe to Ctrl+C.  When one Ctrl+C is delivered during a [scrape]
    call, at one of the operations that follow the look-up of the
    credentials (a request to the source, a save, a commit), and no listing
    fails, [scrape] returns [saved] and leaves nothing uncommitted. *)
Theorem scrape_returns_after_one_interrupt env reddit subreddits listing
    post_limit more_limit max_comments_per_post bot_usernames s k
    (Honce : forall n, interrupt env n = true -> n = k)
    (Hlate : (Collect.st_ops s + 3 <= k)%nat)
    (Hid : PyStr.truthy (default "" (get_secret env "REDDIT_CLIENT_ID")) = true)
    (Hsecret :
       PyStr.truthy (default "" (get_secret env "REDDIT_CLIENT_SECRET")) = true)
    (Hfeeds : forall sub, In sub subreddits ->
       Collect.feed_error (reddit sub (Collect.listing_of listing) post_limit)
       = None) :
  exists s',
    Collect.scrape env reddit subreddits listing post_limit more_limit
      max_comments_per_post bot_usernames s = (Ok (Collect.saved s'), s') /\
    Db.committed (Collect.st_conn s') = Db.pending_db (Collect.st_conn s').
Proof.
  pose (s0 := Collect.set_saved 0 (Collect.set_ops (3 + Collect.st_ops s) s)).
  assert (Hcheck : forall s1, Collect.st_ops s1 <> k ->
                     Collect.checkpoint env s1 = (Ok tt, after_tick s1)).
  { intros s1 Hne. unfold Collect.checkpoint.
    rewrite (calm_elsewhere env k Honce _ Hne). reflexivity. }
  assert (Hread : forall name s1, Collect.st_ops s1 <> k ->
                    Collect.read_secret env name s1
                    = (Ok (get_secret env name), after_tick s1)).
  { intros name s1 Hne. unfold Collect.read_secret, Collect.bind.
    rewrite (Hcheck s1 Hne). reflexivity. }
  assert (Hbuild : exists client,
             Collect._build_reddit env s
             = (Ok client, after_tick (after_tick (after_tick s)))).
  { unfold Collect._build_reddit.
    erewrite cbind_ok by (apply Hread; lia).
    erewrite cbind_ok by (apply Hread; cbn; lia).
    erewrite cbind_ok by (apply Hread; cbn; lia).
    rewrite Hid, Hsecret. cbn [negb orb]. eexists. reflexivity. }
  destruct Hbuild as (client & Hbuild).
  assert (Hcommit : forall s1, Collect.st_ops s1 <> k ->
                      Collect.conn_commit env s1
                      = (Ok tt, after_commit (after_tick s1))).
  { intros s1 Hne. unfold Collect.conn_commit, Collect.bind.
    rewrite (Hcheck s1 Hne). reflexivity. }
  pose (body := Collect.bind
                  (Collect.for_subreddits env reddit more_limit
                     max_comments_per_post bot_usernames listing post_limit
                     subreddits)
                  (fun _ => Collect.bind (Collect.conn_commit env)
                              (fun _ => Collect.get Collect.saved))).
  assert (Hbody : ctriple (fun _ => True) body
            (fun n s1 => n = Collect.saved s1 /\ csynced s1)
            (fun e s1 => e = KeyboardInterrupt /\ (k < Collect.st_ops s1)%nat)).
  { unfold body.
    apply (ctriple_bind _ _ _ (fun _ _ => True)).
    { apply (io_for_subreddits env reddit more_limit max_comments_per_post
               bot_usernames k Honce listing post_limit subreddits Hfeeds). }
    intros ?. apply (ctriple_bind _ _ _ (fun _ => csynced)).
    { intros s1 _. pose proof (io_commit env k Honce s1 I) as Hio.
      pose proof (collect_commit_syncs env (fun _ => True) s1 I) as Hsync.
      destruct (Collect.conn_commit env s1) as [[[] | e] s2]; assumption. }
    intros ?. cstep. intros s1 Hs. split; [reflexivity | exact Hs]. }
  unfold Collect.scrape.
  rewrite (cbind_ok _ _ _ _ _ Hbuild).
  unfold Collect.bind at 1. cbn [Collect.modify].
  change (Collect.set_saved 0 (after_tick (after_tick (after_tick s)))) with s0.
  fold body. unfold Collect.try_except.
  specialize (Hbody s0 I).
  destruct (body s0) as [[n | e] s1].
  - destruct Hbody as [-> Hs]. exists s1. split; [reflexivity | exact Hs].
  - destruct Hbody as [-> Hk]. cbn [Collect.scrape_handler].
    rewrite (cbind_ok _ _ _ _ _ (Hcommit s1 ltac:(lia))).
    eexists. split; [reflexivity | reflexivity].
Qed.

Lemma scrape_returns_after_one_interrupt_witness :
  exists s',
    Collect.scrape
      (mkEnv false false (fun _ => true) (fun _ => []) (fun _ => Some "id")
         (Scenario.always_bullish "AAA" 0) (Scenario.only_at 6))
      Feeds.one_thread ["stocks"] "hot" 50 (Some 0%Z) 500 ["AutoModerator"]
      Feeds.start
    = (Ok 1%nat, s') /\
    List.map Db.comment_id (Db.items (Db.committed (Collect.st_conn s')))
    = ["c1"].
Proof.
  destruct (scrape_returns_after_one_interrupt
              (mkEnv false false (fun _ => true) (fun _ => [])
                 (fun _ => Some "id") (Scenario.always_bullish "AAA" 0)
                 (Scenario.only_at 6))
              Feeds.one_thread ["stocks"] "hot" 50 (Some 0%Z) 500
              ["AutoModerator"] Feeds.start 6%nat)
    as (s' & Hrun & _).
  - intros n Hn. apply Nat.eqb_eq in Hn. exact Hn.
  - cbn. lia.
  - reflexivity.
  - reflexivity.
  - intros sub [<- | []]. reflexivity.
  - assert (Heq : snd (Collect.scrape
                         (mkEnv false false (fun _ => true) (fun _ => [])
                            (fun _ => Some "id")
                            (Scenario.always_bullish "AAA" 0)
                            (Scenario.only_at 6))
                         Feeds.one_thread ["stocks"] "hot" 50 (Some 0%Z) 500
                         ["AutoModerator"] Feeds.start) = s')
      by (rewrite Hrun; reflexivity).
    exists s'. rewrite Hrun, <- Heq. split; reflexivity.
Defined.

(** ** The report table and the quota test *)

Lemma slice_to_prefix {A} (n : Z) (l : list A) :
  exists rest, l = (Scrape.slice_to n l ++ rest)%list.
Proof.
  unfold Scrape.slice_to.
  destruct (0 <=? n)%Z; eexists; symmetry; apply firstn_skipn.
Qed.

Lemma slice_to_length {A} (n : Z) (l : list A) :
  Z.of_nat (length (Scrape.slice_to n l))
  = (if (0 <=? n)%Z then Z.min n (Z.of_nat (length l))
     else Z.max 0 (Z.of_nat (length l) + n))%Z.
Proof.
  unfold Scrape.slice_to.
  destruct (Z.leb_spec 0 n) as [Hn | Hn]; rewrite length_firstn; lia.
Qed.

(** X20.  The report table shows the summary rows it is given from the first
    one on, in order, each with the style of its score: the first [top_n] of
    them (all, if there are fewer) for a [top_n] that is not negative, none
    for 0, and all but the last [-top_n] for a negative [top_n]. *)
Theorem report_shows_a_prefix_of_the_rows (rows : list Report.Row) (top_n : Z) :
  (exists rest,
     List.map (fun r => (r, Report.score_style (Report.score r))) rows
     = (Report.table_rows rows top_n ++ rest)%list) /\
  Z.of_nat (length (Report.table_rows rows top_n))
  = (if (0 <=? top_n)%Z then Z.min top_n (Z.of_nat (length rows))
     else Z.max 0 (Z.of_nat (length rows) + top_n))%Z.
Proof.
  unfold Report.table_rows. split.
  - destruct (slice_to_prefix top_n rows) as (rest & Heq).
    exists (List.map (fun r => (r, Report.score_style (Report.score r))) rest).
    rewrite <- List.map_app, <- Heq. reflexivity.
  - rewrite length_map. apply slice_to_length.
Qed.

Lemma prefix_app_l a b s :
  String.prefix (a ++ b) s = true -> String.prefix a s = true.
Proof.
  revert s. induction a as [| c a IH]; intros s; [destruct s; reflexivity |].
  change (String c a ++ b) with (String c (a ++ b)).
  destruct s as [| d s]; cbn [String.prefix]; [discriminate |].
  destruct (Ascii.ascii_dec c d); [apply IH | discriminate].
Qed.

Lemma contains_app_l a b hay :
  PyStr.contains (a ++ b) hay = true -> PyStr.contains a hay = true.
Proof.
  induction hay as [| c hay IH]; cbn [PyStr.contains].
  - destruct (String.prefix (a ++ b) "") eqn:Hp; [| intros H; discriminate H].
    intros _. rewrite (prefix_app_l a b "" Hp). reflexivity.
  - destruct (String.prefix (a ++ b) (String c hay)) eqn:Hp.
    + intros _. rewrite (prefix_app_l a b _ Hp). reflexivity.
    + intros H. rewrite (IH H).
      destruct (String.prefix a (String c hay)); reflexivity.
Qed.

Lemma lower_ascii_idempotent c :
  PyStr.lower_ascii (PyStr.lower_ascii c) = PyStr.lower_ascii c.
Proof.
  destruct c as [[] [] [] [] [] [] [] []]; reflexivity.
Qed.

Lemma lower_idempotent s : PyStr.lower (PyStr.lower s) = PyStr.lower s.
Proof.
  induction s as [| c s IH]; [reflexivity |].
  cbn. rewrite lower_ascii_idempotent, IH. reflexivity.
Qed.

(** X21.  The quota test reads the message of the error only, and that in
    lower case: it gives the same answer for an error of any other class that
    carries the message in lower case.  Its last test, ["exceeded" in msg],
    never decides: a message with "exceeded" has "exceed". *)
Theorem quota_test_reads_the_lowercased_message cls cls' msg :
  _is_quota_exhausted (Exc cls msg)
  = _is_quota_exhausted (Exc cls' (PyStr.lower msg)) /\
  _is_quota_exhausted (Exc cls msg)
  = (PyStr.contains "insufficient_quota" (PyStr.lower msg)
     || (PyStr.contains "quota" (PyStr.lower msg)
         && PyStr.contains "exceed" (PyStr.lower msg))).
Proof.
  unfold _is_quota_exhausted. cbn [exn_msg]. rewrite lower_idempotent.
  split; [reflexivity |].
  destruct (PyStr.contains "exceeded" (PyStr.lower msg)) eqn:Hed;
    [| rewrite orb_false_r; reflexivity].
  rewrite (contains_app_l "exceed" "ed" _ Hed). reflexivity.
Qed.
